(* ===== verification/_CoqProject ===== *)
-Q . S2P
Prelude.v
TablesBursty.v
TablesRandom.v
MaskTable.v
UnequalProtection.v
Packet.v
Encoder.v
EncoderFacts.v
Recovery.v
Sender.v
FecEncodeLib.v
Checks.v
Channel.v
Worker.v
System.v
SystemInv.v
Threads.v
Fifo.v
ReaderRun.v
Liveness.v
Server.v
Gui.v
Ascending.v
SeqNum.v
RtpFecCodec.v
RtpFecAlgebra.v
UlpfecHeader.v
FlexfecHeader.v
FlexfecFinalHeader.v
RtpFecDecoder.v
RtpFecSound.v
RtpFecComplete.v
RtpFecEncoder.v
RtpFecColumns.v
RtpFecBuffers.v
RtpFecBlocks.v
RtpFecEndToEnd.v
RtpFecSafe.v
ExtensionMap.v
RtpPacket.v
RtpPacketWire.v
RtpPacketBuild.v
RtpPacketExt.v
RtpPacketOps.v
RtpPacketCalls.v
RedPackets.v
PacketSequencer.v
UlpfecGenerator.v
UlpfecGeneratorSpec.v
SenderEgress.v
EgressSpec.v
UlpfecReceiver.v
UlpfecReceiverSpec.v
UlpfecReceiverSafe.v
UlpfecEndToEnd.v
FlexfecSender.v
FlexfecSenderSpec.v
FlexfecReceiver.v
FlexfecReceiverSpec.v
FlexfecReceiverSafe.v
FlexfecEndToEnd.v
