(* ===== verification/Prelude.v ===== *)
(** * Channel_sim: a verification development

    Channel_sim is a Qt program that sends a video file over three simulated
    UDP channels with forward error correction. A reader thread cuts the file
    into chunks of 1009 bytes, puts a 15-byte header in front of each and hands
    it to an encoder, which collects ten packets into a group and adds two FEC
    packets (exclusive ors chosen by a bit mask). Finished packets go to the
    queues of the enabled channels in turn; one worker thread for each channel
    takes them out, drops some of them to simulate loss, numbers the others and
    sends them. The window switches channels on and off and sets loss rates
    while the threads run. The encoder is a fork of WebRTC's; the sources it was
    cut from are vendored in the repository.

    ** Files

    - [Prelude]: the error monad [outcome] with the faults of the code (a
      failed [RTC_DCHECK] or [RTC_CHECK], an access outside an array), machine integers with
      their wrap-around, arrays with bounds ([get], [put], [memcpy], [memset],
      [slice]), counted loops with their invariant rules, little-endian bytes,
      bounded checks by computation.
    - [TablesBursty], [TablesRandom]: [Channel_sim/fec_private_tables_*.cpp],
      every macro.
    - [MaskTable]: [PacketMaskTable], [PickTable], [LookUpInFecTable], [LookUp],
      [GeneratePacketMasks], [PacketMaskSize] of
      [Channel_sim/forward_error_correction.cpp]. [mask_of] is the closed form
      of a mask; the walk through the flat table, the generated masks and the
      copy into the encoder are all shown to produce it, for every mask type and
      every admissible number of packets, with checks on and off.
    - [UnequalProtection]: what the vendored
      [forward_error_correction_internal.cc] has and the fork dropped.
    - [Packet]: [ForwardErrorCorrection::Packet] and [Serialize].
    - [Encoder]: [class ForwardErrorCorrection]: state record, [XorPayloads],
      [EncodeFec], [PacketByFEC], [SendByUlpfec]. [EncoderFacts] refines it to an
      abstract group encoder ([spec_step]); [Recovery] shows which losses the
      produced packets can repair; [Sender] is about [SendByUlpfec];
      [FecEncodeLib] about the diverging copy under [FEC_Encode/].
    - [Checks]: [checks.cpp] and [rtc_base/checks.h], what a failed check prints.
    - [Channel], [Worker]: constants and structures of [Udpserver.h],
      [setLossRate] on IEEE doubles, the loss decision, and the datagram a
      worker assembles.
    - [System]: [fileReaderTask], [socketWorkerTask], [channelStateChange],
      [setLossRate] and [StopSending] as threads with program counters over the
      shared members of [Udpserver]. Each access to an atomic variable, each
      lock and each wake-up is a step; [sys_step] moves any thread, or wakes a
      waiter without a signal. [SystemInv] is the invariant, [Threads] its
      consequences: mutual exclusion, no fault, and that [StopSending] comes to
      an end. [Fifo] follows every packet from the reader to the wire,
      [Liveness] shows on fair infinite runs that it gets there.
      [ReaderRun] is the reader's whole run over a file.
    - [Server]: constructor, destructor, [initializeSockets], [SetFileName],
      [StartSending], [StopSending] around those sessions.
    - [Gui]: the slots of [Channel_sim.cpp] and the handler of [LogEmitter.cpp].

    The vendored FEC, under [FEC_Encode/include/modules/rtp_rtcp/source/]:

    - [Ascending]: ascending lists of integers. [SeqNum]: wrapping sequence
      numbers, [rtc_base/numerics/mod_ops.h], [sequence_number_util.h] and
      [module_common_types_public.h].
    - [RtpFecCodec]: [forward_error_correction.cc], one FEC packet: its payload
      ([GenerateFecPayloads]) and the packet rebuilt from it ([RecoverPacket]),
      over the interfaces [FecHeaderWriter] and [FecHeaderReader].
      [RtpFecAlgebra] is the algebra of the sums and the contract
      [FecHeaderLaws] of the two interfaces; [UlpfecHeader] and [FlexfecHeader]
      implement them and prove the contract. [FlexfecFinalHeader] is the header
      of the final FlexFEC standard ([flexfec_header_reader_writer.cc]), for
      several streams; nothing in the tree connects it to the decoder.
    - [RtpFecDecoder]: [DecodeFec] and all it calls. [RtpFecSound]: what it holds
      was sent, and recovery is peeling; [RtpFecComplete]: it holds all that can
      be derived.
    - [RtpFecEncoder]: [EncodeFec] and all it calls. [RtpFecColumns]: the masks
      where sequence numbers are missing; [RtpFecBuffers]: the arrays;
      [RtpFecBlocks]: what is sent. [RtpFecEndToEnd]: encoder, lossy channel and
      decoder together.
      [RtpFecSafe]: the decoder on arbitrary bytes, with either header reader.

    The vendored RTP layer around it, in the same directory:

    - [ExtensionMap]: [rtp_header_extension_map.cc], which id stands for which
      kind of header extension.
    - [RtpPacket]: [rtp_packet.cc] and [rtp_packet.h], the class [RtpPacket] with
      its buffer: parsing, the setters, header extensions, payload, padding.
      [RtpPacketWire] describes packets abstractly ([Pkt]) with their bytes
      ([wire]) and proves the parser right; [RtpPacketBuild] relates a packet
      object to what it holds ([holds]) and does so for the fixed header,
      payload and padding, [RtpPacketExt] for allocating extensions,
      [RtpPacketOps] for the other operations; [RtpPacketCalls] is about
      sequences of calls.
    - [RedPackets]: [RtpPacketToSend] and RED encapsulation, from
      [rtp_sender_video.cc] and [rtp_sender_egress.cc].
    - [PacketSequencer]: [packet_sequencer.cc].
    - [UlpfecGenerator]: [ulpfec_generator.cc]; [UlpfecGeneratorSpec] refines it
      to an abstract grouping of packets into blocks ([Blocker], [bl_step]).
    - [SenderEgress]: the FEC part of [rtp_sender_egress.cc], over the interface
      [VideoFecGenerator] of [video_fec_generator.h]; [EgressSpec] proves it
      against what a generator promises for a block ([BlockGenerator]).
    - [UlpfecReceiver]: [ulpfec_receiver.cc]; [UlpfecReceiverSpec] is about the
      packets of a protected stream, [UlpfecReceiverSafe] about arbitrary ones.
    - [UlpfecEndToEnd]: generator, RED, sequencer, lossy network and receiver
      together.
    - [FlexfecSender]: [flexfec_sender.cc] and [rtp_header_extension_size.cc];
      [FlexfecSenderSpec] says which packets it sends and that it is a
      [BlockGenerator].
    - [FlexfecReceiver]: [flexfec_receiver.cc]; [FlexfecReceiverSpec] is about the
      packets of a protected stream, [FlexfecReceiverSafe] about arbitrary ones.
    - [FlexfecEndToEnd]: FlexFEC sender, lossy network and receiver together.

    ** What the theorems show

    Encoder: the masks are right ([GeneratePacketMasks_correct],
    [GeneratePacketMasks_covering]); FEC packets are the parities they should be
    ([EncodeFec_parities]); streams of calls refine the group encoder
    ([PacketByFEC_refines], [SendByUlpfec_stream]); lost packets come back
    exactly when the mask allows it ([EncodeFec_recovers]), which for the
    deployed configuration is spelled out ([deployed_single_loss],
    [deployed_double_loss]); packets survive serialisation
    ([Serialize_roundtrip], [datagram_full]).

    Threads, for all interleavings: [mutual_exclusion], [threads_never_fault],
    [StopSending_terminates], [channel_fifo], [wire_integrity],
    [sequence_numbers]; on fair runs no packet stays in the queue of an enabled
    channel ([queued_packets_leave]); for the reader [reader_task_refines] and
    [reader_task_lossless]; sessions can follow one another
    ([sessions_compose]); sockets are closed once ([socket_lifecycle]); the
    settings are those of the window ([settings_mirror_widgets]).

    Vendored FEC, for both header formats: a header read is the header written
    ([fec_header_roundtrip]), in the final FlexFEC format for any number of
    streams ([final_header_roundtrip], [final_reader_survives]); the masks follow the sequence numbers
    ([InsertZeros_places_columns]); the FEC packets of a block protect what the
    tables promise ([EncodeFec_protects]) and the encoder's arrays stay arrays
    of bytes on every path ([EncodeFec_keeps_buffers]); the decoder never faults
    and never invents a packet, on streams of any length ([decoder_sound]); its
    recovery is a run of the peeling relation to a normal form
    ([AttemptRecovery_refines]); within a block it finds exactly what can be
    derived, whatever the order of arrival ([decoder_exact],
    [decoder_order_irrelevant]); encoder and decoder compose
    ([encode_decode_exact], [single_loss_recovered]); the two comparisons of
    sequence numbers are one ([sequence_orders_agree]).

    Vendored RTP layer: packets put together by any calls within their
    preconditions parse back to what was put in ([built_packet_parses],
    [parse_wire_roundtrip]); the bounds of adding an extension
    ([allocate_extension_bounds]) and the effect of removing one
    ([remove_extension_drops_csrcs]) or of copying a header
    ([copied_header_padding]); ids of extensions are unique
    ([extension_ids_unique]); numbers are given out without gaps in each stream
    ([sequencer_numbers]); the generator refines the grouping into blocks
    ([generator_refines]); the whole path from the media packets of a block to
    the callback of the receiver delivers exactly what can be derived from the
    packets that arrive, with ULPFEC in RED ([ulpfec_end_to_end]) and with
    FlexFEC in a stream of its own ([flexfec_end_to_end]), whose packets keep
    within the announced overhead ([flexfec_overhead]); and neither the decoder
    ([decoder_survives_any_input]) nor the ULPFEC receiver
    ([receiver_survives_any_input]) can be brought out of its buffers or limits
    by anything that arrives, nor the FlexFEC receiver
    ([flexfec_receiver_survives]) by packets of at most 1500 bytes.

    Where the code does something else than it means to, a theorem says what it
    does: [videoData_overrun], [restart_on_closed_sockets],
    [datagram_short_leaks], [short_first_packet_truncates],
    [SendByUlpfec_stuck], [PacketByFEC_lib_one_group],
    [fork_drops_unequal_protection], [failed_init_closes_twice],
    [pacing_ten_times_fast], [disabled_channel_spins], [padding_after_fec],
    [flexfec_oversized_aborts].

    ** Conventions, bounds and fuel

    Bytes and machine integers are [Z] with explicit wrap-around ([u8], [u32],
    [i32], ...). Arrays the code does not initialise are arguments named
    [garbage], assumed to have their length and, where it matters, to hold
    bytes. Loops over machine integers are [for_loop] with the exact number of
    turns, so no theorem depends on fuel running out; where fuel appears
    ([decode] in [Recovery], [chunks] in [ReaderRun], [parse_all] in [Checks],
    [lower_bound] and [attempt_recovery] in [RtpFecDecoder], [parse_extensions]
    in [RtpPacket]) it is the length of the list or block consumed and the
    theorems prove it enough. Facts about all masks
    are proved by evaluating the code on the finitely many (type, k, r) with
    [k <= 48] and lifting the result ([all_between]).

    The vendored headers limit a block to 48 packets and the decoder's list to
    192; the theorems on blocks use those limits only through the fields of the
    two interfaces, except that masks have at most 48 columns.

    The file, the socket library, [QThread::create] and the random generator
    are parameters: [Device] with the documented laws [RegularFile] and an
    instance over lists, results of [socket] and [WSAStartup], a function for
    the numbers drawn. Theorems that assume the laws have witnesses over the
    instance. The clock of the vendored code is the list of its readings, its
    random first numbers are arguments.

    [queued_packets_leave] is about runs [nat -> Sys]. Fairness says that the
    reader and the interface thread are not held up while they can move, and
    that a worker that can move again and again does so at last (a mutex is
    given to those who wait for it); the witness is a run of 94 steps that
    then repeats its last state.

    ** Not modelled

    Pauses and time (the five second limit of [QThread::wait] before it
    terminates a thread; [StopSending_terminates] bounds the steps instead), log
    lines written by the server, freeing of memory, Qt's own code and the code
    it generates, the receiver (shipped as binaries only), the vendored WebRTC
    and Abseil sources beyond those named above (not compiled into the
    programs), reference counts of packets and buffers (a copy is made where a
    shared buffer is written), the bit rates the generators measure, the
    histograms of the ULPFEC receiver, callbacks that call back into a receiver,
    and memory orders weaker than sequential consistency: the only
    relaxed access is the counter's [fetch_add], which is atomic. *)
From stdpp Require Import base list list_numbers numbers option tactics.
From Stdlib Require Import ZArith Lia.

Declare Scope csim_scope.
Delimit Scope csim_scope with csim.
Open Scope Z_scope.

(** ** Faults and the error monad

    Code that asserts ([RTC_DCHECK]) or that indexes raw memory can stop
    before it has a result; such code returns an [outcome]. *)

Inductive fault : Type :=
| DcheckFailed    (* an RTC_DCHECK whose condition is false, checks enabled *)
| CheckFailed     (* an RTC_CHECK whose condition is false *)
| OutOfBounds     (* a read or write outside the object it addresses *)
| DivideByZero.   (* an integer division by zero *)

Inductive outcome (A : Type) : Type :=
| Ok (a : A)
| Fail (f : fault).
Arguments Ok {A} a.
Arguments Fail {A} f.

#[export] Instance fault_eq_dec : EqDecision fault.
Proof. solve_decision. Defined.
#[export] Instance outcome_eq_dec `{EqDecision A} : EqDecision (outcome A).
Proof. solve_decision. Defined.

#[export] Instance outcome_ret : MRet outcome := fun A a => Ok a.
#[export] Instance outcome_bind : MBind outcome := fun A B f m =>
  match m with Ok a => f a | Fail e => Fail e end.
#[export] Instance outcome_fmap : FMap outcome := fun A B f m =>
  match m with Ok a => Ok (f a) | Fail e => Fail e end.

Lemma bind_Ok {A B} (a : A) (f : A -> outcome B) : (Ok a ≫= f) = f a.
Proof. reflexivity. Qed.

Lemma bind_Ok_inv {A B} (m : outcome A) (f : A -> outcome B) b :
  (m ≫= f) = Ok b -> exists a, m = Ok a /\ f a = Ok b.
Proof. destruct m; [ eauto | discriminate ]. Qed.

(** A guard: continue when the condition holds. *)
Definition require (c : bool) (f : fault) : outcome unit :=
  if c then Ok tt else Fail f.

Lemma require_Ok c f : c = true -> require c f = Ok tt.
Proof. intros ->. reflexivity. Qed.

Lemma require_Ok_inv c f u : require c f = Ok u -> c = true.
Proof. destruct c; [ done | discriminate ]. Qed.

(** ** Machine integers *)

Definition u8 (z : Z) : Z := z mod 2 ^ 8.
Definition u16 (z : Z) : Z := z mod 2 ^ 16.
Definition u32 (z : Z) : Z := z mod 2 ^ 32.
Definition u64 (z : Z) : Z := z mod 2 ^ 64.
(** Two's complement conversion to a 32-bit [int]. *)
Definition i32 (z : Z) : Z := (z + 2 ^ 31) mod 2 ^ 32 - 2 ^ 31.

Definition is_u8 (z : Z) : bool := (0 <=? z) && (z <? 256).

Lemma u8_range z : 0 <= u8 z < 256.
Proof. apply Z.mod_pos_bound. lia. Qed.
Lemma u16_range z : 0 <= u16 z < 65536.
Proof. apply Z.mod_pos_bound. lia. Qed.
Lemma u8_id z : 0 <= z < 256 -> u8 z = z.
Proof. apply Z.mod_small. Qed.
Lemma u16_id z : 0 <= z < 65536 -> u16 z = z.
Proof. apply Z.mod_small. Qed.
Lemma u32_id z : 0 <= z < 2 ^ 32 -> u32 z = z.
Proof. apply Z.mod_small. Qed.
Lemma u64_id z : 0 <= z < 2 ^ 64 -> u64 z = z.
Proof. apply Z.mod_small. Qed.
Lemma i32_id z : - 2 ^ 31 <= z < 2 ^ 31 -> i32 z = z.
Proof. intros H. unfold i32. rewrite Z.mod_small; lia. Qed.
Lemma is_u8_spec z : is_u8 z = true <-> 0 <= z < 256.
Proof. unfold is_u8. rewrite andb_true_iff, Z.leb_le, Z.ltb_lt. done. Qed.
Lemma is_u8_u8 z : is_u8 (u8 z) = true.
Proof. apply is_u8_spec, u8_range. Qed.

(** ** [RTC_DCHECK]

    [RTC_DCHECK_IS_ON] is true in builds without [NDEBUG]; the check then ends
    the process, and compiles to nothing otherwise. The comparisons go through
    [rtc::SafeLt] and friends, which compare the mathematical values. *)
Class CheckMode : Type := RTC_DCHECK_IS_ON : bool.

Definition RTC_DCHECK `{CheckMode} (c : bool) : outcome unit :=
  if RTC_DCHECK_IS_ON then require c DcheckFailed else Ok tt.

(** [RTC_CHECK] is there in every build. *)
Definition RTC_CHECK (c : bool) : outcome unit := require c CheckFailed.

Lemma RTC_DCHECK_Ok `{CheckMode} c : c = true -> RTC_DCHECK c = Ok tt.
Proof. intros ->. unfold RTC_DCHECK. by destruct RTC_DCHECK_IS_ON. Qed.

Lemma RTC_CHECK_Ok c : c = true -> RTC_CHECK c = Ok tt.
Proof. by intros ->. Qed.

Create HintDb csim.
#[export] Hint Resolve u8_range u16_range is_u8_u8 : csim.
Create Rewrite HintDb csim_rw.
#[export] Hint Rewrite @bind_Ok : csim_rw.

(** ** Byte buffers

    A C array of bytes is the list of its elements; pointers are offsets
    into it. Every copy states the objects it reads and writes, and fails
    when it leaves them. *)

Definition blit {A} (off : nat) (src dst : list A) : list A :=
  take off dst ++ src ++ drop (off + length src) dst.

(** [dst + doff .. doff + n) := src + soff .. soff + n)]. *)
Definition memcpy {A} (dst : list A) (doff : Z) (src : list A) (soff n : Z)
    : outcome (list A) :=
  if (0 <=? n) && (0 <=? doff) && (0 <=? soff)
     && (doff + n <=? Z.of_nat (length dst))
     && (soff + n <=? Z.of_nat (length src))
  then Ok (blit (Z.to_nat doff)
             (take (Z.to_nat n) (drop (Z.to_nat soff) src)) dst)
  else Fail OutOfBounds.

Definition memset {A} (dst : list A) (doff : Z) (v : A) (n : Z)
    : outcome (list A) :=
  if (0 <=? n) && (0 <=? doff) && (doff + n <=? Z.of_nat (length dst))
  then Ok (blit (Z.to_nat doff) (replicate (Z.to_nat n) v) dst)
  else Fail OutOfBounds.

Definition get {A} (buf : list A) (i : Z) : outcome A :=
  if 0 <=? i then
    match buf !! Z.to_nat i with Some b => Ok b | None => Fail OutOfBounds end
  else Fail OutOfBounds.

Lemma length_blit {A} off (src dst : list A) :
  (off + length src <= length dst)%nat -> length (blit off src dst) = length dst.
Proof.
  intros H. unfold blit. rewrite !length_app, length_take, length_drop. lia.
Qed.

Lemma lookup_blit {A} off (src dst : list A) i :
  (off + length src <= length dst)%nat ->
  blit off src dst !! i =
    if decide (off <= i < off + length src)%nat then src !! (i - off)%nat
    else dst !! i.
Proof.
  intros H. unfold blit. assert (Hl : length (take off dst) = off).
  { rewrite length_take. lia. }
  case_decide.
  - rewrite lookup_app_r, Hl by lia. rewrite lookup_app_l by lia. done.
  - destruct (decide (i < off)%nat).
    + rewrite lookup_app_l by lia. by rewrite lookup_take_lt by lia.
    + rewrite lookup_app_r, Hl by lia. rewrite lookup_app_r by lia.
      rewrite lookup_drop. f_equal. lia.
Qed.

Lemma blit_0_full {A} (src dst : list A) :
  (length dst <= length src)%nat -> blit 0 src dst = src.
Proof. intros. unfold blit. rewrite drop_ge by (cbn; lia). by rewrite app_nil_r. Qed.

Lemma take_blit_0 {A} (src dst : list A) n :
  n = length src -> take n (blit 0 src dst) = src.
Proof. intros ->. unfold blit. rewrite take_0, app_nil_l. by rewrite take_app_length'. Qed.

(** A write that starts at or past [n] leaves the first [n] bytes alone. *)
Lemma take_blit_lt {A} off (src dst : list A) n :
  (n <= off)%nat -> (off <= length dst)%nat -> take n (blit off src dst) = take n dst.
Proof.
  intros. unfold blit. rewrite take_app_le by (rewrite length_take; lia).
  rewrite take_take. f_equal. lia.
Qed.

(** Writing right after the prefix of interest extends that prefix. *)
Lemma take_blit_snoc {A} off (src dst : list A) :
  (off <= length dst)%nat ->
  take (off + length src) (blit off src dst) = take off dst ++ src.
Proof.
  intros. unfold blit. rewrite app_assoc, take_app_length'; [ done |].
  rewrite length_app, length_take. lia.
Qed.

Lemma memcpy_Ok {A} (dst : list A) doff src soff n :
  0 <= n -> 0 <= doff -> 0 <= soff ->
  doff + n <= Z.of_nat (length dst) -> soff + n <= Z.of_nat (length src) ->
  memcpy dst doff src soff n =
    Ok (blit (Z.to_nat doff) (take (Z.to_nat n) (drop (Z.to_nat soff) src)) dst).
Proof.
  intros. unfold memcpy.
  rewrite !(proj2 (Z.leb_le _ _)) by lia. done.
Qed.

Lemma memset_Ok {A} (dst : list A) doff v n :
  0 <= n -> 0 <= doff -> doff + n <= Z.of_nat (length dst) ->
  memset dst doff v n = Ok (blit (Z.to_nat doff) (replicate (Z.to_nat n) v) dst).
Proof. intros. unfold memset. rewrite !(proj2 (Z.leb_le _ _)) by lia. done. Qed.

Lemma get_Ok {A} (buf : list A) i b :
  buf !! Z.to_nat i = Some b -> 0 <= i -> get buf i = Ok b.
Proof. intros H Hi. unfold get. rewrite (proj2 (Z.leb_le _ _)) by lia. by rewrite H. Qed.

Lemma get_Ok_inv {A} (buf : list A) i b :
  get buf i = Ok b -> 0 <= i /\ buf !! Z.to_nat i = Some b.
Proof.
  unfold get. destruct (Z.leb_spec 0 i); [| discriminate ].
  destruct (buf !! Z.to_nat i); [| discriminate ]. intros [= ->]. done.
Qed.

Definition put {A} (buf : list A) (i : Z) (b : A) : outcome (list A) :=
  if (0 <=? i) && (i <? Z.of_nat (length buf)) then Ok (<[Z.to_nat i := b]> buf)
  else Fail OutOfBounds.

(** The [n] bytes a pointer [buf + off] designates. *)
Definition slice {A} (buf : list A) (off n : Z) : outcome (list A) :=
  if (0 <=? off) && (0 <=? n) && (off + n <=? Z.of_nat (length buf))
  then Ok (take (Z.to_nat n) (drop (Z.to_nat off) buf)) else Fail OutOfBounds.

#[global] Arguments blit : simpl never.
#[global] Arguments memcpy : simpl never.
#[global] Arguments memset : simpl never.
#[global] Arguments get : simpl never.
#[global] Arguments put : simpl never.
#[global] Arguments slice : simpl never.

Lemma put_Ok {A} (buf : list A) i b :
  0 <= i < Z.of_nat (length buf) -> put buf i b = Ok (<[Z.to_nat i := b]> buf).
Proof.
  intros. unfold put. rewrite (proj2 (Z.leb_le _ _)), (proj2 (Z.ltb_lt _ _)) by lia. done.
Qed.

(** ** Counting loops: [for (int i = lo; i < lo + n; ++i) s = body(i, s)] *)

Fixpoint for_loop {S} (i : Z) (n : nat) (body : Z -> S -> outcome S) (s : S)
    : outcome S :=
  match n with
  | O => Ok s
  | Datatypes.S n => s' ← body i s; for_loop (i + 1) n body s'
  end.

(** A loop that cannot fail is a fold. *)
Lemma for_loop_pure {S} (f : Z -> S -> S) body (P : S -> Prop) n i s :
  P s ->
  (forall j s, i <= j < i + Z.of_nat n -> P s -> body j s = Ok (f j s) /\ P (f j s)) ->
  for_loop i n body s = Ok (foldl (fun s j => f j s) s (seqZ i (Z.of_nat n))) /\
  P (foldl (fun s j => f j s) s (seqZ i (Z.of_nat n))).
Proof.
  revert i s; induction n as [| n IH ]; intros i s Hs Hb; [ done |].
  rewrite seqZ_cons by lia. cbn [foldl for_loop].
  destruct (Hb i s ltac:(lia) Hs) as [-> HP].
  rewrite bind_Ok. replace (Z.succ i) with (i + 1) by lia.
  replace (Z.pred (Z.of_nat (Datatypes.S n))) with (Z.of_nat n) by lia.
  apply IH; [ done |]. intros. apply Hb; [ lia | done ].
Qed.

(** What every turn of a loop preserves, the loop preserves. *)
Lemma for_loop_inv {S} (P : S -> Prop) body n i s s' :
  P s -> (forall j s s', P s -> body j s = Ok s' -> P s') ->
  for_loop i n body s = Ok s' -> P s'.
Proof.
  intros Hs Hb. revert i s Hs; induction n as [| n IH ]; intros i s Hs; cbn [for_loop].
  - intros [= <-]. done.
  - intros (s1 & H1 & H2)%bind_Ok_inv. eauto.
Qed.

(** Hoare rule for counting loops that do not fail. *)
Lemma for_loop_rule {S} (I : Z -> S -> Prop) body n i s :
  I i s ->
  (forall j s, i <= j < i + Z.of_nat n -> I j s -> exists s', body j s = Ok s' /\ I (j + 1) s') ->
  exists s', for_loop i n body s = Ok s' /\ I (i + Z.of_nat n) s'.
Proof.
  revert i s; induction n as [| n IH ]; intros i s Hs Hb.
  { exists s. split; [ done |]. by rewrite Z.add_0_r. }
  destruct (Hb i s ltac:(lia) Hs) as (s1 & H1 & HI). cbn [for_loop]. rewrite H1, bind_Ok.
  destruct (IH (i + 1) s1 HI) as (s' & H2 & HI').
  { intros. apply Hb; [ lia | done ]. }
  exists s'. split; [ done |]. by replace (i + Z.of_nat (Datatypes.S n)) with (i + 1 + Z.of_nat n) by lia.
Qed.

Lemma insert_blit {A} off (x : A) (xs dst : list A) :
  (off + Datatypes.S (length xs) <= length dst)%nat ->
  blit (Datatypes.S off) xs (<[off := x]> dst) = blit off (x :: xs) dst.
Proof.
  intros H. apply list_eq. intros i.
  rewrite !lookup_blit by (rewrite ?length_insert; cbn; lia).
  repeat case_decide; try (cbn in *; lia).
  - rewrite lookup_cons. replace (i - off)%nat with (Datatypes.S (i - Datatypes.S off)) by lia.
    done.
  - cbn in *. replace i with off by lia. rewrite list_lookup_insert_eq by lia.
    by rewrite Nat.sub_diag.
  - cbn in *. rewrite list_lookup_insert_ne by lia. done.
Qed.

Lemma blit_nil {A} off (dst : list A) : blit off [] dst = dst.
Proof. unfold blit. rewrite app_nil_l, Nat.add_0_r. apply take_drop. Qed.

(** Adjacent writes are one write. *)
Lemma blit_app {A} off (xs ys dst : list A) :
  (off + length xs + length ys <= length dst)%nat ->
  blit (off + length xs) ys (blit off xs dst) = blit off (xs ++ ys) dst.
Proof.
  intros H. apply list_eq. intros i.
  rewrite !lookup_blit by (rewrite ?length_app, ?length_blit; lia).
  rewrite length_app. repeat case_decide; try lia.
  - rewrite lookup_app_r by lia. f_equal. lia.
  - rewrite lookup_app_l by lia. done.
  - done.
Qed.

(** Copying to the end of what is already written extends it. *)
Lemma memcpy_append {A} (pre src buf : list A) off n :
  off = Z.of_nat (length pre) -> 0 <= n <= Z.of_nat (length src) ->
  off + n <= Z.of_nat (length buf) ->
  memcpy (blit 0 pre buf) off src 0 n = Ok (blit 0 (pre ++ take (Z.to_nat n) src) buf).
Proof.
  intros -> Hn Hb. rewrite memcpy_Ok by (rewrite ?length_blit by (cbn; lia); lia).
  rewrite drop_0, Nat2Z.id. f_equal. apply (blit_app 0). rewrite length_take. lia.
Qed.

(** A loop that stores [g c] at [base + c] writes one contiguous block. *)
Lemma for_loop_put {A} (g : Z -> A) (base : Z) n i (buf : list A) :
  0 <= base -> 0 <= i ->
  base + i + Z.of_nat n <= Z.of_nat (length buf) ->
  for_loop i n (fun c b => put b (base + c) (g c)) buf =
    Ok (blit (Z.to_nat (base + i)) (map g (seqZ i (Z.of_nat n))) buf).
Proof.
  intros Hb. revert i buf; induction n as [| n IH ]; intros i buf Hi Hlen.
  { change (seqZ i (Z.of_nat 0)) with (@nil Z). cbn [map for_loop]. by rewrite blit_nil. }
  rewrite seqZ_cons by lia. cbn [for_loop map].
  rewrite put_Ok, bind_Ok by lia.
  rewrite IH by (rewrite ?length_insert; lia).
  replace (Z.succ i) with (i + 1) by lia.
  replace (Z.pred (Z.of_nat (Datatypes.S n))) with (Z.of_nat n) by lia.
  replace (Z.to_nat (base + (i + 1))) with (Datatypes.S (Z.to_nat (base + i))) by lia.
  rewrite insert_blit; [ done |]. rewrite length_map, length_seqZ. lia.
Qed.

(** ** Little-endian fields (the x86 layout of the packed structures) *)

Fixpoint le_bytes (n : nat) (z : Z) : list Z :=
  match n with
  | O => []
  | S n => z mod 256 :: le_bytes n (z / 256)
  end.

Fixpoint le_value (bs : list Z) : Z :=
  match bs with
  | [] => 0
  | b :: bs => b + 256 * le_value bs
  end.

Lemma length_le_bytes n z : length (le_bytes n z) = n.
Proof. revert z; induction n; intros; cbn; auto. Qed.

Lemma le_value_bytes n z : le_value (le_bytes n z) = z mod 256 ^ Z.of_nat n.
Proof.
  revert z; induction n as [| n IH ]; intros z.
  { cbn. by rewrite Z.mod_1_r. }
  cbn [le_bytes le_value]. rewrite IH, Nat2Z.inj_succ, Z.pow_succ_r by lia.
  rewrite Z.rem_mul_r by lia. lia.
Qed.

(** ** Exhaustive checks over integer ranges *)

Definition all_between (lo hi : Z) (P : Z -> bool) : bool :=
  forallb P (seqZ lo (hi - lo + 1)).

Lemma all_between_spec lo hi P :
  all_between lo hi P = true -> forall z, lo <= z <= hi -> P z = true.
Proof.
  unfold all_between. rewrite forallb_forall. intros H z Hz.
  apply H, list_elem_of_In, elem_of_seqZ. lia.
Qed.

(** ** Byte-wise exclusive or *)

Definition xor_bytes (a b : list Z) : list Z := zip_with Z.lxor a b.

Lemma length_xor_bytes a b : length a = length b -> length (xor_bytes a b) = length a.
Proof. intros H. unfold xor_bytes. rewrite length_zip_with. lia. Qed.

Lemma xor_bytes_comm a b : xor_bytes a b = xor_bytes b a.
Proof. revert b; induction a; destruct b; cbn; f_equal; auto using Z.lxor_comm. Qed.

Lemma xor_bytes_assoc a b c :
  xor_bytes a (xor_bytes b c) = xor_bytes (xor_bytes a b) c.
Proof.
  revert b c; induction a; destruct b, c; cbn; f_equal; auto.
  by rewrite Z.lxor_assoc.
Qed.

Lemma xor_bytes_zero n a : length a = n -> xor_bytes (replicate n 0) a = a.
Proof. intros <-. induction a; cbn; f_equal; auto using Z.lxor_0_l. Qed.

Lemma xor_bytes_cancel a b : length a = length b -> xor_bytes a (xor_bytes a b) = b.
Proof.
  revert b; induction a; destruct b; cbn; intros; try discriminate; f_equal; auto.
  by rewrite <- Z.lxor_assoc, Z.lxor_nilpotent, Z.lxor_0_l.
Qed.

(** ** Proof automation *)

(** Split a hypothesis about a successful monadic computation into its steps. *)
Ltac outcome_inv :=
  repeat match goal with
  | H : (?m ≫= _) = Ok _ |- _ =>
      let a := fresh "a" in let Hm := fresh "Hm" in
      apply bind_Ok_inv in H as (a & Hm & H)
  | H : require _ _ = Ok _ |- _ => apply require_Ok_inv in H
  | H : Ok _ = Ok _ |- _ => injection H as H
  | H : mret _ = Ok _ |- _ => injection H as H
  | H : Fail _ = Ok _ |- _ => discriminate H
  end.

(** Turn boolean comparisons into propositions. *)
Ltac bool_prop :=
  repeat match goal with
  | H : _ && _ = true |- _ => apply andb_true_iff in H as [? ?]
  | H : (_ <=? _) = true |- _ => apply Z.leb_le in H
  | H : (_ <? _) = true |- _ => apply Z.ltb_lt in H
  | H : (_ =? _) = true |- _ => apply Z.eqb_eq in H
  | H : (_ <=? _) = false |- _ => apply Z.leb_gt in H
  | H : (_ <? _) = false |- _ => apply Z.ltb_ge in H
  | H : (_ =? _) = false |- _ => apply Z.eqb_neq in H
  | H : negb _ = true |- _ => apply negb_true_iff in H
  | H : negb _ = false |- _ => apply negb_false_iff in H
  end.

(** Discharge the checks at the head of the goal. *)
Ltac dcheck :=
  repeat (rewrite RTC_DCHECK_Ok by (rewrite ?u64_id, ?u32_id, ?i32_id by lia; lia);
          rewrite bind_Ok).
