(* ===== verification/MaskTable.v ===== *)
(** * Packet masks: choosing, looking up and generating them

    [PacketMaskTable] and its free functions, from
    [Channel_sim/forward_error_correction.cpp] and
    [modules/rtp_rtcp/source/forward_error_correction_internal.h]: which table
    serves a request ([PickTable]), the walk through the flat table
    ([LookUpInFecTable]), the masks generated past twelve media packets
    ([LookUp]) and the mask array an encoder works from
    ([GeneratePacketMasks]). A mask is a matrix of bits, a row for a FEC packet
    and a column for a media packet; [mask_of] is its closed form, and the
    theorems relate every path of the code to it. *)
From S2P Require Import Prelude.
From S2P Require Import TablesBursty.
From S2P Require Import TablesRandom.
From stdpp Require Import base list list_numbers numbers option tactics.
From Stdlib Require Import ZArith Lia.

#[local] Open Scope Z_scope.

(** ** Constants and types *)

Definition kUlpfecMaxMediaPackets : Z := 48.
Definition kUlpfecPacketMaskSizeLBitClear : Z := 2.
Definition kUlpfecPacketMaskSizeLBitSet : Z := 6.
Definition kFECPacketMaskMaxSize : Z := 288.

Inductive FecMaskType : Type :=
| kFecMaskRandom
| kFecMaskBursty.

#[export] Instance FecMaskType_eq_dec : EqDecision FecMaskType.
Proof. solve_decision. Defined.

(** [static FecMaskType fec_mask_type = FecMaskType::kFecMaskRandom;] *)
Definition fec_mask_type : FecMaskType := kFecMaskRandom.

(** The object: the table it points to and its scratch array. *)
Record PacketMaskTable : Type := mkPacketMaskTable {
  table_ : list Z;
  fec_packet_mask_ : list Z
}.

Section Masks.
Context `{CheckMode}.

(** ** Operations *)

Definition PacketMaskSize (num_sequence_numbers : Z) : outcome Z :=
  RTC_DCHECK (num_sequence_numbers <=? 8 * kUlpfecPacketMaskSizeLBitSet);;
  if 8 * kUlpfecPacketMaskSizeLBitClear <? num_sequence_numbers
  then Ok kUlpfecPacketMaskSizeLBitSet
  else Ok kUlpfecPacketMaskSizeLBitClear.

Definition PickTable (fec_mask_type : FecMaskType) (num_media_packets : Z)
    : outcome (list Z) :=
  RTC_DCHECK (0 <=? num_media_packets);;
  RTC_DCHECK (u64 num_media_packets <=? kUlpfecMaxMediaPackets);;
  if bool_decide (fec_mask_type <> kFecMaskRandom) then
    n ← get kPacketMaskBurstyTbl 0;
    if num_media_packets <=? n then Ok kPacketMaskBurstyTbl
    else Ok kPacketMaskRandomTbl
  else Ok kPacketMaskRandomTbl.

(** The constructor; [fec_packet_mask_] starts with whatever the memory held. *)
Definition PacketMaskTable_new (garbage : list Z) (fec_mask_type : FecMaskType)
    (num_media_packets : Z) : outcome PacketMaskTable :=
  t ← PickTable fec_mask_type num_media_packets;
  Ok (mkPacketMaskTable t garbage).

(** [for (int j = 0; j < count; ++j) entry += entry_size_increment * (j + 1);] *)
Fixpoint skip_data (entry_size_increment j : Z) (count : nat) (entry : Z) : Z :=
  match count with
  | O => entry
  | S count =>
      skip_data entry_size_increment (j + 1) count
        (entry + entry_size_increment * (j + 1))
  end.

(** [for (int i = 0; i < media_packet_index; ++i) ...]: hop over entries. *)
Fixpoint hop_entries (table : list Z) (i : Z) (n : nat)
    (entry_size_increment entry : Z) : outcome (Z * Z) :=
  match n with
  | O => Ok (entry_size_increment, entry)
  | S n =>
      let entry_size_increment := if i =? 16 then 6 else entry_size_increment in
      count ← get table entry;
      hop_entries table (i + 1) n entry_size_increment
        (skip_data entry_size_increment 0 (Z.to_nat count) (entry + 1))
  end.

Definition LookUpInFecTable (table : list Z) (media_packet_index fec_index : Z)
    : outcome (list Z) :=
  n ← get table 0;
  RTC_DCHECK (media_packet_index <? n);;
  '(entry_size_increment, entry) ←
    hop_entries table 0 (Z.to_nat media_packet_index) 2 1;
  let entry_size_increment :=
    if media_packet_index =? 16 then 6 else entry_size_increment in
  rows ← get table entry;
  RTC_DCHECK (fec_index <? rows);;
  let entry := skip_data entry_size_increment 0 (Z.to_nat fec_index) (entry + 1) in
  slice table entry (entry_size_increment * (fec_index + 1)).

(** One term of the byte expression:
    [(n % num_fec_packets == row && n < num_media_packets ? bit : 0x00)]. *)
Definition mask_term (num_media_packets num_fec_packets row n bit : Z) : Z :=
  if (n mod num_fec_packets =? row) && (n <? num_media_packets) then bit else 0x00.

(** The byte stored at [row * mask_length + col]. *)
Definition mask_byte (num_media_packets num_fec_packets row col : Z) : Z :=
  let t := mask_term num_media_packets num_fec_packets row in
  Z.lor (Z.lor (Z.lor (Z.lor (Z.lor (Z.lor (Z.lor
    (t (col * 8) 0x80) (t (col * 8 + 1) 0x40)) (t (col * 8 + 2) 0x20))
    (t (col * 8 + 3) 0x10)) (t (col * 8 + 4) 0x08)) (t (col * 8 + 5) 0x04))
    (t (col * 8 + 6) 0x02)) (t (col * 8 + 7) 0x01).

Definition LookUp (this : PacketMaskTable) (num_media_packets num_fec_packets : Z)
    : outcome (PacketMaskTable * list Z) :=
  RTC_DCHECK (0 <? num_media_packets);;
  RTC_DCHECK (0 <? num_fec_packets);;
  RTC_DCHECK (num_media_packets <=? kUlpfecMaxMediaPackets);;
  RTC_DCHECK (num_fec_packets <=? num_media_packets);;
  if num_media_packets <=? 12 then
    v ← LookUpInFecTable (table_ this) (num_media_packets - 1) (num_fec_packets - 1);
    Ok (this, v)
  else
    mask_length ← PacketMaskSize (u64 num_media_packets);
    buf ← for_loop 0 (Z.to_nat num_fec_packets) (fun row buf =>
            for_loop 0 (Z.to_nat mask_length) (fun col buf =>
              put buf (row * mask_length + col)
                (mask_byte num_media_packets num_fec_packets row col)) buf)
          (fec_packet_mask_ this);
    v ← slice buf 0 (num_fec_packets * mask_length);
    Ok (mkPacketMaskTable (table_ this) buf, v).

(** The unequal-protection branch of the vendored original is gone: when it
    would be taken, this version writes nothing. *)
Definition GeneratePacketMasks (num_media_packets num_fec_packets num_imp_packets : Z)
    (use_unequal_protection : bool) (mask_table : PacketMaskTable)
    (packet_mask : list Z) : outcome (PacketMaskTable * list Z) :=
  RTC_DCHECK (0 <? num_media_packets);;
  RTC_DCHECK (0 <? num_fec_packets);;
  RTC_DCHECK (num_fec_packets <=? num_media_packets);;
  RTC_DCHECK (num_imp_packets <=? num_media_packets);;
  RTC_DCHECK (0 <=? num_imp_packets);;
  num_mask_bytes ← PacketMaskSize (u64 num_media_packets);
  if negb use_unequal_protection || (num_imp_packets =? 0) then
    '(mask_table, mask) ← LookUp mask_table num_media_packets num_fec_packets;
    packet_mask ← memcpy packet_mask 0 mask 0 (Z.of_nat (length mask));
    Ok (mask_table, packet_mask)
  else Ok (mask_table, packet_mask).

End Masks.

(** ** Specification *)

(** Bit [j] of row [i]: does FEC packet [i] protect media packet [j]? This is
    the encoder's own test,
    [masks[i * size + j / 8] & (1 << (7 - j % 8))]. *)
Definition mask_bit (masks : list Z) (size i j : Z) : bool :=
  Z.testbit (masks !!! Z.to_nat (i * size + j / 8)) (7 - j mod 8).

(** Bytes in one row of the mask for [k] media packets. *)
Definition row_bytes (k : Z) : Z := if 16 <? k then 6 else 2.

Definition generated_rows (k r : Z) : list Z :=
  concat (map (fun row => map (mask_byte k r row) (seqZ 0 (row_bytes k)))
            (seqZ 0 r)).

(** The mask the library promises for [k] media and [r] FEC packets. *)
Definition mask_of (ty : FecMaskType) (k r : Z) : list Z :=
  if k <=? 12 then
    match ty with
    | kFecMaskRandom => (kRandomMasks !!! Z.to_nat (k - 1)) !!! Z.to_nat (r - 1)
    | kFecMaskBursty => (kBurstyMasks !!! Z.to_nat (k - 1)) !!! Z.to_nat (r - 1)
    end
  else generated_rows k r.

(** The table [PickTable] settles on. *)
Definition table_of (ty : FecMaskType) (k : Z) : list Z :=
  if bool_decide (ty <> kFecMaskRandom) && (k <=? 12) then kPacketMaskBurstyTbl
  else kPacketMaskRandomTbl.

(** ** Lemmas *)

Lemma PacketMaskSize_Ok `{CheckMode} k : k <= 48 -> PacketMaskSize k = Ok (row_bytes k).
Proof.
  intros. unfold PacketMaskSize, row_bytes, kUlpfecPacketMaskSizeLBitSet,
    kUlpfecPacketMaskSizeLBitClear.
  dcheck.
  change (8 * 2) with 16. by destruct (16 <? k).
Qed.

Lemma row_bytes_pos k : 2 <= row_bytes k <= 6.
Proof. unfold row_bytes. destruct (16 <? k); lia. Qed.

Lemma row_bytes_enough k : k <= 48 -> k <= 8 * row_bytes k.
Proof. unfold row_bytes. destruct (Z.ltb_spec 16 k); lia. Qed.

Lemma PickTable_Ok `{CheckMode} ty k :
  0 <= k <= 48 -> PickTable ty k = Ok (table_of ty k).
Proof.
  intros Hk. unfold PickTable, table_of, kUlpfecMaxMediaPackets. dcheck.
  case_bool_decide; [| done ].
  change (get kPacketMaskBurstyTbl 0) with (Ok 12 : outcome Z). rewrite bind_Ok. cbn.
  by destruct (k <=? 12).
Qed.

(** Every entry of both tables, read through the walk, in both build modes. *)
Definition walk_agrees (dcheck : bool) (ty : FecMaskType) (k r : Z) : bool :=
  bool_decide (@LookUpInFecTable dcheck (table_of ty k) (k - 1) (r - 1)
               = Ok (mask_of ty k r)).

Lemma walk_agrees_all :
  forallb (fun '(dcheck, ty) =>
    all_between 1 12 (fun k => all_between 1 k (walk_agrees dcheck ty k)))
    [(true, kFecMaskRandom); (true, kFecMaskBursty);
     (false, kFecMaskRandom); (false, kFecMaskBursty)] = true.
Proof. vm_compute. reflexivity. Qed.

Lemma LookUpInFecTable_Ok `{mode : CheckMode} ty k r :
  1 <= r <= k -> k <= 12 ->
  LookUpInFecTable (table_of ty k) (k - 1) (r - 1) = Ok (mask_of ty k r).
Proof.
  intros Hr Hk.
  enough (Hb : walk_agrees mode ty k r = true) by (by apply bool_decide_eq_true in Hb).
  pose proof walk_agrees_all as Hall. cbn [forallb] in Hall.
  repeat apply andb_true_iff in Hall as [? Hall].
  destruct mode, ty;
    (apply (all_between_spec 1 k); [| lia ]);
    match goal with |- all_between 1 k ?f = true =>
      match f with walk_agrees ?m ?t ?k =>
        apply (all_between_spec 1 12 (fun k => all_between 1 k (walk_agrees m t k)));
          [ assumption | lia ] end end.
Qed.

Lemma length_concat_rows {A B} (f : A -> list B) l n :
  (forall x, length (f x) = n) -> length (concat (map f l)) = (length l * n)%nat.
Proof. intros Hf. induction l; cbn; [ done |]. rewrite length_app, Hf, IHl. lia. Qed.

(** Filling a matrix row by row writes the concatenation of its rows. *)
Lemma fill_rows (g : Z -> Z -> Z) (ml : Z) n i buf :
  0 <= ml -> 0 <= i -> (i + Z.of_nat n) * ml <= Z.of_nat (length buf) ->
  for_loop i n (fun row buf =>
      for_loop 0 (Z.to_nat ml) (fun col buf => put buf (row * ml + col) (g row col)) buf)
    buf =
  Ok (blit (Z.to_nat (i * ml))
        (concat (map (fun row => map (g row) (seqZ 0 ml)) (seqZ i (Z.of_nat n)))) buf).
Proof.
  intros Hml. revert i buf; induction n as [| n IH ]; intros i buf Hi Hlen.
  { change (seqZ i (Z.of_nat 0)) with (@nil Z). cbn. by rewrite blit_nil. }
  rewrite (seqZ_cons i) by lia. cbn [for_loop map concat].
  assert (0 <= i * ml) by (by apply Z.mul_nonneg_nonneg).
  assert (0 <= Z.of_nat n * ml) by (apply Z.mul_nonneg_nonneg; lia).
  rewrite Nat2Z.inj_succ in Hlen.
  rewrite for_loop_put, bind_Ok by lia. rewrite Z2Nat.id, Z.add_0_r by lia.
  set (row := map (g i) (seqZ 0 ml)).
  assert (Hrow : length row = Z.to_nat ml) by (unfold row; by rewrite length_map, length_seqZ).
  rewrite IH by (rewrite ?length_blit by lia; lia).
  replace (Z.succ i) with (i + 1) by lia.
  replace (Z.pred (Z.of_nat (Datatypes.S n))) with (Z.of_nat n) by lia.
  replace (Z.to_nat ((i + 1) * ml)) with (Z.to_nat (i * ml) + length row)%nat by lia.
  rewrite blit_app; [ done |].
  rewrite (length_concat_rows _ _ (Z.to_nat ml))
    by (intros; by rewrite length_map, length_seqZ).
  rewrite length_seqZ, Nat2Z.id, Hrow. apply Nat2Z.inj_le.
  rewrite !Nat2Z.inj_add, Nat2Z.inj_mul, !Z2Nat.id by lia. lia.
Qed.

Lemma length_generated_rows k r :
  0 <= r -> length (generated_rows k r) = Z.to_nat (r * row_bytes k).
Proof.
  intros. pose proof (row_bytes_pos k). unfold generated_rows.
  rewrite (length_concat_rows _ _ (Z.to_nat (row_bytes k)))
    by (intros; by rewrite length_map, length_seqZ).
  rewrite length_seqZ, Z2Nat.inj_mul by lia. done.
Qed.

Lemma table_lengths :
  forallb (fun ty => all_between 1 12 (fun k => all_between 1 k (fun r =>
    Z.of_nat (length (mask_of ty k r)) =? r * row_bytes k)))
    [kFecMaskRandom; kFecMaskBursty] = true.
Proof. vm_compute. reflexivity. Qed.

(** Facts checked entry by entry on both tables. *)
Lemma table_check (P : FecMaskType -> Z -> Z -> bool) ty k r :
  forallb (fun ty => all_between 1 12 (fun k => all_between 1 k (P ty k)))
    [kFecMaskRandom; kFecMaskBursty] = true ->
  1 <= r <= k -> k <= 12 -> P ty k r = true.
Proof.
  cbn [forallb]. intros Hall Hr Hk.
  repeat apply andb_true_iff in Hall as [? Hall].
  destruct ty; (apply (all_between_spec 1 k); [| lia ]);
    match goal with |- all_between 1 k (P ?ty k) = true =>
      apply (all_between_spec 1 12 (fun k => all_between 1 k (P ty k))); [ done | lia ] end.
Qed.

Lemma length_mask_of ty k r :
  1 <= r <= k -> k <= 48 -> length (mask_of ty k r) = Z.to_nat (r * row_bytes k).
Proof.
  intros Hr Hk. destruct (Z.leb_spec k 12) as [Hs | Hb].
  - pose proof (table_check _ ty k r table_lengths Hr Hs) as Hl.
    apply Z.eqb_eq in Hl. lia.
  - unfold mask_of. rewrite (proj2 (Z.leb_gt _ _)) by lia.
    apply length_generated_rows. lia.
Qed.

(** The mask fits the 288-byte arrays of the library. *)
Lemma mask_fits k r : 1 <= r <= k -> k <= 48 -> r * row_bytes k <= kFECPacketMaskMaxSize.
Proof.
  intros. unfold kFECPacketMaskMaxSize.
  pose proof (row_bytes_pos k). nia.
Qed.

(** [LookUp] serves every admissible request, from the table or generated. *)
Lemma LookUp_Ok `{CheckMode} ty k r garbage :
  1 <= r <= k -> k <= 48 -> length garbage = Z.to_nat kFECPacketMaskMaxSize ->
  exists buf, length buf = length garbage /\
    LookUp (mkPacketMaskTable (table_of ty k) garbage) k r =
      Ok (mkPacketMaskTable (table_of ty k) buf, mask_of ty k r).
Proof.
  intros Hr Hk Hg. pose proof (row_bytes_pos k) as Hrb.
  pose proof (mask_fits k r Hr Hk) as Hfit.
  unfold LookUp, kUlpfecMaxMediaPackets. dcheck. cbn [table_ fec_packet_mask_].
  destruct (Z.leb_spec k 12) as [Hs | Hb].
  { exists garbage. rewrite LookUpInFecTable_Ok, bind_Ok by lia. done. }
  rewrite (u64_id k), PacketMaskSize_Ok, bind_Ok by lia.
  rewrite fill_rows, bind_Ok by (rewrite ?Hg; lia). rewrite !Z2Nat.id by lia.
  set (rows := concat _). change rows with (generated_rows k r).
  assert (Hlen := length_generated_rows k r ltac:(lia)).
  exists (blit 0 (generated_rows k r) garbage).
  assert (Hbl : length (blit 0 (generated_rows k r) garbage) = length garbage)
    by (apply length_blit; lia).
  split; [ done |]. unfold slice. change (Z.to_nat (0 * row_bytes k)) with 0%nat.
  rewrite Hbl, Hg, !(proj2 (Z.leb_le _ _)) by lia. cbn [andb]. rewrite bind_Ok.
  rewrite drop_0, take_blit_0 by lia.
  unfold mask_of. by rewrite (proj2 (Z.leb_gt _ _)) by lia.
Qed.

Lemma GeneratePacketMasks_Ok `{CheckMode} ty k r imp uep garbage masks :
  1 <= r <= k -> k <= 48 -> 0 <= imp <= k -> uep = false \/ imp = 0 ->
  length garbage = Z.to_nat kFECPacketMaskMaxSize ->
  r * row_bytes k <= Z.of_nat (length masks) ->
  exists mt,
    GeneratePacketMasks k r imp uep
      (mkPacketMaskTable (table_of ty k) garbage) masks =
    Ok (mt, blit 0 (mask_of ty k r) masks).
Proof.
  intros Hr Hk Himp Heq Hg Hm. pose proof (row_bytes_pos k).
  destruct (LookUp_Ok ty k r garbage Hr Hk Hg) as (buf & Hbuf & HL).
  pose proof (length_mask_of ty k r Hr Hk) as Hlen.
  unfold GeneratePacketMasks. dcheck. rewrite (u64_id k), PacketMaskSize_Ok, bind_Ok by lia.
  replace (negb uep || (imp =? 0)) with true
    by (destruct Heq; subst; [ done |]; by rewrite Z.eqb_refl, orb_true_r).
  rewrite HL, bind_Ok. rewrite memcpy_Ok by lia. rewrite bind_Ok. eexists. do 3 f_equal.
  cbn. rewrite drop_0. rewrite take_ge by lia. done.
Qed.

(** ** Bits of the generated masks *)

Lemma mask_term_testbit k r row n m i :
  0 <= m ->
  Z.testbit (mask_term k r row n (2 ^ m)) i
  = (n mod r =? row) && (n <? k) && (m =? i).
Proof.
  intros Hm. unfold mask_term. destruct ((n mod r =? row) && (n <? k)); cbn [andb].
  - by apply Z.pow2_bits_eqb.
  - apply Z.testbit_0_l.
Qed.

Lemma mask_byte_testbit k r row col b :
  0 <= b < 8 ->
  Z.testbit (mask_byte k r row col) (7 - b)
  = ((col * 8 + b) mod r =? row) && (col * 8 + b <? k).
Proof.
  intros Hb. unfold mask_byte.
  change 0x80 with (2 ^ 7). change 0x40 with (2 ^ 6). change 0x20 with (2 ^ 5).
  change 0x10 with (2 ^ 4). change 0x08 with (2 ^ 3). change 0x04 with (2 ^ 2).
  change 0x02 with (2 ^ 1). change 0x01 with (2 ^ 0).
  rewrite !Z.lor_spec, !mask_term_testbit by lia.
  assert (b = 0 \/ b = 1 \/ b = 2 \/ b = 3 \/ b = 4 \/ b = 5 \/ b = 6 \/ b = 7)
    as Hcases by lia.
  destruct Hcases as [-> | [-> | [-> | [-> | [-> | [-> | [-> | ->]]]]]]];
    rewrite ?Z.add_0_r;
    repeat match goal with |- context [?a =? 7 - ?c] =>
      let v := eval vm_compute in (a =? 7 - c) in change (a =? 7 - c) with v end;
    rewrite ?andb_true_r, ?andb_false_r, ?orb_false_l, ?orb_false_r; reflexivity.
Qed.

Lemma lookup_concat_rows {A B} (f : A -> list B) l n i c x :
  (forall x, length (f x) = n) -> (c < n)%nat -> l !! i = Some x ->
  concat (map f l) !! (i * n + c)%nat = f x !! c.
Proof.
  intros Hf Hc. revert i; induction l as [| y l IH ]; intros i Hi; [ done |].
  destruct i; cbn in *.
  - injection Hi as ->. rewrite lookup_app_l; [ done |]. rewrite Hf. lia.
  - rewrite lookup_app_r by (rewrite Hf; lia). rewrite Hf.
    replace (n + i * n + c - n)%nat with (i * n + c)%nat by lia. auto.
Qed.

(** In a generated mask FEC packet [i] protects exactly the media packets
    [j] with [j mod r = i]. *)
Lemma generated_bit k r i j :
  0 <= i < r -> 0 <= j < 8 * row_bytes k ->
  mask_bit (generated_rows k r) (row_bytes k) i j = (j mod r =? i) && (j <? k).
Proof.
  intros Hi Hj. pose proof (row_bytes_pos k) as Hrb. unfold mask_bit, generated_rows.
  assert (Hjd : 0 <= j / 8 < row_bytes k) by (split; [ apply Z.div_pos | apply Z.div_lt_upper_bound ]; lia).
  assert (Hjm : 0 <= j mod 8 < 8) by (apply Z.mod_pos_bound; lia).
  erewrite list_lookup_total_correct; cycle 1.
  { replace (Z.to_nat (i * row_bytes k + j / 8))
      with (Z.to_nat i * Z.to_nat (row_bytes k) + Z.to_nat (j / 8))%nat by nia.
    erewrite lookup_concat_rows with (x := i).
    - rewrite list_lookup_fmap, lookup_seqZ_lt by lia. reflexivity.
    - intros. by rewrite length_map, length_seqZ.
    - lia.
    - rewrite lookup_seqZ_lt by lia. f_equal. lia. }
  rewrite Z2Nat.id, Z.add_0_l by lia. rewrite mask_byte_testbit by lia.
  replace (j / 8 * 8 + j mod 8) with j by (pose proof (Z.div_mod j 8); lia). done.
Qed.

(** ** Coverage *)

(** Every media packet is protected, every FEC packet protects something,
    and no row marks a packet that is not there. *)
Definition covering (masks : list Z) (size k r : Z) : Prop :=
  (forall j, 0 <= j < k -> exists i, 0 <= i < r /\ mask_bit masks size i j = true) /\
  (forall i, 0 <= i < r -> exists j, 0 <= j < k /\ mask_bit masks size i j = true) /\
  (forall i j, 0 <= i < r -> k <= j < 8 * size -> mask_bit masks size i j = false).

Definition exists_between (lo hi : Z) (P : Z -> bool) : bool :=
  existsb P (seqZ lo (hi - lo + 1)).

Lemma exists_between_spec lo hi P :
  exists_between lo hi P = true -> exists z, lo <= z <= hi /\ P z = true.
Proof.
  unfold exists_between. rewrite existsb_exists. intros (z & Hz & HP).
  apply list_elem_of_In, elem_of_seqZ in Hz. exists z. split; [ lia | done ].
Qed.

Definition coveringb (masks : list Z) (size k r : Z) : bool :=
  all_between 0 (k - 1) (fun j => exists_between 0 (r - 1) (fun i => mask_bit masks size i j)) &&
  all_between 0 (r - 1) (fun i => exists_between 0 (k - 1) (fun j => mask_bit masks size i j)) &&
  all_between 0 (r - 1) (fun i => all_between k (8 * size - 1) (fun j => negb (mask_bit masks size i j))).

Lemma coveringb_covering masks size k r :
  coveringb masks size k r = true -> covering masks size k r.
Proof.
  unfold coveringb. intros H. bool_prop. split; [| split ].
  - intros j Hj. eapply all_between_spec with (z := j) in H; [| lia ].
    apply exists_between_spec in H as (i & ? & ?). exists i. split; [ lia | done ].
  - intros i Hi. eapply all_between_spec with (z := i) in H1; [| lia ].
    apply exists_between_spec in H1 as (j & ? & ?). exists j. split; [ lia | done ].
  - intros i j Hi Hj. eapply all_between_spec with (z := i) in H0; [| lia ].
    eapply all_between_spec with (z := j) in H0; [| lia ]. by apply negb_true_iff in H0.
Qed.

Lemma tables_covering :
  forallb (fun ty => all_between 1 12 (fun k => all_between 1 k (fun r =>
    coveringb (mask_of ty k r) (row_bytes k) k r)))
    [kFecMaskRandom; kFecMaskBursty] = true.
Proof. vm_compute. reflexivity. Qed.

Lemma mask_of_covering ty k r :
  1 <= r <= k -> k <= 48 -> covering (mask_of ty k r) (row_bytes k) k r.
Proof.
  intros Hr Hk. destruct (Z.leb_spec k 12) as [Hs | Hb].
  { apply coveringb_covering. exact (table_check _ ty k r tables_covering Hr Hs). }
  unfold mask_of. rewrite (proj2 (Z.leb_gt _ _)) by lia.
  pose proof (row_bytes_enough k Hk). split; [| split ].
  - intros j Hj. assert (0 <= j mod r < r) by (apply Z.mod_pos_bound; lia).
    exists (j mod r). split; [ lia |].
    rewrite generated_bit, Z.eqb_refl, (proj2 (Z.ltb_lt _ _)) by lia. done.
  - intros i Hi. exists i. split; [ lia |].
    rewrite generated_bit, Z.mod_small, Z.eqb_refl, (proj2 (Z.ltb_lt _ _)) by lia. done.
  - intros i j Hi Hj. rewrite generated_bit, (proj2 (Z.ltb_ge _ _)) by lia.
    apply andb_false_r.
Qed.

(** A mask read through a longer array is the same mask. *)
Lemma mask_bit_blit masks rest size i j :
  0 <= i -> 0 < size -> 0 <= j < 8 * size -> (i + 1) * size <= Z.of_nat (length masks) ->
  (length masks <= length rest)%nat ->
  mask_bit (blit 0 masks rest) size i j = mask_bit masks size i j.
Proof.
  intros Hi Hs Hj Hm Hr. unfold mask_bit. f_equal.
  assert (Hjd : 0 <= j / 8 < size)
    by (split; [ apply Z.div_pos | apply Z.div_lt_upper_bound ]; lia).
  assert (0 <= i * size) by (apply Z.mul_nonneg_nonneg; lia).
  rewrite !list_lookup_total_alt, lookup_blit by lia.
  rewrite decide_True by lia. by rewrite Nat.sub_0_r.
Qed.

(** Bits after a write of whole bytes. *)
Lemma mask_bit_blit_at row pm off size i j :
  (off + length row <= length pm)%nat ->
  mask_bit (blit off row pm) size i j =
    let p := Z.to_nat (i * size + j / 8) in
    if decide (off <= p < off + length row)%nat
    then Z.testbit (row !!! (p - off)%nat) (7 - j mod 8) else mask_bit pm size i j.
Proof.
  intros Hl. unfold mask_bit. cbn zeta. rewrite !list_lookup_total_alt, lookup_blit by done.
  by case_decide.
Qed.

(** ** Theorems *)



(** In the masks the encoder is handed, every media packet is protected by
    some FEC packet, every FEC packet protects some media packet, and no row
    marks a packet past the last one. *)
Theorem GeneratePacketMasks_covering (mode : CheckMode) ty k r garbage masks mt mt' masks' :
  1 <= r <= k -> k <= 48 -> length garbage = 288%nat -> length masks = 288%nat ->
  PacketMaskTable_new garbage ty k = Ok mt ->
  GeneratePacketMasks k r 0 false mt masks = Ok (mt', masks') ->
  covering masks' (row_bytes k) k r.
Proof.
  intros Hr Hk Hg Hm Hnew HG. pose proof (row_bytes_pos k).
  pose proof (row_bytes_enough k Hk). pose proof (mask_fits k r Hr Hk) as Hfit.
  unfold kFECPacketMaskMaxSize in Hfit. pose proof (length_mask_of ty k r Hr Hk) as Hl.
  unfold PacketMaskTable_new in Hnew. rewrite PickTable_Ok in Hnew by lia.
  injection Hnew as <-.
  destruct (GeneratePacketMasks_Ok ty k r 0 false garbage masks Hr Hk
              ltac:(lia) ltac:(auto) Hg ltac:(lia)) as (mt2 & HG2).
  rewrite HG2 in HG. injection HG as <- <-.
  assert (Hrow : forall i, 0 <= i < r -> (i + 1) * row_bytes k <= r * row_bytes k)
    by (intros; apply Z.mul_le_mono_nonneg_r; lia).
  destruct (mask_of_covering ty k r Hr Hk) as (H1 & H2 & H3). split; [| split ].
  - intros j Hj. destruct (H1 j Hj) as (i & Hi & Hb). exists i. split; [ done |].
    rewrite mask_bit_blit; [ done | specialize (Hrow i Hi); lia .. ].
  - intros i Hi. destruct (H2 i Hi) as (j & Hj & Hb). exists j. split; [ done |].
    rewrite mask_bit_blit; [ done | specialize (Hrow i Hi); lia .. ].
  - intros i j Hi Hj. rewrite mask_bit_blit; [ auto | specialize (Hrow i Hi); lia .. ].
Qed.

Lemma GeneratePacketMasks_covering_witness :
  match @PacketMaskTable_new true (replicate 288 7) kFecMaskBursty 13 with
  | Ok mt =>
      match @GeneratePacketMasks true 13 4 0 false mt (replicate 288 0) with
      | Ok (_, masks') => covering masks' (row_bytes 13) 13 4
      | Fail _ => False
      end
  | Fail _ => False
  end.
Proof.
  destruct (@PacketMaskTable_new true (replicate 288 7) kFecMaskBursty 13) as [mt|] eqn:Hn;
    [| vm_compute in Hn; discriminate ].
  destruct (@GeneratePacketMasks true 13 4 0 false mt (replicate 288 0)) as [[mt' m']|] eqn:HG;
    [| vm_compute in Hn; injection Hn as <-; vm_compute in HG; discriminate ].
  apply (GeneratePacketMasks_covering true kFecMaskBursty 13 4 (replicate 288 7)
           (replicate 288 0) mt mt' m'); first [ lia | reflexivity | assumption ].
Defined.

(** Past twelve media packets the protection is interleaved: FEC packet [i]
    protects exactly the media packets [j] with [j mod r = i], so that each
    media packet is protected by exactly one FEC packet. *)
Theorem LookUp_interleaved (mode : CheckMode) ty k r garbage mt mt' mask i j :
  12 < k <= 48 -> 1 <= r <= k -> length garbage = 288%nat ->
  PacketMaskTable_new garbage ty k = Ok mt -> LookUp mt k r = Ok (mt', mask) ->
  0 <= i < r -> 0 <= j < k ->
  mask_bit mask (row_bytes k) i j = true <-> i = j mod r.
Proof.
  intros Hk Hr Hg Hnew HL Hi Hj. pose proof (row_bytes_enough k ltac:(lia)).
  unfold PacketMaskTable_new in Hnew. rewrite PickTable_Ok in Hnew by lia.
  injection Hnew as <-.
  destruct (LookUp_Ok ty k r garbage Hr ltac:(lia) Hg) as (buf & _ & HL2).
  rewrite HL2 in HL. injection HL as <- <-. unfold mask_of.
  rewrite (proj2 (Z.leb_gt _ _)), generated_bit, (proj2 (Z.ltb_lt j k)) by lia.
  rewrite andb_true_r, Z.eqb_eq. split; congruence.
Qed.

Lemma LookUp_interleaved_witness :
  match @PacketMaskTable_new false (replicate 288 7) kFecMaskRandom 20 with
  | Ok mt =>
      match @LookUp false mt 20 3 with
      | Ok (_, mask) => mask_bit mask (row_bytes 20) 2 17 = true <-> 2 = 17 mod 3
      | Fail _ => False
      end
  | Fail _ => False
  end.
Proof.
  destruct (@PacketMaskTable_new false (replicate 288 7) kFecMaskRandom 20) as [mt|] eqn:Hn;
    [| vm_compute in Hn; discriminate ].
  destruct (@LookUp false mt 20 3) as [[mt' m']|] eqn:HG;
    [| vm_compute in Hn; injection Hn as <-; vm_compute in HG; discriminate ].
  apply (LookUp_interleaved false kFecMaskRandom 20 3 (replicate 288 7) mt mt' m');
    first [ lia | reflexivity | assumption ].
Defined.
