(* ===== verification/UnequalProtection.v ===== *)
(** * Unequal protection: the vendored original

    [modules/rtp_rtcp/source/forward_error_correction_internal.cc], the WebRTC
    file the fork was cut from. [LookUp], [LookUpInFecTable], [PickTable] and
    [PacketMaskSize] are the same code as in [MaskTable]; this file adds what
    the fork left out, the masks that give the first packets of a group more
    protection. The theorems show what those masks are, and where the fork's
    [GeneratePacketMasks] agrees with the original and where it does not. *)
From S2P Require Import Prelude.
From S2P Require Import MaskTable.
From stdpp Require Import base list list_numbers numbers option tactics.
From Stdlib Require Import ZArith Lia.

#[local] Open Scope Z_scope.

(** ** Operations *)

Inductive ProtectionMode : Type :=
| kModeNoOverlap
| kModeOverlap
| kModeBiasFirstPacket.

(** [packet_mask] is the array, [base] the offset of the pointer the caller
    passes into it. *)
Definition FitSubMask (num_mask_bytes num_sub_mask_bytes num_rows : Z)
    (sub_mask packet_mask : list Z) (base : Z) : outcome (list Z) :=
  if num_mask_bytes =? num_sub_mask_bytes then
    memcpy packet_mask base sub_mask 0 (u64 (num_rows * num_sub_mask_bytes))
  else
    for_loop 0 (Z.to_nat num_rows) (fun i packet_mask =>
      let pkt_mask_idx := i * num_mask_bytes in
      let pkt_mask_idx2 := i * num_sub_mask_bytes in
      for_loop 0 (Z.to_nat num_sub_mask_bytes) (fun j packet_mask =>
        b ← get sub_mask (pkt_mask_idx2 + j);
        put packet_mask (base + pkt_mask_idx + j) b) packet_mask) packet_mask.

(** [for (int j = res_mask_bytes - 1; j > 0; j--)]: the loop of
    [ShiftFitSubMask] over the bytes of a row, from the last to the second;
    both indices move down with [j]. The result carries the indices. *)
Fixpoint shift_row (n : nat) (num_bit_shifts : Z) (sub_mask : list Z)
    (pkt_mask_idx pkt_mask_idx2 : Z) (packet_mask : list Z) : outcome (Z * Z * list Z) :=
  match n with
  | O => Ok (pkt_mask_idx, pkt_mask_idx2, packet_mask)
  | S n =>
      curr ← get sub_mask pkt_mask_idx2;
      let shift_right_curr_byte := u8 (Z.shiftr curr num_bit_shifts) in
      prev ← get sub_mask (pkt_mask_idx2 - 1);
      let shift_left_prev_byte := u8 (Z.shiftl prev (8 - num_bit_shifts)) in
      let comb_new_byte := u8 (Z.lor shift_right_curr_byte shift_left_prev_byte) in
      packet_mask ← put packet_mask pkt_mask_idx comb_new_byte;
      shift_row n num_bit_shifts sub_mask (pkt_mask_idx - 1) (pkt_mask_idx2 - 1) packet_mask
  end.

Definition ShiftFitSubMask (num_mask_bytes res_mask_bytes num_column_shift end_row : Z)
    (sub_mask packet_mask : list Z) : outcome (list Z) :=
  let num_bit_shifts := Z.rem num_column_shift 8 in
  let num_byte_shifts := Z.shiftr num_column_shift 3 in
  for_loop num_column_shift (Z.to_nat (end_row - num_column_shift)) (fun i packet_mask =>
    let pkt_mask_idx := i * num_mask_bytes + res_mask_bytes - 1 + num_byte_shifts in
    let pkt_mask_idx2 := (i - num_column_shift) * res_mask_bytes + res_mask_bytes - 1 in
    packet_mask ←
      (if res_mask_bytes <? num_mask_bytes then
         b ← get sub_mask pkt_mask_idx2;
         put packet_mask (pkt_mask_idx + 1) (u8 (Z.shiftl b (8 - num_bit_shifts)))
       else Ok packet_mask);
    '(pkt_mask_idx, pkt_mask_idx2, packet_mask) ←
      shift_row (Z.to_nat (res_mask_bytes - 1)) num_bit_shifts sub_mask
        pkt_mask_idx pkt_mask_idx2 packet_mask;
    b ← get sub_mask pkt_mask_idx2;
    put packet_mask pkt_mask_idx (u8 (Z.shiftr b num_bit_shifts))) packet_mask.

(** [int max_num_fec_for_imp = alloc_par * num_fec_packets] with the [float]
    [alloc_par = 0.5]: exact, then truncated, for every count below 2^24. *)
Definition SetProtectionAllocation (num_media_packets num_fec_packets num_imp_packets : Z) : Z :=
  let max_num_fec_for_imp := Z.quot num_fec_packets 2 in
  let num_fec_for_imp_packets :=
    if num_imp_packets <? max_num_fec_for_imp then num_imp_packets else max_num_fec_for_imp in
  if (num_fec_packets =? 1) && (2 * num_imp_packets <? num_media_packets) then 0
  else num_fec_for_imp_packets.

Section Upstream.
Context `{CheckMode}.

Definition RemainingPacketProtection (num_media_packets num_fec_remaining
    num_fec_for_imp_packets num_mask_bytes : Z) (mode : ProtectionMode)
    (packet_mask : list Z) (mask_table : PacketMaskTable)
    : outcome (PacketMaskTable * list Z) :=
  match mode with
  | kModeNoOverlap =>
      res_mask_bytes ← PacketMaskSize (u64 (num_media_packets - num_fec_for_imp_packets));
      let end_row := num_fec_for_imp_packets + num_fec_remaining in
      '(mask_table, packet_mask_sub_21) ←
        LookUp mask_table (num_media_packets - num_fec_for_imp_packets) num_fec_remaining;
      packet_mask ← ShiftFitSubMask num_mask_bytes res_mask_bytes num_fec_for_imp_packets
                      end_row packet_mask_sub_21 packet_mask;
      Ok (mask_table, packet_mask)
  | _ =>
      '(mask_table, packet_mask_sub_22) ← LookUp mask_table num_media_packets num_fec_remaining;
      packet_mask ← FitSubMask num_mask_bytes num_mask_bytes num_fec_remaining
                      packet_mask_sub_22 packet_mask (num_fec_for_imp_packets * num_mask_bytes);
      match mode with
      | kModeBiasFirstPacket =>
          packet_mask ← for_loop 0 (Z.to_nat num_fec_remaining) (fun i packet_mask =>
            b ← get packet_mask (i * num_mask_bytes);
            put packet_mask (i * num_mask_bytes) (Z.lor b (Z.shiftl 1 7))) packet_mask;
          Ok (mask_table, packet_mask)
      | _ => Ok (mask_table, packet_mask)
      end
  end.

Definition ImportantPacketProtection (num_fec_for_imp_packets num_imp_packets
    num_mask_bytes : Z) (packet_mask : list Z) (mask_table : PacketMaskTable)
    : outcome (PacketMaskTable * list Z) :=
  num_imp_mask_bytes ← PacketMaskSize (u64 num_imp_packets);
  '(mask_table, packet_mask_sub_1) ← LookUp mask_table num_imp_packets num_fec_for_imp_packets;
  packet_mask ← FitSubMask num_mask_bytes num_imp_mask_bytes num_fec_for_imp_packets
                  packet_mask_sub_1 packet_mask 0;
  Ok (mask_table, packet_mask).

Definition UnequalProtectionMask (num_media_packets num_fec_packets num_imp_packets
    num_mask_bytes : Z) (packet_mask : list Z) (mask_table : PacketMaskTable)
    : outcome (PacketMaskTable * list Z) :=
  let mode := kModeOverlap in
  let num_fec_for_imp_packets :=
    match mode with
    | kModeBiasFirstPacket => 0
    | _ => SetProtectionAllocation num_media_packets num_fec_packets num_imp_packets
    end in
  let num_fec_remaining := num_fec_packets - num_fec_for_imp_packets in
  '(mask_table, packet_mask) ←
    (if 0 <? num_fec_for_imp_packets
     then ImportantPacketProtection num_fec_for_imp_packets num_imp_packets num_mask_bytes
            packet_mask mask_table
     else Ok (mask_table, packet_mask));
  if 0 <? num_fec_remaining
  then RemainingPacketProtection num_media_packets num_fec_remaining num_fec_for_imp_packets
         num_mask_bytes mode packet_mask mask_table
  else Ok (mask_table, packet_mask).

(** [webrtc::internal::GeneratePacketMasks]. *)
Definition GeneratePacketMasks_upstream (num_media_packets num_fec_packets num_imp_packets : Z)
    (use_unequal_protection : bool) (mask_table : PacketMaskTable)
    (packet_mask : list Z) : outcome (PacketMaskTable * list Z) :=
  RTC_DCHECK (0 <? num_media_packets);;
  RTC_DCHECK (0 <? num_fec_packets);;
  RTC_DCHECK (num_fec_packets <=? num_media_packets);;
  RTC_DCHECK (num_imp_packets <=? num_media_packets);;
  RTC_DCHECK (0 <=? num_imp_packets);;
  num_mask_bytes ← PacketMaskSize (u64 num_media_packets);
  if negb use_unequal_protection || (num_imp_packets =? 0) then
    '(mask_table, mask) ← LookUp mask_table num_media_packets num_fec_packets;
    packet_mask ← memcpy packet_mask 0 mask 0 (Z.of_nat (length mask));
    Ok (mask_table, packet_mask)
  else UnequalProtectionMask num_media_packets num_fec_packets num_imp_packets
         num_mask_bytes packet_mask mask_table.

(** ** Inserting columns *)

Definition InsertZeroColumns (num_zeros : Z) (new_mask : list Z)
    (new_mask_bytes num_fec_packets new_bit_index : Z) : outcome (list Z) :=
  for_loop 0 (Z.to_nat num_fec_packets) (fun row new_mask =>
    let new_byte_index := row * new_mask_bytes + Z.quot new_bit_index 8 in
    let max_shifts := 7 - Z.rem new_bit_index 8 in
    b ← get new_mask new_byte_index;
    put new_mask new_byte_index (u8 (Z.shiftl b (Z.min num_zeros max_shifts)))) new_mask.

(** The check is an [RTC_CHECK], on in every build. *)
Definition CopyColumn (new_mask : list Z) (new_mask_bytes : Z) (old_mask : list Z)
    (old_mask_bytes num_fec_packets new_bit_index old_bit_index : Z)
    : outcome (list Z * list Z) :=
  require (new_bit_index <? 8 * new_mask_bytes) DcheckFailed;;
  for_loop 0 (Z.to_nat num_fec_packets) (fun row '(new_mask, old_mask) =>
    let new_byte_index := row * new_mask_bytes + Z.quot new_bit_index 8 in
    let old_byte_index := row * old_mask_bytes + Z.quot old_bit_index 8 in
    o ← get old_mask old_byte_index;
    n ← get new_mask new_byte_index;
    let n := Z.lor n (Z.shiftr (Z.land o 0x80) 7) in
    let n := if negb (Z.rem new_bit_index 8 =? 7) then u8 (Z.shiftl n 1) else n in
    new_mask ← put new_mask new_byte_index n;
    old_mask ← put old_mask old_byte_index (u8 (Z.shiftl o 1));
    Ok (new_mask, old_mask)) (new_mask, old_mask).

End Upstream.

(** ** [FitSubMask] *)

Lemma copy_loop (src : list Z) (s d : Z) n i dst :
  0 <= s -> 0 <= d -> 0 <= i -> s + i + Z.of_nat n <= Z.of_nat (length src) ->
  d + i + Z.of_nat n <= Z.of_nat (length dst) ->
  for_loop i n (fun j dst => b ← get src (s + j); put dst (d + j) b) dst =
    Ok (blit (Z.to_nat (d + i)) (take n (drop (Z.to_nat (s + i)) src)) dst).
Proof.
  intros Hs Hd. revert i dst; induction n as [| n IH ]; intros i dst Hi Hls Hld.
  { cbn [for_loop]. by rewrite take_0, blit_nil. }
  destruct (lookup_lt_is_Some_2 src (Z.to_nat (s + i)) ltac:(lia)) as (a & Ha).
  cbn [for_loop]. rewrite (get_Ok src _ a), bind_Ok, put_Ok, bind_Ok by (done || lia).
  rewrite IH by (rewrite ?length_insert; lia). f_equal.
  rewrite (drop_S src a (Z.to_nat (s + i))) by done. cbn [take].
  replace (Z.to_nat (d + (i + 1))) with (S (Z.to_nat (d + i))) by lia.
  replace (Z.to_nat (s + (i + 1))) with (S (Z.to_nat (s + i))) by lia.
  apply insert_blit. rewrite length_take, length_drop. lia.
Qed.

(** Rows [q], [q + 1], ... of [pm] overwritten by whole rows of [sub], which
    start at its row [q0]. *)
Lemma mask_bit_write_rows sub pm nb sb q q0 n i j :
  0 < sb <= nb -> 0 <= q -> 0 <= q0 -> 0 <= n -> 0 <= i -> 0 <= j < 8 * nb ->
  (nb = sb \/ n = 1) ->
  (q0 + n) * sb <= Z.of_nat (length sub) -> (q + n) * nb <= Z.of_nat (length pm) ->
  mask_bit (blit (Z.to_nat (q * nb)) (take (Z.to_nat (n * sb)) (drop (Z.to_nat (q0 * sb)) sub)) pm) nb i j =
    if (q <=? i) && (i <? q + n) && (j <? 8 * sb)
    then mask_bit sub sb (q0 + (i - q)) j else mask_bit pm nb i j.
Proof.
  intros Hsb Hq Hq0 Hn Hi Hj Hone Hls Hlp.
  assert (Hjd : 0 <= j / 8 < nb)
    by (split; [ apply Z.div_pos | apply Z.div_lt_upper_bound ]; lia).
  assert (0 <= q * nb /\ 0 <= q0 * sb /\ 0 <= n * sb /\ n * sb <= n * nb) by nia.
  assert (Hlen : length (take (Z.to_nat (n * sb)) (drop (Z.to_nat (q0 * sb)) sub)) = Z.to_nat (n * sb))
    by (rewrite length_take, length_drop; lia).
  rewrite mask_bit_blit_at by lia. cbn zeta. rewrite Hlen.
  assert (Hj8 : j / 8 < sb <-> j < 8 * sb).
  { split; intros; [| apply Z.div_lt_upper_bound; lia ].
    pose proof (Z.mod_pos_bound j 8). pose proof (Z.div_mod j 8). lia. }
  assert (Hin : (Z.to_nat (q * nb) <= Z.to_nat (i * nb + j / 8) < Z.to_nat (q * nb) + Z.to_nat (n * sb))%nat
    <-> (q <=? i) && (i <? q + n) && (j <? 8 * sb) = true).
  { rewrite !andb_true_iff, Z.leb_le, !Z.ltb_lt, <- Hj8.
    assert (0 <= i * nb) by nia. split; [ intros Hp | intros Hp ].
    - assert (q * nb <= i * nb + j / 8 < q * nb + n * sb) by lia.
      assert (q <= i < q + n) by nia. split; [ lia |].
      destruct Hone as [-> | ->]; [ lia |]. assert (i = q) as -> by lia. lia.
    - assert (i * nb + j / 8 < q * nb + n * sb); [| nia ].
      destruct Hone as [-> | ->]; [ nia |]. assert (i = q) as -> by lia. lia. }
  destruct (decide _) as [Hp | Hp].
  - rewrite (proj1 Hin Hp). apply Hin in Hp as Hp'. rewrite !andb_true_iff in Hp'.
    bool_prop. unfold mask_bit. f_equal.
    rewrite !list_lookup_total_alt, lookup_take_lt, lookup_drop by lia. do 2 f_equal.
    destruct Hone as [-> | ->]; [ nia |]. assert (i = q) as -> by lia. nia.
  - destruct ((q <=? i) && (i <? q + n) && (j <? 8 * sb)); [ by destruct Hp; apply Hin | done ].
Qed.

(** Row [t + i] of the output starts with row [i] of the sub-mask. *)
Lemma FitSubMask_Ok nb sb rows sub pm t :
  0 < sb <= nb -> nb <= 6 -> 0 <= t -> 0 <= rows -> rows <= 48 ->
  rows * sb <= Z.of_nat (length sub) -> (t + rows) * nb <= Z.of_nat (length pm) ->
  exists out, FitSubMask nb sb rows sub pm (t * nb) = Ok out /\ length out = length pm /\
    forall i j, 0 <= i -> 0 <= j < 8 * nb ->
      mask_bit out nb i j = if (t <=? i) && (i <? t + rows) && (j <? 8 * sb)
                            then mask_bit sub sb (i - t) j else mask_bit pm nb i j.
Proof.
  intros Hsb Hnb Ht Hr Hr48 Hls Hlp. unfold FitSubMask.
  assert (0 <= t * nb /\ 0 <= rows * nb <= 48 * 6 /\ 0 <= rows * sb <= rows * nb) by nia.
  destruct (Z.eqb_spec nb sb) as [<- | Hne].
  { rewrite u64_id, memcpy_Ok by lia. eexists. split; [ reflexivity |].
    rewrite length_blit by (rewrite length_take, length_drop; lia). split; [ done |].
    intros i j Hi Hj. rewrite (mask_bit_write_rows sub pm nb nb t 0 rows) by lia. done. }
  destruct (for_loop_rule (fun n out => length out = length pm /\
    forall i j, 0 <= i -> 0 <= j < 8 * nb ->
      mask_bit out nb i j = if (t <=? i) && (i <? t + n) && (j <? 8 * sb)
                            then mask_bit sub sb (i - t) j else mask_bit pm nb i j)
    (fun i packet_mask => for_loop 0 (Z.to_nat sb) (fun j packet_mask =>
        b ← get sub (i * sb + j); put packet_mask (t * nb + i * nb + j) b) packet_mask)
    (Z.to_nat rows) 0 pm) as (out & Hout & Hl & Hbits).
  - split; [ done |]. intros i j Hi Hj. rewrite Z.add_0_r.
    destruct (Z.leb_spec t i), (Z.ltb_spec i t); [ lia | done .. ].
  - intros n out Hn [Hl Hbits]. rewrite Z.add_0_l, Z2Nat.id in Hn by lia.
    assert ((n + 1) * sb <= rows * sb /\ (n + 1) * nb <= rows * nb /\ 0 <= n * sb /\ 0 <= n * nb) by nia.
    rewrite copy_loop by lia. eexists. split; [ reflexivity |]. rewrite !Z.add_0_r.
    replace (t * nb + n * nb) with ((t + n) * nb) by lia.
    replace (Z.to_nat sb) with (Z.to_nat (1 * sb)) by lia.
    split; [ rewrite length_blit; [ done | rewrite length_take, length_drop; lia ] |].
    intros i j Hi Hj. rewrite (mask_bit_write_rows sub out nb sb (t + n) n 1) by lia.
    destruct (Z.leb_spec (t + n) i), (Z.ltb_spec i (t + n + 1)); cbn [andb].
    2-4: rewrite Hbits by lia; f_equal; f_equal;
      destruct (Z.leb_spec t i), (Z.ltb_spec i (t + n)), (Z.ltb_spec i (t + (n + 1))); (lia || done).
    assert (i = t + n) as -> by lia.
    rewrite (proj2 (Z.leb_le t _)), (proj2 (Z.ltb_lt (t + n) _)) by lia. cbn [andb].
    destruct (j <? 8 * sb); [ f_equal; lia |]. rewrite Hbits by lia.
    by rewrite (proj2 (Z.ltb_ge _ _)), andb_false_r by lia.
  - exists out. rewrite Z.add_0_l, Z2Nat.id in Hbits by lia. done.
Qed.

(** ** The sub-masks *)

(** The table an object made for [k] packets serves smaller requests from. *)
Definition base_type (ty : FecMaskType) (k : Z) : FecMaskType :=
  if k <=? 12 then ty else kFecMaskRandom.

Lemma table_of_base ty k k' : k' <= k -> table_of ty k = table_of (base_type ty k) k'.
Proof.
  intros Hk. unfold table_of, base_type. destruct (Z.leb_spec k 12).
  - rewrite (proj2 (Z.leb_le k' 12)) by lia. done.
  - rewrite andb_false_r. done.
Qed.

Lemma mask_of_base ty k r : mask_of (base_type ty k) k r = mask_of ty k r.
Proof. unfold mask_of, base_type. destruct (k <=? 12); done. Qed.

Lemma LookUp_sub `{CheckMode} ty k k' r buf :
  1 <= r <= k' -> k' <= k -> k <= 48 -> length buf = Z.to_nat kFECPacketMaskMaxSize ->
  exists buf', length buf' = length buf /\
    LookUp (mkPacketMaskTable (table_of ty k) buf) k' r =
      Ok (mkPacketMaskTable (table_of ty k) buf', mask_of (base_type ty k) k' r).
Proof. intros. rewrite (table_of_base ty k k') by lia. apply LookUp_Ok; (done || lia). Qed.

Lemma SetProtectionAllocation_range k r imp :
  1 <= r -> 1 <= imp ->
  0 <= SetProtectionAllocation k r imp <= imp /\ 2 * SetProtectionAllocation k r imp <= r.
Proof.
  intros Hr Hi. unfold SetProtectionAllocation.
  rewrite Z.quot_div_nonneg by lia.
  pose proof (Z.div_pos r 2). pose proof (Z.mul_div_le r 2).
  destruct (_ && _); [ lia |]. destruct (Z.ltb_spec imp (r / 2)); lia.
Qed.

Lemma row_bytes_mono k k' : k' <= k -> row_bytes k' <= row_bytes k.
Proof. unfold row_bytes. destruct (Z.ltb_spec 16 k), (Z.ltb_spec 16 k'); lia. Qed.

(** The two steps of [UnequalProtectionMask]. *)
Lemma ImportantPacketProtection_Ok `{CheckMode} ty k imp t buf pm :
  1 <= t <= imp -> imp <= k -> k <= 48 -> length buf = Z.to_nat kFECPacketMaskMaxSize ->
  t * row_bytes k <= Z.of_nat (length pm) ->
  exists buf' out, length buf' = length buf /\ length out = length pm /\
    ImportantPacketProtection t imp (row_bytes k) pm (mkPacketMaskTable (table_of ty k) buf)
      = Ok (mkPacketMaskTable (table_of ty k) buf', out) /\
    forall i j, 0 <= i -> 0 <= j < 8 * row_bytes k ->
      mask_bit out (row_bytes k) i j =
        if (i <? t) && (j <? 8 * row_bytes imp)
        then mask_bit (mask_of (base_type ty k) imp t) (row_bytes imp) i j
        else mask_bit pm (row_bytes k) i j.
Proof.
  intros Ht Hi Hk Hb Hp. pose proof (row_bytes_mono k imp Hi).
  pose proof (row_bytes_pos imp). pose proof (row_bytes_pos k).
  destruct (LookUp_sub ty k imp t buf) as (buf' & Hb' & HL); try (done || lia).
  pose proof (length_mask_of (base_type ty k) imp t Ht ltac:(lia)) as Hlm.
  assert (0 <= t * row_bytes imp) by nia.
  destruct (FitSubMask_Ok (row_bytes k) (row_bytes imp) t (mask_of (base_type ty k) imp t) pm 0)
    as (out & HF & Hlo & Hbits); try lia.
  exists buf', out. split_and!; [ done | done | |].
  - unfold ImportantPacketProtection. rewrite u64_id, PacketMaskSize_Ok, bind_Ok, HL, bind_Ok by lia.
    change (0 * row_bytes k) with 0 in HF. by rewrite HF, bind_Ok.
  - intros i j Hi' Hj. rewrite Hbits by done.
    by rewrite (proj2 (Z.leb_le 0 i)), Z.sub_0_r, Z.add_0_l by lia.
Qed.

Lemma RemainingPacketProtection_Ok `{CheckMode} ty k n t buf pm :
  1 <= n <= k -> 0 <= t -> k <= 48 -> length buf = Z.to_nat kFECPacketMaskMaxSize ->
  (t + n) * row_bytes k <= Z.of_nat (length pm) ->
  exists buf' out, length out = length pm /\
    RemainingPacketProtection k n t (row_bytes k) kModeOverlap pm
      (mkPacketMaskTable (table_of ty k) buf) = Ok (mkPacketMaskTable (table_of ty k) buf', out) /\
    forall i j, 0 <= i -> 0 <= j < 8 * row_bytes k ->
      mask_bit out (row_bytes k) i j =
        if (t <=? i) && (i <? t + n)
        then mask_bit (mask_of ty k n) (row_bytes k) (i - t) j
        else mask_bit pm (row_bytes k) i j.
Proof.
  intros Hn Ht Hk Hb Hp. pose proof (row_bytes_pos k).
  destruct (LookUp_sub ty k k n buf) as (buf' & Hb' & HL); try (done || lia).
  rewrite mask_of_base in HL. pose proof (length_mask_of ty k n Hn ltac:(lia)) as Hlm.
  assert (0 <= n * row_bytes k) by nia.
  destruct (FitSubMask_Ok (row_bytes k) (row_bytes k) n (mask_of ty k n) pm t)
    as (out & HF & Hlo & Hbits); try lia.
  exists buf', out. split_and!; [ done | |].
  - unfold RemainingPacketProtection. by rewrite HL, bind_Ok, HF, bind_Ok.
  - intros i j Hi Hj. rewrite Hbits by done.
    by rewrite (proj2 (Z.ltb_lt j _)), andb_true_r by lia.
Qed.

(** The mask the original promises for unequal protection: rows below [t] are
    the mask of the important packets alone, the others that of all packets. *)
Definition uep_bit (ty : FecMaskType) (k r imp i j : Z) : bool :=
  let t := SetProtectionAllocation k r imp in
  if i <? t then (j <? imp) && mask_bit (mask_of (base_type ty k) imp t) (row_bytes imp) i j
  else mask_bit (mask_of ty k (r - t)) (row_bytes k) (i - t) j.

Definition zero_rows (masks : list Z) (size r : Z) : Prop :=
  forall i j, 0 <= i < r -> 0 <= j < 8 * size -> mask_bit masks size i j = false.

Lemma UnequalProtectionMask_Ok `{CheckMode} ty k r imp buf pm :
  1 <= r <= k -> k <= 48 -> 1 <= imp <= k -> length buf = Z.to_nat kFECPacketMaskMaxSize ->
  r * row_bytes k <= Z.of_nat (length pm) -> zero_rows pm (row_bytes k) r ->
  exists buf' out,
    UnequalProtectionMask k r imp (row_bytes k) pm (mkPacketMaskTable (table_of ty k) buf)
      = Ok (mkPacketMaskTable (table_of ty k) buf', out) /\ length out = length pm /\
    forall i j, 0 <= i < r -> 0 <= j < 8 * row_bytes k ->
      mask_bit out (row_bytes k) i j = uep_bit ty k r imp i j.
Proof.
  intros Hr Hk Hi Hb Hp Hz. unfold UnequalProtectionMask, uep_bit.
  destruct (SetProtectionAllocation_range k r imp ltac:(lia) ltac:(lia)) as [Ht Ht2].
  set (t := SetProtectionAllocation k r imp) in *. cbn zeta.
  pose proof (row_bytes_pos k). rewrite (proj2 (Z.ltb_lt 0 (r - t))) by lia.
  assert (t * row_bytes k <= r * row_bytes k) by nia.
  destruct (Z.ltb_spec 0 t) as [Hpos | Hnone].
  - destruct (ImportantPacketProtection_Ok ty k imp t buf pm) as (b1 & m1 & Hb1 & Hl1 & HI & Hbits1);
      try (done || lia).
    destruct (RemainingPacketProtection_Ok ty k (r - t) t b1 m1) as (b2 & m2 & Hl2 & HR & Hbits2);
      try (congruence || lia).
    exists b2, m2. rewrite HI, bind_Ok, HR. split_and!; [ done | congruence |].
    intros i j Hij Hj. rewrite Hbits2 by lia.
    rewrite (proj2 (Z.ltb_lt i (t + (r - t)))), andb_true_r by lia.
    destruct (Z.leb_spec t i), (Z.ltb_spec i t); try lia; [ done |].
    rewrite Hbits1, (proj2 (Z.ltb_lt i t)) by lia. cbn [andb].
    destruct (mask_of_covering (base_type ty k) imp t ltac:(lia) ltac:(lia)) as (_ & _ & Hout).
    pose proof (row_bytes_enough imp ltac:(lia)).
    destruct (Z.ltb_spec j (8 * row_bytes imp)), (Z.ltb_spec j imp); cbn [andb];
      first [ done | lia | apply Hout; lia | apply Hz; lia ].
  - destruct (RemainingPacketProtection_Ok ty k (r - t) t buf pm) as (b2 & m2 & Hl2 & HR & Hbits2);
      try (congruence || lia).
    exists b2, m2. rewrite bind_Ok, HR. split_and!; [ done | congruence |].
    intros i j Hij Hj. rewrite Hbits2 by lia.
    rewrite (proj2 (Z.leb_le t i)), (proj2 (Z.ltb_lt i (t + (r - t)))), (proj2 (Z.ltb_ge i t)) by lia.
    done.
Qed.

(** The promised mask protects everything, and the important packets more. *)
Lemma uep_covers ty k r imp :
  1 <= r <= k -> k <= 48 -> 1 <= imp <= k ->
  let t := SetProtectionAllocation k r imp in
  (forall j, 0 <= j < k -> exists i, t <= i < r /\ uep_bit ty k r imp i j = true) /\
  (forall j, 0 < t -> 0 <= j < imp -> exists i, 0 <= i < t /\ uep_bit ty k r imp i j = true).
Proof.
  intros Hr Hk Hi t. unfold uep_bit. fold t.
  destruct (SetProtectionAllocation_range k r imp ltac:(lia) ltac:(lia)) as [Ht Ht2]. fold t in Ht, Ht2.
  split.
  - intros j Hj. destruct (mask_of_covering ty k (r - t) ltac:(lia) Hk) as (Hc & _ & _).
    destruct (Hc j Hj) as (i & Hi' & Hb). exists (t + i). split; [ lia |].
    rewrite (proj2 (Z.ltb_ge _ _)) by lia. by replace (t + i - t) with i by lia.
  - intros j Hpos Hj. destruct (mask_of_covering (base_type ty k) imp t ltac:(lia) ltac:(lia)) as (Hc & _ & _).
    destruct (Hc j Hj) as (i & Hi' & Hb). exists i. split; [ lia |].
    rewrite (proj2 (Z.ltb_lt i t)), (proj2 (Z.ltb_lt j imp)) by lia. done.
Qed.

(** ** [ShiftFitSubMask] *)

(** Byte [c] of a row shifted right by [s] bits, [c] counted from the byte the
    row starts in: the rest of the byte before it and the top of its own. *)
Definition shifted (sub : list Z) (start rb s c : Z) : Z :=
  u8 (Z.lor (u8 (Z.shiftr (if c <? rb then sub !!! Z.to_nat (start + c) else 0) s))
            (u8 (Z.shiftl (if 0 <? c then sub !!! Z.to_nat (start + c - 1) else 0) (8 - s)))).

Lemma u8_u8 z : u8 (u8 z) = u8 z.
Proof. apply u8_id, u8_range. Qed.

Lemma get_total (l : list Z) i : 0 <= i < Z.of_nat (length l) -> get l i = Ok (l !!! Z.to_nat i).
Proof.
  intros Hi. destruct (lookup_lt_is_Some_2 l (Z.to_nat i) ltac:(lia)) as (a & Ha).
  rewrite (get_Ok l i a) by (done || lia). by rewrite (list_lookup_total_correct _ _ _ Ha).
Qed.

Lemma shift_row_Ok sub rb s P start n pm :
  0 <= P -> 0 <= start -> Z.of_nat n < rb -> start + Z.of_nat n < Z.of_nat (length sub) ->
  P + Z.of_nat n < Z.of_nat (length pm) ->
  exists out, shift_row n s sub (P + Z.of_nat n) (start + Z.of_nat n) pm = Ok (P, start, out) /\
    length out = length pm /\
    forall x, 0 <= x -> out !! Z.to_nat x =
      if (P <? x) && (x <=? P + Z.of_nat n) then Some (shifted sub start rb s (x - P))
      else pm !! Z.to_nat x.
Proof.
  intros HP Hs. revert pm; induction n as [| n IH ]; intros pm Hrb Hls Hlp.
  { exists pm. rewrite !Z.add_0_r. split_and!; [ done | done |]. intros x Hx.
    destruct (Z.ltb_spec P x), (Z.leb_spec x P); (lia || done). }
  cbn [shift_row]. rewrite !get_total, !bind_Ok, put_Ok, bind_Ok by lia.
  replace (P + Z.of_nat (S n) - 1) with (P + Z.of_nat n) by lia.
  replace (start + Z.of_nat (S n) - 1) with (start + Z.of_nat n) by lia.
  match goal with |- context [<[Z.to_nat _ := ?v]> pm] => set (w := v) end.
  destruct (IH (<[Z.to_nat (P + Z.of_nat (S n)) := w]> pm)) as (out & HR & Hl & Hx);
    rewrite ?length_insert; try lia.
  exists out. rewrite length_insert in Hl. split_and!; [ done | done |]. intros x Hx0.
  rewrite Hx by done. destruct (Z.eq_dec x (P + Z.of_nat (S n))) as [-> | Hne].
  - rewrite (proj2 (Z.leb_gt (P + Z.of_nat (S n)) (P + Z.of_nat n))), andb_false_r by lia.
    rewrite (proj2 (Z.ltb_lt _ _)), Z.leb_refl by lia. cbn [andb].
    rewrite list_lookup_insert_eq by lia. unfold w, shifted.
    replace (P + Z.of_nat (S n) - P) with (Z.of_nat (S n)) by lia.
    rewrite (proj2 (Z.ltb_lt (Z.of_nat (S n)) rb)), (proj2 (Z.ltb_lt 0 _)) by lia.
    by replace (start + Z.of_nat (S n) - 1) with (start + Z.of_nat n) by lia.
  - replace (x <=? P + Z.of_nat (S n)) with (x <=? P + Z.of_nat n)
      by (destruct (Z.leb_spec x (P + Z.of_nat n)), (Z.leb_spec x (P + Z.of_nat (S n))); lia).
    by rewrite list_lookup_insert_ne by lia.
Qed.

(** One turn of the outer loop: the bytes it writes. *)
Lemma shift_turn nb rb s start P sub pm :
  1 <= rb -> 0 <= s < 8 -> 0 <= start -> start + rb <= Z.of_nat (length sub) -> 0 <= P ->
  P + rb + (if rb <? nb then 1 else 0) <= Z.of_nat (length pm) ->
  exists out,
    (packet_mask ←
       (if rb <? nb then
          b ← get sub (start + rb - 1);
          put pm (P + rb - 1 + 1) (u8 (Z.shiftl b (8 - s)))
        else Ok pm);
     '(idx, idx2, packet_mask) ←
       shift_row (Z.to_nat (rb - 1)) s sub (P + rb - 1) (start + rb - 1) packet_mask;
     b ← get sub idx2;
     put packet_mask idx (u8 (Z.shiftr b s))) = Ok out /\
    length out = length pm /\
    forall x, 0 <= x -> out !! Z.to_nat x =
      if (P <=? x) && (x <? P + rb + (if rb <? nb then 1 else 0))
      then Some (shifted sub start rb s (x - P)) else pm !! Z.to_nat x.
Proof.
  intros Hrb Hs Hst Hls HP Hlp.
  set (pm1 := if rb <? nb then <[Z.to_nat (P + rb) := shifted sub start rb s rb]> pm else pm).
  assert (Hfirst : (if rb <? nb then
       b ← get sub (start + rb - 1); put pm (P + rb - 1 + 1) (u8 (Z.shiftl b (8 - s)))
     else Ok pm) = Ok pm1).
  { unfold pm1. destruct (rb <? nb); [| done ].
    rewrite get_total, bind_Ok, put_Ok by lia. unfold shifted.
    rewrite Z.ltb_irrefl, Z.shiftr_0_l, (proj2 (Z.ltb_lt 0 rb)) by lia.
    change (u8 0) with 0. rewrite Z.lor_0_l, u8_u8. do 3 f_equal. lia. }
  assert (Hl1 : length pm1 = length pm) by (unfold pm1; destruct (rb <? nb); by rewrite ?length_insert).
  rewrite Hfirst, bind_Ok. clear Hfirst.
  destruct (shift_row_Ok sub rb s P start (Z.to_nat (rb - 1)) pm1) as (m2 & HR & Hl2 & Hx2); try lia.
  { destruct (rb <? nb); lia. }
  rewrite Z2Nat.id in HR, Hx2 by lia. rewrite !Z.add_sub_assoc in HR.
  rewrite HR, bind_Ok, get_total, bind_Ok, put_Ok by (destruct (rb <? nb); lia).
  eexists. split; [ reflexivity |]. rewrite length_insert. split; [ lia |]. intros x Hx.
  destruct (Z.eq_dec x P) as [-> | Hne].
  { rewrite list_lookup_insert_eq by (destruct (rb <? nb); lia).
    rewrite Z.leb_refl, (proj2 (Z.ltb_lt P _)) by (destruct (rb <? nb); lia). cbn [andb].
    rewrite Z.sub_diag. unfold shifted. rewrite (proj2 (Z.ltb_lt 0 rb)), Z.ltb_irrefl by lia.
    rewrite Z.shiftl_0_l, Z.add_0_r. change (u8 0) with 0. by rewrite Z.lor_0_r, u8_u8. }
  rewrite list_lookup_insert_ne, Hx2 by lia. unfold pm1.
  destruct (Z.ltb_spec P x), (Z.leb_spec P x), (Z.leb_spec x (P + (rb - 1))); cbn [andb]; try lia;
    destruct (Z.ltb_spec rb nb), (Z.ltb_spec x (P + rb + 1)), (Z.ltb_spec x (P + rb + 0)); try lia; try done;
    try (by rewrite list_lookup_insert_ne by lia).
  assert (x = P + rb) as -> by lia. rewrite list_lookup_insert_eq by lia. do 2 f_equal. lia.
Qed.

Lemma u8_testbit z b : 0 <= b < 8 -> Z.testbit (u8 z) b = Z.testbit z b.
Proof. intros. unfold u8. by rewrite Z.mod_pow2_bits_low by lia. Qed.

Lemma byte_high_bit z b : 0 <= z < 256 -> 8 <= b -> Z.testbit z b = false.
Proof.
  intros Hz Hb. apply (Z.bits_above_log2 z b); [ lia |].
  destruct (Z.eq_dec z 0) as [-> |]; [ cbn; lia |].
  assert (Z.log2 z < 8) by (apply Z.log2_lt_pow2; lia). lia.
Qed.

(** The bits of a shifted row, by the column of the unshifted one. *)
Lemma shifted_bit sub start rb s c b :
  0 <= s < 8 -> 0 <= b < 8 -> 0 <= c <= rb -> 0 <= start ->
  start + rb <= Z.of_nat (length sub) -> Forall (fun x => 0 <= x < 256) sub ->
  Z.testbit (shifted sub start rb s c) (7 - b) =
    (s <=? 8 * c + b) && (8 * c + b - s <? 8 * rb) &&
    Z.testbit (sub !!! Z.to_nat (start + (8 * c + b - s) / 8)) (7 - (8 * c + b - s) mod 8).
Proof.
  intros Hs Hb Hc Hst Hls Hbytes. unfold shifted.
  rewrite !u8_testbit, Z.lor_spec, !u8_testbit, Z.shiftr_spec, Z.shiftl_spec by lia.
  assert (Hrange : forall x, 0 <= x < Z.of_nat (length sub) -> 0 <= sub !!! Z.to_nat x < 256).
  { intros x Hx. destruct (lookup_lt_is_Some_2 sub (Z.to_nat x) ltac:(lia)) as (a & Ha).
    rewrite (list_lookup_total_correct _ _ _ Ha). exact (Forall_lookup_1 _ _ _ _ Hbytes Ha). }
  destruct (Z.leb_spec s b) as [Hle | Hlt].
  - replace (8 * c + b - s) with ((b - s) + c * 8) by lia.
    rewrite Z.div_add, Z.mod_add, Z.div_small, Z.mod_small by lia.
    rewrite (Z.testbit_neg_r _ (7 - b - (8 - s))), orb_false_r by lia.
    rewrite (proj2 (Z.leb_le s _)) by lia. cbn [andb].
    destruct (Z.ltb_spec c rb), (Z.ltb_spec (b - s + c * 8) (8 * rb)); try lia; cbn [andb].
    + rewrite Z.add_0_l. f_equal. lia.
    + apply Z.testbit_0_l.
  - replace (Z.testbit (if c <? rb then sub !!! Z.to_nat (start + c) else 0) (7 - b + s)) with false
      by (symmetry; destruct (Z.ltb_spec c rb);
          [ apply byte_high_bit; [ apply Hrange; lia | lia ] | apply Z.testbit_0_l ]).
    cbn [orb]. destruct (Z.ltb_spec 0 c).
    + replace (8 * c + b - s) with ((8 + b - s) + (c - 1) * 8) by lia.
      rewrite Z.div_add, Z.mod_add, Z.div_small, Z.mod_small by lia.
      rewrite (proj2 (Z.leb_le s _)), (proj2 (Z.ltb_lt _ _)) by lia. cbn [andb].
      rewrite Z.add_0_l, Z.add_sub_assoc. f_equal. lia.
    + rewrite Z.testbit_0_l, (proj2 (Z.leb_gt s _)) by lia. done.
Qed.

(** The bits of row [i] after its turn, when the row fits. *)
Lemma shift_turn_bits nb rb t i sub (pm out : list Z) :
  let bs := t / 8 in
  let w := rb + (if rb <? nb then 1 else 0) in
  1 <= rb -> 0 <= t <= i -> bs + w <= nb ->
  (i - t + 1) * rb <= Z.of_nat (length sub) -> Forall (fun x => 0 <= x < 256) sub ->
  (forall x, 0 <= x -> out !! Z.to_nat x =
      if (i * nb + bs <=? x) && (x <? i * nb + bs + w)
      then Some (shifted sub ((i - t) * rb) rb (t mod 8) (x - (i * nb + bs))) else pm !! Z.to_nat x) ->
  forall i' j, 0 <= i' -> 0 <= j < 8 * nb ->
    (i' = i -> mask_bit pm nb i j = false) ->
    mask_bit out nb i' j =
      if i' =? i then (t <=? j) && (j - t <? 8 * rb) && mask_bit sub rb (i - t) (j - t)
      else mask_bit pm nb i' j.
Proof.
  intros bs w Hrb Hti Hfit Hls Hbytes Hout i' j Hi' Hj Hzero.
  pose proof (Z.div_mod t 8) as Htd. pose proof (Z.mod_pos_bound t 8) as Htm. fold bs in Htd.
  pose proof (Z.div_mod j 8) as Hjd. pose proof (Z.mod_pos_bound j 8) as Hjm.
  assert (Hjb : 0 <= j / 8 < nb) by lia. assert (0 <= bs) by lia.
  assert (0 <= i' * nb /\ 0 <= i * nb /\ 0 <= (i - t) * rb) by nia.
  unfold mask_bit at 1. rewrite list_lookup_total_alt, Hout by lia.
  destruct (Z.eqb_spec i' i) as [-> | Hne].
  - destruct (Z.leb_spec (i * nb + bs) (i * nb + j / 8)),
      (Z.ltb_spec (i * nb + j / 8) (i * nb + bs + w)); cbn [andb].
    + replace (i * nb + j / 8 - (i * nb + bs)) with (j / 8 - bs) by lia. unfold from_option, id.
      rewrite shifted_bit by (try done; try lia; unfold w in *; destruct (rb <? nb); lia).
      replace (8 * (j / 8 - bs) + j mod 8 - t mod 8) with (j - t) by lia.
      replace (t mod 8 <=? 8 * (j / 8 - bs) + j mod 8) with (t <=? j)
        by (destruct (Z.leb_spec t j), (Z.leb_spec (t mod 8) (8 * (j / 8 - bs) + j mod 8)); lia).
      reflexivity.
    + rewrite <- list_lookup_total_alt. fold (mask_bit pm nb i j). rewrite Hzero by done.
      rewrite (proj2 (Z.ltb_ge (j - t) _)) by (unfold w in *; destruct (Z.ltb_spec rb nb); lia).
      by rewrite andb_false_r.
    + rewrite <- list_lookup_total_alt. fold (mask_bit pm nb i j). rewrite Hzero by done.
      by rewrite (proj2 (Z.leb_gt t j)) by lia.
    + unfold w in *. destruct (rb <? nb); lia.
  - replace ((i * nb + bs <=? i' * nb + j / 8) && (i' * nb + j / 8 <? i * nb + bs + w)) with false
      by (symmetry; apply andb_false_iff;
          destruct (Z.lt_ge_cases i' i); [ left; apply Z.leb_gt | right; apply Z.ltb_ge ]; unfold w in *; nia).
    by rewrite <- list_lookup_total_alt.
Qed.

(** ** Theorems *)

(** [ShiftFitSubMask] moves a mask right by [t] columns and down by [t] rows:
    on a zeroed array whose rows have room for the shifted bytes, bit [j] of
    row [i] is bit [j - t] of row [i - t] of the sub-mask for the rows
    [t <= i < end_row], zero elsewhere in those rows, and no other row changes. *)
Theorem ShiftFitSubMask_shifts nb rb t end_row sub pm :
  1 <= rb -> 0 <= t <= end_row -> t / 8 + rb + (if rb <? nb then 1 else 0) <= nb ->
  (end_row - t) * rb <= Z.of_nat (length sub) -> Forall (fun x => 0 <= x < 256) sub ->
  end_row * nb <= Z.of_nat (length pm) -> zero_rows pm nb end_row ->
  exists out, ShiftFitSubMask nb rb t end_row sub pm = Ok out /\ length out = length pm /\
    forall i j, 0 <= i -> 0 <= j < 8 * nb ->
      mask_bit out nb i j =
        if (t <=? i) && (i <? end_row)
        then (t <=? j) && (j - t <? 8 * rb) && mask_bit sub rb (i - t) (j - t)
        else mask_bit pm nb i j.
Proof.
  intros Hrb Ht Hfit Hls Hbytes Hlp Hz. unfold ShiftFitSubMask.
  rewrite Z.rem_mod_nonneg, Z.shiftr_div_pow2 by lia. change (2 ^ 3) with 8.
  pose proof (Z.mod_pos_bound t 8). pose proof (Z.div_pos t 8).
  assert (Hnb : 1 <= nb) by (destruct (rb <? nb); lia).
  match goal with |- context [for_loop t ?cnt ?body pm] =>
    destruct (for_loop_rule (fun n out => length out = length pm /\
      forall i j, 0 <= i -> 0 <= j < 8 * nb ->
        mask_bit out nb i j =
          if (t <=? i) && (i <? n)
          then (t <=? j) && (j - t <? 8 * rb) && mask_bit sub rb (i - t) (j - t)
          else mask_bit pm nb i j) body cnt t pm) as (out & HO & Hl & Hbits) end.
  - split; [ done |]. intros i j Hi Hj.
    destruct (Z.leb_spec t i), (Z.ltb_spec i t); (lia || done).
  - intros i m Hi [Hl Hbits]. rewrite Z2Nat.id in Hi by lia. cbn zeta.
    assert (0 <= i * nb /\ 0 <= (i - t) * rb /\ (i + 1) * nb <= end_row * nb /\
            (i - t + 1) * rb <= (end_row - t) * rb) by nia.
    destruct (shift_turn nb rb (t mod 8) ((i - t) * rb) (i * nb + t / 8) sub m) as (m' & HT & Hl' & Hx);
      try lia.
    replace (i * nb + rb - 1 + t / 8) with (i * nb + t / 8 + rb - 1) by lia.
    exists m'. split; [ exact HT |]. split; [ lia |]. intros i' j Hi' Hj.
    rewrite (shift_turn_bits nb rb t i sub m m') by
      (try done; try lia; try (by intros x Hx0; rewrite Hx by done; rewrite Z.add_assoc);
       intros _; rewrite Hbits, Z.ltb_irrefl, andb_false_r by lia; apply Hz; lia).
    destruct (Z.eqb_spec i' i) as [-> | Hne].
    + by rewrite (proj2 (Z.leb_le t i)), (proj2 (Z.ltb_lt i (i + 1))) by lia.
    + rewrite Hbits by done.
      by replace (i' <? i + 1) with (i' <? i)
        by (destruct (Z.ltb_spec i' i), (Z.ltb_spec i' (i + 1)); lia).
  - exists out. rewrite Z2Nat.id in Hbits by lia. replace (t + (end_row - t)) with end_row in Hbits by lia.
    done.
Qed.

Lemma zero_rows_replicate n size r :
  0 < size -> r * size <= Z.of_nat n -> zero_rows (replicate n 0) size r.
Proof.
  intros Hs Hn i j Hi Hj. unfold mask_bit.
  assert (0 <= j / 8 < size)
    by (split; [ apply Z.div_pos | apply Z.div_lt_upper_bound ]; lia).
  erewrite list_lookup_total_correct by (apply lookup_replicate_2; nia). apply Z.testbit_0_l.
Qed.

Lemma ShiftFitSubMask_shifts_witness :
  let sub := mask_of kFecMaskRandom 9 2 in
  exists out, ShiftFitSubMask 2 2 3 5 sub (replicate 12 0) = Ok out /\ length out = 12%nat /\
    forall i j, 0 <= i -> 0 <= j < 8 * 2 ->
      mask_bit out 2 i j =
        if (3 <=? i) && (i <? 5)
        then (3 <=? j) && (j - 3 <? 8 * 2) && mask_bit sub 2 (i - 3) (j - 3)
        else mask_bit (replicate 12 0) 2 i j.
Proof.
  intros sub. apply (ShiftFitSubMask_shifts 2 2 3 5 sub (replicate 12 0));
    [ lia | lia | reflexivity || (cbn; lia) | vm_compute; discriminate | | cbn; lia
    | apply zero_rows_replicate; cbn; lia ].
  vm_compute. repeat constructor; discriminate.
Defined.

(** Under unequal protection the original masks are exactly [uep_bit]: with
    [t] FEC packets set aside, at most half of them, row [i < t] is row [i] of
    the mask for the [imp] important packets alone, and row [i >= t] is row
    [i - t] of the mask for all [k] packets and [r - t] FEC packets. Every
    media packet is protected by a packet of the second kind, and every
    important one, if [t] is not 0, by one of the first as well. *)
Theorem upstream_unequal_protection (mode : CheckMode) ty k r imp garbage masks :
  1 <= r <= k -> k <= 48 -> 1 <= imp <= k ->
  length garbage = 288%nat -> length masks = 288%nat -> zero_rows masks (row_bytes k) r ->
  let t := SetProtectionAllocation k r imp in
  exists mt mt' masks',
    PacketMaskTable_new garbage ty k = Ok mt /\
    GeneratePacketMasks_upstream k r imp true mt masks = Ok (mt', masks') /\
    2 * t <= r /\
    (forall i j, 0 <= i < r -> 0 <= j < 8 * row_bytes k ->
       mask_bit masks' (row_bytes k) i j = uep_bit ty k r imp i j) /\
    (forall j, 0 <= j < k -> exists i, t <= i < r /\ mask_bit masks' (row_bytes k) i j = true) /\
    (forall j, 0 < t -> 0 <= j < imp ->
       exists i, 0 <= i < t /\ mask_bit masks' (row_bytes k) i j = true).
Proof.
  intros Hr Hk Hi Hg Hm Hz t. pose proof (mask_fits k r Hr Hk) as Hfit.
  unfold kFECPacketMaskMaxSize in Hfit. pose proof (row_bytes_enough k Hk).
  destruct (UnequalProtectionMask_Ok ty k r imp garbage masks) as (b' & out & HU & _ & Hbits);
    try (done || lia).
  destruct (SetProtectionAllocation_range k r imp ltac:(lia) ltac:(lia)) as [Ht Ht2].
  destruct (uep_covers ty k r imp Hr Hk Hi) as [Hall Himp]. fold t in Ht, Ht2, Hall, Himp.
  exists (mkPacketMaskTable (table_of ty k) garbage), (mkPacketMaskTable (table_of ty k) b'), out.
  split_and!.
  - unfold PacketMaskTable_new. by rewrite PickTable_Ok by lia.
  - unfold GeneratePacketMasks_upstream. dcheck. rewrite u64_id, PacketMaskSize_Ok, bind_Ok by lia.
    cbn [negb orb]. by rewrite (proj2 (Z.eqb_neq imp 0)) by lia.
  - exact Ht2.
  - exact Hbits.
  - intros j Hj. destruct (Hall j Hj) as (i & Hi' & Hb). exists i. split; [ done |].
    by rewrite Hbits by lia.
  - intros j Hpos Hj. destruct (Himp j Hpos Hj) as (i & Hi' & Hb). exists i. split; [ done |].
    by rewrite Hbits by lia.
Qed.

Lemma upstream_unequal_protection_witness :
  let t := SetProtectionAllocation 20 5 3 in
  exists mt mt' masks',
    @PacketMaskTable_new true (replicate 288 7) kFecMaskBursty 20 = Ok mt /\
    @GeneratePacketMasks_upstream true 20 5 3 true mt (replicate 288 0) = Ok (mt', masks') /\
    2 * t <= 5 /\
    (forall i j, 0 <= i < 5 -> 0 <= j < 8 * row_bytes 20 ->
       mask_bit masks' (row_bytes 20) i j = uep_bit kFecMaskBursty 20 5 3 i j) /\
    (forall j, 0 <= j < 20 -> exists i, t <= i < 5 /\ mask_bit masks' (row_bytes 20) i j = true) /\
    (forall j, 0 < t -> 0 <= j < 3 ->
       exists i, 0 <= i < t /\ mask_bit masks' (row_bytes 20) i j = true).
Proof.
  apply (upstream_unequal_protection true kFecMaskBursty 20 5 3 (replicate 288 7) (replicate 288 0));
    first [ lia | reflexivity | apply zero_rows_replicate; cbn; lia ].
Defined.

(** The fork's [GeneratePacketMasks] is the original for equal protection, on
    all inputs and with the same failed checks. When unequal protection is
    asked for it succeeds without writing a mask: on the zeroed array
    [EncodeFec] hands it, no FEC packet protects anything, where the original
    protects every media packet. *)
Theorem fork_drops_unequal_protection (mode : CheckMode) ty k r imp uep garbage masks :
  1 <= r <= k -> k <= 48 -> 0 <= imp <= k ->
  length garbage = 288%nat -> length masks = 288%nat -> zero_rows masks (row_bytes k) r ->
  exists mt mt' masks',
    PacketMaskTable_new garbage ty k = Ok mt /\
    GeneratePacketMasks_upstream k r imp uep mt masks = Ok (mt', masks') /\
    (uep = false \/ imp = 0 -> GeneratePacketMasks k r imp uep mt masks = Ok (mt', masks')) /\
    (uep = true -> 0 < imp ->
       GeneratePacketMasks k r imp uep mt masks = Ok (mt, masks) /\
       (forall i j, 0 <= i < r -> 0 <= j < k -> mask_bit masks (row_bytes k) i j = false) /\
       (forall j, 0 <= j < k ->
          exists i, 0 <= i < r /\ mask_bit masks' (row_bytes k) i j = true)).
Proof.
  intros Hr Hk Hi Hg Hm Hz. pose proof (mask_fits k r Hr Hk) as Hfit.
  unfold kFECPacketMaskMaxSize in Hfit. pose proof (row_bytes_enough k Hk).
  assert (Hnew : PacketMaskTable_new garbage ty k = Ok (mkPacketMaskTable (table_of ty k) garbage))
    by (unfold PacketMaskTable_new; by rewrite PickTable_Ok by lia).
  exists (mkPacketMaskTable (table_of ty k) garbage).
  destruct (decide (uep = false \/ imp = 0)) as [Heq | Hne].
  - destruct (GeneratePacketMasks_Ok ty k r imp uep garbage masks) as (mt' & HG); try (done || lia).
    exists mt', (blit 0 (mask_of ty k r) masks). split_and!; [ done | | done |].
    + unfold GeneratePacketMasks_upstream, GeneratePacketMasks in *.
      by replace (negb uep || (imp =? 0)) with true in *
        by (destruct Heq; subst; [ done | by rewrite Z.eqb_refl, orb_true_r ]).
    + intros -> Hpos. destruct Heq; [ done | lia ].
  - destruct uep; [| by destruct Hne; left ].
    destruct (UnequalProtectionMask_Ok ty k r imp garbage masks) as (b' & out & HU & _ & Hbits);
      try (done || lia).
    destruct (SetProtectionAllocation_range k r imp ltac:(lia) ltac:(lia)) as [Ht Ht2].
    destruct (uep_covers ty k r imp Hr Hk ltac:(lia)) as [Hall _].
    exists (mkPacketMaskTable (table_of ty k) b'), out. split_and!; [ done | | tauto |].
    + unfold GeneratePacketMasks_upstream. dcheck. rewrite u64_id, PacketMaskSize_Ok, bind_Ok by lia.
      cbn [negb orb]. by rewrite (proj2 (Z.eqb_neq imp 0)) by lia.
    + intros _ Hpos. split_and!.
      * unfold GeneratePacketMasks. dcheck. rewrite u64_id, PacketMaskSize_Ok, bind_Ok by lia.
        cbn [negb orb]. by rewrite (proj2 (Z.eqb_neq imp 0)) by lia.
      * intros i j Hi' Hj. apply Hz; lia.
      * intros j Hj. destruct (Hall j Hj) as (i & Hi' & Hb). exists i. split; [ lia |].
        by rewrite Hbits by lia.
Qed.

Lemma fork_drops_unequal_protection_witness :
  exists mt mt' masks',
    @PacketMaskTable_new true (replicate 288 7) kFecMaskRandom 10 = Ok mt /\
    @GeneratePacketMasks_upstream true 10 4 2 true mt (replicate 288 0) = Ok (mt', masks') /\
    (true = false \/ 2 = 0 ->
     @GeneratePacketMasks true 10 4 2 true mt (replicate 288 0) = Ok (mt', masks')) /\
    (true = true -> 0 < 2 ->
       @GeneratePacketMasks true 10 4 2 true mt (replicate 288 0) = Ok (mt, replicate 288 0) /\
       (forall i j, 0 <= i < 4 -> 0 <= j < 10 ->
          mask_bit (replicate 288 0) (row_bytes 10) i j = false) /\
       (forall j, 0 <= j < 10 ->
          exists i, 0 <= i < 4 /\ mask_bit masks' (row_bytes 10) i j = true)).
Proof.
  apply (fork_drops_unequal_protection true kFecMaskRandom 10 4 2 true (replicate 288 7)
    (replicate 288 0)); first [ lia | reflexivity | apply zero_rows_replicate; cbn; lia ].
Defined.
