(* ===== verification/Packet.v ===== *)
(** * FEC packets and their serialised form

    [ForwardErrorCorrection::Packet] of
    [modules/rtp_rtcp/source/forward_error_correction.h]: its fields, its
    constructor and [Packet::Serialize] of
    [Channel_sim/forward_error_correction.cpp]. [parse] is the reading of the
    six-byte header a receiver has to do; the theorems fix the byte layout, the
    error returns and the round trip. *)
From S2P Require Import Prelude.
From stdpp Require Import base list list_numbers numbers option tactics.
From Stdlib Require Import ZArith Lia.

#[local] Open Scope Z_scope.

Definition kMaxDataSize : Z := 2000.

(** [uint16_t packet_mask; uint8_t group_number, sequence_number, k, r;
    uint8_t data[kMaxDataSize];] *)
Record Packet : Type := mkPacket {
  packet_mask : Z;
  p_group_number : Z;
  p_sequence_number : Z;
  p_k : Z;
  p_r : Z;
  p_data : list Z
}.

#[export] Instance Packet_eq_dec : EqDecision Packet.
Proof. solve_decision. Defined.

Definition Packet_new : Packet :=
  mkPacket 0 0 0 0 0 (replicate (Z.to_nat kMaxDataSize) 0).

#[export] Instance Packet_inhabited : Inhabited Packet := populate Packet_new.

(** [size_t Packet::Serialize(char* buffer, size_t buffer_size,
    size_t payload_size_to_write) const]: the new contents of the buffer and
    the count returned, 0 for an error. [buffer] is the array the pointer
    designates; [buffer_size] is only what the caller says of it. *)
Definition Serialize (this : Packet) (buffer : list Z)
    (buffer_size payload_size_to_write : Z) : outcome (list Z * Z) :=
  let header_size := 2 + 1 + 1 + 1 + 1 in
  let required_total_size := u64 (header_size + payload_size_to_write) in
  if buffer_size <? required_total_size then Ok (buffer, 0)
  else if Z.of_nat (length (p_data this)) <? payload_size_to_write then Ok (buffer, 0)
  else
    let current_ptr := 0 in
    buffer ← memcpy buffer current_ptr (le_bytes 2 (packet_mask this)) 0 2;
    let current_ptr := current_ptr + 2 in
    buffer ← memcpy buffer current_ptr (le_bytes 1 (p_group_number this)) 0 1;
    let current_ptr := current_ptr + 1 in
    buffer ← memcpy buffer current_ptr (le_bytes 1 (p_sequence_number this)) 0 1;
    let current_ptr := current_ptr + 1 in
    buffer ← memcpy buffer current_ptr (le_bytes 1 (p_k this)) 0 1;
    let current_ptr := current_ptr + 1 in
    buffer ← memcpy buffer current_ptr (le_bytes 1 (p_r this)) 0 1;
    let current_ptr := current_ptr + 1 in
    buffer ← memcpy buffer current_ptr (p_data this) 0 payload_size_to_write;
    Ok (buffer, required_total_size).

(** ** Specification *)

(** The fields hold values of their types, and [data] has its 2000 bytes. *)
Definition wf_packet (p : Packet) : Prop :=
  0 <= packet_mask p < 2 ^ 16 /\ 0 <= p_group_number p < 256 /\
  0 <= p_sequence_number p < 256 /\ 0 <= p_k p < 256 /\ 0 <= p_r p < 256 /\
  length (p_data p) = Z.to_nat kMaxDataSize /\ Forall (fun b => 0 <= b < 256) (p_data p).

Definition header_bytes (p : Packet) : list Z :=
  le_bytes 2 (packet_mask p) ++
  [p_group_number p mod 256; p_sequence_number p mod 256; p_k p mod 256; p_r p mod 256].

(** The first [n] bytes of the packet on the wire. *)
Definition packet_bytes (p : Packet) (n : Z) : list Z :=
  header_bytes p ++ take (Z.to_nat n) (p_data p).

(** What a receiver reads back: the fields and [n] bytes of payload. *)
Definition parse (bytes : list Z) (n : Z) : option (Z * Z * Z * Z * Z * list Z) :=
  match bytes with
  | b0 :: b1 :: g :: s :: k :: r :: payload =>
      Some (le_value [b0; b1], g, s, k, r, take (Z.to_nat n) payload)
  | _ => None
  end.

Lemma length_header_bytes p : length (header_bytes p) = 6%nat.
Proof. reflexivity. Qed.

Lemma length_packet_bytes p n :
  0 <= n <= Z.of_nat (length (p_data p)) ->
  length (packet_bytes p n) = Z.to_nat (6 + n).
Proof.
  intros. unfold packet_bytes. rewrite length_app, length_header_bytes, length_take. lia.
Qed.

(** The five header copies and the payload copy amount to one write. *)
Lemma Serialize_Ok p buffer buffer_size n :
  length (p_data p) = Z.to_nat kMaxDataSize -> 0 <= n <= kMaxDataSize -> 6 + n <= buffer_size ->
  buffer_size <= Z.of_nat (length buffer) ->
  Serialize p buffer buffer_size n = Ok (blit 0 (packet_bytes p n) buffer, 6 + n).
Proof.
  intros Hlen Hn Hbs Hbuf. unfold kMaxDataSize in *.
  unfold Serialize. change (2 + 1 + 1 + 1 + 1) with 6.
  rewrite u64_id, (proj2 (Z.ltb_ge _ _)), Hlen, (proj2 (Z.ltb_ge _ _)) by lia.
  rewrite <- (blit_nil 0 buffer) at 1.
  repeat (rewrite memcpy_append, bind_Ok
            by (rewrite ?length_app, ?length_take, ?length_le_bytes; cbn; lia)).
  reflexivity.
Qed.

(** ** Theorems *)

(** A successful [Serialize] returns six plus the payload size, leaves in
    the buffer the packed little-endian header followed by the payload, and
    touches nothing past them. *)
Theorem Serialize_layout p buffer buffer_size n :
  wf_packet p -> 0 <= n <= kMaxDataSize -> 6 + n <= buffer_size ->
  buffer_size <= Z.of_nat (length buffer) ->
  exists buffer', Serialize p buffer buffer_size n = Ok (buffer', 6 + n) /\
    length buffer' = length buffer /\
    take (Z.to_nat (6 + n)) buffer' =
      le_bytes 2 (packet_mask p) ++
      [p_group_number p; p_sequence_number p; p_k p; p_r p] ++
      take (Z.to_nat n) (p_data p) /\
    drop (Z.to_nat (6 + n)) buffer' = drop (Z.to_nat (6 + n)) buffer.
Proof.
  intros Hwf Hn Hbs Hbuf. rewrite Serialize_Ok by (done || apply Hwf).
  destruct Hwf as (Hm & Hg & Hs & Hk & Hr & Hlen & _).
  assert (Hpl := length_packet_bytes p n ltac:(lia)).
  eexists; split_and!; [ done | apply length_blit; lia | |].
  - rewrite take_blit_0 by lia. unfold packet_bytes, header_bytes.
    rewrite (Z.mod_small (p_group_number p)), (Z.mod_small (p_sequence_number p)),
      (Z.mod_small (p_k p)), (Z.mod_small (p_r p)), <- app_assoc by lia. done.
  - unfold blit. rewrite take_0, app_nil_l, drop_app_length' by lia. f_equal. lia.
Qed.

Definition sample_packet : Packet :=
  mkPacket 0xAA80 3 11 10 2 (replicate 2000 65).

Lemma sample_packet_wf : wf_packet sample_packet.
Proof.
  unfold wf_packet. cbn [packet_mask p_group_number p_sequence_number p_k p_r p_data sample_packet].
  split_and!; try lia; [ vm_compute; reflexivity |].
  apply Forall_replicate. lia.
Qed.

Lemma Serialize_layout_witness :
  exists buffer', Serialize sample_packet (replicate 2000 7) 10 4 = Ok (buffer', 6 + 4) /\
    length buffer' = length (replicate 2000 7) /\
    take (Z.to_nat (6 + 4)) buffer' =
      le_bytes 2 (packet_mask sample_packet) ++
      [p_group_number sample_packet; p_sequence_number sample_packet;
       p_k sample_packet; p_r sample_packet] ++
      take (Z.to_nat 4) (p_data sample_packet) /\
    drop (Z.to_nat (6 + 4)) buffer' = drop (Z.to_nat (6 + 4)) (replicate 2000 7).
Proof.
  apply (Serialize_layout sample_packet (replicate 2000 7) 10 4);
    [ exact sample_packet_wf | unfold kMaxDataSize; lia | lia | vm_compute; discriminate ].
Defined.

(** [Serialize] rejects every request that does not fit: it returns 0 and
    leaves the buffer alone when the announced buffer is too small and when the
    payload is longer than [data], also for sizes whose sum with the header
    wraps around in [size_t]. *)
Theorem Serialize_rejects p buffer buffer_size n :
  wf_packet p -> 0 <= n < 2 ^ 64 -> 0 <= buffer_size < 2 ^ 64 ->
  buffer_size < 6 + n \/ kMaxDataSize < n ->
  Serialize p buffer buffer_size n = Ok (buffer, 0).
Proof.
  intros (_ & _ & _ & _ & _ & Hlen & _) Hn Hb Hbad. unfold kMaxDataSize in *.
  unfold Serialize. change (2 + 1 + 1 + 1 + 1) with 6. rewrite Hlen.
  destruct (Z.ltb_spec buffer_size (u64 (6 + n))); [ done |].
  destruct (Z.ltb_spec (Z.of_nat (Z.to_nat 2000)) n); [ done |].
  rewrite u64_id in * by lia. lia.
Qed.

Lemma Serialize_rejects_witness :
  Serialize sample_packet (replicate 16 7) 16 (2 ^ 64 - 1) = Ok (replicate 16 7, 0).
Proof.
  apply (Serialize_rejects sample_packet (replicate 16 7) 16 (2 ^ 64 - 1));
    [ exact sample_packet_wf | lia | lia | right; unfold kMaxDataSize; lia ].
Defined.

(** What [Serialize] writes can be read back: parsing the bytes gives the
    five header fields and the payload of the packet. *)
Theorem Serialize_roundtrip p buffer buffer_size n :
  wf_packet p -> 0 <= n <= kMaxDataSize -> 6 + n <= buffer_size ->
  buffer_size <= Z.of_nat (length buffer) ->
  exists buffer' count, Serialize p buffer buffer_size n = Ok (buffer', count) /\
    parse buffer' (count - 6) =
      Some (packet_mask p, p_group_number p, p_sequence_number p, p_k p, p_r p,
            take (Z.to_nat n) (p_data p)).
Proof.
  intros Hwf Hn Hbs Hbuf. rewrite Serialize_Ok by (done || apply Hwf).
  destruct Hwf as (Hm & Hg & Hs & Hk & Hr & Hlen & _). unfold kMaxDataSize in *.
  eexists _, _. split; [ done |]. unfold blit, packet_bytes, header_bytes.
  rewrite take_0, app_nil_l, <- !app_assoc. cbn [le_bytes app parse].
  replace (6 + n - 6) with n by lia.
  rewrite (Z.mod_small (p_group_number p)), (Z.mod_small (p_sequence_number p)),
    (Z.mod_small (p_k p)), (Z.mod_small (p_r p)) by lia.
  rewrite take_app_length' by (rewrite length_take; lia).
  do 6 f_equal. cbn [le_value]. rewrite (Z.mod_small (packet_mask p / 256)) by (split; [ apply Z.div_pos | apply Z.div_lt_upper_bound ]; lia).
  pose proof (Z.div_mod (packet_mask p) 256). lia.
Qed.

Lemma Serialize_roundtrip_witness :
  exists buffer' count, Serialize sample_packet (replicate 2000 7) 1030 1024 = Ok (buffer', count) /\
    parse buffer' (count - 6) =
      Some (packet_mask sample_packet, p_group_number sample_packet,
            p_sequence_number sample_packet, p_k sample_packet, p_r sample_packet,
            take (Z.to_nat 1024) (p_data sample_packet)).
Proof.
  apply (Serialize_roundtrip sample_packet (replicate 2000 7) 1030 1024);
    [ exact sample_packet_wf | unfold kMaxDataSize; lia | lia | vm_compute; discriminate ].
Defined.
