(* ===== verification/Encoder.v ===== *)
(** * The FEC encoder

    [class ForwardErrorCorrection] of
    [modules/rtp_rtcp/source/forward_error_correction.h] with its operations
    from [Channel_sim/forward_error_correction.cpp]: [XorPayloads],
    [EncodeFec], [PacketByFEC] (the encoder the sender application drives) and
    [SendByUlpfec] (the library's own sending loop).

    Left out of the state: what [SendByUlpfec] prints and how long it sleeps.
    [sendto] is the argument [net] (does the n-th call succeed?), and every
    call is recorded in [wire]. The uninitialised scratch array of the local
    [PacketMaskTable] is the argument [garbage]. *)
From S2P Require Import Prelude.
From S2P Require Import MaskTable.
From S2P Require Import Packet.
From stdpp Require Import base list list_numbers numbers option tactics.
From Stdlib Require Import ZArith Lia.

#[local] Open Scope Z_scope.

(** ** State

    [packet_size] is the [static int] of
    [forward_error_correction_internal.h]; the program has one encoder object,
    so it is kept with it. *)
Record ForwardErrorCorrection : Type := mkFEC {
  total_sent_packets : Z;
  total_sent_src_packets : Z;
  total_sent_fec_packets : Z;
  media_packets : list Packet;
  buffer_packets : list Packet;
  packet_masks_ : list Z;
  packet_mask_size_ : Z;
  kNumImportantPackets : Z;
  kUseUnequalProtection : bool;
  fec_first_use : bool;
  fec_last_use : bool;
  fec_packets : list Packet;
  group_number : Z;
  sequence_number : Z;
  packet_size : Z
}.

(** The member initialisers; [packet_masks_] and [packet_mask_size_] have none. *)
Definition ForwardErrorCorrection_new (masks : list Z) (mask_size : Z)
    : ForwardErrorCorrection :=
  mkFEC 0 0 0 [] [] masks mask_size 0 false true false [] 0 0 0.

(** Field updates. *)
Definition set_media (l : list Packet) (t : ForwardErrorCorrection) :=
  mkFEC (total_sent_packets t) (total_sent_src_packets t) (total_sent_fec_packets t)
    l (buffer_packets t) (packet_masks_ t) (packet_mask_size_ t)
    (kNumImportantPackets t) (kUseUnequalProtection t) (fec_first_use t)
    (fec_last_use t) (fec_packets t) (group_number t) (sequence_number t) (packet_size t).
Definition set_buffer (l : list Packet) (t : ForwardErrorCorrection) :=
  mkFEC (total_sent_packets t) (total_sent_src_packets t) (total_sent_fec_packets t)
    (media_packets t) l (packet_masks_ t) (packet_mask_size_ t)
    (kNumImportantPackets t) (kUseUnequalProtection t) (fec_first_use t)
    (fec_last_use t) (fec_packets t) (group_number t) (sequence_number t) (packet_size t).
Definition set_masks (m : list Z) (sz : Z) (t : ForwardErrorCorrection) :=
  mkFEC (total_sent_packets t) (total_sent_src_packets t) (total_sent_fec_packets t)
    (media_packets t) (buffer_packets t) m sz
    (kNumImportantPackets t) (kUseUnequalProtection t) (fec_first_use t)
    (fec_last_use t) (fec_packets t) (group_number t) (sequence_number t) (packet_size t).
Definition set_use (first last : bool) (ps : Z) (t : ForwardErrorCorrection) :=
  mkFEC (total_sent_packets t) (total_sent_src_packets t) (total_sent_fec_packets t)
    (media_packets t) (buffer_packets t) (packet_masks_ t) (packet_mask_size_ t)
    (kNumImportantPackets t) (kUseUnequalProtection t) first
    last (fec_packets t) (group_number t) (sequence_number t) ps.
Definition set_fecs (l : list Packet) (t : ForwardErrorCorrection) :=
  mkFEC (total_sent_packets t) (total_sent_src_packets t) (total_sent_fec_packets t)
    (media_packets t) (buffer_packets t) (packet_masks_ t) (packet_mask_size_ t)
    (kNumImportantPackets t) (kUseUnequalProtection t) (fec_first_use t)
    (fec_last_use t) l (group_number t) (sequence_number t) (packet_size t).
Definition set_numbers (g s : Z) (t : ForwardErrorCorrection) :=
  mkFEC (total_sent_packets t) (total_sent_src_packets t) (total_sent_fec_packets t)
    (media_packets t) (buffer_packets t) (packet_masks_ t) (packet_mask_size_ t)
    (kNumImportantPackets t) (kUseUnequalProtection t) (fec_first_use t)
    (fec_last_use t) (fec_packets t) g s (packet_size t).
Definition set_totals (a s f : Z) (t : ForwardErrorCorrection) :=
  mkFEC a s f (media_packets t) (buffer_packets t) (packet_masks_ t) (packet_mask_size_ t)
    (kNumImportantPackets t) (kUseUnequalProtection t) (fec_first_use t)
    (fec_last_use t) (fec_packets t) (group_number t) (sequence_number t) (packet_size t).

(** ** [XorPayloads] *)

(** [for (size_t i = 0; i < length; ++i) dst[i] ^= src[i];] *)
Definition XorPayloads (src dst : list Z) (length : Z) : outcome (list Z) :=
  for_loop 0 (Z.to_nat length) (fun i dst =>
    a ← get src i;
    b ← get dst i;
    put dst i (Z.lxor b a)) dst.

Section Encoder.
Context `{CheckMode}.
Variable garbage : list Z.

(** ** [EncodeFec] *)

(** [for (const auto& media_packet : media_packets) { if (mask bit) Xor; j++; }] *)
Fixpoint xor_protected (masks : list Z) (mask_size i j packet_size : Z)
    (media : list Packet) (data : list Z) : outcome (list Z) :=
  match media with
  | [] => Ok data
  | media_packet :: media =>
      m ← get masks (i * mask_size + j / 8);
      data ← (if negb (Z.land m (Z.shiftl 1 (7 - j mod 8)) =? 0)
              then XorPayloads (p_data media_packet) data (u64 packet_size)
              else Ok data);
      xor_protected masks mask_size i (j + 1) packet_size media data
  end.

(** One turn of the loop over the FEC packets: take the front packet, fill it,
    put it at the back. The copy of [packet_mask_size_] bytes to
    [&fec_packet->packet_mask] covers the mask and, when a row has six bytes,
    the four fields the next statements overwrite. *)
Definition encode_one (media : list Packet) (num_fec_packets i : Z)
    (st : ForwardErrorCorrection * list Packet)
    : outcome (ForwardErrorCorrection * list Packet) :=
  let '(this, fecs) := st in
  let num_media_packets := Z.of_nat (length media) in
  match fecs with
  | [] => Fail OutOfBounds
  | fec_packet :: fecs =>
      data ← xor_protected (packet_masks_ this) (packet_mask_size_ this) i 0
               (packet_size this) media (p_data fec_packet);
      row ← slice (packet_masks_ this)
              (u64 (u64 (sequence_number this - num_media_packets)
                    * packet_mask_size_ this))
              (packet_mask_size_ this);
      let fec_packet :=
        mkPacket (le_value (take 2 row)) (u8 (group_number this))
          (u8 (sequence_number this)) (u8 num_media_packets) (u8 num_fec_packets)
          data in
      Ok (set_numbers (group_number this) (i32 (sequence_number this + 1)) this,
          fecs ++ [fec_packet])
  end.

(** The result: the object, the list [*fec_packets] and the returned count. *)
Definition EncodeFec (this : ForwardErrorCorrection) (media : list Packet) (r : Z)
    (num_important_packets : Z) (use_unequal_protection : bool)
    (fec_mask_type : FecMaskType) (fecs : list Packet)
    : outcome (ForwardErrorCorrection * list Packet * Z) :=
  let num_media_packets := Z.of_nat (length media) in
  RTC_DCHECK (0 <? num_media_packets);;
  RTC_DCHECK (0 <=? num_important_packets);;
  RTC_DCHECK (num_important_packets <=? num_media_packets);;
  RTC_DCHECK (bool_decide (fecs = []));;
  RTC_DCHECK (num_media_packets <=? 16);;
  let num_fec_packets := i32 r in
  RTC_DCHECK (num_fec_packets <=? num_media_packets);;
  if num_fec_packets =? 0 then Ok (this, fecs, 0) else
  let fecs := fecs ++ replicate (Z.to_nat num_fec_packets) Packet_new in
  let num_media_packets_int := i32 num_media_packets in
  mask_table ← PacketMaskTable_new garbage fec_mask_type num_media_packets_int;
  mask_size ← PacketMaskSize num_media_packets;
  masks ← memset (packet_masks_ this) 0 0 (u64 (num_fec_packets * mask_size));
  '(_, masks) ← GeneratePacketMasks num_media_packets_int num_fec_packets
                  num_important_packets use_unequal_protection mask_table masks;
  let this := set_masks masks mask_size this in
  '(this, fecs) ← for_loop 0 (Z.to_nat num_fec_packets)
                    (encode_one media num_fec_packets) (this, fecs);
  Ok (this, fecs, num_fec_packets).

(** ** [PacketByFEC] *)

(** The statements up to the insertion of the new packet, which
    [SendByUlpfec] shares: the object, the caller's buffer and the packet. *)
Definition make_source_packet (this : ForwardErrorCorrection) (buf : list Z)
    (len k r : Z) : outcome (ForwardErrorCorrection * list Z * Packet) :=
  let this := if fec_first_use this then set_use false (fec_last_use this) len this
              else this in
  '(this, buf) ←
    (if len <? packet_size this then
       buf ← memset buf len 0 (packet_size this - len);
       Ok (set_use (fec_first_use this) true (packet_size this) this, buf)
     else Ok (this, buf));
  data ← memcpy (p_data Packet_new) 0 buf 0 (u64 (packet_size this));
  let packet := mkPacket 0 (u8 (group_number this)) (u8 (sequence_number this))
                  (u8 k) (u8 r) data in
  Ok (set_numbers (group_number this) (i32 (sequence_number this + 1)) this, buf, packet).

Definition PacketByFEC (this : ForwardErrorCorrection) (buf : list Z) (len k r : Z)
    : outcome (ForwardErrorCorrection * list Z) :=
  '(this, buf, packet) ← make_source_packet this buf len k r;
  let this := set_media (media_packets this ++ [packet]) this in
  let this := set_buffer (buffer_packets this ++ [packet]) this in
  if Z.of_nat (length (media_packets this)) =? u64 k then
    '(this, fecs, _) ←
      EncodeFec this (media_packets this) (u32 r) (kNumImportantPackets this)
        (kUseUnequalProtection this) fec_mask_type (fec_packets this);
    let this := set_fecs fecs this in
    let this := set_buffer (buffer_packets this ++ fec_packets this) this in
    let this := set_numbers (i32 (group_number this + 1)) 0 this in
    Ok (set_fecs [] (set_media [] this), buf)
  else Ok (this, buf).

(** ** [SendByUlpfec] *)

(** [char send_buffer[2006]] filled by six copies; [garbage_buffer] is what it
    held. The datagram is its first [packet_size + 6] bytes. *)
Definition datagram (garbage_buffer : list Z) (packet : Packet) (packet_size : Z)
    : outcome (list Z) :=
  b ← memcpy garbage_buffer 0 (le_bytes 2 (packet_mask packet)) 0 2;
  b ← memcpy b 2 (le_bytes 1 (p_group_number packet)) 0 1;
  b ← memcpy b 3 (le_bytes 1 (p_sequence_number packet)) 0 1;
  b ← memcpy b 4 (le_bytes 1 (p_k packet)) 0 1;
  b ← memcpy b 5 (le_bytes 1 (p_r packet)) 0 1;
  b ← memcpy b 6 (p_data packet) 0 (u64 packet_size);
  slice b 0 (packet_size + 6).

Variable garbage_buffer : list Z.
Variable net : nat -> bool.

(** The loop over [fec_packets]; [false] when a [sendto] failed and the
    function returned. *)
Fixpoint send_fecs (this : ForwardErrorCorrection) (wire : list (list Z))
    (fecs : list Packet) : outcome (ForwardErrorCorrection * list (list Z) * bool) :=
  match fecs with
  | [] => Ok (this, wire, true)
  | fec_packet :: fecs =>
      d ← datagram garbage_buffer fec_packet (packet_size this);
      if net (length wire) then
        send_fecs
          (set_totals (u32 (total_sent_packets this + 1)) (total_sent_src_packets this)
             (u32 (total_sent_fec_packets this + 1)) this)
          (wire ++ [d]) fecs
      else Ok (this, wire ++ [d], false)
  end.

Definition SendByUlpfec (this : ForwardErrorCorrection) (wire : list (list Z))
    (buf : list Z) (len k r : Z)
    : outcome (ForwardErrorCorrection * list (list Z) * list Z) :=
  '(this, buf, packet) ← make_source_packet this buf len k r;
  d ← datagram garbage_buffer packet (packet_size this);
  let this := set_media (media_packets this ++ [packet]) this in
  if negb (net (length wire)) then Ok (this, wire ++ [d], buf) else
  let wire := wire ++ [d] in
  let this := set_totals (u32 (total_sent_packets this + 1))
                (u32 (total_sent_src_packets this + 1)) (total_sent_fec_packets this) this in
  '(this, wire, go) ←
    (if Z.of_nat (length (media_packets this)) =? u64 k then
       '(this, fecs, _) ←
         EncodeFec this (media_packets this) (u32 r) (kNumImportantPackets this)
           (kUseUnequalProtection this) fec_mask_type (fec_packets this);
       let this := set_fecs fecs this in
       '(this, wire, go) ← send_fecs this wire (fec_packets this);
       if go : bool then
         let this := set_fecs [] (set_media [] this) in
         Ok (set_numbers (i32 (group_number this + 1)) 0 this, wire, true)
       else Ok (this, wire, false)
     else Ok (this, wire, true));
  if go && fec_last_use this then Ok (set_media [] this, wire, buf)
  else Ok (this, wire, buf).

End Encoder.
