(* ===== verification/EncoderFacts.v ===== *)
(** * The encoder computes parities

    What [EncodeFec] and [PacketByFEC] of [Encoder] produce, against a
    specification that knows nothing of masks in memory, lists of FEC packets
    being rotated or sequence counters: the data of FEC packet [i] is the
    exclusive or of the media payloads its mask row selects ([parity]), and a
    group of [k] source packets is followed by its [r] parities
    ([spec_step]). *)
From S2P Require Import Prelude.
From S2P Require Import MaskTable.
From S2P Require Import Packet.
From S2P Require Import Encoder.
From stdpp Require Import base list list_numbers numbers option tactics.
From Stdlib Require Import ZArith Lia.

#[local] Open Scope Z_scope.

(** Compute the fields of updated objects. *)
Ltac fec_simpl :=
  cbn [set_media set_buffer set_masks set_use set_fecs set_numbers set_totals
       total_sent_packets total_sent_src_packets total_sent_fec_packets media_packets
       buffer_packets packet_masks_ packet_mask_size_ kNumImportantPackets
       kUseUnequalProtection fec_first_use fec_last_use fec_packets group_number
       sequence_number packet_size].

(** ** Specification *)

(** Exclusive or of the payloads [sel] selects, the first one numbered [j]. *)
Fixpoint parity (sel : Z -> bool) (j : Z) (datas : list (list Z)) (acc : list Z)
    : list Z :=
  match datas with
  | [] => acc
  | d :: datas => parity sel (j + 1) datas (if sel j then xor_bytes acc d else acc)
  end.

Definition zero_data : list Z := replicate (Z.to_nat kMaxDataSize) 0.

(** The 16-bit mask field of FEC packet [i]: the first two bytes of its row. *)
Definition row_mask (ty : FecMaskType) (k r i : Z) : Z :=
  le_value (take 2 (drop (Z.to_nat (i * row_bytes k)) (mask_of ty k r))).

Definition protects (ty : FecMaskType) (k r i j : Z) : bool :=
  mask_bit (mask_of ty k r) (row_bytes k) i j.

(** FEC packet [i] of group [g] over the payloads [datas]. *)
Definition fec_spec (ty : FecMaskType) (g k r : Z) (datas : list (list Z)) (i : Z)
    : Packet :=
  mkPacket (row_mask ty k r i) (u8 g) (u8 (k + i)) (u8 k) (u8 r)
    (parity (protects ty k r i) 0 datas zero_data).

(** A payload of [ps] bytes in a 2000-byte array, zero behind it. *)
Definition padded (ps : Z) (d : list Z) : Prop :=
  length d = Z.to_nat kMaxDataSize /\
  drop (Z.to_nat ps) d = replicate (Z.to_nat (kMaxDataSize - ps)) 0.

(** ** [XorPayloads] *)

Lemma XorPayloads_loop n i src dst :
  0 <= i -> i + Z.of_nat n <= Z.of_nat (length src) -> i + Z.of_nat n <= Z.of_nat (length dst) ->
  for_loop i n (fun i dst => a ← get src i; b ← get dst i; put dst i (Z.lxor b a)) dst =
  Ok (blit (Z.to_nat i)
        (xor_bytes (take n (drop (Z.to_nat i) dst)) (take n (drop (Z.to_nat i) src))) dst).
Proof.
  revert i dst; induction n as [| n IH ]; intros i dst Hi Hs Hd.
  { cbn [for_loop]. rewrite !take_0. change (xor_bytes [] []) with (@nil Z).
    by rewrite blit_nil. }
  destruct (lookup_lt_is_Some_2 src (Z.to_nat i) ltac:(lia)) as (a & Ha).
  destruct (lookup_lt_is_Some_2 dst (Z.to_nat i) ltac:(lia)) as (b & Hb).
  cbn [for_loop]. rewrite (get_Ok src i a), bind_Ok, (get_Ok dst i b), bind_Ok, put_Ok, bind_Ok
    by (done || lia).
  rewrite IH by (rewrite ?length_insert; lia). f_equal.
  rewrite (drop_S dst b (Z.to_nat i)), (drop_S src a (Z.to_nat i)) by done. cbn [take].
  replace (Z.to_nat (i + 1)) with (S (Z.to_nat i)) by lia.
  rewrite drop_insert_lt by lia. unfold xor_bytes. cbn [zip_with].
  apply insert_blit. rewrite length_zip_with, !length_take, !length_drop. lia.
Qed.

Lemma XorPayloads_Ok src dst n :
  0 <= n <= Z.of_nat (length src) -> n <= Z.of_nat (length dst) ->
  XorPayloads src dst n =
    Ok (xor_bytes (take (Z.to_nat n) dst) (take (Z.to_nat n) src) ++ drop (Z.to_nat n) dst).
Proof.
  intros Hs Hd. unfold XorPayloads. rewrite XorPayloads_loop by lia.
  unfold blit. cbn [Z.to_nat]. rewrite take_0, app_nil_l, !drop_0. do 2 f_equal.
  rewrite length_xor_bytes; rewrite !length_take; [ cbn; f_equal; lia | lia ].
Qed.

Lemma xor_bytes_app a b c d :
  length a = length c -> xor_bytes (a ++ b) (c ++ d) = xor_bytes a c ++ xor_bytes b d.
Proof. intros. unfold xor_bytes. by rewrite zip_with_app. Qed.

(** On padded payloads the xor of the first [ps] bytes is the whole xor. *)
Lemma XorPayloads_padded ps src dst :
  0 <= ps <= kMaxDataSize -> padded ps src -> padded ps dst ->
  XorPayloads src dst ps = Ok (xor_bytes dst src) /\ padded ps (xor_bytes dst src).
Proof.
  intros Hps [Hls Hts] [Hld Htd]. unfold kMaxDataSize in *.
  rewrite XorPayloads_Ok by lia.
  assert (Heq : xor_bytes dst src
    = xor_bytes (take (Z.to_nat ps) dst) (take (Z.to_nat ps) src) ++ drop (Z.to_nat ps) dst).
  { rewrite <- (take_drop (Z.to_nat ps) dst) at 1.
    rewrite <- (take_drop (Z.to_nat ps) src) at 1.
    rewrite xor_bytes_app by (rewrite !length_take; lia). f_equal.
    rewrite Hts, Htd, xor_bytes_zero; [ done |]. by rewrite length_replicate. }
  split; [ by rewrite Heq |]. split.
  - rewrite length_xor_bytes by lia. done.
  - rewrite Heq, drop_app_length'; [ done |].
    rewrite length_xor_bytes; rewrite !length_take; lia.
Qed.

Lemma padded_zero ps : 0 <= ps <= kMaxDataSize -> padded ps zero_data.
Proof.
  intros. unfold padded, zero_data. rewrite length_replicate. split; [ done |].
  rewrite drop_replicate. f_equal. lia.
Qed.

(** ** The mask test *)

Lemma land_bit m b : 0 <= b -> negb (Z.land m (Z.shiftl 1 b) =? 0) = Z.testbit m b.
Proof.
  intros Hb. rewrite Z.shiftl_1_l.
  destruct (Z.testbit m b) eqn:E.
  - apply negb_true_iff, Z.eqb_neq. intros H0.
    assert (Ht : Z.testbit (Z.land m (2 ^ b)) b = false) by (rewrite H0; apply Z.testbit_0_l).
    rewrite Z.land_spec, E, Z.pow2_bits_true in Ht by lia. discriminate.
  - apply negb_false_iff, Z.eqb_eq. apply Z.bits_inj'. intros n Hn.
    rewrite Z.land_spec, Z.testbit_0_l, Z.pow2_bits_eqb by lia.
    destruct (Z.eqb_spec b n) as [<- |]; [ by rewrite E | by rewrite andb_false_r ].
Qed.

Lemma xor_protected_Ok masks size i ps media :
  0 <= i -> 0 < size -> (i + 1) * size <= Z.of_nat (length masks) ->
  0 <= ps <= kMaxDataSize ->
  forall j data,
  Forall (fun p => padded ps (p_data p)) media -> padded ps data ->
  0 <= j -> j + Z.of_nat (length media) <= 8 * size ->
  xor_protected masks size i j ps media data
    = Ok (parity (mask_bit masks size i) j (map p_data media) data) /\
  padded ps (parity (mask_bit masks size i) j (map p_data media) data).
Proof.
  intros Hi Hs Hm Hps. induction media as [| p media IH ]; intros j data Hmed Hd Hj Hlen.
  { done. }
  apply Forall_cons_1 in Hmed as [Hp Hmed]. cbn [xor_protected map parity].
  cbn [length] in Hlen.
  assert (Hjd : 0 <= j / 8 < size)
    by (split; [ apply Z.div_pos | apply Z.div_lt_upper_bound ]; lia).
  assert (0 <= i * size) by (apply Z.mul_nonneg_nonneg; lia).
  assert (Hjm : 0 <= j mod 8 < 8) by (apply Z.mod_pos_bound; lia).
  destruct (lookup_lt_is_Some_2 masks (Z.to_nat (i * size + j / 8)) ltac:(lia)) as (m & Hm').
  rewrite (get_Ok masks _ m), bind_Ok by (done || lia).
  rewrite land_bit by lia.
  replace (mask_bit masks size i j) with (Z.testbit m (7 - j mod 8))
    by (unfold mask_bit; by rewrite (list_lookup_total_correct _ _ _ Hm')).
  destruct (XorPayloads_padded ps (p_data p) data Hps Hp Hd) as [HX HP].
  rewrite u64_id by (unfold kMaxDataSize in *; lia).
  destruct (Z.testbit m (7 - j mod 8)); rewrite ?HX, bind_Ok; apply IH; auto; lia.
Qed.

Lemma parity_ext sel sel' j datas acc :
  (forall i, j <= i < j + Z.of_nat (length datas) -> sel i = sel' i) ->
  parity sel j datas acc = parity sel' j datas acc.
Proof.
  revert j acc; induction datas as [| d datas IH ]; intros j acc Hs; [ done |].
  cbn [length] in Hs. cbn [parity]. rewrite (Hs j) by lia. apply IH.
  intros. apply Hs. lia.
Qed.

(** ** The loop over the FEC packets *)

(** FEC packet [i] as the loop builds it from the mask array in memory. *)
Definition built (this : ForwardErrorCorrection) (media : list Packet) (r i : Z) : Packet :=
  let k := Z.of_nat (length media) in
  mkPacket
    (le_value (take 2 (take (Z.to_nat (packet_mask_size_ this))
       (drop (Z.to_nat (i * packet_mask_size_ this)) (packet_masks_ this)))))
    (u8 (group_number this)) (u8 (k + i)) (u8 k) (u8 r)
    (parity (mask_bit (packet_masks_ this) (packet_mask_size_ this) i) 0
       (map p_data media) zero_data).

Definition at_seq (s : Z) (this : ForwardErrorCorrection) : ForwardErrorCorrection :=
  set_numbers (group_number this) s this.

Lemma encode_one_Ok this media r i fecs :
  let k := Z.of_nat (length media) in
  let size := packet_mask_size_ this in
  0 <= i -> k + i < 1000 -> 0 < size <= 6 ->
  (i + 1) * size <= Z.of_nat (length (packet_masks_ this)) ->
  k <= 8 * size -> 0 <= packet_size this <= kMaxDataSize ->
  Forall (fun p => padded (packet_size this) (p_data p)) media ->
  encode_one media r i (at_seq (k + i) this, Packet_new :: fecs) =
    Ok (at_seq (k + (i + 1)) this, fecs ++ [built this media r i]).
Proof.
  intros k size Hi Hki Hs Hm Hk Hps Hmed. unfold encode_one.
  cbn [at_seq set_numbers packet_masks_ packet_mask_size_ packet_size sequence_number group_number].
  fold size. fold k.
  destruct (xor_protected_Ok (packet_masks_ this) size i (packet_size this) media
              Hi ltac:(lia) Hm Hps 0 zero_data Hmed (padded_zero _ Hps) ltac:(lia) ltac:(lia))
    as [HX _].
  change (p_data Packet_new) with zero_data. rewrite HX, bind_Ok.
  assert (0 <= i * size) by (apply Z.mul_nonneg_nonneg; lia).
  assert (i * size <= 1000 * 6) by (apply Z.mul_le_mono_nonneg; lia).
  replace (k + i - k) with i by lia. rewrite (u64_id i), u64_id by lia.
  unfold slice. rewrite !(proj2 (Z.leb_le _ _)) by lia. cbn [andb]. rewrite bind_Ok.
  rewrite i32_id by lia. replace (k + i + 1) with (k + (i + 1)) by lia. reflexivity.
Qed.

Lemma encode_loop_Ok this media r n i fecs :
  let k := Z.of_nat (length media) in
  let size := packet_mask_size_ this in
  0 <= i -> k + i + Z.of_nat n < 1000 -> 0 < size <= 6 ->
  (i + Z.of_nat n) * size <= Z.of_nat (length (packet_masks_ this)) ->
  k <= 8 * size -> 0 <= packet_size this <= kMaxDataSize ->
  Forall (fun p => padded (packet_size this) (p_data p)) media ->
  for_loop i n (encode_one media r) (at_seq (k + i) this, replicate n Packet_new ++ fecs) =
    Ok (at_seq (k + i + Z.of_nat n) this, fecs ++ map (built this media r) (seqZ i (Z.of_nat n))).
Proof.
  intros k size. revert i fecs; induction n as [| n IH ]; intros i fecs Hi Hki Hs Hm Hk Hps Hmed.
  { change (seqZ i (Z.of_nat 0)) with (@nil Z). cbn [for_loop map replicate app].
    by rewrite Z.add_0_r, app_nil_r. }
  assert (0 <= Z.of_nat n * size) by (apply Z.mul_nonneg_nonneg; lia).
  rewrite Nat2Z.inj_succ in *. rewrite (seqZ_cons i) by lia. cbn [for_loop map replicate app].
  rewrite encode_one_Ok, bind_Ok by (done || lia). fold k.
  rewrite <- app_assoc. rewrite IH by (done || lia).
  rewrite <- app_assoc. cbn [app].
  replace (Z.succ i) with (i + 1) by lia. rewrite Z.pred_succ.
  do 2 f_equal. f_equal. lia.
Qed.

(** ** [EncodeFec] *)

(** A row of the mask survives the copy into the 288-byte array. *)
Lemma row_of_blit ty k r i rest :
  1 <= r <= k -> k <= 48 -> 0 <= i < r ->
  (length (mask_of ty k r) <= length rest)%nat ->
  le_value (take 2 (take (Z.to_nat (row_bytes k))
    (drop (Z.to_nat (i * row_bytes k)) (blit 0 (mask_of ty k r) rest)))) = row_mask ty k r i.
Proof.
  intros Hr Hk Hi Hrest. pose proof (row_bytes_pos k) as Hb.
  pose proof (length_mask_of ty k r Hr Hk) as Hl. unfold row_mask. f_equal.
  rewrite take_take, Nat.min_l by lia. unfold blit. rewrite take_0, app_nil_l.
  assert ((i + 1) * row_bytes k <= r * row_bytes k) by (apply Z.mul_le_mono_nonneg_r; lia).
  assert (0 <= i * row_bytes k) by (apply Z.mul_nonneg_nonneg; lia).
  rewrite drop_app_le by lia. rewrite take_app_le; [ done |]. rewrite length_drop. lia.
Qed.

Lemma built_fec_spec this media ty r i rest :
  let k := Z.of_nat (length media) in
  1 <= r <= k -> k <= 48 -> 0 <= i < r ->
  (length (mask_of ty k r) <= length rest)%nat ->
  packet_masks_ this = blit 0 (mask_of ty k r) rest ->
  packet_mask_size_ this = row_bytes k ->
  built this media r i = fec_spec ty (group_number this) k r (map p_data media) i.
Proof.
  intros k Hr Hk Hi Hrest Hm Hs. unfold built, fec_spec. fold k.
  rewrite Hm, Hs, row_of_blit by done. f_equal. apply parity_ext. intros j Hj.
  rewrite length_map in Hj. fold k in Hj. pose proof (row_bytes_pos k).
  pose proof (row_bytes_enough k Hk). pose proof (length_mask_of ty k r Hr Hk).
  assert ((i + 1) * row_bytes k <= r * row_bytes k) by (apply Z.mul_le_mono_nonneg_r; lia).
  apply mask_bit_blit; lia.
Qed.

Definition masks_after (ty : FecMaskType) (k r : Z) (masks : list Z) : list Z :=
  blit 0 (mask_of ty k r) (blit 0 (replicate (Z.to_nat (r * row_bytes k)) 0) masks).

Lemma length_masks_after ty k r masks :
  1 <= r <= k -> k <= 48 -> length masks = 288%nat ->
  length (masks_after ty k r masks) = 288%nat.
Proof.
  intros Hr Hk Hm. pose proof (mask_fits k r Hr Hk) as Hfit.
  unfold kFECPacketMaskMaxSize in Hfit. pose proof (length_mask_of ty k r Hr Hk).
  unfold masks_after.
  rewrite !length_blit; rewrite ?length_blit; rewrite ?length_replicate; lia.
Qed.

(** The statements of [EncodeFec] that compute the masks. *)
Lemma encode_masks_Ok `{mode : CheckMode} {B} garbage masks ty k r imp uep
    (rest : list Z -> Z -> outcome B) :
  1 <= r <= k -> k <= 48 -> 0 <= imp <= k -> uep = false \/ imp = 0 ->
  length garbage = 288%nat -> length masks = 288%nat ->
  (mask_table ← PacketMaskTable_new garbage ty k;
   mask_size ← PacketMaskSize k;
   masks ← memset masks 0 0 (u64 (r * mask_size));
   '(_, masks) ← GeneratePacketMasks k r imp uep mask_table masks;
   rest masks mask_size) = rest (masks_after ty k r masks) (row_bytes k).
Proof.
  intros Hr Hk Himp Huep Hg Hml.
  pose proof (row_bytes_pos k) as Hrb.
  pose proof (mask_fits k r Hr Hk) as Hfit. unfold kFECPacketMaskMaxSize in Hfit.
  pose proof (length_mask_of ty k r Hr Hk) as Hlm.
  unfold PacketMaskTable_new at 1. rewrite PickTable_Ok, !bind_Ok by lia.
  rewrite PacketMaskSize_Ok, bind_Ok by lia. rewrite u64_id, memset_Ok, bind_Ok by lia.
  assert (Hzl : length (blit 0 (replicate (Z.to_nat (r * row_bytes k)) 0) masks) = 288%nat)
    by (rewrite length_blit; rewrite ?length_replicate; lia).
  destruct (GeneratePacketMasks_Ok ty k r imp uep garbage
    (blit 0 (replicate (Z.to_nat (r * row_bytes k)) 0) masks)
    Hr Hk Himp Huep Hg ltac:(lia)) as (mt & HG).
  change (Z.to_nat 0) with 0%nat. by rewrite HG, bind_Ok.
Qed.

(** The last check bounds the media packets of a debug build only. *)
Lemma media_limit_Ok `{mode : CheckMode} k :
  (mode = true -> k <= 16) -> RTC_DCHECK (k <=? 16) = Ok tt.
Proof.
  intros Hdbg. unfold RTC_DCHECK, RTC_DCHECK_IS_ON. destruct mode; [| done ].
  by rewrite (proj2 (Z.leb_le _ _)) by auto.
Qed.

Lemma EncodeFec_Ok `{mode : CheckMode} garbage this media ty r imp uep :
  let k := Z.of_nat (length media) in
  1 <= r <= k -> k <= 48 -> (mode = true -> k <= 16) ->
  0 <= imp <= k -> uep = false \/ imp = 0 ->
  length garbage = 288%nat -> length (packet_masks_ this) = 288%nat ->
  sequence_number this = k -> 0 <= packet_size this <= kMaxDataSize ->
  Forall (fun p => padded (packet_size this) (p_data p)) media ->
  EncodeFec garbage this media r imp uep ty [] =
    Ok (at_seq (k + r) (set_masks (masks_after ty k r (packet_masks_ this)) (row_bytes k) this),
        map (fec_spec ty (group_number this) k r (map p_data media)) (seqZ 0 r), r).
Proof.
  intros k Hr Hk Hdbg Himp Huep Hg Hml Hseq Hps Hmed.
  pose proof (row_bytes_pos k) as Hrb. pose proof (row_bytes_enough k Hk).
  pose proof (mask_fits k r Hr Hk) as Hfit. unfold kFECPacketMaskMaxSize in Hfit.
  unfold EncodeFec. fold k. rewrite (i32_id r), (i32_id k) by lia.
  rewrite !(RTC_DCHECK_Ok (0 <? k)), bind_Ok by lia.
  rewrite !(RTC_DCHECK_Ok (0 <=? imp)), bind_Ok by lia.
  rewrite !(RTC_DCHECK_Ok (imp <=? k)), bind_Ok by lia.
  rewrite (RTC_DCHECK_Ok (bool_decide _)), bind_Ok, media_limit_Ok, bind_Ok by done.
  dcheck. rewrite (proj2 (Z.eqb_neq r 0)) by lia.
  rewrite (encode_masks_Ok (mode := mode) garbage (packet_masks_ this) ty k r imp uep (fun masks mask_size =>
    '(this, fecs) ← for_loop 0 (Z.to_nat r) (encode_one media r)
       (set_masks masks mask_size this, [] ++ replicate (Z.to_nat r) Packet_new);
    Ok (this, fecs, r))) by done.
  set (this2 := set_masks _ _ _).
  assert (Hl2 : length (packet_masks_ this2) = 288%nat) by (by apply length_masks_after).
  replace this2 with (at_seq (k + 0) this2)
    by (unfold at_seq; rewrite Z.add_0_r, <- Hseq; destruct this; done).
  rewrite app_nil_l, <- (app_nil_r (replicate _ _)).
  change k with (Z.of_nat (length media)) at 1.
  rewrite encode_loop_Ok, bind_Ok; rewrite ?Z2Nat.id; cbn [this2 set_masks packet_mask_size_ packet_size];
    fold k; try (done || lia).
  rewrite Z.add_0_r, app_nil_l. do 2 f_equal. f_equal. apply map_ext_in. intros i Hi.
  apply list_elem_of_In, elem_of_seqZ in Hi. change (group_number this) with (group_number this2).
  eapply built_fec_spec; [ done | done | lia | | reflexivity | done ].
  fold k. pose proof (length_mask_of ty k r Hr Hk).
  rewrite length_blit; rewrite ?length_replicate; lia.
Qed.

(** ** [PacketByFEC] refines the group encoder *)

(** The abstract encoder: the payloads waiting for their group to fill, the
    number of the group, and everything produced so far. *)
Record spec_state : Type := mkSpec {
  pending : list (list Z);
  group : Z;
  produced : list Packet
}.

Definition source_spec (g s k r : Z) (d : list Z) : Packet :=
  mkPacket 0 (u8 g) (u8 s) (u8 k) (u8 r) d.

Definition spec_step (k r : Z) (d : list Z) (s : spec_state) : spec_state :=
  let src := source_spec (group s) (Z.of_nat (length (pending s))) k r d in
  let full := pending s ++ [d] in
  if Z.of_nat (length full) =? k then
    mkSpec [] (i32 (group s + 1))
      (produced s ++ src :: map (fec_spec fec_mask_type (group s) k r full) (seqZ 0 r))
  else mkSpec full (group s) (produced s ++ [src]).

(** The payload a call stores: at most [ps] bytes of the buffer, then zeros. *)
Definition stored (ps len : Z) (buf : list Z) : list Z :=
  take (Z.to_nat (Z.min len ps)) buf
  ++ replicate (Z.to_nat (kMaxDataSize - Z.min len ps)) 0.

(** What holds of the object between calls with parameter [k]. *)
Definition fec_inv (k : Z) (t : ForwardErrorCorrection) : Prop :=
  length (packet_masks_ t) = 288%nat /\
  kNumImportantPackets t = 0 /\ kUseUnequalProtection t = false /\
  fec_packets t = [] /\
  sequence_number t = Z.of_nat (length (media_packets t)) /\
  Z.of_nat (length (media_packets t)) < k /\
  0 <= packet_size t <= kMaxDataSize /\
  Forall (fun p => padded (packet_size t) (p_data p)) (media_packets t) /\
  (fec_first_use t = true -> media_packets t = []).

Definition represents (t : ForwardErrorCorrection) (s : spec_state) : Prop :=
  map p_data (media_packets t) = pending s /\ group_number t = group s /\
  buffer_packets t = produced s.

(** The packet size in force after a call with [len] bytes. *)
Definition size_after (t : ForwardErrorCorrection) (len : Z) : Z :=
  if fec_first_use t then len else packet_size t.

Lemma padded_stored ps len buf :
  0 <= ps <= kMaxDataSize -> 0 <= len -> ps <= Z.of_nat (length buf) ->
  padded ps (stored ps len buf).
Proof.
  intros Hps Hlen Hb. unfold padded, stored, kMaxDataSize in *. split.
  - rewrite length_app, length_take, length_replicate. lia.
  - rewrite drop_app, length_take, drop_ge by (rewrite length_take; lia).
    rewrite drop_replicate, app_nil_l. f_equal. lia.
Qed.

(** A payload copied into the zeroed array of a new packet. *)
Lemma memcpy_zero_data src n :
  0 <= n <= kMaxDataSize -> n <= Z.of_nat (length src) ->
  memcpy zero_data 0 src 0 n =
    Ok (take (Z.to_nat n) src ++ replicate (Z.to_nat (kMaxDataSize - n)) 0).
Proof.
  intros Hn Hs. assert (Hz : length zero_data = Z.to_nat kMaxDataSize)
    by (unfold zero_data; by rewrite length_replicate).
  rewrite memcpy_Ok by (unfold kMaxDataSize in *; lia). unfold blit, zero_data.
  change (Z.to_nat 0) with 0%nat. rewrite take_0, drop_0, app_nil_l, drop_replicate.
  do 3 f_equal. rewrite length_take. lia.
Qed.

Lemma memcpy_stored_short ps len buf :
  0 <= len < ps -> ps <= kMaxDataSize -> ps <= Z.of_nat (length buf) ->
  memcpy zero_data 0 (blit (Z.to_nat len) (replicate (Z.to_nat (ps - len)) 0) buf) 0 ps
  = Ok (stored ps len buf).
Proof.
  intros Hl Hps Hb.
  rewrite memcpy_zero_data by (rewrite ?length_blit by (rewrite ?length_replicate; lia); lia).
  unfold stored. rewrite Z.min_l by lia. f_equal.
  replace (Z.to_nat ps) with (Z.to_nat len + length (replicate (Z.to_nat (ps - len)) 0%Z))%nat
    by (rewrite length_replicate; lia).
  rewrite take_blit_snoc by lia. rewrite <- app_assoc, <- replicate_add. do 2 f_equal. lia.
Qed.

Lemma make_source_packet_Ok t buf len k r :
  0 <= len <= kMaxDataSize -> 0 <= size_after t len <= kMaxDataSize ->
  size_after t len <= Z.of_nat (length buf) ->
  0 <= sequence_number t < 2 ^ 31 - 1 ->
  exists last buf', length buf' = length buf /\
    (size_after t len <= len -> last = fec_last_use t /\ buf' = buf) /\
    make_source_packet t buf len k r =
    Ok (set_numbers (group_number t) (sequence_number t + 1)
          (set_use false last (size_after t len) t), buf',
        source_spec (group_number t) (sequence_number t) k r
          (stored (size_after t len) len buf)).
Proof.
  intros Hlen Hps Hbuf Hseq. unfold make_source_packet.
  set (t1 := if fec_first_use t then _ else _).
  assert (Ht1 : t1 = set_use false (fec_last_use t) (size_after t len) t).
  { unfold t1, size_after. destruct t as [? ? ? ? ? ? ? ? ? first ? ? ? ? ?]; by destruct first. }
  rewrite Ht1. cbn [set_use packet_size fec_first_use fec_last_use].
  set (ps := size_after t len) in *. unfold kMaxDataSize in Hlen, Hps.
  change (p_data Packet_new) with zero_data.
  destruct (Z.ltb_spec len ps) as [Hlt | Hge].
  - exists true, (blit (Z.to_nat len) (replicate (Z.to_nat (ps - len)) 0) buf).
    rewrite length_blit by (rewrite length_replicate; lia). split_and!; [ done | lia |].
    rewrite memset_Ok, !bind_Ok by lia. cbn [packet_size set_use].
    rewrite u64_id, memcpy_stored_short, bind_Ok by (unfold kMaxDataSize; lia).
    cbn [group_number sequence_number set_use]. by rewrite i32_id by lia.
  - exists (fec_last_use t), buf. split_and!; [ done | done |]. rewrite bind_Ok. cbn [packet_size set_use].
    rewrite u64_id, memcpy_zero_data, bind_Ok by (unfold kMaxDataSize; lia).
    cbn [group_number sequence_number set_use]. rewrite i32_id by lia.
    unfold stored. by rewrite Z.min_r by lia.
Qed.

(** The step of the abstract encoder, in terms of the object. *)
Lemma spec_step_object t s k r d :
  let src := source_spec (group_number t) (sequence_number t) k r d in
  let media := media_packets t ++ [src] in
  map p_data (media_packets t) = pending s -> group_number t = group s ->
  sequence_number t = Z.of_nat (length (media_packets t)) ->
  spec_step k r d s =
    if Z.of_nat (length media) =? k
    then mkSpec [] (i32 (group_number t + 1)) (produced s ++ src ::
           map (fec_spec fec_mask_type (group_number t) k r (map p_data media)) (seqZ 0 r))
    else mkSpec (map p_data media) (group_number t) (produced s ++ [src]).
Proof.
  intros src media HRp HRg Hseq. unfold spec_step, media.
  rewrite map_app, HRp, <- HRg.
  replace (Z.of_nat (length (pending s))) with (sequence_number t)
    by (rewrite <- HRp, length_map; lia).
  by rewrite !length_app, <- HRp, length_map.
Qed.

(** The packet of a call joins packets padded to the same size. *)
Lemma media_padded k t len src :
  fec_inv k t -> padded (size_after t len) (p_data src) ->
  Forall (fun p => padded (size_after t len) (p_data p)) (media_packets t ++ [src]).
Proof.
  intros (_ & _ & _ & _ & _ & _ & _ & Hmed & Hfirst) Hd.
  apply Forall_app. split; [| by apply Forall_singleton ].
  unfold size_after. destruct (fec_first_use t) eqn:E; [ by rewrite Hfirst | done ].
Qed.

(** One call is one step of the abstract encoder. *)
Lemma PacketByFEC_simulates `{mode : CheckMode} garbage t s buf len k r :
  length garbage = 288%nat -> 1 <= r <= k -> k <= 48 -> (mode = true -> k <= 16) ->
  fec_inv k t -> represents t s ->
  0 <= len <= kMaxDataSize -> size_after t len <= Z.of_nat (length buf) ->
  exists t' buf', PacketByFEC garbage t buf len k r = Ok (t', buf') /\
    fec_inv k t' /\
    represents t' (spec_step k r (stored (size_after t len) len buf) s) /\
    fec_first_use t' = false /\ packet_size t' = size_after t len.
Proof.
  intros Hg Hr Hk Hdbg Hinv (HRp & HRg & HRb) Hlen Hbuf.
  pose proof Hinv as (Hml & Hi0 & Hu0 & Hf0 & Hseq & Hlt & Hps & _ & _).
  assert (Hsa : 0 <= size_after t len <= kMaxDataSize)
    by (unfold size_after; destruct (fec_first_use t); lia).
  destruct (make_source_packet_Ok t buf len k r Hlen Hsa Hbuf ltac:(lia))
    as (last & buf' & _ & _ & HM).
  unfold PacketByFEC. rewrite HM, bind_Ok. clear HM.
  rewrite (spec_step_object t s k r _ HRp HRg Hseq). cbn zeta.
  set (d := stored _ _ _). set (src := source_spec _ _ _ _ _).
  assert (Hmed : Forall (fun p => padded (size_after t len) (p_data p)) (media_packets t ++ [src]))
    by (apply (media_padded k); [ done | apply padded_stored; lia ]).
  fec_simpl. rewrite u64_id by lia.
  destruct (Z.eqb_spec (Z.of_nat (length (media_packets t ++ [src]))) k) as [Hk' | Hmore];
    rewrite length_app in *; cbn [length] in *.
  - rewrite Hf0, Hi0, Hu0, u32_id by lia.
    rewrite EncodeFec_Ok; fec_simpl; rewrite ?length_app; cbn [length]; rewrite ?Hk';
      try (done || lia || auto).
    rewrite bind_Ok. eexists _, _. split; [ reflexivity |].
    unfold fec_inv, represents, at_seq. fec_simpl. cbn [pending group produced].
    rewrite length_masks_after, HRb, <- app_assoc by (done || lia).
    split_and!; first [ done | cbn [length]; lia | by constructor ].
  - eexists _, _. split; [ reflexivity |]. unfold fec_inv, represents. fec_simpl.
    cbn [pending group produced]. rewrite length_app, HRb. cbn [length].
    split_and!; first [ done | lia ].
Qed.

(** ** Lengths *)

Lemma length_parity sel j ds acc n :
  Forall (fun d => length d = n) ds -> length acc = n -> length (parity sel j ds acc) = n.
Proof.
  revert j acc; induction ds as [| d ds IH ]; intros j acc Hds Ha; [ done |].
  apply Forall_cons_1 in Hds as [Hd Hds]. cbn. apply IH; [ done |].
  destruct (sel j); [ rewrite length_xor_bytes; lia | done ].
Qed.

Lemma fec_spec_data_length ty g k r ds l :
  Forall (fun d => length d = Z.to_nat kMaxDataSize) ds ->
  Forall (fun p => length (p_data p) = Z.to_nat kMaxDataSize) (map (fec_spec ty g k r ds) l).
Proof.
  intros Hds. apply Forall_fmap, Forall_true. intros i. cbn.
  apply length_parity; [ done |]. unfold zero_data. by rewrite length_replicate.
Qed.

Lemma padded_lengths ps ms :
  Forall (fun p => padded ps (p_data p)) ms ->
  Forall (fun d => length d = Z.to_nat kMaxDataSize) (map p_data ms).
Proof. induction 1 as [| p l [Hp _] ? IH ]; cbn; constructor; auto. Qed.

(** ** A stream of calls *)

(** Successive calls [PacketByFEC(buf, len, k, r)] on one object. *)
Fixpoint feed `{CheckMode} (garbage : list Z) (t : ForwardErrorCorrection) (k r : Z)
    (calls : list (list Z * Z)) : outcome ForwardErrorCorrection :=
  match calls with
  | [] => Ok t
  | (buf, len) :: calls =>
      '(t, _) ← PacketByFEC garbage t buf len k r;
      feed garbage t k r calls
  end.

Definition spec_feed (ps k r : Z) (calls : list (list Z * Z)) (s : spec_state) : spec_state :=
  foldl (fun s '(buf, len) => spec_step k r (stored ps len buf) s) s calls.

(** The buffer holds at least [ps] bytes, and [len] is a legal length. *)
Definition call_ok (ps : Z) (c : list Z * Z) : Prop :=
  0 <= snd c <= kMaxDataSize /\ ps <= Z.of_nat (length (fst c)).

Lemma feed_simulates `{mode : CheckMode} garbage t s k r ps calls :
  length garbage = 288%nat -> 1 <= r <= k -> k <= 48 -> (mode = true -> k <= 16) ->
  fec_inv k t -> represents t s -> Forall (call_ok ps) calls ->
  Forall (fun c => size_after t (snd c) = ps) (take 1 calls) ->
  exists t', feed garbage t k r calls = Ok t' /\ fec_inv k t' /\
    represents t' (spec_feed ps k r calls s) /\
    (calls <> [] -> fec_first_use t' = false /\ packet_size t' = ps).
Proof.
  intros Hg Hr Hk Hdbg. revert t s.
  induction calls as [| [buf len] calls IH ]; intros t s Hinv HR Hcalls Hps.
  { exists t. done. }
  apply Forall_cons_1 in Hcalls as [[Hlen Hbuf] Hcalls]. cbn [fst snd] in *.
  apply Forall_cons_1 in Hps as [Hps _]. cbn [snd] in Hps.
  destruct (PacketByFEC_simulates garbage t s buf len k r Hg Hr Hk Hdbg Hinv HR Hlen ltac:(lia))
    as (t' & buf' & HP & Hinv' & HR' & Hf' & Hs').
  cbn [feed spec_feed foldl]. rewrite HP, bind_Ok. rewrite Hps in *.
  destruct (IH t' _ Hinv' HR' Hcalls) as (t2 & HF & Hinv2 & HR2 & Hlast).
  { destruct calls; constructor; [| constructor ]. unfold size_after. by rewrite Hf'. }
  exists t2. split_and!; [ done | done | done |]. intros _.
  destruct calls; [ by simplify_eq/= | by apply Hlast ].
Qed.

(** How much a step, and a stream, produces. *)
Lemma spec_step_length k r d s :
  0 <= r -> Z.of_nat (length (pending s)) < k ->
  Z.of_nat (length (pending (spec_step k r d s))) = (Z.of_nat (length (pending s)) + 1) mod k /\
  Z.of_nat (length (produced (spec_step k r d s)))
    = Z.of_nat (length (produced s)) + 1 + r * ((Z.of_nat (length (pending s)) + 1) / k).
Proof.
  intros Hr Hs. unfold spec_step. rewrite length_app. cbn [length].
  destruct (Z.eqb_spec (Z.of_nat (length (pending s) + 1)) k) as [Hf | Hn];
    cbn [pending produced]; rewrite !length_app; cbn [length].
  - replace (Z.of_nat (length (pending s)) + 1) with k by lia.
    rewrite Z.mod_same, Z.div_same, length_map, length_seqZ by lia. split; lia.
  - rewrite Z.mod_small, Z.div_small by lia. split; lia.
Qed.

Lemma spec_feed_length ps k r calls s :
  0 <= r -> Z.of_nat (length (pending s)) < k ->
  Z.of_nat (length (produced (spec_feed ps k r calls s)))
    = Z.of_nat (length (produced s)) + Z.of_nat (length calls)
      + r * ((Z.of_nat (length (pending s)) + Z.of_nat (length calls)) / k).
Proof.
  intros Hr. revert s; induction calls as [| [buf len] calls IH ]; intros s Hs.
  { cbn [spec_feed foldl length]. rewrite Z.add_0_r, Z.div_small by lia. lia. }
  change (spec_feed ps k r ((buf, len) :: calls) s)
    with (spec_feed ps k r calls (spec_step k r (stored ps len buf) s)).
  destruct (spec_step_length k r (stored ps len buf) s Hr Hs) as [Hp Hq].
  set (p := Z.of_nat (length (pending s))) in *. set (n := Z.of_nat (length calls)).
  assert (Hm : 0 <= (p + 1) mod k < k) by (apply Z.mod_pos_bound; lia).
  rewrite IH by lia. rewrite Hp, Hq. fold n. cbn [length].
  replace (p + Z.of_nat (S (length calls))) with ((p + 1) mod k + n + (p + 1) / k * k)
    by (pose proof (Z.div_mod (p + 1) k); unfold n; lia).
  rewrite Z.div_add by lia. unfold n. lia.
Qed.

Lemma fec_inv_new k masks mask_size :
  1 <= k -> length masks = 288%nat -> fec_inv k (ForwardErrorCorrection_new masks mask_size).
Proof.
  intros. unfold fec_inv. cbn. unfold kMaxDataSize. split_and!; first [ done | lia | by constructor ].
Qed.

(** ** Theorems *)

(** C24. [EncodeFec] over [k] media packets returns [r] packets, in either build
    mode: packet [i] carries sequence number [k + i], the group number, [k] and
    [r] reduced to a byte, the first two bytes of row [i] of the mask, and as
    data the exclusive or of exactly the media payloads that row selects. *)
Theorem EncodeFec_parities (mode : CheckMode) garbage this media ty r :
  let k := Z.of_nat (length media) in
  1 <= r <= k -> k <= 48 -> (mode = true -> k <= 16) ->
  length garbage = 288%nat -> length (packet_masks_ this) = 288%nat ->
  sequence_number this = k -> 0 <= packet_size this <= kMaxDataSize ->
  Forall (fun p => padded (packet_size this) (p_data p)) media ->
  exists this' fecs,
    EncodeFec garbage this media r 0 false ty [] = Ok (this', fecs, r) /\
    length fecs = Z.to_nat r /\ sequence_number this' = k + r /\
    forall i, 0 <= i < r ->
      fecs !! Z.to_nat i = Some (mkPacket (row_mask ty k r i) (u8 (group_number this))
        (u8 (k + i)) (u8 k) (u8 r)
        (parity (protects ty k r i) 0 (map p_data media) zero_data)).
Proof.
  intros k Hr Hk Hdbg Hg Hm Hs Hps Hmed. eexists _, _. split_and!.
  - apply EncodeFec_Ok; auto; lia.
  - by rewrite length_map, length_seqZ.
  - reflexivity.
  - intros i Hi. rewrite list_lookup_fmap, lookup_seqZ_lt by lia. cbn.
    rewrite Z2Nat.id by lia. reflexivity.
Qed.

Lemma EncodeFec_parities_witness :
  let media := map (fun j => mkPacket 0 0 j 3 2 (replicate 4 (7 * j) ++ replicate 1996 0)) [0; 1; 2] in
  let this := set_numbers 5 3 (set_use false false 4 (ForwardErrorCorrection_new (replicate 288 1) 0)) in
  exists this' fecs,
    @EncodeFec true (replicate 288 9) this media 2 0 false kFecMaskRandom [] = Ok (this', fecs, 2) /\
    length fecs = Z.to_nat 2 /\ sequence_number this' = 3 + 2 /\
    forall i, 0 <= i < 2 ->
      fecs !! Z.to_nat i = Some (mkPacket (row_mask kFecMaskRandom 3 2 i) (u8 (group_number this))
        (u8 (3 + i)) (u8 3) (u8 2)
        (parity (protects kFecMaskRandom 3 2 i) 0 (map p_data media) zero_data)).
Proof.
  intros media this. apply (EncodeFec_parities true (replicate 288 9) this media kFecMaskRandom 2);
    try (cbn; lia); try reflexivity; [ unfold kMaxDataSize; cbn; lia |].
  repeat constructor.
Defined.

(** C17. [PacketByFEC] implements the group encoder: called [n] times on a fresh
    object with any buffers of at least the first call's size, it never faults,
    and leaves in [buffer_packets] exactly the stream of the specification:
    every source packet in order with its payload, zero padded, numbered from 0
    in its group, and after every [k] of them the [r] parities of that group,
    [n + r * (n / k)] packets in all. *)
Theorem PacketByFEC_refines (mode : CheckMode) garbage masks mask_size k r ps calls :
  length garbage = 288%nat -> length masks = 288%nat -> 1 <= r <= k -> k <= 16 ->
  Forall (call_ok ps) calls -> Forall (fun c => snd c = ps) (take 1 calls) ->
  exists t',
    feed garbage (ForwardErrorCorrection_new masks mask_size) k r calls = Ok t' /\
    buffer_packets t' = produced (spec_feed ps k r calls (mkSpec [] 0 [])) /\
    Z.of_nat (length (buffer_packets t'))
      = Z.of_nat (length calls) + r * (Z.of_nat (length calls) / k).
Proof.
  intros Hg Hm Hr Hk Hcalls Hps.
  assert (Hinv : fec_inv k (ForwardErrorCorrection_new masks mask_size))
    by (apply fec_inv_new; [ lia | done ]).
  assert (HR : represents (ForwardErrorCorrection_new masks mask_size) (mkSpec [] 0 [])) by done.
  destruct (feed_simulates garbage _ _ k r ps calls Hg Hr ltac:(lia) (fun _ => Hk) Hinv HR
    Hcalls Hps) as (t' & HF & _ & (_ & _ & HB) & _).
  exists t'. split_and!; [ done | done |].
  rewrite HB, spec_feed_length by (cbn [pending length]; lia). cbn [pending produced length].
  change (Z.of_nat 0) with 0. by rewrite !Z.add_0_l.
Qed.

Lemma PacketByFEC_refines_witness :
  let calls := [(replicate 2000 1, 3); (replicate 2000 2, 3); (replicate 2000 5, 2)] in
  exists t',
    @feed true (replicate 288 9) (ForwardErrorCorrection_new (replicate 288 1) 0) 2 1 calls = Ok t' /\
    buffer_packets t' = produced (spec_feed 3 2 1 calls (mkSpec [] 0 [])) /\
    Z.of_nat (length (buffer_packets t'))
      = Z.of_nat (length calls) + 1 * (Z.of_nat (length calls) / 2).
Proof.
  intros calls.
  apply (PacketByFEC_refines true (replicate 288 9) (replicate 288 1) 0 2 1 3 calls);
    try reflexivity; try lia; repeat constructor; cbn; unfold kMaxDataSize; lia.
Defined.
