(* ===== verification/Recovery.v ===== *)
(** * Lost packets can be rebuilt

    The receiver that consumes these packets is a library the repository ships
    only as binaries, so this file states what the encoder has to guarantee to
    any receiver: [decode] is the iterative erasure decoder the masks are
    designed for (a FEC packet with exactly one missing protected packet yields
    that packet, and the search starts again), and the theorems say which loss
    patterns it repairs when it is fed what [EncodeFec] produced. *)
From S2P Require Import Prelude.
From S2P Require Import MaskTable.
From S2P Require Import Packet.
From S2P Require Import Encoder.
From S2P Require Import EncoderFacts.
From stdpp Require Import base list list_numbers numbers option tactics.
From Stdlib Require Import ZArith Lia.

#[local] Open Scope Z_scope.

(** ** The decoder

    Generic in the payload: [decode xor_bytes] works on data, and the same code
    at the one-element type answers which patterns it repairs. *)

(** Numbers of the selected packets that have not arrived. *)
Fixpoint missing {A} (sel : Z -> bool) (j : Z) (ms : list (option A)) : list Z :=
  match ms with
  | [] => []
  | Some _ :: ms => missing sel (j + 1) ms
  | None :: ms => (if sel j then [j] else []) ++ missing sel (j + 1) ms
  end.

(** Combine a parity with the selected packets that have arrived. *)
Fixpoint strip {A} (f : A -> A -> A) (sel : Z -> bool) (j : Z) (ms : list (option A))
    (acc : A) : A :=
  match ms with
  | [] => acc
  | Some d :: ms => strip f sel (j + 1) ms (if sel j then f acc d else acc)
  | None :: ms => strip f sel (j + 1) ms acc
  end.

Definition try_row {A} (f : A -> A -> A) (sel : Z -> bool) (par : option A)
    (ms : list (option A)) : list (option A) :=
  match par, missing sel 0 ms with
  | Some p, [j] => <[Z.to_nat j := Some (strip f sel 0 ms p)]> ms
  | _, _ => ms
  end.

(** One pass over the FEC packets, the first of them numbered [i]. *)
Fixpoint pass {A} (f : A -> A -> A) (sel : Z -> Z -> bool) (i : Z)
    (fecs : list (option A)) (ms : list (option A)) : list (option A) :=
  match fecs with
  | [] => ms
  | par :: fecs => pass f sel (i + 1) fecs (try_row f (sel i) par ms)
  end.

Fixpoint decode {A} (f : A -> A -> A) (sel : Z -> Z -> bool) (fuel : nat)
    (fecs ms : list (option A)) : list (option A) :=
  match fuel with
  | O => ms
  | S fuel => decode f sel fuel fecs (pass f sel 0 fecs ms)
  end.

(** Keep the entries that arrived. *)
Definition receive {A} (got : list bool) (l : list A) : list (option A) :=
  zip_with (fun (b : bool) x => if b then Some x else None) got l.

(** The pattern: which of the [k] media and [r] FEC packets arrived. As many
    passes as media packets: a pass that repairs nothing changes nothing. *)
Definition recoverable (ty : FecMaskType) (k r : Z) (got_media got_fec : list bool) : bool :=
  forallb (fun m => bool_decide (is_Some m))
    (decode (fun _ _ => tt) (protects ty k r) (Z.to_nat k)
       (receive got_fec (replicate (length got_fec) tt))
       (receive got_media (replicate (length got_media) tt))).

(** ** The pattern decides the control flow *)

Definition shape {A} (l : list (option A)) : list (option unit) :=
  option_map (fun _ => tt) <$> l.

Lemma missing_shape {A} sel j (ms : list (option A)) :
  missing sel j (shape ms) = missing sel j ms.
Proof. revert j; induction ms as [| [] ms IH ]; intros j; cbn; f_equal; auto. Qed.

Lemma try_row_shape {A} (f : A -> A -> A) sel par ms :
  shape (try_row f sel par ms) = try_row (fun _ _ => tt) sel (option_map (fun _ => tt) par) (shape ms).
Proof.
  unfold try_row. rewrite missing_shape. destruct par; [| done ]. cbn.
  destruct (missing sel 0 ms) as [| j [| ? ? ]]; [ done | | done ].
  unfold shape. rewrite list_fmap_insert. cbn. by destruct (strip _ _ _ _ _).
Qed.

Lemma pass_shape {A} (f : A -> A -> A) sel i fecs ms :
  shape (pass f sel i fecs ms) = pass (fun _ _ => tt) sel i (shape fecs) (shape ms).
Proof.
  revert i ms; induction fecs as [| par fecs IH ]; intros i ms; [ done |].
  change (shape (par :: fecs)) with (option_map (fun _ => tt) par :: shape fecs).
  cbn [pass]. rewrite IH. f_equal. apply try_row_shape.
Qed.

Lemma decode_shape {A} (f : A -> A -> A) sel fuel fecs ms :
  shape (decode f sel fuel fecs ms) = decode (fun _ _ => tt) sel fuel (shape fecs) (shape ms).
Proof.
  revert ms; induction fuel as [| fuel IH ]; intros ms; [ done |].
  cbn [decode]. rewrite IH. f_equal. apply pass_shape.
Qed.

Lemma shape_receive {A} got (l : list A) :
  length got = length l ->
  shape (receive got l) = receive got (replicate (length got) tt).
Proof.
  revert l; induction got as [| [] got IH ]; intros [| x l] Hl; try discriminate; [ done | |];
    cbn in *; f_equal; apply IH; lia.
Qed.

(** ** Soundness: what is rebuilt is what was lost *)

(** Nothing known is wrong. *)
Definition consistent {A} (ms : list (option A)) (ds : list A) : Prop :=
  Forall2 (fun m d => m = None \/ m = Some d) ms ds.

Lemma xor_bytes_cancel_r a d : length a = length d -> xor_bytes (xor_bytes a d) d = a.
Proof.
  intros. rewrite <- xor_bytes_assoc, xor_bytes_comm.
  assert (Hz : xor_bytes d d = replicate (length d) 0).
  { clear. induction d; cbn; f_equal; auto using Z.lxor_nilpotent. }
  rewrite Hz. by apply xor_bytes_zero.
Qed.

Section Sound.
Variable n : nat.

Lemma parity_xor sel j ds acc d :
  Forall (fun d => length d = n) ds -> length acc = n -> length d = n ->
  xor_bytes (parity sel j ds acc) d = parity sel j ds (xor_bytes acc d).
Proof.
  revert j acc; induction ds as [| e ds IH ]; intros j acc Hds Ha Hd; [ done |].
  apply Forall_cons_1 in Hds as [He Hds]. cbn. rewrite IH; auto.
  - destruct (sel j); [| done ]. f_equal.
    by rewrite <- !xor_bytes_assoc, (xor_bytes_comm e d).
  - destruct (sel j); [| done ]. rewrite length_xor_bytes; lia.
Qed.

Lemma strip_parity sel j ms ds acc :
  consistent ms ds -> Forall (fun d => length d = n) ds -> length acc = n ->
  match missing sel j ms with
  | [] => strip xor_bytes sel j ms (parity sel j ds acc) = acc
  | [m] => exists d, ds !! Z.to_nat (m - j) = Some d /\ j <= m < j + Z.of_nat (length ds) /\
             strip xor_bytes sel j ms (parity sel j ds acc) = xor_bytes acc d
  | _ => True
  end.
Proof.
  intros Hc. revert j acc; induction Hc as [| m d ms ds Hmd Hc IH ]; intros j acc Hl Ha; [ done |].
  apply Forall_cons_1 in Hl as [Hd Hl]. cbn [missing strip parity length].
  destruct m as [d'|].
  - destruct Hmd as [|[= ->]]; [ discriminate |].
    assert (Hstep : (if sel j then xor_bytes (parity sel (j + 1) ds (if sel j then xor_bytes acc d else acc)) d
                     else parity sel (j + 1) ds (if sel j then xor_bytes acc d else acc))
                    = parity sel (j + 1) ds acc).
    { destruct (sel j); [| done ]. rewrite parity_xor; auto.
      - by rewrite xor_bytes_cancel_r by lia.
      - rewrite length_xor_bytes; lia. }
    rewrite Hstep. specialize (IH (j + 1) acc Hl Ha).
    destruct (missing sel (j + 1) ms) as [| m' [| ? ? ]]; auto.
    destruct IH as (d2 & Hlk & Hr & Heq). exists d2. split; [| split; [ lia | done ]].
    replace (Z.to_nat (m' - j)) with (S (Z.to_nat (m' - (j + 1)))) by lia. done.
  - destruct (sel j) eqn:Ej; cbn [app].
    + specialize (IH (j + 1) (xor_bytes acc d) Hl ltac:(rewrite length_xor_bytes; lia)).
      destruct (missing sel (j + 1) ms) as [| m' ?]; [| done ].
      exists d. rewrite Z.sub_diag. cbn. split; [ done | split; [ lia | exact IH ]].
    + specialize (IH (j + 1) acc Hl Ha).
      destruct (missing sel (j + 1) ms) as [| m' [| ? ? ]]; auto.
      destruct IH as (d2 & Hlk & Hr & Heq). exists d2. split; [| split; [ lia | done ]].
      replace (Z.to_nat (m' - j)) with (S (Z.to_nat (m' - (j + 1)))) by lia. done.
Qed.

Lemma try_row_consistent sel par ms ds :
  consistent ms ds -> Forall (fun d => length d = n) ds ->
  (forall p, par = Some p -> p = parity sel 0 ds (replicate n 0)) ->
  consistent (try_row xor_bytes sel par ms) ds.
Proof.
  intros Hc Hl Hp. unfold try_row. destruct par as [p|]; [| done ].
  rewrite (Hp p eq_refl).
  pose proof (strip_parity sel 0 ms ds (replicate n 0) Hc Hl (length_replicate _ _)) as HS.
  destruct (missing sel 0 ms) as [| j [| ? ? ]]; [ done | | done ].
  destruct HS as (d & Hd & Hj & ->). rewrite Z.sub_0_r in Hd.
  rewrite xor_bytes_zero by (by eapply (Forall_lookup_1 (fun d => length d = n))).
  rewrite <- (list_insert_id ds (Z.to_nat j) d) by done.
  apply Forall2_insert; [ done | by right ].
Qed.

Lemma pass_consistent sel i fecs ms ds :
  consistent ms ds -> Forall (fun d => length d = n) ds ->
  (forall m p, fecs !! m = Some (Some p) ->
     p = parity (sel (i + Z.of_nat m)) 0 ds (replicate n 0)) ->
  consistent (pass xor_bytes sel i fecs ms) ds.
Proof.
  revert i ms; induction fecs as [| par fecs IH ]; intros i ms Hc Hl Hp; [ done |].
  cbn. apply IH; [| done |].
  - apply try_row_consistent; [ done | done |]. intros p ->.
    rewrite (Hp 0%nat p eq_refl). by rewrite Z.add_0_r.
  - intros m p Hm. rewrite (Hp (S m) p Hm). do 2 f_equal. lia.
Qed.

Lemma decode_consistent sel fuel fecs ms ds :
  consistent ms ds -> Forall (fun d => length d = n) ds ->
  (forall m p, fecs !! m = Some (Some p) ->
     p = parity (sel (Z.of_nat m)) 0 ds (replicate n 0)) ->
  consistent (decode xor_bytes sel fuel fecs ms) ds.
Proof.
  revert ms; induction fuel as [| fuel IH ]; intros ms Hc Hl Hp; [ done |].
  cbn. apply IH; [| done | done ]. by apply pass_consistent.
Qed.

End Sound.

Lemma consistent_receive {A} got (l : list A) :
  length got = length l -> consistent (receive got l) l.
Proof.
  revert l; induction got as [| b got IH ]; intros [| x l] Hl; try discriminate; [ constructor |].
  cbn. constructor; [ destruct b; auto | apply IH; cbn in Hl; lia ].
Qed.

Lemma all_known {A} (ms : list (option A)) ds :
  consistent ms ds -> forallb (fun m => bool_decide (is_Some m)) (shape ms) = true ->
  ms = Some <$> ds.
Proof.
  induction 1 as [| m d ms ds Hmd Hc IH ]; [ done |]. cbn. intros Hb. bool_prop.
  destruct Hmd as [-> | ->]; [ discriminate |]. f_equal. auto.
Qed.

Lemma shape_known {A} (ds : list A) :
  forallb (fun m => bool_decide (is_Some m)) (shape (Some <$> ds)) = true.
Proof. induction ds; [ done |]. cbn. exact IHds. Qed.

(** The decoder succeeds exactly on the recoverable patterns, whatever the
    payloads are. *)
Lemma decode_recovers ty k r got_media got_fec ds :
  Z.of_nat (length ds) = k -> 0 <= r -> Forall (fun d => length d = Z.to_nat kMaxDataSize) ds ->
  length got_media = Z.to_nat k -> length got_fec = Z.to_nat r ->
  decode xor_bytes (protects ty k r) (Z.to_nat k)
    (receive got_fec (map (fun i => parity (protects ty k r i) 0 ds zero_data) (seqZ 0 r)))
    (receive got_media ds) = Some <$> ds
  <-> recoverable ty k r got_media got_fec = true.
Proof.
  intros Hk Hr0 Hl Hgm Hgf. set (out := decode _ _ _ _ _).
  assert (Hsh : forallb (fun m => bool_decide (is_Some m)) (shape out)
                = recoverable ty k r got_media got_fec).
  { unfold out. rewrite decode_shape, !shape_receive; [ done | lia |].
    rewrite length_map, length_seqZ. lia. }
  rewrite <- Hsh. split; [ intros ->; apply shape_known |]. apply all_known.
  apply (decode_consistent (Z.to_nat kMaxDataSize)); [ apply consistent_receive; lia | done |].
  intros m p Hm. unfold receive in Hm. rewrite lookup_zip_with_Some in Hm.
  destruct Hm as (b & x & Hbx & Hb & Hx). destruct b; [| discriminate ].
  injection Hbx as ->. apply list_lookup_fmap_Some in Hx as (i & -> & Hi).
  apply lookup_seqZ in Hi as [-> ?]. done.
Qed.

(** ** Bursts *)

(** Which packets arrive when the burst [start .. start + len) of the
    sequence media packets, FEC packets is lost. *)
Definition arrived (start len p : Z) : bool := negb ((start <=? p) && (p <? start + len)).
Definition burst_media (k start len : Z) : list bool := map (arrived start len) (seqZ 0 k).
Definition burst_fec (k r start len : Z) : list bool :=
  map (fun i => arrived start len (k + i)) (seqZ 0 r).

Definition bursts_recoverable (k m : Z) : bool :=
  all_between 1 m (fun len => all_between 0 (k + m - len) (fun start =>
    recoverable kFecMaskBursty k m (burst_media k start len) (burst_fec k m start len))).

Lemma bursty_table_bursts :
  all_between 1 12 (fun k => all_between 1 k (bursts_recoverable k)) = true.
Proof. vm_compute. reflexivity. Qed.

Lemma bursts_recoverable_at k m start len :
  1 <= m <= k -> k <= 12 -> 1 <= len <= m -> 0 <= start -> start + len <= k + m ->
  recoverable kFecMaskBursty k m (burst_media k start len) (burst_fec k m start len) = true.
Proof.
  intros Hm Hk Hl Hs He.
  pose proof (all_between_spec _ _ _ bursty_table_bursts k ltac:(lia)) as H1.
  pose proof (all_between_spec _ _ _ H1 m ltac:(lia)) as H2.
  pose proof (all_between_spec _ _ _ H2 len ltac:(lia)) as H3.
  exact (all_between_spec _ _ _ H3 start ltac:(lia)).
Qed.

(** ** Reading the protection from the packet headers

    A receiver has no table: it learns which media packets a FEC packet
    protects from the [packet_mask] field, byte [j / 8], bit [7 - j % 8]. *)
Definition header_protects (p : Packet) (j : Z) : bool :=
  Z.testbit (packet_mask p) (8 * (j / 8) + (7 - j mod 8)).

Definition header_sel (fecs : list Packet) (i j : Z) : bool :=
  header_protects (fecs !!! Z.to_nat i) j.

(** The field of row [i] of the mask [m] agrees with its bits. *)
Definition header_agrees (m : list Z) (k r : Z) : bool :=
  all_between 0 (r - 1) (fun i => all_between 0 (k - 1) (fun j =>
    Bool.eqb (Z.testbit (le_value (take 2 (drop (Z.to_nat (i * row_bytes k)) m)))
                (8 * (j / 8) + (7 - j mod 8)))
             (mask_bit m (row_bytes k) i j))).

Lemma headers_agree :
  forallb (fun ty => all_between 1 16 (fun k => all_between 1 k (fun r =>
    header_agrees (mask_of ty k r) k r))) [kFecMaskRandom; kFecMaskBursty] = true.
Proof. vm_compute. reflexivity. Qed.

(** Up to sixteen media packets the header carries the whole row. *)
Lemma header_protects_spec ty g k r ds i j :
  1 <= r <= k -> k <= 16 -> 0 <= i < r -> 0 <= j < k ->
  header_protects (fec_spec ty g k r ds i) j = protects ty k r i j.
Proof.
  intros Hr Hk Hi Hj. unfold header_protects. cbn [fec_spec packet_mask].
  pose proof headers_agree as Hall. cbn [forallb] in Hall.
  repeat apply andb_true_iff in Hall as [? Hall]. apply eqb_prop.
  destruct ty;
    [ pose proof (all_between_spec _ _ _ H k ltac:(lia)) as H1
    | pose proof (all_between_spec _ _ _ H0 k ltac:(lia)) as H1 ];
    pose proof (all_between_spec _ _ _ H1 r ltac:(lia)) as H2;
    pose proof (all_between_spec _ _ _ H2 i ltac:(lia)) as H3;
    exact (all_between_spec _ _ _ H3 j ltac:(lia)).
Qed.

(** ** The decoder looks only at the rows and columns that exist *)

Lemma missing_ext {A} sel sel' j (ms : list (option A)) :
  (forall x, j <= x < j + Z.of_nat (length ms) -> sel x = sel' x) ->
  missing sel j ms = missing sel' j ms.
Proof.
  revert j; induction ms as [| [] ms IH ]; intros j Hs; [ done | |]; cbn [length] in Hs;
    cbn [missing]; rewrite ?(Hs j) by lia; rewrite (IH (j + 1)); try done; intros; apply Hs; lia.
Qed.

Lemma strip_ext {A} (f : A -> A -> A) sel sel' j ms acc :
  (forall x, j <= x < j + Z.of_nat (length ms) -> sel x = sel' x) ->
  strip f sel j ms acc = strip f sel' j ms acc.
Proof.
  revert j acc; induction ms as [| [] ms IH ]; intros j acc Hs; [ done | |]; cbn [length] in Hs;
    cbn [strip]; rewrite ?(Hs j) by lia; apply IH; intros; apply Hs; lia.
Qed.

Lemma length_try_row {A} (f : A -> A -> A) sel par ms :
  length (try_row f sel par ms) = length ms.
Proof.
  unfold try_row. destruct par; [| done ].
  destruct (missing sel 0 ms) as [| j [| ? ? ]]; try done. apply length_insert.
Qed.

Lemma try_row_ext {A} (f : A -> A -> A) sel sel' par ms :
  (forall x, 0 <= x < Z.of_nat (length ms) -> sel x = sel' x) ->
  try_row f sel par ms = try_row f sel' par ms.
Proof.
  intros Hs. unfold try_row. destruct par; [| done ].
  rewrite (missing_ext sel sel') by (intros; apply Hs; lia).
  destruct (missing sel' 0 ms) as [| j [| ? ? ]]; try done.
  by rewrite (strip_ext f sel sel') by (intros; apply Hs; lia).
Qed.

Lemma pass_ext {A} (f : A -> A -> A) sel sel' i fecs ms k :
  length ms = k ->
  (forall y x, i <= y < i + Z.of_nat (length fecs) -> 0 <= x < Z.of_nat k -> sel y x = sel' y x) ->
  pass f sel i fecs ms = pass f sel' i fecs ms /\ length (pass f sel i fecs ms) = k.
Proof.
  revert i ms; induction fecs as [| par fecs IH ]; intros i ms Hk Hs; [ done |].
  cbn [length] in Hs. cbn [pass].
  rewrite (try_row_ext f (sel i) (sel' i)) by (intros; apply Hs; lia).
  apply IH; [ by rewrite length_try_row |]. intros; apply Hs; lia.
Qed.

Lemma decode_ext {A} (f : A -> A -> A) sel sel' fuel fecs ms k :
  length ms = k ->
  (forall y x, 0 <= y < Z.of_nat (length fecs) -> 0 <= x < Z.of_nat k -> sel y x = sel' y x) ->
  decode f sel fuel fecs ms = decode f sel' fuel fecs ms.
Proof.
  revert ms; induction fuel as [| fuel IH ]; intros ms Hk Hs; [ done |].
  destruct (pass_ext f sel sel' 0 fecs ms k Hk Hs) as [Heq Hl]. cbn [decode].
  rewrite <- Heq. by apply IH.
Qed.

(** ** Encoding, losing, decoding *)

(** Everything an [EncodeFec] call of the library needs. *)
Definition encodable (this : ForwardErrorCorrection) (media : list Packet) (garbage : list Z) (r : Z)
    : Prop :=
  let k := Z.of_nat (length media) in
  1 <= r <= k /\ k <= 16 /\
  length garbage = 288%nat /\ length (packet_masks_ this) = 288%nat /\
  sequence_number this = k /\ 0 <= packet_size this <= kMaxDataSize /\
  Forall (fun p => padded (packet_size this) (p_data p)) media.

Lemma encode_decode `{CheckMode} this media garbage ty r got_media got_fec :
  let k := Z.of_nat (length media) in
  encodable this media garbage r ->
  length got_media = length media -> length got_fec = Z.to_nat r ->
  exists this' fecs,
    EncodeFec garbage this media r 0 false ty [] = Ok (this', fecs, r) /\
    (decode xor_bytes (header_sel fecs) (length media)
       (receive got_fec (map p_data fecs)) (receive got_media (map p_data media))
     = Some <$> map p_data media
     <-> recoverable ty k r got_media got_fec = true).
Proof.
  intros k (Hr & Hk & Hg & Hm & Hs & Hps & Hmed) Hgm Hgf. fold k in Hr, Hk, Hs.
  eexists _, _. split.
  { apply EncodeFec_Ok; auto; lia. }
  set (fecs := map _ (seqZ 0 r)).
  assert (Hlf : length fecs = Z.to_nat r) by (unfold fecs; by rewrite length_map, length_seqZ).
  rewrite (decode_ext _ (header_sel fecs) (protects ty k r) _ _ _ (length media)).
  - rewrite <- (decode_recovers ty k r got_media got_fec (map p_data media)); auto; try lia.
    + unfold fecs. rewrite map_map. cbn [fec_spec p_data]. fold k.
      by replace (Z.to_nat k) with (length media) by lia.
    + by rewrite length_map.
    + clear -Hmed. induction Hmed as [| p l [Hp _] ? IH ]; cbn; constructor; auto.
  - unfold receive. rewrite length_zip_with, length_map. lia.
  - unfold receive. rewrite length_zip_with, length_map, Hlf, Hgf. intros y x Hy Hx.
    unfold header_sel, fecs.
    erewrite list_lookup_total_correct; cycle 1.
    { rewrite list_lookup_fmap, lookup_seqZ_lt by lia. reflexivity. }
    rewrite Z2Nat.id, Z.add_0_l by lia. fold k. apply header_protects_spec; lia.
Qed.

(** ** The sender's configuration, ten media and two FEC packets *)

Definition all_but (k : Z) (lost : list Z) : list bool :=
  map (fun j => negb (existsb (Z.eqb j) lost)) (seqZ 0 k).

Lemma deployed_pairs :
  all_between 0 9 (fun a => all_between (a + 1) 9 (fun b =>
    Bool.eqb (recoverable kFecMaskRandom 10 2 (all_but 10 [a; b]) (all_but 2 []))
             ((a =? 0) || Z.odd (a + b)))) = true.
Proof. vm_compute. reflexivity. Qed.

(** A concrete group, for the witnesses. *)
Definition sample_media (k : nat) : list Packet :=
  map (fun j => mkPacket 0 0 (Z.of_nat j) (Z.of_nat k) 2
                  (replicate 4 (Z.of_nat j) ++ replicate 1996 0)) (seq 0 k).

Definition sample_fec (k : Z) : ForwardErrorCorrection :=
  set_numbers 0 k (set_use false false 4 (ForwardErrorCorrection_new (replicate 288 0) 0)).

Lemma sample_encodable k r :
  1 <= r <= Z.of_nat k -> Z.of_nat k <= 16 ->
  encodable (sample_fec (Z.of_nat k)) (sample_media k) (replicate 288 0) r.
Proof.
  intros. unfold encodable. assert (Hl : length (sample_media k) = k)
    by (unfold sample_media; by rewrite length_map, length_seq).
  rewrite Hl. cbn [sample_fec set_numbers set_use packet_masks_ sequence_number packet_size
                   ForwardErrorCorrection_new].
  split_and!; try lia; [ done | done | unfold kMaxDataSize; lia |].
  unfold sample_media. apply Forall_fmap, Forall_true. intros j. split; reflexivity.
Qed.

(** ** Theorems *)



(** With the bursty table, whenever at most [r] consecutive packets of a
    group of up to twelve media packets and its [r] FEC packets are lost, every
    media payload is rebuilt. This is the property
    [fec_private_tables_bursty.h] claims for its masks. *)
Theorem bursty_masks_repair_bursts (mode : CheckMode) this media garbage r start len :
  let k := Z.of_nat (length media) in
  encodable this media garbage r -> k <= 12 ->
  1 <= len <= r -> 0 <= start -> start + len <= k + r ->
  exists this' fecs,
    EncodeFec garbage this media r 0 false kFecMaskBursty [] = Ok (this', fecs, r) /\
    decode xor_bytes (header_sel fecs) (length media)
      (receive (burst_fec k r start len) (map p_data fecs))
      (receive (burst_media k start len) (map p_data media))
    = Some <$> map p_data media.
Proof.
  intros k He Hk Hl Hs Hend. pose proof He as (Hr & _).
  destruct (encode_decode this media garbage kFecMaskBursty r
    (burst_media k start len) (burst_fec k r start len) He) as (t' & fecs & HE & Hiff).
  - unfold burst_media. rewrite length_map, length_seqZ. lia.
  - unfold burst_fec. by rewrite length_map, length_seqZ.
  - exists t', fecs. split; [ done |]. apply Hiff, bursts_recoverable_at; lia.
Qed.

Lemma bursty_masks_repair_bursts_witness :
  exists this' fecs,
    @EncodeFec true (replicate 288 0) (sample_fec 5) (sample_media 5) 3 0 false
      kFecMaskBursty [] = Ok (this', fecs, 3) /\
    decode xor_bytes (header_sel fecs) (length (sample_media 5))
      (receive (burst_fec 5 3 2 3) (map p_data fecs))
      (receive (burst_media 5 2 3) (map p_data (sample_media 5)))
    = Some <$> map p_data (sample_media 5).
Proof.
  apply (bursty_masks_repair_bursts true (sample_fec 5) (sample_media 5) (replicate 288 0) 3 2 3);
    [ apply (sample_encodable 5); lia | cbn; lia .. ].
Defined.

(** In the configuration of the sender (ten media packets, two FEC packets,
    the random table), of two lost media packets [a < b] both are rebuilt
    exactly when [a] is the first packet of the group or one of the two numbers
    is odd and the other even. *)
Theorem deployed_double_loss (mode : CheckMode) this media garbage a b :
  length media = 10%nat -> encodable this media garbage 2 -> 0 <= a < b -> b <= 9 ->
  exists this' fecs,
    EncodeFec garbage this media 2 0 false fec_mask_type [] = Ok (this', fecs, 2) /\
    (decode xor_bytes (header_sel fecs) (length media)
       (receive (all_but 2 []) (map p_data fecs))
       (receive (all_but 10 [a; b]) (map p_data media))
     = Some <$> map p_data media
     <-> a = 0 \/ Z.odd (a + b) = true).
Proof.
  intros Hlen He Ha Hb.
  destruct (encode_decode this media garbage fec_mask_type 2
    (all_but 10 [a; b]) (all_but 2 []) He) as (t' & fecs & HE & Hiff).
  - unfold all_but. by rewrite length_map, length_seqZ, Hlen.
  - reflexivity.
  - exists t', fecs. split; [ done |]. rewrite Hiff, Hlen.
    pose proof (all_between_spec _ _ _ deployed_pairs a ltac:(lia)) as H1.
    pose proof (all_between_spec _ _ _ H1 b ltac:(lia)) as H2.
    apply eqb_prop in H2. change (Z.of_nat 10) with 10. unfold fec_mask_type. rewrite H2.
    rewrite orb_true_iff, Z.eqb_eq. done.
Qed.

Lemma deployed_double_loss_witness :
  exists this' fecs,
    @EncodeFec true (replicate 288 0) (sample_fec 10) (sample_media 10) 2 0 false
      fec_mask_type [] = Ok (this', fecs, 2) /\
    (decode xor_bytes (header_sel fecs) (length (sample_media 10))
       (receive (all_but 2 []) (map p_data fecs))
       (receive (all_but 10 [2; 4]) (map p_data (sample_media 10)))
     = Some <$> map p_data (sample_media 10)
     <-> 2 = 0 \/ Z.odd (2 + 4) = true).
Proof.
  apply (deployed_double_loss true (sample_fec 10) (sample_media 10) (replicate 288 0) 2 4);
    [ reflexivity | apply (sample_encodable 10); lia | lia | lia ].
Defined.

(** In the configuration of the sender the loss of any single packet of
    the group of twelve, media or FEC, leaves every media payload available. *)
Theorem deployed_single_loss (mode : CheckMode) this media garbage lost :
  length media = 10%nat -> encodable this media garbage 2 -> 0 <= lost < 12 ->
  exists this' fecs,
    EncodeFec garbage this media 2 0 false fec_mask_type [] = Ok (this', fecs, 2) /\
    decode xor_bytes (header_sel fecs) (length media)
      (receive (all_but 2 [lost - 10]) (map p_data fecs))
      (receive (all_but 10 [lost]) (map p_data media))
    = Some <$> map p_data media.
Proof.
  intros Hlen He Hlost.
  destruct (encode_decode this media garbage fec_mask_type 2
    (all_but 10 [lost]) (all_but 2 [lost - 10]) He) as (t' & fecs & HE & Hiff).
  - unfold all_but. by rewrite length_map, length_seqZ, Hlen.
  - reflexivity.
  - exists t', fecs. split; [ done |]. apply Hiff. rewrite Hlen.
    assert (Hall : all_between 0 11 (fun l =>
      recoverable kFecMaskRandom 10 2 (all_but 10 [l]) (all_but 2 [l - 10])) = true)
      by (vm_compute; reflexivity).
    exact (all_between_spec _ _ _ Hall lost ltac:(lia)).
Qed.

Lemma deployed_single_loss_witness :
  exists this' fecs,
    @EncodeFec false (replicate 288 0) (sample_fec 10) (sample_media 10) 2 0 false
      fec_mask_type [] = Ok (this', fecs, 2) /\
    decode xor_bytes (header_sel fecs) (length (sample_media 10))
      (receive (all_but 2 [7 - 10]) (map p_data fecs))
      (receive (all_but 10 [7]) (map p_data (sample_media 10)))
    = Some <$> map p_data (sample_media 10).
Proof.
  apply (deployed_single_loss false (sample_fec 10) (sample_media 10) (replicate 288 0) 7);
    [ reflexivity | apply (sample_encodable 10); lia | lia ].
Defined.
