(* ===== verification/Sender.v ===== *)
(** * The library's own sending loop

    [SendByUlpfec] of [Encoder]: what it puts on the wire when every [sendto]
    succeeds, and what it does after one fails. *)
From S2P Require Import Prelude.
From S2P Require Import MaskTable.
From S2P Require Import Packet.
From S2P Require Import Encoder.
From S2P Require Import EncoderFacts.
From stdpp Require Import base list list_numbers numbers option tactics.
From Stdlib Require Import ZArith Lia.

#[local] Open Scope Z_scope.

(** ** One datagram *)

Lemma datagram_Ok gb p ps :
  length gb = 2006%nat -> length (p_data p) = Z.to_nat kMaxDataSize -> 0 <= ps <= kMaxDataSize ->
  datagram gb p ps = Ok (packet_bytes p ps).
Proof.
  intros Hgb Hd Hps. unfold kMaxDataSize in *. unfold datagram.
  rewrite <- (blit_nil 0 gb). rewrite u64_id by lia.
  repeat (rewrite memcpy_append, bind_Ok
            by (rewrite ?length_app, ?length_take, ?length_le_bytes; cbn; lia)).
  pose proof (length_packet_bytes p ps ltac:(lia)) as Hl.
  match goal with |- slice (blit 0 ?b gb) _ _ = _ => change b with (packet_bytes p ps) end.
  unfold slice. rewrite length_blit by lia. rewrite Hgb, !(proj2 (Z.leb_le _ _)) by lia.
  cbn [andb]. change (Z.to_nat 0) with 0%nat. rewrite drop_0.
  f_equal. apply take_blit_0. lia.
Qed.

(** ** Every send succeeds *)

Definition always : nat -> bool := fun _ => true.

Lemma u32_add a b : u32 (u32 a + b) = u32 (a + b).
Proof. unfold u32. apply Zplus_mod_idemp_l. Qed.

Definition add_fec_totals (n : Z) (t : ForwardErrorCorrection) : ForwardErrorCorrection :=
  set_totals (u32 (total_sent_packets t + n)) (total_sent_src_packets t)
    (u32 (total_sent_fec_packets t + n)) t.

Definition totals_ok (t : ForwardErrorCorrection) : Prop :=
  0 <= total_sent_packets t < 2 ^ 32 /\ 0 <= total_sent_src_packets t < 2 ^ 32 /\
  0 <= total_sent_fec_packets t < 2 ^ 32.

Lemma u32_range z : 0 <= u32 z < 2 ^ 32.
Proof. apply Z.mod_pos_bound. lia. Qed.

Lemma totals_ok_set a s f t :
  0 <= s < 2 ^ 32 -> 0 <= f < 2 ^ 32 -> totals_ok (set_totals (u32 a) s f t).
Proof. intros. split; [ apply u32_range | by split ]. Qed.

Lemma send_fecs_Ok gb t wire fecs :
  length gb = 2006%nat -> 0 <= packet_size t <= kMaxDataSize -> totals_ok t ->
  Forall (fun p => length (p_data p) = Z.to_nat kMaxDataSize) fecs ->
  send_fecs gb always t wire fecs =
    Ok (add_fec_totals (Z.of_nat (length fecs)) t,
        wire ++ map (fun p => packet_bytes p (packet_size t)) fecs, true).
Proof.
  intros Hgb. revert t wire; induction fecs as [| p fecs IH ]; intros t wire Hps Ht Hl.
  { cbn. unfold add_fec_totals. destruct Ht as (? & ? & ?).
    rewrite app_nil_r, !Z.add_0_r, !u32_id by lia. by destruct t. }
  apply Forall_cons_1 in Hl as [Hp Hl]. cbn [send_fecs].
  rewrite datagram_Ok, bind_Ok by done. cbn [always].
  rewrite IH; [| by fec_simpl
    | destruct Ht as (? & ? & ?); apply totals_ok_set; auto using u32_range | done ].
  unfold add_fec_totals. fec_simpl. rewrite !u32_add. cbn [map length].
  rewrite <- app_assoc, <- !Z.add_assoc. cbn [app].
  by replace (1 + Z.of_nat (length fecs)) with (Z.of_nat (S (length fecs))) by lia.
Qed.

(** The state and the abstract one, for an object that does not buffer. *)
Definition sends (t : ForwardErrorCorrection) (s : spec_state) (wire : list (list Z)) : Prop :=
  map p_data (media_packets t) = pending s /\ group_number t = group s /\
  wire = map (fun p => packet_bytes p (packet_size t)) (produced s) /\
  fec_last_use t = false /\ totals_ok t /\
  total_sent_packets t = u32 (Z.of_nat (length wire)).

Lemma SendByUlpfec_simulates `{mode : CheckMode} garbage gb t s wire buf len k r :
  length garbage = 288%nat -> length gb = 2006%nat ->
  1 <= r <= k -> k <= 48 -> (mode = true -> k <= 16) ->
  fec_inv k t -> sends t s wire -> (fec_first_use t = true -> produced s = []) ->
  0 <= len <= kMaxDataSize -> size_after t len <= len -> size_after t len <= Z.of_nat (length buf) ->
  exists t' wire', SendByUlpfec garbage gb always t wire buf len k r = Ok (t', wire', buf) /\
    fec_inv k t' /\ sends t' (spec_step k r (stored (size_after t len) len buf) s) wire' /\
    fec_first_use t' = false /\ packet_size t' = size_after t len /\
    total_sent_src_packets t' = u32 (total_sent_src_packets t + 1).
Proof.
  intros Hg Hgb Hr Hk Hdbg Hinv (HRp & HRg & HRw & HRl & (_ & Hts & Htf) & HRn) Hfw Hlen Hfull Hbuf.
  pose proof Hinv as (Hml & Hi0 & Hu0 & Hf0 & Hseq & Hlt & Hps & _ & _).
  assert (Hsa : 0 <= size_after t len <= kMaxDataSize)
    by (unfold size_after; destruct (fec_first_use t); lia).
  assert (Hw : wire = map (fun p => packet_bytes p (size_after t len)) (produced s)).
  { rewrite HRw. unfold size_after. destruct (fec_first_use t); [ by rewrite Hfw | done ]. }
  destruct (make_source_packet_Ok t buf len k r Hlen Hsa Hbuf ltac:(lia))
    as (last & buf' & _ & Hsame & HM). destruct (Hsame Hfull) as [-> ->].
  unfold SendByUlpfec. rewrite HM, bind_Ok. clear HM.
  rewrite (spec_step_object t s k r _ HRp HRg Hseq). cbn zeta.
  set (d := stored _ _ _). set (src := source_spec _ _ _ _ _).
  assert (Hd : padded (size_after t len) d) by (apply padded_stored; lia).
  pose proof (media_padded k t len src Hinv Hd) as Hmed.
  fec_simpl. rewrite datagram_Ok, bind_Ok by (done || apply Hd). cbn [always negb].
  rewrite u64_id by lia. fec_simpl.
  destruct (Z.eqb_spec (Z.of_nat (length (media_packets t ++ [src]))) k) as [Hk' | Hmore].
  - assert (Hs1 : sequence_number t + 1 = k) by (rewrite length_app in Hk'; cbn in Hk'; lia).
    rewrite Hf0, Hi0, Hu0, (u32_id r) by lia.
    rewrite EncodeFec_Ok; fec_simpl; rewrite ?Hk'; try (done || lia || auto).
    rewrite bind_Ok, send_fecs_Ok; unfold at_seq; fec_simpl;
      [| done | done | by apply totals_ok_set; auto using u32_range
       | eapply fec_spec_data_length, padded_lengths, Hmed ].
    rewrite !bind_Ok. unfold add_fec_totals. fec_simpl. rewrite HRl. cbn [andb].
    eexists _, _. split; [ reflexivity |]. unfold fec_inv, sends, totals_ok. fec_simpl.
    cbn [pending group produced]. rewrite length_masks_after, (map_app _ (produced s)) by (done || lia).
    rewrite HRn, !u32_add, <- (Z.add_assoc (u32 _)), u32_add, !length_app, !length_map, Hw, <- app_assoc.
    split_and!; first [ done | cbn [length]; lia | by constructor | apply u32_range
                      | f_equal; cbn [length]; lia ].
  - eexists _, _. rewrite bind_Ok. fec_simpl. rewrite HRl, andb_false_r. split; [ reflexivity |].
    unfold fec_inv, sends, totals_ok. fec_simpl.
    cbn [pending group produced]. rewrite HRn, !u32_add, (map_app _ (produced s)), <- Hw.
    rewrite !length_app in *. cbn [length] in *.
    split_and!; first [ done | lia | apply u32_range | f_equal; lia ].
Qed.

(** Successive calls [SendByUlpfec(so, buf, len, ..., k, r, bitrate)]. *)
Fixpoint send_calls `{CheckMode} (garbage gb : list Z) (net : nat -> bool)
    (t : ForwardErrorCorrection) (wire : list (list Z)) (k r : Z) (calls : list (list Z * Z))
    : outcome (ForwardErrorCorrection * list (list Z)) :=
  match calls with
  | [] => Ok (t, wire)
  | (buf, len) :: calls =>
      '(t, wire, _) ← SendByUlpfec garbage gb net t wire buf len k r;
      send_calls garbage gb net t wire k r calls
  end.

(** A call with a chunk of full size. *)
Definition full_call (ps : Z) (c : list Z * Z) : Prop :=
  ps <= snd c <= kMaxDataSize /\ ps <= Z.of_nat (length (fst c)).

Lemma send_calls_simulates `{mode : CheckMode} garbage gb t s wire k r ps calls :
  length garbage = 288%nat -> length gb = 2006%nat ->
  1 <= r <= k -> k <= 48 -> (mode = true -> k <= 16) -> 0 <= ps ->
  fec_inv k t -> sends t s wire -> (fec_first_use t = true -> produced s = []) ->
  (fec_first_use t = false -> packet_size t = ps) ->
  Forall (full_call ps) calls -> Forall (fun c => size_after t (snd c) = ps) (take 1 calls) ->
  exists t' wire', send_calls garbage gb always t wire k r calls = Ok (t', wire') /\
    sends t' (spec_feed ps k r calls s) wire' /\ (calls <> [] -> packet_size t' = ps) /\
    total_sent_src_packets t' = u32 (total_sent_src_packets t + Z.of_nat (length calls)).
Proof.
  intros Hg Hgb Hr Hk Hdbg Hps. revert t s wire.
  induction calls as [| [buf len] calls IH ]; intros t s wire Hinv HR Hfw Hpt Hcalls Hsz.
  { exists t, wire. destruct HR as (? & ? & ? & ? & (? & ? & ?) & ?). cbn [length].
    rewrite Z.add_0_r, u32_id by lia. done. }
  apply Forall_cons_1 in Hcalls as [[Hlen Hbuf] Hcalls]. apply Forall_cons_1 in Hsz as [Hsz _].
  cbn [fst snd] in *.
  destruct (SendByUlpfec_simulates garbage gb t s wire buf len k r) as
    (t' & wire' & HS & Hinv' & HR' & Hf' & Hp' & Hts); try (done || lia). rewrite Hsz in *.
  cbn [send_calls]. rewrite HS, bind_Ok.
  destruct (IH t' _ wire' Hinv' HR') as (t2 & wire2 & HC & HR2 & Hp2 & Hts2); try congruence.
  { destruct calls; constructor; [| constructor ]. unfold size_after. by rewrite Hf'. }
  exists t2, wire2. split_and!; [ done | done | |].
  - intros _. destruct calls; [| by apply Hp2 ]. cbn in HC. congruence.
  - rewrite Hts2, Hts, u32_add. f_equal. cbn [length]. lia.
Qed.

(** ** A [sendto] fails on the last packet of a group *)

(** What one more call does once the group is overfull. *)
Lemma SendByUlpfec_overfull `{mode : CheckMode} garbage gb net t wire buf len k r :
  length gb = 2006%nat -> 0 <= k <= Z.of_nat (length (media_packets t)) ->
  0 <= sequence_number t < 2 ^ 31 - 1 ->
  fec_first_use t = false -> fec_last_use t = false ->
  full_call (packet_size t) (buf, len) -> 0 <= packet_size t ->
  exists t' d, SendByUlpfec garbage gb net t wire buf len k r = Ok (t', wire ++ [d], buf) /\
    length (media_packets t') = S (length (media_packets t)) /\
    sequence_number t' = sequence_number t + 1 /\
    fec_first_use t' = false /\ fec_last_use t' = false /\ packet_size t' = packet_size t /\
    total_sent_fec_packets t' = total_sent_fec_packets t /\ le_value (take 2 d) = 0.
Proof.
  intros Hgb Hk Hseq Hf Hl [Hlen Hbuf] Hps. cbn [fst snd] in *.
  assert (Hsa : size_after t len = packet_size t) by (unfold size_after; by rewrite Hf).
  destruct (make_source_packet_Ok t buf len k r) as (last & buf' & _ & Hsame & HM);
    rewrite ?Hsa; try lia.
  destruct Hsame as [-> ->]; [ lia |].
  unfold SendByUlpfec. rewrite HM, bind_Ok, Hsa. clear HM. fec_simpl.
  rewrite datagram_Ok, bind_Ok; [| done | cbn; apply padded_stored; lia | lia ]. cbn [always].
  destruct (net (length wire)); cbn [negb]; fec_simpl.
  - rewrite length_app. cbn [length].
    assert ((Z.of_nat (length (media_packets t) + 1) =? u64 k) = false) as ->.
    { apply Z.eqb_neq. unfold u64. pose proof (Z.mod_le k (2 ^ 64)). lia. }
    rewrite bind_Ok. fec_simpl. rewrite Hl, andb_false_r.
    eexists _, _. split; [ reflexivity |]. fec_simpl. rewrite length_app. cbn [length].
    split_and!; first [ done | lia ].
  - eexists _, _. split; [ reflexivity |]. fec_simpl. rewrite length_app. cbn [length].
    split_and!; first [ done | lia ].
Qed.

Lemma send_calls_overfull `{mode : CheckMode} garbage gb net t wire k r calls :
  length gb = 2006%nat -> 0 <= k <= Z.of_nat (length (media_packets t)) ->
  0 <= sequence_number t -> sequence_number t + Z.of_nat (length calls) < 2 ^ 31 ->
  fec_first_use t = false -> fec_last_use t = false -> 0 <= packet_size t ->
  Forall (full_call (packet_size t)) calls ->
  exists t' ds, send_calls garbage gb net t wire k r calls = Ok (t', wire ++ ds) /\
    length ds = length calls /\ Forall (fun d => le_value (take 2 d) = 0) ds /\
    length (media_packets t') = (length (media_packets t) + length calls)%nat /\
    total_sent_fec_packets t' = total_sent_fec_packets t.
Proof.
  intros Hgb. revert t wire; induction calls as [| [buf len] calls IH ];
    intros t wire Hk Hs Hb Hf Hl Hps Hcalls.
  { exists t, []. rewrite app_nil_r, Nat.add_0_r. done. }
  apply Forall_cons_1 in Hcalls as [Hc Hcalls]. cbn [length] in *.
  destruct (SendByUlpfec_overfull garbage gb net t wire buf len k r) as
    (t' & d & HS & Hm & Hq & Hf' & Hl' & Hp & Ht & Hd); try (done || lia).
  cbn [send_calls]. rewrite HS, bind_Ok. rewrite <- Hp in Hcalls.
  destruct (IH t' (wire ++ [d])) as (t2 & ds & HC & Hlen & HF & Hm2 & Ht2); try (done || lia).
  exists t2, (d :: ds). rewrite <- app_assoc in HC. cbn [length].
  split_and!; [ done | lia | by constructor | lia | congruence ].
Qed.

(** ** Theorems *)



(** If [sendto] fails for the last source packet of a group, [SendByUlpfec]
    returns with that packet already queued, the group is never closed, and no
    FEC packet is sent again: whatever the network does afterwards, every later
    call with a full chunk sends one source packet (mask 0), and the list of
    queued packets keeps growing. *)
Theorem SendByUlpfec_stuck (mode : CheckMode) garbage gb net t wire k r buf len calls :
  length gb = 2006%nat -> 1 <= k ->
  Z.of_nat (length (media_packets t)) = k - 1 -> sequence_number t = k - 1 ->
  fec_first_use t = false -> fec_last_use t = false -> 0 <= packet_size t ->
  net (length wire) = false ->
  k + Z.of_nat (length calls) < 2 ^ 31 ->
  Forall (full_call (packet_size t)) ((buf, len) :: calls) ->
  exists t' d ds,
    send_calls garbage gb net t wire k r ((buf, len) :: calls) = Ok (t', wire ++ d :: ds) /\
    length ds = length calls /\ Forall (fun d => le_value (take 2 d) = 0) (d :: ds) /\
    Z.of_nat (length (media_packets t')) = k + Z.of_nat (length calls) /\
    total_sent_fec_packets t' = total_sent_fec_packets t.
Proof.
  intros Hgb Hk Hm Hs Hf Hl Hps Hnet Hb Hcalls. apply Forall_cons_1 in Hcalls as [[Hlen Hbuf] Hcalls].
  cbn [fst snd] in *.
  assert (Hsa : size_after t len = packet_size t) by (unfold size_after; by rewrite Hf).
  destruct (make_source_packet_Ok t buf len k r) as (last & buf' & _ & Hsame & HM);
    rewrite ?Hsa; try lia.
  destruct Hsame as [-> ->]; [ lia |].
  cbn [send_calls]. unfold SendByUlpfec at 1. rewrite HM, bind_Ok, Hsa. clear HM. fec_simpl.
  rewrite datagram_Ok, bind_Ok; [| done | cbn; apply padded_stored; lia | lia ].
  rewrite Hnet. cbn [negb]. rewrite bind_Ok. set (d := packet_bytes _ _). set (t1 := set_media _ _).
  assert (Hl1 : length (media_packets t1) = S (length (media_packets t)))
    by (cbn; rewrite length_app; cbn; lia).
  destruct (send_calls_overfull garbage gb net t1 (wire ++ [d]) k r calls)
    as (t' & ds & HC & Hlen' & HF & Hm' & Ht'); fec_simpl; try (done || lia).
  { cbn. lia. } { cbn. lia. }
  exists t', d, ds. rewrite <- app_assoc in HC. split_and!; [ done | done | by constructor | lia | done ].
Qed.

(** Two packets of a group of three are queued, and the network is down once. *)
Definition stuck_state : ForwardErrorCorrection :=
  set_media [Packet_new; Packet_new]
    (set_numbers 0 2 (set_use false false 4 (ForwardErrorCorrection_new (replicate 288 0) 2))).

Lemma SendByUlpfec_stuck_witness :
  let calls := replicate 5 (replicate 2000 1, 4) in
  exists t' d ds,
    @send_calls false [] (replicate 2006 8) (fun n => negb (n =? 0)%nat) stuck_state [] 3 1
      ((replicate 2000 1, 4) :: calls) = Ok (t', [] ++ d :: ds) /\
    length ds = length calls /\ Forall (fun d => le_value (take 2 d) = 0) (d :: ds) /\
    Z.of_nat (length (media_packets t')) = 3 + Z.of_nat (length calls) /\
    total_sent_fec_packets t' = total_sent_fec_packets stuck_state.
Proof.
  intros calls.
  apply (SendByUlpfec_stuck false [] (replicate 2006 8) (fun n => negb (n =? 0)%nat) stuck_state []
    3 1 (replicate 2000 1) 4 calls); try reflexivity; try (cbn; lia).
  apply (Forall_replicate (full_call 4) 6). unfold full_call. cbn. unfold kMaxDataSize. lia.
Defined.
