(* ===== verification/FecEncodeLib.v ===== *)
(** * The library build of the encoder

    [FEC_Encode/forward_error_correction.cpp] is the same code as
    [Channel_sim/forward_error_correction.cpp] up to [Serialize], which it does
    not have, and [PacketByFEC], whose last statements (clearing
    [media_packets] and [fec_packets]) are missing. This file models that
    version and shows what the difference costs. *)
From S2P Require Import Prelude.
From S2P Require Import MaskTable.
From S2P Require Import Packet.
From S2P Require Import Encoder.
From S2P Require Import EncoderFacts.
From stdpp Require Import base list list_numbers numbers option tactics.
From Stdlib Require Import ZArith Lia.

#[local] Open Scope Z_scope.

(** [PacketByFEC] as [FEC_Encode] has it. *)
Definition PacketByFEC_lib `{CheckMode} (garbage : list Z) (this : ForwardErrorCorrection)
    (buf : list Z) (len k r : Z) : outcome (ForwardErrorCorrection * list Z) :=
  '(this, buf, packet) ← make_source_packet this buf len k r;
  let this := set_media (media_packets this ++ [packet]) this in
  let this := set_buffer (buffer_packets this ++ [packet]) this in
  if Z.of_nat (length (media_packets this)) =? u64 k then
    '(this, fecs, _) ←
      EncodeFec garbage this (media_packets this) (u32 r) (kNumImportantPackets this)
        (kUseUnequalProtection this) fec_mask_type (fec_packets this);
    let this := set_fecs fecs this in
    let this := set_buffer (buffer_packets this ++ fec_packets this) this in
    Ok (set_numbers (i32 (group_number this + 1)) 0 this, buf)
  else Ok (this, buf).

Fixpoint feed_lib `{CheckMode} (garbage : list Z) (t : ForwardErrorCorrection) (k r : Z)
    (calls : list (list Z * Z)) : outcome ForwardErrorCorrection :=
  match calls with
  | [] => Ok t
  | (buf, len) :: calls =>
      '(t, _) ← PacketByFEC_lib garbage t buf len k r;
      feed_lib garbage t k r calls
  end.

Section Compare.
Context {mode : CheckMode}.
Variable garbage : list Z.

Lemma feed_lib_app t k r a b :
  feed_lib garbage t k r (a ++ b) = (feed_lib garbage t k r a ≫= fun t => feed_lib garbage t k r b).
Proof.
  revert t; induction a as [| [buf len] a IH ]; intros t; [ done |].
  cbn [app feed_lib]. destruct (PacketByFEC_lib garbage t buf len k r) as [[t' ?] | ]; [| done ].
  rewrite !bind_Ok. apply IH.
Qed.

Lemma feed_app t k r a b :
  feed garbage t k r (a ++ b) = (feed garbage t k r a ≫= fun t => feed garbage t k r b).
Proof.
  revert t; induction a as [| [buf len] a IH ]; intros t; [ done |].
  cbn [app feed]. destruct (PacketByFEC garbage t buf len k r) as [[t' ?] | ]; [| done ].
  rewrite !bind_Ok. apply IH.
Qed.

(** ** What the shared steps leave alone *)

Lemma make_source_packet_frame t buf len k r t' buf' p :
  make_source_packet t buf len k r = Ok (t', buf', p) ->
  media_packets t' = media_packets t /\ buffer_packets t' = buffer_packets t.
Proof.
  unfold make_source_packet. intros H. outcome_inv. destruct a as [t1 b1]. outcome_inv.
  simplify_eq/=. destruct (fec_first_use t), (len <? _); outcome_inv; simplify_eq/=; done.
Qed.

Lemma encode_one_frame media r i s s' :
  encode_one media r i s = Ok s' ->
  media_packets (fst s') = media_packets (fst s) /\
  buffer_packets (fst s') = buffer_packets (fst s) /\
  packet_size (fst s') = packet_size (fst s) /\ fec_first_use (fst s') = fec_first_use (fst s).
Proof.
  destruct s as [t [| p fecs]]; cbn [encode_one fst]; [ done |].
  intros H. outcome_inv. by simplify_eq/=.
Qed.

Lemma EncodeFec_frame t media r imp uep ty fecs t' fecs' n :
  EncodeFec garbage t media r imp uep ty fecs = Ok (t', fecs', n) ->
  media_packets t' = media_packets t /\ buffer_packets t' = buffer_packets t /\
  packet_size t' = packet_size t /\ fec_first_use t' = fec_first_use t.
Proof.
  unfold EncodeFec. intros H. outcome_inv.
  destruct (i32 r =? 0); outcome_inv; [ by simplify_eq/= |].
  do 2 (repeat match goal with x : (_ * _)%type |- _ => destruct x end; outcome_inv).
  simplify_eq.
  match goal with H : for_loop _ _ _ _ = _ |- _ =>
    apply (for_loop_inv (fun s => media_packets (fst s) = media_packets t /\
      buffer_packets (fst s) = buffer_packets t /\ packet_size (fst s) = packet_size t /\
      fec_first_use (fst s) = fec_first_use t)) in H; [ done | done |] end.
  intros j s s' Hs Hb. apply encode_one_frame in Hb as (-> & -> & -> & ->). done.
Qed.

(** ** Up to the first full group the versions agree *)

Lemma PacketByFEC_lib_same t buf len k r :
  0 <= k < 2 ^ 64 -> Z.of_nat (length (media_packets t)) + 1 <> k ->
  PacketByFEC_lib garbage t buf len k r = PacketByFEC garbage t buf len k r.
Proof.
  intros Hk Hne. unfold PacketByFEC_lib, PacketByFEC.
  destruct (make_source_packet t buf len k r) as [[[t' b] p] |] eqn:E; [| done ].
  apply make_source_packet_frame in E as [Hm _]. rewrite !bind_Ok. fec_simpl.
  rewrite u64_id by lia. rewrite Hm, length_app. cbn [length].
  by rewrite (proj2 (Z.eqb_neq _ _)) by lia.
Qed.

(** The call that fills the group: the same packets, nothing cleared. *)
Lemma PacketByFEC_lib_full t buf len k r t' buf' :
  Z.of_nat (length (media_packets t)) + 1 = k -> k < 2 ^ 64 ->
  PacketByFEC garbage t buf len k r = Ok (t', buf') ->
  exists t'', PacketByFEC_lib garbage t buf len k r = Ok (t'', buf') /\
    t' = set_fecs [] (set_media [] t'') /\
    length (media_packets t'') = S (length (media_packets t)).
Proof.
  intros Hk Hb. unfold PacketByFEC_lib, PacketByFEC.
  destruct (make_source_packet t buf len k r) as [[[t1 b] p] |] eqn:E; [| done ].
  apply make_source_packet_frame in E as [Hm _]. rewrite !bind_Ok. fec_simpl.
  rewrite u64_id by lia. rewrite Hm, length_app. cbn [length].
  rewrite (proj2 (Z.eqb_eq _ _)) by lia.
  intros ([[t2 fecs] n] & HE & [= <- <-])%bind_Ok_inv. rewrite HE, bind_Ok.
  eexists. split; [ reflexivity |]. split; [ reflexivity |]. fec_simpl.
  apply EncodeFec_frame in HE as (-> & _). fec_simpl. rewrite length_app. cbn. lia.
Qed.

(** ** Afterwards no group is ever encoded *)

(** Source packets [s], [s + 1], ... of a group that is never closed. *)
Fixpoint open_group (g s k r ps : Z) (calls : list (list Z * Z)) : list Packet :=
  match calls with
  | [] => []
  | (buf, len) :: calls => source_spec g s k r (stored ps len buf) :: open_group g (s + 1) k r ps calls
  end.

Lemma feed_lib_overfull t k r ps calls :
  0 <= k <= Z.of_nat (length (media_packets t)) ->
  0 <= sequence_number t -> sequence_number t + Z.of_nat (length calls) < 2 ^ 31 ->
  fec_first_use t = false -> packet_size t = ps -> 0 <= ps <= kMaxDataSize ->
  Forall (call_ok ps) calls ->
  exists t', feed_lib garbage t k r calls = Ok t' /\
    buffer_packets t' =
      buffer_packets t ++ open_group (group_number t) (sequence_number t) k r ps calls /\
    length (media_packets t') = (length (media_packets t) + length calls)%nat.
Proof.
  intros Hk Hs Hb Hf <-. revert t Hk Hs Hb Hf. induction calls as [| [buf len] calls IH ];
    intros t Hk Hs Hb Hf Hps Hcalls.
  { exists t. cbn. by rewrite app_nil_r, Nat.add_0_r. }
  apply Forall_cons_1 in Hcalls as [[Hlen Hbuf] Hcalls]. cbn [fst snd length] in *.
  assert (Hsa : size_after t len = packet_size t) by (unfold size_after; by rewrite Hf).
  destruct (make_source_packet_Ok t buf len k r) as (last & buf' & _ & _ & HM); rewrite ?Hsa; try lia.
  cbn [feed_lib]. unfold PacketByFEC_lib. rewrite HM, bind_Ok, Hsa. fec_simpl.
  assert (Hmore : (Z.of_nat (length (media_packets t ++ [source_spec (group_number t)
    (sequence_number t) k r (stored (packet_size t) len buf)])) =? u64 k) = false).
  { apply Z.eqb_neq. rewrite length_app. unfold u64. pose proof (Z.mod_le k (2 ^ 64)). cbn. lia. }
  rewrite Hmore, bind_Ok. set (t1 := set_buffer _ _).
  destruct (IH t1) as (t' & HF & HB & HL); fec_simpl;
    unfold t1; fec_simpl; rewrite ?length_app; cbn [length]; try (done || lia).
  exists t'. split_and!; [ done | |].
  - rewrite HB. unfold t1. fec_simpl. by rewrite <- app_assoc.
  - rewrite HL. unfold t1. fec_simpl. rewrite length_app. cbn. lia.
Qed.

(** Before the group is full, feeding either version is the same. *)
Lemma feed_lib_same t s k r ps calls :
  length garbage = 288%nat -> 1 <= r <= k -> k <= 16 ->
  fec_inv k t -> represents t s -> Forall (call_ok ps) calls ->
  Forall (fun c => size_after t (snd c) = ps) (take 1 calls) ->
  Z.of_nat (length (media_packets t)) + Z.of_nat (length calls) < k ->
  feed_lib garbage t k r calls = feed garbage t k r calls.
Proof.
  intros Hg Hr Hk. revert t s. induction calls as [| [buf len] calls IH ];
    intros t s Hinv HR Hcalls Hsz Hlt; [ done |].
  apply Forall_cons_1 in Hcalls as [[Hlen Hbuf] Hcalls]. apply Forall_cons_1 in Hsz as [Hsz _].
  cbn [fst snd length] in *. cbn [feed_lib feed].
  rewrite PacketByFEC_lib_same by lia.
  destruct (PacketByFEC_simulates garbage t s buf len k r) as (t' & b & HP & Hinv' & HR' & Hf' & Hp');
    try (done || lia).
  rewrite HP, !bind_Ok. apply (IH t' _ Hinv' HR' Hcalls).
  - destruct calls; constructor; [| constructor ]. unfold size_after. rewrite Hf'. congruence.
  - destruct HR as [HRp _], HR' as [HRp' _].
    assert (Hpend : length (pending (spec_step k r (stored (size_after t len) len buf) s))
      = S (length (pending s))).
    { unfold spec_step. rewrite <- HRp, length_app, length_map. cbn [length].
      rewrite (proj2 (Z.eqb_neq _ _)) by lia. cbn [pending]. rewrite length_app, length_map. cbn. lia. }
    rewrite <- HRp', <- HRp, !length_map in Hpend. lia.
Qed.

End Compare.

(** The abstract encoder before its first group is full. *)
Lemma spec_feed_open ps k r calls s :
  Z.of_nat (length (pending s)) + Z.of_nat (length calls) < k ->
  spec_feed ps k r calls s =
    mkSpec (pending s ++ map (fun c => stored ps (snd c) (fst c)) calls) (group s)
      (produced s ++ open_group (group s) (Z.of_nat (length (pending s))) k r ps calls).
Proof.
  revert s; induction calls as [| [buf len] calls IH ]; intros s Hlt.
  { destruct s. cbn. by rewrite !app_nil_r. }
  cbn [length] in Hlt. change (spec_feed ps k r ((buf, len) :: calls) s)
    with (spec_feed ps k r calls (spec_step k r (stored ps len buf) s)).
  assert (Hst : spec_step k r (stored ps len buf) s =
    mkSpec (pending s ++ [stored ps len buf]) (group s)
      (produced s ++ [source_spec (group s) (Z.of_nat (length (pending s))) k r (stored ps len buf)])).
  { unfold spec_step. rewrite length_app. cbn [length]. by rewrite (proj2 (Z.eqb_neq _ _)) by lia. }
  rewrite Hst, IH by (cbn [pending]; rewrite length_app; cbn; lia).
  cbn [pending group produced map fst snd open_group]. rewrite <- !app_assoc, length_app.
  cbn [app length]. do 4 f_equal. lia.
Qed.

Lemma length_open_group g s k r ps calls : length (open_group g s k r ps calls) = length calls.
Proof. revert s; induction calls as [| [??] ? IH ]; intros s; cbn; auto. Qed.

(** The object after the first [k] calls. *)
Lemma feed_lib_first_group (mode : CheckMode) garbage masks mask_size k r ps first :
  length garbage = 288%nat -> length masks = 288%nat -> 1 <= r <= k -> k <= 16 ->
  Z.of_nat (length first) = k ->
  Forall (call_ok ps) first -> Forall (fun c => snd c = ps) (take 1 first) ->
  exists t,
    feed_lib garbage (ForwardErrorCorrection_new masks mask_size) k r first = Ok t /\
    buffer_packets t = produced (spec_feed ps k r first (mkSpec [] 0 [])) /\
    Z.of_nat (length (media_packets t)) = k /\ sequence_number t = 0 /\ group_number t = 1 /\
    fec_first_use t = false /\ packet_size t = ps /\ 0 <= ps <= kMaxDataSize.
Proof.
  intros Hg Hm Hr Hk Hfl Hcf Hfirst.
  destruct (exists_last (l := first)) as (init & [buf len] & ->); [ intros ->; cbn in Hfl; lia |].
  set (new := ForwardErrorCorrection_new masks mask_size).
  assert (Hinv : fec_inv k new) by (apply fec_inv_new; [ lia | done ]).
  assert (HR : represents new (mkSpec [] 0 [])) by done.
  rewrite length_app in Hfl. cbn [length] in Hfl.
  assert (Hfi : Forall (fun c => size_after new (snd c) = ps) (take 1 init))
    by (destruct init; [ constructor | exact Hfirst ]).
  pose proof Hcf as [Hci _]%Forall_app.
  destruct (feed_simulates garbage new _ k r ps init Hg Hr ltac:(lia) (fun _ => Hk) Hinv HR Hci Hfi)
    as (t1 & HF1 & _ & (HRp1 & _) & _).
  destruct (feed_simulates garbage new _ k r ps (init ++ [(buf, len)]) Hg Hr ltac:(lia)
    (fun _ => Hk) Hinv HR Hcf Hfirst) as (t2 & HF2 & Hinv2 & (HRp2 & HRg2 & HRb2) & Hlast).
  destruct Hlast as [Hf2 Hp2]; [ by destruct init |].
  rewrite feed_app, HF1, bind_Ok in HF2. cbn [feed] in HF2.
  apply bind_Ok_inv in HF2 as ([t2' b] & HP & [= ->]).
  rewrite spec_feed_open in HRp1 by (cbn; lia).
  assert (Hm1 : length (media_packets t1) = length init)
    by (rewrite <- (length_map p_data), HRp1; cbn; by rewrite length_map).
  destruct (PacketByFEC_lib_full garbage t1 buf len k r t2 b ltac:(lia) ltac:(lia) HP)
    as (t3 & HL & -> & Hm3).
  destruct Hinv2 as (_ & _ & _ & _ & Hs2 & _ & Hps2 & _). cbn in Hs2, Hp2, Hps2, Hf2, HRg2, HRb2.
  exists t3. rewrite feed_lib_app, (feed_lib_same garbage new _ k r ps init Hg Hr Hk Hinv HR Hci Hfi)
    by (cbn; lia).
  rewrite HF1, bind_Ok. cbn [feed_lib]. rewrite HL, bind_Ok.
  split_and!; try (done || lia). rewrite HRg2. unfold spec_feed. rewrite foldl_app. cbn [foldl].
  change (foldl _ _ init) with (spec_feed ps k r init (mkSpec [] 0 [])).
  rewrite spec_feed_open by (cbn; lia). unfold spec_step. cbn [pending group].
  rewrite (proj2 (Z.eqb_eq _ _)); [ done |].
  rewrite !length_app, length_map. cbn [length]. lia.
Qed.

(** ** Theorems *)

(** The library's copy of [PacketByFEC] protects one group only. The first [k]
    calls produce what the application's copy produces, [k] source packets and
    their [r] parities; as the full group is never cleared, every later call
    only adds a source packet of group 1, with ever growing numbers, however
    many there are: [n] calls give [n + r] packets instead of
    [n + r * (n / k)], and all [n] payloads stay in memory. *)
Theorem PacketByFEC_lib_one_group (mode : CheckMode) garbage masks mask_size k r ps first rest :
  length garbage = 288%nat -> length masks = 288%nat -> 1 <= r <= k -> k <= 16 ->
  Z.of_nat (length first) = k -> Z.of_nat (length rest) < 2 ^ 31 ->
  Forall (call_ok ps) (first ++ rest) -> Forall (fun c => snd c = ps) (take 1 first) ->
  exists t',
    feed_lib garbage (ForwardErrorCorrection_new masks mask_size) k r (first ++ rest) = Ok t' /\
    buffer_packets t' = produced (spec_feed ps k r first (mkSpec [] 0 []))
                        ++ open_group 1 0 k r ps rest /\
    Z.of_nat (length (buffer_packets t')) = k + r + Z.of_nat (length rest) /\
    Z.of_nat (length (media_packets t')) = k + Z.of_nat (length rest).
Proof.
  intros Hg Hm Hr Hk Hfl Hrl Hcalls Hfirst. apply Forall_app in Hcalls as [Hcf Hcr].
  destruct (feed_lib_first_group mode garbage masks mask_size k r ps first Hg Hm Hr Hk Hfl Hcf Hfirst)
    as (t & HF & HB & HM & Hs & Hgr & Hf & Hp & Hps).
  destruct (feed_lib_overfull garbage t k r ps rest) as (t' & HF' & HB' & HL); try (done || lia).
  exists t'. rewrite feed_lib_app, HF, bind_Ok. rewrite Hs, Hgr, HB in HB'.
  split_and!; [ done | done | | lia ].
  rewrite HB', length_app, length_open_group, Nat2Z.inj_add, spec_feed_length by (cbn; lia).
  cbn [pending produced length]. rewrite Hfl, Z.add_0_l, Z.div_same by lia. lia.
Qed.

Lemma PacketByFEC_lib_one_group_witness :
  let c := (replicate 2000 1, 3) in
  exists t',
    @feed_lib true (replicate 288 9) (ForwardErrorCorrection_new (replicate 288 1) 0) 2 1
      ([c; c] ++ [c; c; c; c]) = Ok t' /\
    buffer_packets t' = produced (spec_feed 3 2 1 [c; c] (mkSpec [] 0 []))
                        ++ open_group 1 0 2 1 3 [c; c; c; c] /\
    Z.of_nat (length (buffer_packets t')) = 2 + 1 + Z.of_nat (length [c; c; c; c]) /\
    Z.of_nat (length (media_packets t')) = 2 + Z.of_nat (length [c; c; c; c]).
Proof.
  intros c. apply (PacketByFEC_lib_one_group true (replicate 288 9) (replicate 288 1) 0 2 1 3 [c; c] [c; c; c; c]);
    try reflexivity; try (cbn; lia); repeat constructor; cbn; unfold kMaxDataSize; lia.
Defined.
