(* ===== verification/Checks.v ===== *)
(** * Failed checks

    [Channel_sim/checks.cpp] and the part of [rtc_base/checks.h] it serves: what
    a failed [RTC_CHECK] or [RTC_DCHECK] prints before the process is aborted.
    [LogStreamer] collects the streamed values, most recent first; [Call] and
    [CallCheckOp] turn them into a list of type tags and a variable argument
    list, which [FatalLog] reads back with [ParseArg]. Reading an argument at
    another type than it was passed with is undefined behaviour, [None] here.

    The texts [%g], [%Lg] and [%p] give are parameters; the integer formats are
    decimal. *)
From S2P Require Import Prelude.
From stdpp Require Import base list numbers option strings pretty tactics.
From Stdlib Require Import ZArith Lia.

#[local] Open Scope string_scope.

Inductive CheckArgType : Type :=
| kEnd | kInt | kLong | kLongLong | kUInt | kULong | kULongLong
| kDouble | kLongDouble | kCharP | kStdString | kStringView | kVoidP | kCheckOp.

#[export] Instance CheckArgType_eq_dec : EqDecision CheckArgType.
Proof. solve_decision. Defined.

Section Checks.
Context {real pointer : Type}.
Variable print_g print_Lg : real -> string.
Variable print_p : pointer -> string.
Variable last_system_error : Z.

(** A value as the caller passes it: [Val] with its type, made by [MakeVal]. *)
Inductive Val : Type :=
| VInt (x : Z) | VLong (x : Z) | VLongLong (x : Z)
| VUInt (x : Z) | VULong (x : Z) | VULongLong (x : Z)
| VDouble (x : real) | VLongDouble (x : real)
| VCharP (x : string) | VStdString (x : string) | VStringView (x : string)
| VVoidP (x : pointer).

Definition Val_Type (v : Val) : CheckArgType :=
  match v with
  | VInt _ => kInt | VLong _ => kLong | VLongLong _ => kLongLong
  | VUInt _ => kUInt | VULong _ => kULong | VULongLong _ => kULongLong
  | VDouble _ => kDouble | VLongDouble _ => kLongDouble
  | VCharP _ => kCharP | VStdString _ => kStdString | VStringView _ => kStringView
  | VVoidP _ => kVoidP
  end.

(** What is left of a string when a [char*] to it is printed. *)
Fixpoint c_str (s : string) : string :=
  match s with
  | EmptyString => EmptyString
  | String c s => if bool_decide (c = Ascii.zero) then EmptyString else String c (c_str s)
  end.

(** [AppendFormat(s, fmt, ...)], given the text [vsnprintf] makes of it. *)
Definition AppendFormat (s formatted : string) : string :=
  let predicted_length := Z.of_nat (String.length formatted) in
  if (0 <? predicted_length)%Z then s +:+ formatted else s.

(** [bool ParseArg(va_list* args, const CheckArgType** fmt, std::string* s)]:
    the result, and what is left of the three. *)
Definition ParseArg (args : list Val) (fmt : list CheckArgType) (s : string)
    : option (bool * list Val * list CheckArgType * string) :=
  match fmt with
  | [] => None
  | t :: fmt' =>
      match t, args with
      | kEnd, _ => Some (false, args, fmt, s)
      | kInt, VInt x :: args => Some (true, args, fmt', AppendFormat s (pretty x))
      | kLong, VLong x :: args => Some (true, args, fmt', AppendFormat s (pretty x))
      | kLongLong, VLongLong x :: args => Some (true, args, fmt', AppendFormat s (pretty x))
      | kUInt, VUInt x :: args => Some (true, args, fmt', AppendFormat s (pretty x))
      | kULong, VULong x :: args => Some (true, args, fmt', AppendFormat s (pretty x))
      | kULongLong, VULongLong x :: args => Some (true, args, fmt', AppendFormat s (pretty x))
      | kDouble, VDouble x :: args => Some (true, args, fmt', AppendFormat s (print_g x))
      | kLongDouble, VLongDouble x :: args => Some (true, args, fmt', AppendFormat s (print_Lg x))
      | kCharP, VCharP x :: args => Some (true, args, fmt', s +:+ c_str x)
      | kStdString, VStdString x :: args => Some (true, args, fmt', s +:+ x)
      | kStringView, VStringView x :: args => Some (true, args, fmt', s +:+ x)
      | kVoidP, VVoidP x :: args => Some (true, args, fmt', AppendFormat s (print_p x))
      | kCheckOp, _ => Some (false, args, fmt, s +:+ "[Invalid CheckArgType]")
      | _, _ => None
      end
  end.

(** [while (ParseArg(&args, &fmt, &s));], as many turns as there are tags. *)
Fixpoint parse_all (fuel : nat) (args : list Val) (fmt : list CheckArgType) (s : string) : option string :=
  match fuel with
  | O => None
  | S fuel =>
      '(go, args, fmt, s) ← ParseArg args fmt s;
      if go : bool then parse_all fuel args fmt s else Some s
  end.

Definition nl : string := String (Ascii.Ascii false true false true false false false false) EmptyString.

(** The lines every message starts with. *)
Definition fatal_header (file : string) (line : Z) : string :=
  nl +:+ nl +:+ "#" +:+ nl +:+ "# Fatal error in: " +:+ c_str file +:+ ", line " +:+ pretty line +:+ nl +:+
  "# last system error: " +:+ pretty last_system_error +:+ nl.

(** What [WriteFatalLog] puts on [stderr] before [abort()]. *)
Definition WriteFatalLog (output : string) : string := output.

Definition FatalLog (file : string) (line : Z) (message : string) (fmt : list CheckArgType)
    (args : list Val) : option string :=
  let s := AppendFormat EmptyString (fatal_header file line +:+ "# Check failed: " +:+ c_str message) in
  '(args, fmt, s) ←
    match fmt with
    | kCheckOp :: fmt =>
        '(ok1, args, fmt, s1) ← ParseArg args fmt EmptyString;
        if ok1 : bool then
          '(ok2, args, fmt, s2) ← ParseArg args fmt EmptyString;
          if ok2 : bool
          then Some (args, fmt, AppendFormat s (" (" +:+ c_str s1 +:+ " vs. " +:+ c_str s2 +:+ ")" +:+ nl +:+ "# "))
          else Some (args, fmt, s)
        else Some (args, fmt, s)
    | [] => None
    | _ => Some (args, fmt, s +:+ (nl +:+ "# "))
    end;
  s ← parse_all (length fmt) args fmt s;
  Some (WriteFatalLog s).

(** The version of a build without messages. *)
Definition FatalLog_short (file : string) (line : Z) : string :=
  WriteFatalLog (AppendFormat EmptyString (fatal_header file line +:+ "# Check failed." +:+ nl +:+ "# ")).

Definition UnreachableCodeReached (file : string) (line : Z) : string :=
  WriteFatalLog (AppendFormat EmptyString
    (nl +:+ nl +:+ "#" +:+ nl +:+ "# Unreachable code reached: " +:+ c_str file +:+ ", line " +:+ pretty line +:+
     nl +:+ "# last system error: " +:+ pretty last_system_error +:+ nl +:+ "# ")).

Definition UnreachableCodeReached_release : string :=
  WriteFatalLog (AppendFormat EmptyString
    (nl +:+ nl +:+ "#" +:+ nl +:+ "# Unreachable code reached (file and line unknown)" +:+
     nl +:+ "# last system error: " +:+ pretty last_system_error +:+ nl +:+ "# ")).

Definition rtc_FatalMessage (file : string) (line : Z) (msg : string) : option string :=
  FatalLog file line msg [kEnd] [].

(** ** [LogStreamer] *)

(** The values streamed so far, the most recent first, as the nested template
    holds them; [operator<<] adds one. *)
Definition LogStreamer : Type := list Val.
Definition stream (l : LogStreamer) (v : Val) : LogStreamer := v :: l.

(** [Call] and [CallCheckOp] walk to the innermost streamer, collecting the
    arguments on the way. *)
Fixpoint Call (l : LogStreamer) (file : string) (line : Z) (message : string) (args : list Val)
    : option string :=
  match l with
  | [] => FatalLog file line message (map Val_Type args ++ [kEnd]) args
  | arg :: prior => Call prior file line message (arg :: args)
  end.

Fixpoint CallCheckOp (l : LogStreamer) (file : string) (line : Z) (message : string) (args : list Val)
    : option string :=
  match l with
  | [] => FatalLog file line message (kCheckOp :: map Val_Type args ++ [kEnd]) args
  | arg :: prior => CallCheckOp prior file line message (arg :: args)
  end.

(** [FatalLogCall<isCheckOp>::operator&]. *)
Definition FatalLogCall (isCheckOp : bool) (file : string) (line : Z) (message : string)
    (streamer : LogStreamer) : option string :=
  if isCheckOp then CallCheckOp streamer file line message []
  else Call streamer file line message [].

(** [RTC_CHECK(condition) << values...] and [RTC_CHECK_op(val1, val2) << values...]:
    [None] when execution goes on, else what is printed before the abort. *)
Definition RTC_CHECK (condition : bool) (file : string) (line : Z) (text : string) (values : list Val)
    : option (option string) :=
  if condition then None
  else Some (FatalLogCall false file line text (foldl stream [] values)).

Definition RTC_CHECK_OP (holds : bool) (file : string) (line : Z) (text : string) (val1 val2 : Val)
    (values : list Val) : option (option string) :=
  if holds then None
  else Some (FatalLogCall true file line text (foldl stream (stream (stream [] val1) val2) values)).

(** ** Specification *)

(** The text of one value. *)
Definition show (v : Val) : string :=
  match v with
  | VInt x | VLong x | VLongLong x | VUInt x | VULong x | VULongLong x => pretty x
  | VDouble x => print_g x
  | VLongDouble x => print_Lg x
  | VCharP x => c_str x
  | VStdString x | VStringView x => x
  | VVoidP x => print_p x
  end.

Definition show_all (l : list Val) : string := foldr (fun v s => show v +:+ s) EmptyString l.

Lemma string_app_nil s : s +:+ EmptyString = s.
Proof. induction s as [| c s IH ]; [ done |]. change (String c (s +:+ EmptyString) = String c s). by rewrite IH. Qed.

Lemma string_app_assoc s1 s2 s3 : s1 +:+ (s2 +:+ s3) = (s1 +:+ s2) +:+ s3.
Proof.
  induction s1 as [| c s IH ]; [ done |].
  change (String c (s +:+ (s2 +:+ s3)) = String c ((s +:+ s2) +:+ s3)). by rewrite IH.
Qed.

Lemma AppendFormat_app s t : AppendFormat s t = s +:+ t.
Proof.
  unfold AppendFormat. destruct t as [| c t ]; cbn [String.length].
  - by rewrite string_app_nil.
  - by rewrite (proj2 (Z.ltb_lt _ _)) by lia.
Qed.

Lemma ParseArg_own v args fmt s :
  ParseArg (v :: args) (Val_Type v :: fmt) s = Some (true, args, fmt, s +:+ show v).
Proof. destruct v; cbn; by rewrite ?AppendFormat_app. Qed.

Lemma parse_all_own args s :
  parse_all (S (length args)) args (map Val_Type args ++ [kEnd]) s = Some (s +:+ show_all args).
Proof.
  revert s. induction args as [| v args IH ]; intros s; [ cbn; by rewrite string_app_nil |].
  cbn [length map app]. remember (S (length args)) as n eqn:Hn. cbn [parse_all].
  rewrite ParseArg_own. cbn [mbind option_bind]. subst n. rewrite IH. cbn [show_all foldr].
  by rewrite string_app_assoc.
Qed.

Lemma Call_args l file line message args :
  Call l file line message args = Call [] file line message (rev l ++ args).
Proof.
  revert args. induction l as [| v l IH ]; intros args; [ done |].
  cbn [Call rev]. by rewrite IH, <- app_assoc.
Qed.

Lemma CallCheckOp_args l file line message args :
  CallCheckOp l file line message args = CallCheckOp [] file line message (rev l ++ args).
Proof.
  revert args. induction l as [| v l IH ]; intros args; [ done |].
  cbn [CallCheckOp rev]. by rewrite IH, <- app_assoc.
Qed.

Lemma foldl_stream values l : foldl stream l values = (rev values ++ l)%list.
Proof.
  revert l. induction values as [| v values IH ]; intros l; [ done |].
  cbn [foldl rev]. by rewrite IH, <- app_assoc.
Qed.

Lemma fatal_prefix file line message :
  AppendFormat EmptyString (fatal_header file line +:+ "# Check failed: " +:+ c_str message) =
  fatal_header file line +:+ "# Check failed: " +:+ c_str message.
Proof. by rewrite AppendFormat_app. Qed.

Lemma FatalLog_plain file line message args :
  FatalLog file line message (map Val_Type args ++ [kEnd]) args =
    Some ((fatal_header file line +:+ "# Check failed: " +:+ c_str message) +:+ (nl +:+ "# ") +:+ show_all args).
Proof.
  unfold FatalLog. rewrite fatal_prefix.
  assert (E : length (map Val_Type args ++ [kEnd]) = S (length args))
    by (rewrite length_app, length_map; cbn; lia).
  destruct (map Val_Type args ++ [kEnd])%list as [| t fmt] eqn:Hf; [ discriminate E |].
  assert (Ht : t <> kCheckOp) by (intros ->; destruct args as [| [] args ]; discriminate Hf).
  destruct t; try done; cbn [mbind option_bind]; rewrite E, <- Hf, parse_all_own;
    cbn [mbind option_bind]; unfold WriteFatalLog; by rewrite <- !string_app_assoc.
Qed.

Lemma FatalLog_op file line message v1 v2 args :
  FatalLog file line message (kCheckOp :: map Val_Type (v1 :: v2 :: args) ++ [kEnd]) (v1 :: v2 :: args) =
    Some ((fatal_header file line +:+ "# Check failed: " +:+ c_str message) +:+
          (" (" +:+ c_str (show v1) +:+ " vs. " +:+ c_str (show v2) +:+ ")" +:+ nl +:+ "# ") +:+ show_all args).
Proof.
  unfold FatalLog. rewrite fatal_prefix. cbn [map app].
  rewrite ParseArg_own. cbn [mbind option_bind]. rewrite ParseArg_own. cbn [mbind option_bind].
  rewrite length_app, length_map, Nat.add_comm, AppendFormat_app. cbn [length Nat.add].
  rewrite parse_all_own. cbn [mbind option_bind]. unfold WriteFatalLog. by rewrite <- !string_app_assoc.
Qed.

End Checks.

(** ** Theorems *)

(** C39. A failed check prints everything it was given, and nothing else: for any
    values streamed into it the tags and the arguments agree, so reading them
    back never goes wrong, and the output is the header, the condition, and the
    streamed values in the order they were written; for a comparison the two
    operands come first, in parentheses. A check that holds prints nothing. *)
Theorem check_message_complete {real pointer} (print_g print_Lg : real -> string)
    (print_p : pointer -> string) error file line text (v1 v2 : Val) (values : list Val) :
  let head := fatal_header error file line +:+ "# Check failed: " +:+ c_str text in
  let shown := show print_g print_Lg print_p in
  let all := show_all print_g print_Lg print_p in
  RTC_CHECK print_g print_Lg print_p error false file line text values =
    Some (Some (head +:+ (nl +:+ "# ") +:+ all values)) /\
  RTC_CHECK_OP print_g print_Lg print_p error false file line text v1 v2 values =
    Some (Some (head +:+ (" (" +:+ c_str (shown v1) +:+ " vs. " +:+ c_str (shown v2) +:+ ")" +:+ nl +:+ "# ") +:+
                all values)) /\
  RTC_CHECK print_g print_Lg print_p error true file line text values = None /\
  RTC_CHECK_OP print_g print_Lg print_p error true file line text v1 v2 values = None.
Proof.
  split_and!; [ | | done | done ]; unfold RTC_CHECK, RTC_CHECK_OP, FatalLogCall; do 2 f_equal; rewrite foldl_stream.
  - rewrite Call_args, !app_nil_r, rev_involutive. apply FatalLog_plain.
  - rewrite CallCheckOp_args, app_nil_r, rev_app_distr, rev_involutive. cbn [stream rev app].
    apply FatalLog_op.
Qed.
