(* ===== verification/Channel.v ===== *)
(** * Channels: constants, packets in flight, loss rate

    [Channel_sim/Udpserver.h] and the channel operations of
    [Channel_sim/Udpserver.cpp]: the constants of the class, the packed
    [videoStruct], [SendPacket], [setLossRate] and the loss decision of a
    worker. A C++ [double] is an IEEE binary64 datum
    ([spec_float]); comparisons with a NaN are false, as in C++. *)
From S2P Require Import Prelude.
From S2P Require Import Packet.
From stdpp Require Import base list list_numbers numbers option tactics.
From Stdlib Require Import ZArith Lia SpecFloat.

#[local] Open Scope Z_scope.

(** ** Constants of [Udpserver] *)

Definition SOCKET_POOL_SIZE : Z := 3.
Definition flightpkt_header_size : Z := 15.
Definition fec_header_size : Z := 6.
Definition packet_header_size : Z := 7.
Definition readChunkSize : Z := 1009.
Definition total_length : Z :=
  i32 (u64 (readChunkSize + packet_header_size + fec_header_size + flightpkt_header_size)).
Definition fec_k : Z := 10.
Definition fec_r : Z := 2.
Definition sysword : Z := 0.

(** ** [videoStruct], packed *)

Record videoStruct : Type := mkVideoStruct {
  sysWord : Z;          (* unsigned int *)
  idWord : Z;           (* unsigned char *)
  nowTime : Z;          (* unsigned int *)
  versionNumber : Z;    (* unsigned char *)
  totalChannel : Z;     (* unsigned char *)
  whichChannel : Z;     (* unsigned char *)
  videoFormat : Z;      (* unsigned char *)
  packetSize : Z;       (* unsigned short *)
  videoData : list Z    (* unsigned char[1009] *)
}.

(** The bytes of the object, in the order of its members, no padding. *)
Definition videoStruct_bytes (v : videoStruct) : list Z :=
  le_bytes 4 (sysWord v) ++ le_bytes 1 (idWord v) ++ le_bytes 4 (nowTime v) ++
  le_bytes 1 (versionNumber v) ++ le_bytes 1 (totalChannel v) ++
  le_bytes 1 (whichChannel v) ++ le_bytes 1 (videoFormat v) ++
  le_bytes 2 (packetSize v) ++ videoData v.

(** ** [SendPacket] *)

(** [packet_to_send] is a [unique_ptr]: [None] when null. *)
Record SendPacket : Type := mkSendPacket {
  packet_to_send : option Packet;
  crc32 : Z;
  stream_type : Z;
  channel_index : Z;
  pkt_seq : Z;
  actual_payload_size : Z
}.

#[export] Instance SendPacket_eq_dec : EqDecision SendPacket.
Proof. solve_decision. Defined.

(** The packet a reader queues on channel [target_channel]. *)
Definition make_send_packet (pkt : Packet) (target_channel fec_input_size : Z) : SendPacket :=
  mkSendPacket (Some pkt) 0 1 (u8 target_channel) 1 fec_input_size.

(** ** Loss rates *)

Definition double : Type := spec_float.
Definition double_zero : double := S754_zero false.
Definition double_one : double := SFone 53 1024.
(** A [double] from an [int], exact. *)
Definition double_of_Z (z : Z) : double := binary_normalize 53 1024 z 0 false.
Definition double_div : double -> double -> double := SFdiv 53 1024.

(** [std::min(a, b)] is [(b < a) ? b : a] and [std::max(a, b)] is
    [(a < b) ? b : a]. *)
Definition std_min (a b : double) : double := if SFltb b a then b else a.
Definition std_max (a b : double) : double := if SFltb a b then b else a.

Definition clamped_rate (rate : double) : double :=
  std_max double_zero (std_min double_one rate).

(** [channels[channel].lossRate] after [setLossRate(channel, rate)]; the list
    has one rate for each channel. *)
Definition setLossRate (rates : list double) (channel : Z) (rate : double) : list double :=
  if (0 <=? channel) && (channel <? SOCKET_POOL_SIZE)
  then <[Z.to_nat channel := clamped_rate rate]> rates
  else rates.

(** [currentLossRate > 0.0 && distribution(generator) < currentLossRate]: is
    the packet dropped, and how many numbers of the generator are used up?
    [sample] is the next number the distribution gives. *)
Definition loss_decision (rate sample : double) : bool * nat :=
  if SFltb double_zero rate
  then (SFltb sample rate, 1%nat)
  else (false, 0%nat).

(** ** Lemmas *)

Lemma total_length_value : total_length = 1037.
Proof. reflexivity. Qed.

Lemma length_videoStruct_bytes v :
  length (videoData v) = 1009%nat -> length (videoStruct_bytes v) = 1024%nat.
Proof. intros H. unfold videoStruct_bytes. rewrite !length_app, !length_le_bytes, H. done. Qed.

Lemma SFltb_leb x y : SFltb x y = true -> SFleb x y = true.
Proof. unfold SFltb, SFleb. by destruct (SFcompare x y) as [[]|]. Qed.

Definition is_probability (x : double) : bool := SFleb double_zero x && SFleb x double_one.

Lemma clamped_probability rate : is_probability (clamped_rate rate) = true.
Proof.
  unfold is_probability, clamped_rate, std_max, std_min.
  destruct (SFltb rate double_one) eqn:E1.
  - destruct (SFltb double_zero rate) eqn:E2; [| done ].
    by rewrite !SFltb_leb.
  - done.
Qed.

Lemma SFcompare_Eq_zero x : SFcompare double_zero x = Some Eq -> exists s, x = S754_zero s.
Proof. destruct x as [s | [] | | [] ? ?]; cbn; try discriminate. eauto. Qed.

Lemma SFcompare_Eq_finite m e m' e' :
  SFcompare (S754_finite false m e) (S754_finite false m' e') = Some Eq -> m = m' /\ e = e'.
Proof.
  cbn [SFcompare]. destruct (e ?= e') eqn:Ee; intros [= H]; try discriminate.
  apply Z.compare_eq in Ee. by apply Pos.compare_eq in H.
Qed.

(** ** Theorems *)

(** Whatever [double] the interface hands to [setLossRate], infinities and
    NaN included, the rate stored for an existing channel is a probability
    between 0 and 1; a NaN becomes 1 (everything is dropped), a rate that is
    already a probability is stored as a number equal to it, an index that is
    no channel changes nothing, and no other channel is touched. *)
Theorem setLossRate_probability rates channel rate :
  length rates = Z.to_nat SOCKET_POOL_SIZE ->
  let rates' := setLossRate rates channel rate in
  length rates' = length rates /\
  (forall i, Z.of_nat i <> channel -> rates' !! i = rates !! i) /\
  (~ (0 <= channel < SOCKET_POOL_SIZE) -> rates' = rates) /\
  (0 <= channel < SOCKET_POOL_SIZE ->
     exists v, rates' !! Z.to_nat channel = Some v /\ is_probability v = true /\
       (rate = S754_nan -> v = double_one) /\
       (is_probability rate = true -> SFeqb v rate = true)).
Proof.
  intros Hl. cbn zeta. unfold setLossRate, SOCKET_POOL_SIZE in *.
  destruct (Z.leb_spec 0 channel), (Z.ltb_spec channel 3); cbn [andb];
    try (split_and!; [ done | done | done | intros; lia ]).
  split_and!; [ by rewrite length_insert | | intros; lia |].
  { intros i Hi. rewrite list_lookup_insert_ne by lia. done. }
  intros _. exists (clamped_rate rate). split_and!.
  - apply list_lookup_insert_eq. lia.
  - apply clamped_probability.
  - by intros ->.
  - unfold is_probability, clamped_rate, std_max, std_min, SFleb, SFltb, SFeqb.
    intros [Hlo Hhi]%andb_true_iff.
    destruct (SFcompare rate double_one) as [[]|] eqn:E1; try discriminate.
    + change (SFcompare double_zero double_one) with (Some Lt).
      destruct rate as [s | [] | | [] m e]; try discriminate.
      change double_one with (S754_finite false 4503599627370496 (-52)) in E1.
      apply SFcompare_Eq_finite in E1 as [-> ->]. reflexivity.
    + destruct (SFcompare double_zero rate) as [[]|] eqn:E2; try discriminate.
      * apply SFcompare_Eq_zero in E2 as [s ->]. done.
      * destruct rate as [s | [] | | [] m e]; try discriminate. cbn.
        rewrite Z.compare_refl. by rewrite Pos.compare_cont_refl.
Qed.

Lemma setLossRate_probability_witness :
  let rates := [double_zero; double_zero; double_zero] in
  let rates' := setLossRate rates 2 S754_nan in
  length rates' = length rates /\
  (forall i, Z.of_nat i <> 2 -> rates' !! i = rates !! i) /\
  (~ (0 <= 2 < SOCKET_POOL_SIZE) -> rates' = rates) /\
  (0 <= 2 < SOCKET_POOL_SIZE ->
     exists v, rates' !! Z.to_nat 2 = Some v /\ is_probability v = true /\
       (S754_nan = S754_nan -> v = double_one) /\
       (is_probability S754_nan = true -> SFeqb v S754_nan = true)).
Proof.
  apply (setLossRate_probability [double_zero; double_zero; double_zero] 2 S754_nan).
  reflexivity.
Defined.

(** The loss simulation at the ends of its range: with rate 0 nothing is
    dropped and the generator is not consulted; with rate 1 every packet is
    dropped, the distribution giving numbers below 1; and a packet is only
    ever dropped when the number drawn is below the rate. *)
Theorem loss_decision_extremes rate sample :
  SFltb sample double_one = true ->
  (SFeqb rate double_zero = true -> loss_decision rate sample = (false, 0%nat)) /\
  (rate = double_one -> loss_decision rate sample = (true, 1%nat)) /\
  (fst (loss_decision rate sample) = true -> SFltb sample rate = true).
Proof.
  intros Hs. split_and!.
  - intros H0. destruct rate as [s | [] | | [] ? ?]; try discriminate H0. done.
  - intros ->. unfold loss_decision. change (SFltb double_zero double_one) with true. by rewrite Hs.
  - unfold loss_decision. by destruct (SFltb double_zero rate).
Qed.

Lemma loss_decision_extremes_witness :
  let half := double_div double_one (double_of_Z 2) in
  (SFeqb double_one double_zero = true -> loss_decision double_one half = (false, 0%nat)) /\
  (double_one = double_one -> loss_decision double_one half = (true, 1%nat)) /\
  (fst (loss_decision double_one half) = true -> SFltb half double_one = true).
Proof.
  intros half. apply (loss_decision_extremes double_one half). vm_compute. reflexivity.
Defined.
