(* ===== verification/Worker.v ===== *)
(** * What a worker puts on the wire

    The third stage of [Udpserver::socketWorkerTask]: the loss simulation, the
    global sequence number, and the datagram handed to [sendto]. The first two
    stages, which wait on condition variables, are in [System]. *)
From S2P Require Import Prelude.
From S2P Require Import Packet.
From S2P Require Import Channel.
From stdpp Require Import base list list_numbers numbers option tactics.
From Stdlib Require Import ZArith Lia.

#[local] Open Scope Z_scope.

(** ** Operations *)

(** [if (packet_found && sendPkt.packet_to_send && sendPkt.actual_payload_size > 0)];
    [None] is a local [sendPkt] that was not filled from the queue. *)
Definition sendable (hand : option SendPacket) : option (SendPacket * Packet) :=
  match hand with
  | Some sendPkt =>
      match packet_to_send sendPkt with
      | Some packet => if 0 <? actual_payload_size sendPkt then Some (sendPkt, packet) else None
      | None => None
      end
  | None => None
  end.

(** [sendPkt.seq = globalSeqCounter.fetch_add(1)]: the packet and the counter. *)
Definition assign_seq (sendPkt : SendPacket) (globalSeqCounter : Z) : SendPacket * Z :=
  (mkSendPacket (packet_to_send sendPkt) (crc32 sendPkt) (stream_type sendPkt)
     (channel_index sendPkt) globalSeqCounter (actual_payload_size sendPkt),
   u8 (globalSeqCounter + 1)).

(** [char send_buffer[2000]], holding [garbage], filled by [Serialize] and four
    copies; [Some] of the [total_length] bytes passed to [sendto], or [None]
    when [Serialize] did not write what was asked of it. *)
Definition send_datagram (garbage : list Z) (sendPkt : SendPacket) (packet : Packet)
    : outcome (option (list Z)) :=
  let payload_size := actual_payload_size sendPkt in
  '(send_buffer, bytes_serialized) ←
    Serialize packet garbage (u64 (payload_size + fec_header_size)) payload_size;
  let off := payload_size + fec_header_size in
  send_buffer ← memcpy send_buffer off (le_bytes 4 (crc32 sendPkt)) 0 4;
  send_buffer ← memcpy send_buffer (off + 4) (le_bytes 1 (stream_type sendPkt)) 0 1;
  send_buffer ← memcpy send_buffer (off + 4 + 1) (le_bytes 1 (channel_index sendPkt)) 0 1;
  send_buffer ← memcpy send_buffer (off + 4 + 1 + 1) (le_bytes 1 (pkt_seq sendPkt)) 0 1;
  if bytes_serialized =? u64 (payload_size + fec_header_size) then
    bytes ← slice send_buffer 0 total_length;
    Ok (Some bytes)
  else Ok None.

(** ** Specification *)

(** The seven bytes behind the FEC packet: CRC, stream type, channel, number. *)
Definition trailer (sendPkt : SendPacket) : list Z :=
  le_bytes 4 (crc32 sendPkt) ++
  [stream_type sendPkt mod 256; channel_index sendPkt mod 256; pkt_seq sendPkt mod 256].

(** What a receiver can read from a datagram with [n] bytes of payload: the
    packet's fields and payload, the channel and the number. *)
Definition parse_datagram (n : Z) (bytes : list Z)
    : option (Z * Z * Z * Z * Z * list Z * Z * Z) :=
  match parse bytes n, drop (Z.to_nat (6 + n)) bytes with
  | Some (m, g, s, k, r, payload), _ :: _ :: _ :: _ :: _ :: ch :: number :: _ =>
      Some (m, g, s, k, r, payload, ch, number)
  | _, _ => None
  end.

(** ** Lemmas *)

Lemma send_datagram_Ok garbage sendPkt p :
  let n := actual_payload_size sendPkt in
  length (p_data p) = Z.to_nat kMaxDataSize -> length garbage = 2000%nat -> 0 <= n <= 1024 ->
  send_datagram garbage sendPkt p =
    Ok (Some (packet_bytes p n ++ trailer sendPkt ++
              take (Z.to_nat (1024 - n)) (drop (Z.to_nat (n + 13)) garbage))).
Proof.
  intros n Hd Hg Hn. unfold send_datagram, fec_header_size. fold n.
  rewrite (u64_id (n + 6)), Serialize_Ok, bind_Ok by (try done; unfold kMaxDataSize; lia).
  unfold kMaxDataSize in Hd.
  pose proof (length_packet_bytes p n ltac:(lia)) as Hl.
  repeat (rewrite memcpy_append, bind_Ok
            by (rewrite ?length_app, ?length_take, ?length_le_bytes, ?Hl; lia)).
  rewrite (Z.add_comm 6 n), Z.eqb_refl.
  match goal with |- context [blit 0 ?b garbage] =>
    replace b with (packet_bytes p n ++ trailer sendPkt) by
      (unfold trailer; rewrite <- !app_assoc; reflexivity) end.
  assert (Ht : length (packet_bytes p n ++ trailer sendPkt) = Z.to_nat (n + 13))
    by (rewrite length_app, Hl; cbn; lia).
  unfold slice. rewrite length_blit by lia. rewrite Hg, total_length_value.
  change ((0 <=? 0) && (0 <=? 1037) && (0 + 1037 <=? Z.of_nat 2000)) with true.
  cbn beta iota. rewrite bind_Ok. do 2 f_equal.
  change (Z.to_nat 0) with 0%nat. rewrite drop_0. unfold blit. rewrite take_0, app_nil_l.
  rewrite take_app, Ht, take_ge by lia. rewrite <- app_assoc. do 3 f_equal. lia.
Qed.

(** ** Theorems *)

(** The datagram of a packet with a full payload of 1024 bytes is exactly
    1037 bytes: FEC header, payload, CRC field, stream type, channel number and
    sequence number; it depends on nothing else, and reading it back gives the
    fields of the packet. *)
Theorem datagram_full garbage sendPkt p :
  wf_packet p -> length garbage = 2000%nat -> actual_payload_size sendPkt = 1024 ->
  0 <= channel_index sendPkt < 256 -> 0 <= pkt_seq sendPkt < 256 ->
  exists bytes, send_datagram garbage sendPkt p = Ok (Some bytes) /\
    Z.of_nat (length bytes) = total_length /\
    bytes = packet_bytes p 1024 ++ trailer sendPkt /\
    parse_datagram 1024 bytes =
      Some (packet_mask p, p_group_number p, p_sequence_number p, p_k p, p_r p,
            take 1024 (p_data p), channel_index sendPkt, pkt_seq sendPkt).
Proof.
  intros Hwf Hg Hn Hc Hs. rewrite send_datagram_Ok by (try apply Hwf; try done; lia). rewrite Hn.
  change (Z.to_nat (1024 - 1024)) with 0%nat. rewrite take_0, app_nil_r.
  destruct Hwf as (Hm & Hgr & Hsq & Hk & Hr & Hd & _). unfold kMaxDataSize in Hd.
  eexists. split; [ reflexivity |]. rewrite length_app, length_packet_bytes by lia.
  split_and!; [ done | done |]. unfold parse_datagram.
  rewrite drop_app_length' by (rewrite length_packet_bytes; lia).
  unfold packet_bytes, header_bytes, trailer. cbn [le_bytes app parse].
  rewrite take_app_length' by (rewrite length_take, Hd; lia).
  rewrite !(Z.mod_small (p_group_number p)), !(Z.mod_small (p_sequence_number p)),
    !(Z.mod_small (p_k p)), !(Z.mod_small (p_r p)), !(Z.mod_small (channel_index _)),
    !(Z.mod_small (pkt_seq _)) by lia.
  do 9 f_equal. cbn [le_value].
  rewrite (Z.mod_small (packet_mask p / 256))
    by (split; [ apply Z.div_pos | apply Z.div_lt_upper_bound ]; lia).
  pose proof (Z.div_mod (packet_mask p) 256). lia.
Qed.

Lemma datagram_full_witness :
  let s := make_send_packet sample_packet 2 1024 in
  exists bytes, send_datagram (replicate 2000 7) s sample_packet = Ok (Some bytes) /\
    Z.of_nat (length bytes) = total_length /\
    bytes = packet_bytes sample_packet 1024 ++ trailer s /\
    parse_datagram 1024 bytes =
      Some (packet_mask sample_packet, p_group_number sample_packet,
            p_sequence_number sample_packet, p_k sample_packet, p_r sample_packet,
            take 1024 (p_data sample_packet), channel_index s, pkt_seq s).
Proof.
  intros s. apply (datagram_full (replicate 2000 7) s sample_packet);
    first [ exact sample_packet_wf | reflexivity | vm_compute; split; (reflexivity || discriminate) ].
Defined.

(** A packet with a shorter payload of [n] bytes is still sent as 1037 bytes.
    The trailer comes right behind the payload, not at a fixed place, and the
    last [1024 - n] bytes of the datagram are whatever the stack held: changing
    that memory changes the datagram. *)
Theorem datagram_short_leaks garbage sendPkt p :
  let n := actual_payload_size sendPkt in
  wf_packet p -> length garbage = 2000%nat -> 0 < n < 1024 ->
  exists bytes, send_datagram garbage sendPkt p = Ok (Some bytes) /\
    Z.of_nat (length bytes) = total_length /\
    take (Z.to_nat (n + 13)) bytes = packet_bytes p n ++ trailer sendPkt /\
    drop (Z.to_nat (n + 13)) bytes = take (Z.to_nat (1024 - n)) (drop (Z.to_nat (n + 13)) garbage) /\
    send_datagram (map (fun b => Z.lxor b 1) garbage) sendPkt p <> Ok (Some bytes).
Proof.
  intros n Hwf Hg Hn. pose proof Hwf as (_ & _ & _ & _ & _ & Hd & _). unfold kMaxDataSize in Hd.
  pose proof (length_packet_bytes p n ltac:(lia)) as Hl.
  assert (Ht : length (packet_bytes p n ++ trailer sendPkt) = Z.to_nat (n + 13))
    by (rewrite length_app, Hl; cbn; lia).
  rewrite !send_datagram_Ok by (try done; rewrite ?length_map; done || lia). fold n.
  eexists. split; [ reflexivity |]. rewrite app_assoc. split_and!.
  - rewrite length_app, Ht, length_take, length_drop, total_length_value. lia.
  - by rewrite take_app_length'.
  - by rewrite drop_app_length'.
  - rewrite app_assoc. intros [= Heq%(inj (app _))].
    destruct (lookup_lt_is_Some_2 garbage (Z.to_nat (n + 13)) ltac:(lia)) as (b & Hb).
    assert (H0 : take (Z.to_nat (1024 - n)) (drop (Z.to_nat (n + 13)) garbage) !! 0%nat = Some b)
      by (rewrite lookup_take_lt, lookup_drop, Nat.add_0_r by lia; done).
    rewrite <- Heq, lookup_take_lt, lookup_drop, Nat.add_0_r, list_lookup_fmap, Hb in H0 by lia.
    injection H0 as H0. assert (Z.lxor (Z.lxor b 1) b = 0) by (rewrite H0; apply Z.lxor_nilpotent).
    rewrite (Z.lxor_comm b), Z.lxor_assoc, Z.lxor_nilpotent in *. done.
Qed.

Lemma datagram_short_leaks_witness :
  let s := make_send_packet sample_packet 0 100 in
  let n := actual_payload_size s in
  exists bytes, send_datagram (replicate 2000 7) s sample_packet = Ok (Some bytes) /\
    Z.of_nat (length bytes) = total_length /\
    take (Z.to_nat (n + 13)) bytes = packet_bytes sample_packet n ++ trailer s /\
    drop (Z.to_nat (n + 13)) bytes =
      take (Z.to_nat (1024 - n)) (drop (Z.to_nat (n + 13)) (replicate 2000 7)) /\
    send_datagram (map (fun b => Z.lxor b 1) (replicate 2000 7)) s sample_packet <> Ok (Some bytes).
Proof.
  intros s. apply (datagram_short_leaks (replicate 2000 7) s sample_packet);
    first [ exact sample_packet_wf | reflexivity | vm_compute; split; (reflexivity || discriminate) ].
Defined.
