(* ===== verification/System.v ===== *)
(** * The sending process as a transition system

    [Udpserver::fileReaderTask], [Udpserver::socketWorkerTask] and the calls the
    interface thread makes while they run ([channelStateChange], [setLossRate],
    [StopSending]), as threads over a shared state. A thread is a program
    counter with its live local variables, and a step function that is
    deterministic: [None] means the thread cannot move (a mutex is held, a
    condition variable has not been signalled, the thread has ended). Every
    load, store and exchange of an atomic variable, every lock and every wake
    is a step of its own; code between them that touches only a thread's own
    data goes with the next step. A system step moves one thread, or wakes a
    waiting worker spuriously.

    Parameters: the file device ([Device]), the numbers the loss distribution
    gives ([sample]), and the contents of uninitialised arrays. The result of
    [sendto] is not used by the code except for log messages; [Sent] records
    the call. Pauses and log messages are left out. *)
From S2P Require Import Prelude.
From S2P Require Import MaskTable.
From S2P Require Import Packet.
From S2P Require Import Encoder.
From S2P Require Import Channel.
From S2P Require Import Worker.
From stdpp Require Import base list list_numbers numbers option strings relations tactics.
From Stdlib Require Import ZArith Lia.

#[local] Open Scope Z_scope.

(** ** The file *)

(** [QFile]: opening by path, [atEnd] and [read]. [read] gives [None] on error. *)
Class Device (dev : Type) : Type := {
  dev_open : string -> option dev;
  dev_atEnd : dev -> bool;
  dev_read : dev -> Z -> option (list Z) * dev
}.

(** What [QFile] documents for a regular file opened for reading: it has
    contents still to be read, [atEnd] tells whether none are left, and [read]
    takes as many bytes as are there, at most the count asked for. *)
Class RegularFile (dev : Type) `{Device dev} : Type := {
  dev_rest : dev -> list Z;
  dev_atEnd_spec : forall d, dev_atEnd d = bool_decide (dev_rest d = []);
  dev_read_spec : forall d n, 0 <= n ->
    exists d', dev_read d n = (Some (take (Z.to_nat n) (dev_rest d)), d') /\
               dev_rest d' = drop (Z.to_nat n) (dev_rest d)
}.

(** A device over files held in memory: the documented behaviour is possible. *)
#[local] Instance list_device (files : string -> option (list Z)) : Device (list Z) := {|
  dev_open := files;
  dev_atEnd rest := bool_decide (rest = []);
  dev_read rest n := (Some (take (Z.to_nat n) rest), drop (Z.to_nat n) rest)
|}.

#[local] Instance list_regular (files : string -> option (list Z)) :
  @RegularFile (list Z) (list_device files).
Proof.
  refine (@Build_RegularFile (list Z) (list_device files) (fun rest => rest) _ _).
  - reflexivity.
  - intros d n _. by exists (drop (Z.to_nat n) d).
Defined.

(** ** Shared state *)

Inductive thread : Type := TReader | TWorker | TMain.
#[export] Instance thread_eq_dec : EqDecision thread.
Proof. solve_decision. Defined.

(** [ChannelContext]: a mutex is its owner ([TWorker] is the worker of this
    channel, the only one to use it), a condition variable tells whether that
    worker is waiting on it. *)
Record ChannelContext : Type := mkChannel {
  packetQueue : list SendPacket;
  queueMutex : option thread;
  queueCondition : bool;
  stateMutex : option thread;
  stateCondition : bool;
  enabled : Z;
  lossRate : double
}.

Definition with_queue (q : list SendPacket) (c : ChannelContext) : ChannelContext :=
  mkChannel q (queueMutex c) (queueCondition c) (stateMutex c) (stateCondition c) (enabled c) (lossRate c).
Definition with_queueMutex (o : option thread) (c : ChannelContext) : ChannelContext :=
  mkChannel (packetQueue c) o (queueCondition c) (stateMutex c) (stateCondition c) (enabled c) (lossRate c).
Definition with_queueCondition (b : bool) (c : ChannelContext) : ChannelContext :=
  mkChannel (packetQueue c) (queueMutex c) b (stateMutex c) (stateCondition c) (enabled c) (lossRate c).
Definition with_stateMutex (o : option thread) (c : ChannelContext) : ChannelContext :=
  mkChannel (packetQueue c) (queueMutex c) (queueCondition c) o (stateCondition c) (enabled c) (lossRate c).
Definition with_stateCondition (b : bool) (c : ChannelContext) : ChannelContext :=
  mkChannel (packetQueue c) (queueMutex c) (queueCondition c) (stateMutex c) b (enabled c) (lossRate c).
Definition with_enabled (e : Z) (c : ChannelContext) : ChannelContext :=
  mkChannel (packetQueue c) (queueMutex c) (queueCondition c) (stateMutex c) (stateCondition c) e (lossRate c).
Definition with_lossRate (r : double) (c : ChannelContext) : ChannelContext :=
  mkChannel (packetQueue c) (queueMutex c) (queueCondition c) (stateMutex c) (stateCondition c) (enabled c) r.

(** What happens to packets, in order. *)
Inductive event : Type :=
| Pushed (channel : nat) (p : SendPacket)
| Popped (channel : nat) (p : SendPacket)
| Dropped (channel : nat) (p : SendPacket)      (* by the loss simulation *)
| Abandoned (channel : nat) (p : SendPacket)    (* in hand when stopped *)
| Sent (channel : nat) (p : SendPacket) (bytes : list Z).

Record Shared : Type := mkShared {
  is_running : bool;
  currentFilePath : string;
  currentSocket : Z;
  globalSeqCounter : Z;
  channels : list ChannelContext;
  fec : ForwardErrorCorrection;
  trace : list event
}.

Definition with_running (b : bool) (s : Shared) : Shared :=
  mkShared b (currentFilePath s) (currentSocket s) (globalSeqCounter s) (channels s) (fec s) (trace s).
Definition with_currentSocket (n : Z) (s : Shared) : Shared :=
  mkShared (is_running s) (currentFilePath s) n (globalSeqCounter s) (channels s) (fec s) (trace s).
Definition with_seqCounter (n : Z) (s : Shared) : Shared :=
  mkShared (is_running s) (currentFilePath s) (currentSocket s) n (channels s) (fec s) (trace s).
Definition with_channel (i : nat) (c : ChannelContext) (s : Shared) : Shared :=
  mkShared (is_running s) (currentFilePath s) (currentSocket s) (globalSeqCounter s)
    (<[i := c]> (channels s)) (fec s) (trace s).
Definition with_fec (f : ForwardErrorCorrection) (s : Shared) : Shared :=
  mkShared (is_running s) (currentFilePath s) (currentSocket s) (globalSeqCounter s)
    (channels s) f (trace s).
Definition emit (e : event) (s : Shared) : Shared :=
  mkShared (is_running s) (currentFilePath s) (currentSocket s) (globalSeqCounter s)
    (channels s) (fec s) (trace s ++ [e]).

(** ** The reader *)

(** [videoStruct flightpkt] filled from [data_buf]. The copy of
    [sizeof(data_buf)] bytes runs past [videoData]; the object itself gets the
    first 1009. *)
Definition flightpkt_of (data_buf : list Z) : videoStruct :=
  mkVideoStruct (u32 sysword) 1 1 1 6 1 1 1009 (take 1009 data_buf).

(** [fec_input_buffer] and [fec_input_size]. *)
Definition fec_input (garbage data_buf : list Z) (bytesRead : Z) : outcome (list Z * Z) :=
  let fec_input_size := u64 (flightpkt_header_size + bytesRead) in
  fec_input_buffer ← memcpy garbage 0 (videoStruct_bytes (flightpkt_of data_buf)) 0 fec_input_size;
  Ok (fec_input_buffer, fec_input_size).

Definition encode_chunk `{CheckMode} (mask_garbage garbage data_buf : list Z) (bytesRead : Z)
    (f : ForwardErrorCorrection) : outcome (ForwardErrorCorrection * Z) :=
  '(fec_input_buffer, fec_input_size) ← fec_input garbage data_buf bytesRead;
  '(f, _) ← PacketByFEC mask_garbage f fec_input_buffer (i32 fec_input_size) fec_k fec_r;
  Ok (f, fec_input_size).

(** [long long sleep_duration_us], the pause after each packet. *)
Definition sleep_duration_us (bytesRead : Z) : Z :=
  Z.quot (bytesRead * 8 * 1000000) 30000000.

(** The locals that live through the main loop: the file and [data_buf]. *)
Record Rloc (dev : Type) : Type := mkRloc { file : dev; data_buf : list Z }.
Arguments mkRloc {dev} _ _.
Arguments file {dev} _.
Arguments data_buf {dev} _.

Inductive Rpc (dev : Type) : Type :=
| R_start
| R_open (filePath : string)
| R_while (l : Rloc dev)
| R_search (l : Rloc dev) (search_start_index attempts : Z)
| R_test (l : Rloc dev) (search_start_index attempts : Z)
| R_none (l : Rloc dev)
| R_read (l : Rloc dev) (target_channel : nat)
| R_drain (l : Rloc dev) (target_channel : nat) (fec_input_size : Z)
| R_lock (l : Rloc dev) (target_channel : nat) (fec_input_size : Z) (sendPkt : SendPacket)
| R_push (l : Rloc dev) (target_channel : nat) (fec_input_size : Z) (sendPkt : SendPacket)
| R_wake (l : Rloc dev) (target_channel : nat) (fec_input_size : Z)
| R_done
| R_fault (e : fault).
Arguments R_start {dev}.
Arguments R_open {dev} _.
Arguments R_while {dev} _.
Arguments R_search {dev} _ _ _.
Arguments R_test {dev} _ _ _.
Arguments R_none {dev} _.
Arguments R_read {dev} _ _.
Arguments R_drain {dev} _ _ _.
Arguments R_lock {dev} _ _ _ _.
Arguments R_push {dev} _ _ _ _.
Arguments R_wake {dev} _ _ _.
Arguments R_done {dev}.
Arguments R_fault {dev} _.

Section Threads.
Context `{CheckMode} {dev : Type} `{Device dev}.
Variable mask_garbage : list Z.   (* the scratch array of a PacketMaskTable *)
Variable buf_garbage : list Z.    (* data_buf before the first read *)
Variable input_garbage : list Z.  (* fec_input_buffer *)
Variable send_garbage : list Z.   (* send_buffer *)
Variable sample : nat -> nat -> double.

Definition reader_step (pc : Rpc dev) (s : Shared) : option (Rpc dev * Shared) :=
  match pc with
  | R_start =>
      if bool_decide (currentFilePath s = EmptyString)
      then Some (R_done, with_running false s)
      else Some (R_open (currentFilePath s), s)
  | R_open filePath =>
      match dev_open filePath with
      | None => Some (R_done, with_running false s)
      | Some f => Some (R_while (mkRloc f buf_garbage), s)
      end
  | R_while l =>
      if is_running s && negb (dev_atEnd (file l))
      then Some (R_search l (currentSocket s) 0, s)
      else Some (R_done, s)
  | R_search l search_start_index attempts =>
      if (attempts <? SOCKET_POOL_SIZE) && is_running s
      then Some (R_test l search_start_index attempts, s)
      else Some (R_none l, s)
  | R_test l search_start_index attempts =>
      let current_index := Z.rem search_start_index SOCKET_POOL_SIZE in
      c ← channels s !! Z.to_nat current_index;
      if enabled c =? 1
      then Some (R_read l (Z.to_nat current_index),
                 with_currentSocket (Z.rem (current_index + 1) SOCKET_POOL_SIZE) s)
      else Some (R_search l (i32 (search_start_index + 1)) (attempts + 1), s)
  | R_none l =>
      if is_running s then Some (R_while l, s) else Some (R_done, s)
  | R_read l target_channel =>
      let '(got, f) := dev_read (file l) readChunkSize in
      match got with
      | None | Some [] => Some (R_done, s)
      | Some bytes =>
          let data_buf := blit 0 bytes (data_buf l) in
          match encode_chunk mask_garbage input_garbage data_buf
                  (Z.of_nat (length bytes)) (fec s) with
          | Ok (fec', size) => Some (R_drain (mkRloc f data_buf) target_channel size, with_fec fec' s)
          | Fail e => Some (R_fault e, s)
          end
      end
  | R_drain l target_channel size =>
      match buffer_packets (fec s) with
      | [] => Some (R_while l, s)
      | pkt :: rest =>
          Some (R_lock l target_channel size
                  (make_send_packet pkt (Z.of_nat target_channel) size),
                with_fec (set_buffer rest (fec s)) s)
      end
  | R_lock l target_channel size sendPkt =>
      c ← channels s !! target_channel;
      match queueMutex c with
      | Some _ => None
      | None => Some (R_push l target_channel size sendPkt,
                      with_channel target_channel (with_queueMutex (Some TReader) c) s)
      end
  | R_push l target_channel size sendPkt =>
      c ← channels s !! target_channel;
      Some (R_wake l target_channel size,
            emit (Pushed target_channel sendPkt)
              (with_channel target_channel
                 (with_queueMutex None (with_queue (packetQueue c ++ [sendPkt]) c)) s))
  | R_wake l target_channel size =>
      c ← channels s !! target_channel;
      Some (R_drain l target_channel size,
            with_channel target_channel (with_queueCondition false c) s)
  | R_done | R_fault _ => None
  end.

(** ** A worker *)

Inductive Wpc : Type :=
| W_loop                                   (* while (is_running.load()) *)
| W_lock                                   (* stage 1: lock queueMutex *)
| W_c1 | W_c2 | W_c3                       (* the three conditions of the wait loop *)
| W_wait                                   (* in queueCondition.wait *)
| W_run | W_en | W_pop                     (* the tests and the pop behind it *)
| W_slock (hand : option SendPacket)       (* stage 2: lock stateMutex *)
| W_s1 (hand : option SendPacket)
| W_s2 (hand : option SendPacket)
| W_swait (hand : option SendPacket)       (* in stateCondition.wait *)
| W_after (hand : option SendPacket)       (* if (!is_running.load()) break *)
| W_loss (hand : option SendPacket)        (* stage 3: loss simulation *)
| W_seq (sendPkt : SendPacket) (packet : Packet)
| W_out (sendPkt : SendPacket) (packet : Packet)
| W_exit
| W_fault (e : fault).

(** [w_draws] counts the numbers taken from the generator. *)
Record Worker : Type := mkWorker { w_pc : Wpc; w_draws : nat }.

(** Events for a packet that leaves a worker's hand. *)
Definition emit_hand (e : SendPacket -> event) (hand : option SendPacket) (s : Shared) : Shared :=
  match hand with Some p => emit (e p) s | None => s end.

Definition worker_step (i : nat) (w : Worker) (s : Shared) : option (Worker * Shared) :=
  c ← channels s !! i;
  let goto pc s := Some (mkWorker pc (w_draws w), s) in
  match w_pc w with
  | W_loop => if is_running s then goto W_lock s else goto W_exit s
  | W_lock =>
      match queueMutex c with
      | Some _ => None
      | None => goto W_c1 (with_channel i (with_queueMutex (Some TWorker) c) s)
      end
  | W_c1 => if is_running s then goto W_c2 s else goto W_run s
  | W_c2 => if enabled c =? 1 then goto W_c3 s else goto W_run s
  | W_c3 =>
      match packetQueue c with
      | [] => goto W_wait (with_channel i (with_queueMutex None (with_queueCondition true c)) s)
      | _ => goto W_run s
      end
  | W_wait =>
      match queueCondition c, queueMutex c with
      | false, None => goto W_c1 (with_channel i (with_queueMutex (Some TWorker) c) s)
      | _, _ => None
      end
  | W_run =>
      if is_running s then goto W_en s
      else goto W_exit (with_channel i (with_queueMutex None c) s)
  | W_en =>
      if enabled c =? 0 then goto W_loop (with_channel i (with_queueMutex None c) s)
      else goto W_pop s
  | W_pop =>
      match packetQueue c with
      | [] => goto (W_slock None) (with_channel i (with_queueMutex None c) s)
      | p :: q =>
          goto (W_slock (Some p))
            (emit (Popped i p) (with_channel i (with_queueMutex None (with_queue q c)) s))
      end
  | W_slock hand =>
      match stateMutex c with
      | Some _ => None
      | None => goto (W_s1 hand) (with_channel i (with_stateMutex (Some TWorker) c) s)
      end
  | W_s1 hand =>
      if is_running s then goto (W_s2 hand) s
      else goto (W_after hand) (with_channel i (with_stateMutex None c) s)
  | W_s2 hand =>
      if enabled c =? 0
      then goto (W_swait hand) (with_channel i (with_stateMutex None (with_stateCondition true c)) s)
      else goto (W_after hand) (with_channel i (with_stateMutex None c) s)
  | W_swait hand =>
      match stateCondition c, stateMutex c with
      | false, None => goto (W_s1 hand) (with_channel i (with_stateMutex (Some TWorker) c) s)
      | _, _ => None
      end
  | W_after hand =>
      if is_running s then goto (W_loss hand) s
      else goto W_exit (emit_hand (Abandoned i) hand s)
  | W_loss hand =>
      match sendable hand with
      | None => goto W_loop (emit_hand (Abandoned i) hand s)
      | Some (sendPkt, packet) =>
          let '(drop, used) := loss_decision (lossRate c) (sample i (w_draws w)) in
          if drop : bool
          then Some (mkWorker W_loop (w_draws w + used), emit (Dropped i sendPkt) s)
          else Some (mkWorker (W_seq sendPkt packet) (w_draws w + used), s)
      end
  | W_seq sendPkt packet =>
      let '(sendPkt, n) := assign_seq sendPkt (globalSeqCounter s) in
      goto (W_out sendPkt packet) (with_seqCounter n s)
  | W_out sendPkt packet =>
      match send_datagram send_garbage sendPkt packet with
      | Ok (Some bytes) => goto W_loop (emit (Sent i sendPkt bytes) s)
      | Ok None => goto W_loop (emit (Abandoned i sendPkt) s)
      | Fail e => goto (W_fault e) s
      end
  | W_exit | W_fault _ => None
  end.

(** ** The interface thread *)

Inductive request : Type :=
| ChannelStateChange (channel : Z) (state : bool)
| SetLossRate (channel : Z) (rate : double)
| StopSending.

Inductive Mpc : Type :=
| M_idle
| M_slock (i : nat)    (* channelStateChange: lock stateMutex *)
| M_swake (i : nat)    (* ... and wakeOne under it *)
| M_stop_slock (i : nat) | M_stop_swake (i : nat)
| M_stop_qlock (i : nat) | M_stop_qwake (i : nat)
| M_join (n : nat)     (* threads left to wait for: 0 reader, i + 1 worker i *)
| M_closed.

Definition main_request (r : request) (s : Shared) : option (Mpc * Shared) :=
  match r with
  | ChannelStateChange channel state =>
      if (channel <? 0) || (SOCKET_POOL_SIZE <=? channel) then Some (M_idle, s)
      else
        c ← channels s !! Z.to_nat channel;
        let e := if state then 1 else 0 in
        let s := with_channel (Z.to_nat channel) (with_enabled e c) s in
        if negb (enabled c =? e) && state then Some (M_slock (Z.to_nat channel), s)
        else Some (M_idle, s)
  | SetLossRate channel rate =>
      if (0 <=? channel) && (channel <? SOCKET_POOL_SIZE) then
        c ← channels s !! Z.to_nat channel;
        Some (M_idle, with_channel (Z.to_nat channel) (with_lossRate (clamped_rate rate) c) s)
      else Some (M_idle, s)
  | StopSending => Some (M_stop_slock 0, with_running false s)
  end.

Definition thread_done (rd : Rpc dev) (wk : list Worker) (n : nat) : bool :=
  match n with
  | O => match rd with R_done => true | _ => false end
  | S i => match wk !! i with
           | Some w => match w_pc w with W_exit => true | _ => false end
           | None => false
           end
  end.

Definition main_step (pc : Mpc) (rd : Rpc dev) (wk : list Worker) (s : Shared)
    : option (Mpc * Shared) :=
  match pc with
  | M_idle | M_closed => None
  | M_slock i =>
      c ← channels s !! i;
      match stateMutex c with
      | Some _ => None
      | None => Some (M_swake i, with_channel i (with_stateMutex (Some TMain) c) s)
      end
  | M_swake i =>
      c ← channels s !! i;
      Some (M_idle, with_channel i (with_stateMutex None (with_stateCondition false c)) s)
  | M_stop_slock i =>
      c ← channels s !! i;
      match stateMutex c with
      | Some _ => None
      | None => Some (M_stop_swake i, with_channel i (with_stateMutex (Some TMain) c) s)
      end
  | M_stop_swake i =>
      c ← channels s !! i;
      Some (M_stop_qlock i, with_channel i (with_stateMutex None (with_stateCondition false c)) s)
  | M_stop_qlock i =>
      c ← channels s !! i;
      match queueMutex c with
      | Some _ => None
      | None => Some (M_stop_qwake i, with_channel i (with_queueMutex (Some TMain) c) s)
      end
  | M_stop_qwake i =>
      c ← channels s !! i;
      Some (if (S i <? 3)%nat then M_stop_slock (S i) else M_join 4,
            with_channel i (with_queueMutex None (with_queueCondition false c)) s)
  | M_join n =>
      match n with
      | O => Some (M_closed, s)
      | S n => if thread_done rd wk n then Some (M_join n, s) else None
      end
  end.

(** ** The system *)

Record Sys : Type := mkSys {
  shared : Shared;
  reader : Rpc dev;
  workers : list Worker;
  main : Mpc
}.

(** Condition variables may wake without a signal. *)
Inductive sys_step : Sys -> Sys -> Prop :=
| step_reader s rd wk m rd' s' :
    reader_step rd s = Some (rd', s') ->
    sys_step (mkSys s rd wk m) (mkSys s' rd' wk m)
| step_worker s rd wk m i w w' s' :
    wk !! i = Some w -> worker_step i w s = Some (w', s') ->
    sys_step (mkSys s rd wk m) (mkSys s' rd (<[i := w']> wk) m)
| step_main s rd wk m m' s' :
    main_step m rd wk s = Some (m', s') ->
    sys_step (mkSys s rd wk m) (mkSys s' rd wk m')
| step_request s rd wk r m' s' :
    main_request r s = Some (m', s') ->
    sys_step (mkSys s rd wk M_idle) (mkSys s' rd wk m')
| step_spurious_queue s rd wk m i c :
    channels s !! i = Some c -> queueCondition c = true ->
    sys_step (mkSys s rd wk m) (mkSys (with_channel i (with_queueCondition false c) s) rd wk m)
| step_spurious_state s rd wk m i c :
    channels s !! i = Some c -> stateCondition c = true ->
    sys_step (mkSys s rd wk m) (mkSys (with_channel i (with_stateCondition false c) s) rd wk m).

(** The moment [StartSending] has started the four threads: the queues are
    empty, [currentSocket] is 0, the rest is as earlier calls left it. *)
Definition initial_channel (enabled0 : Z) (rate : double) : ChannelContext :=
  mkChannel [] None false None false enabled0 rate.

Definition initial (path : string) (seq0 : Z) (f : ForwardErrorCorrection)
    (settings : list (Z * double)) : Sys :=
  mkSys (mkShared true path 0 seq0 (map (fun '(e, r) => initial_channel e r) settings) f [])
    R_start (replicate 3 (mkWorker W_loop 0)) M_idle.

Definition reachable (init : Sys) (st : Sys) : Prop := rtc sys_step init st.

End Threads.
