(* ===== verification/SystemInv.v ===== *)
(** * Invariants of the sending process

    What holds in every state the threads of [System] can reach, under every
    interleaving: who holds which mutex, who waits on which condition variable,
    that every packet in flight is well formed, that the encoder is between two
    calls in a consistent state, and that no thread runs into undefined
    behaviour. The last part of [chan_ok] is what rules out a lost wakeup. *)
From S2P Require Import Prelude.
From S2P Require Import MaskTable.
From S2P Require Import Packet.
From S2P Require Import Encoder.
From S2P Require Import EncoderFacts.
From S2P Require Import Channel.
From S2P Require Import Worker.
From S2P Require Import System.
From stdpp Require Import base list list_numbers numbers option strings relations tactics.
From Stdlib Require Import ZArith Lia.

#[local] Open Scope Z_scope.

(** ** Packets *)

Definition good_size (n : Z) : Prop := 0 < n <= 1024.

Definition good_packet (p : SendPacket) : Prop :=
  (exists pk, packet_to_send p = Some pk /\ length (p_data pk) = Z.to_nat kMaxDataSize) /\
  good_size (actual_payload_size p).

Definition good_hand (h : option SendPacket) : Prop :=
  match h with Some p => good_packet p | None => True end.

(** ** Locks and conditions of one channel *)

Definition holds_queue (pc : Wpc) : bool :=
  match pc with W_c1 | W_c2 | W_c3 | W_run | W_en | W_pop => true | _ => false end.
Definition holds_state (pc : Wpc) : bool :=
  match pc with W_s1 _ | W_s2 _ => true | _ => false end.

Definition worker_ok (pc : Wpc) : Prop :=
  match pc with
  | W_slock h | W_s1 h | W_s2 h | W_swait h | W_after h | W_loss h => good_hand h
  | W_seq p pk | W_out p pk =>
      length (p_data pk) = Z.to_nat kMaxDataSize /\ good_size (actual_payload_size p)
  | W_fault _ => False
  | _ => True
  end.

(** The owner of a mutex and which of the three threads are in the code it
    protects. *)
Inductive lock_ok : option thread -> bool -> bool -> bool -> Prop :=
| lock_free : lock_ok None false false false
| lock_worker : lock_ok (Some TWorker) true false false
| lock_reader : lock_ok (Some TReader) false true false
| lock_main : lock_ok (Some TMain) false false true.

Lemma lock_ok_None a b c : lock_ok None a b c -> a = false /\ b = false /\ c = false.
Proof. by inversion 1. Qed.
Lemma lock_ok_worker o b c : lock_ok o true b c -> o = Some TWorker /\ b = false /\ c = false.
Proof. by inversion 1. Qed.
Lemma lock_ok_reader o a c : lock_ok o a true c -> o = Some TReader /\ a = false /\ c = false.
Proof. by inversion 1. Qed.
Lemma lock_ok_main o a b : lock_ok o a b true -> o = Some TMain /\ a = false /\ b = false.
Proof. by inversion 1. Qed.

(** What the other threads do to this channel: the reader is in the code
    [queueMutex] protects, the interface thread in that of [queueMutex] or
    [stateMutex], or it has already woken the queue or state waiters for good. *)
Record Flags : Type := mkFlags {
  f_reader : bool;
  f_main_queue : bool;
  f_main_state : bool;
  f_past_queue : bool;
  f_past_state : bool
}.

Definition chan_ok (f : Flags) (c : ChannelContext) (pc : Wpc) : Prop :=
  lock_ok (queueMutex c) (holds_queue pc) (f_reader f) (f_main_queue f) /\
  lock_ok (stateMutex c) (holds_state pc) false (f_main_state f) /\
  (queueCondition c = true -> pc = W_wait) /\
  (stateCondition c = true -> exists h, pc = W_swait h) /\
  (enabled c = 0 \/ enabled c = 1) /\
  Forall good_packet (packetQueue c) /\
  worker_ok pc /\
  (f_past_queue f = true -> queueCondition c = false /\ pc <> W_c2 /\ pc <> W_c3) /\
  (f_past_state f = true -> stateCondition c = false /\ forall h, pc <> W_s2 h).

Definition r_flag {dev} (rd : Rpc dev) (i : nat) : bool :=
  match rd with R_push _ t _ _ => bool_decide (t = i) | _ => false end.
Definition mq_flag (m : Mpc) (i : nat) : bool :=
  match m with M_stop_qwake j => bool_decide (j = i) | _ => false end.
Definition ms_flag (m : Mpc) (i : nat) : bool :=
  match m with M_swake j | M_stop_swake j => bool_decide (j = i) | _ => false end.
Definition pq_flag (m : Mpc) (i : nat) : bool :=
  match m with
  | M_stop_slock j | M_stop_swake j | M_stop_qlock j | M_stop_qwake j => (i <? j)%nat
  | M_join _ | M_closed => true
  | _ => false
  end.
Definition ps_flag (m : Mpc) (i : nat) : bool :=
  match m with
  | M_stop_slock j | M_stop_swake j => (i <? j)%nat
  | M_stop_qlock j | M_stop_qwake j => (i <=? j)%nat
  | M_join _ | M_closed => true
  | _ => false
  end.

Definition flags {dev} (rd : Rpc dev) (m : Mpc) (i : nat) : Flags :=
  mkFlags (r_flag rd i) (mq_flag m i) (ms_flag m i) (pq_flag m i) (ps_flag m i).

Definition chans_ok (F : nat -> Flags) (cs : list ChannelContext) (ws : list Worker) : Prop :=
  length cs = 3%nat /\ length ws = 3%nat /\
  forall i c w, cs !! i = Some c -> ws !! i = Some w -> chan_ok (F i) c (w_pc w).

Lemma chans_update F F' cs ws i c w :
  chans_ok F cs ws -> (forall j, (j < 3)%nat -> j <> i -> F' j = F j) -> (i < 3)%nat ->
  chan_ok (F' i) c (w_pc w) -> chans_ok F' (<[i := c]> cs) (<[i := w]> ws).
Proof.
  intros (Hc & Hw & HF) Hother Hi Hok. unfold chans_ok. rewrite !length_insert.
  split_and!; [ done | done |]. intros j c' w' Hj Hj'. destruct (decide (j = i)) as [-> | Hne].
  - rewrite list_lookup_insert_eq in Hj by lia. rewrite list_lookup_insert_eq in Hj' by lia.
    by simplify_eq.
  - rewrite list_lookup_insert_ne in Hj by done. rewrite list_lookup_insert_ne in Hj' by done.
    rewrite Hother; [ eauto | apply lookup_lt_Some in Hj; lia | done ].
Qed.

(** The channel changes, its worker does not move. *)
Lemma chans_update_channel F F' cs ws i c w :
  chans_ok F cs ws -> (forall j, (j < 3)%nat -> j <> i -> F' j = F j) -> ws !! i = Some w ->
  chan_ok (F' i) c (w_pc w) -> chans_ok F' (<[i := c]> cs) ws.
Proof.
  intros HF Hother Hi Hok. rewrite <- (list_insert_id ws i w Hi).
  eapply chans_update; eauto. destruct HF as (_ & Hw & _).
  apply lookup_lt_Some in Hi. lia.
Qed.

Lemma chans_flags F F' cs ws :
  chans_ok F cs ws -> (forall i c w, cs !! i = Some c -> ws !! i = Some w ->
    chan_ok (F i) c (w_pc w) -> chan_ok (F' i) c (w_pc w)) -> chans_ok F' cs ws.
Proof. intros (Hc & Hw & HF) HFF. split_and!; eauto. Qed.

(** ** The whole state *)

Definition stopping (m : Mpc) : bool :=
  match m with
  | M_stop_slock _ | M_stop_swake _ | M_stop_qlock _ | M_stop_qwake _ | M_join _ | M_closed => true
  | _ => false
  end.

Definition main_ok (m : Mpc) : Prop :=
  match m with
  | M_slock i | M_swake i | M_stop_slock i | M_stop_swake i | M_stop_qlock i | M_stop_qwake i => (i < 3)%nat
  | M_join n => (n <= 4)%nat
  | _ => True
  end.

Definition good_buf {dev} (l : Rloc dev) : Prop := length (data_buf l) = Z.to_nat kMaxDataSize.

(** The reader, and the encoder only it uses: [n] bounds what is buffered. *)
Definition fec_ready (n : nat) (f : ForwardErrorCorrection) : Prop :=
  fec_inv fec_k f /\ (length (buffer_packets f) <= n)%nat /\
  Forall (fun p => length (p_data p) = Z.to_nat kMaxDataSize) (buffer_packets f).

Definition reader_ok {dev} (rd : Rpc dev) (f : ForwardErrorCorrection) : Prop :=
  match rd with
  | R_start | R_open _ | R_done => fec_ready 0 f
  | R_while l | R_none l => good_buf l /\ fec_ready 0 f
  | R_search l st at' => good_buf l /\ fec_ready 0 f /\ 0 <= st <= 2 + at' /\ 0 <= at' <= 3
  | R_test l st at' => good_buf l /\ fec_ready 0 f /\ 0 <= st <= 2 + at' /\ 0 <= at' <= 2
  | R_read l t => good_buf l /\ fec_ready 0 f /\ (t < 3)%nat
  | R_drain l t sz => good_buf l /\ fec_ready 3 f /\ (t < 3)%nat /\ good_size sz
  | R_lock l t sz p | R_push l t sz p =>
      good_buf l /\ fec_ready 2 f /\ (t < 3)%nat /\ good_size sz /\ good_packet p
  | R_wake l t sz => good_buf l /\ fec_ready 2 f /\ (t < 3)%nat /\ good_size sz
  | R_fault _ => False
  end.

Definition sys_ok {dev} (st : Sys (dev := dev)) : Prop :=
  let s := shared st in
  chans_ok (flags (reader st) (main st)) (channels s) (workers st) /\
  reader_ok (reader st) (fec s) /\ main_ok (main st) /\
  0 <= currentSocket s <= 2 /\
  (stopping (main st) = true -> is_running s = false).

Lemma sys_ok_intro {dev} (s : Shared) (rd : Rpc dev) wk m :
  chans_ok (flags rd m) (channels s) wk -> reader_ok rd (fec s) -> main_ok m ->
  0 <= currentSocket s <= 2 -> (stopping m = true -> is_running s = false) ->
  sys_ok (mkSys s rd wk m).
Proof. done. Qed.

(** ** The encoder step *)

Lemma flightpkt_length l : length l = Z.to_nat kMaxDataSize ->
  length (videoStruct_bytes (flightpkt_of l)) = 1024%nat.
Proof.
  intros Hl. apply length_videoStruct_bytes. cbn [videoData flightpkt_of].
  rewrite length_take, Hl. done.
Qed.

Lemma fec_input_Ok garbage l n :
  length garbage = 2000%nat -> length l = Z.to_nat kMaxDataSize -> 0 <= n <= 1009 ->
  exists buf, fec_input garbage l n = Ok (buf, 15 + n) /\ length buf = 2000%nat /\
    take (Z.to_nat (15 + n)) buf = take (Z.to_nat (15 + n)) (videoStruct_bytes (flightpkt_of l)).
Proof.
  intros Hg Hl Hn. pose proof (flightpkt_length l Hl) as Hf.
  unfold fec_input, flightpkt_header_size. rewrite u64_id, memcpy_Ok, bind_Ok by lia.
  eexists. split; [ reflexivity |]. change (Z.to_nat 0) with 0%nat. rewrite drop_0.
  rewrite length_blit by (rewrite length_take; lia). split; [ done |].
  apply take_blit_0. rewrite length_take. lia.
Qed.

Lemma source_emits k r d s :
  0 <= r -> (length (produced (spec_step k r d s)) <= length (produced s) + 1 + Z.to_nat r)%nat.
Proof.
  intros. unfold spec_step. destruct (_ =? k); cbn [produced];
    rewrite length_app; cbn [length]; rewrite ?length_map, ?length_seqZ; lia.
Qed.

Lemma spec_step_lengths k r d s :
  length d = Z.to_nat kMaxDataSize -> Forall (fun d => length d = Z.to_nat kMaxDataSize) (pending s) ->
  Forall (fun p => length (p_data p) = Z.to_nat kMaxDataSize) (produced s) ->
  Forall (fun p => length (p_data p) = Z.to_nat kMaxDataSize) (produced (spec_step k r d s)).
Proof.
  intros Hd Hp Hs. unfold spec_step. destruct (_ =? k); cbn [produced]; apply Forall_app; split; auto.
  constructor; [ done |]. apply fec_spec_data_length, Forall_app. auto.
Qed.

(** A chunk goes through the encoder, which then holds one packet, or three. *)
Lemma encode_chunk_ready `{CheckMode} mg ig l n f :
  length mg = 288%nat -> length ig = 2000%nat -> length l = Z.to_nat kMaxDataSize ->
  0 < n <= 1009 -> fec_ready 0 f ->
  exists f', encode_chunk mg ig l n f = Ok (f', 15 + n) /\ fec_ready 3 f'.
Proof.
  intros Hmg Hig Hl Hn (Hinv & Hlen & Hall). unfold encode_chunk.
  destruct (fec_input_Ok ig l n Hig Hl ltac:(lia)) as (buf & HI & Hb & _). rewrite HI, bind_Ok.
  rewrite i32_id by lia. pose proof Hinv as (_ & _ & _ & _ & _ & _ & Hps & Hmed & _).
  assert (Hbuf0 : buffer_packets f = []) by (destruct (buffer_packets f); [ done | cbn in Hlen; lia ]).
  assert (Hsa : 0 <= size_after f (15 + n) <= kMaxDataSize)
    by (unfold size_after, kMaxDataSize in *; destruct (fec_first_use f); lia).
  set (s := mkSpec (map p_data (media_packets f)) (group_number f) []).
  assert (HR : represents f s) by (by repeat split).
  destruct (PacketByFEC_simulates mg f s buf (15 + n) fec_k fec_r) as (f' & b' & HP & Hinv' & HR' & _);
    try done; try (unfold fec_k, fec_r, kMaxDataSize in *; lia).
  exists f'. rewrite HP, bind_Ok. split; [ done |]. destruct HR' as (_ & _ & HB).
  split_and!; [ done | |]; rewrite HB.
  - pose proof (source_emits fec_k fec_r (stored (size_after f (15 + n)) (15 + n) buf) s) as Hs.
    unfold fec_r in *. cbn [produced s length] in Hs. lia.
  - apply spec_step_lengths; [| by eapply padded_lengths | constructor ].
    apply padded_stored; unfold kMaxDataSize in *; lia.
Qed.

Lemma fec_ready_pop n f p rest :
  fec_ready (S n) f -> buffer_packets f = p :: rest ->
  fec_ready n (set_buffer rest f) /\ length (p_data p) = Z.to_nat kMaxDataSize.
Proof.
  intros (Hinv & Hl & Hall) Hb. rewrite Hb in Hl, Hall. cbn in Hl.
  apply Forall_cons_1 in Hall as [Hp Hall]. split; [| done ]. split_and!; [ exact Hinv | cbn; lia | done ].
Qed.

Lemma fec_ready_mono n n' f : (n <= n')%nat -> fec_ready n f -> fec_ready n' f.
Proof. intros Hn (Hi & Hl & Ha). split_and!; [ done | lia | done ]. Qed.

(** ** Preservation *)

Section Preservation.
Context {mode : CheckMode} {dev : Type} {D : Device dev} {RF : RegularFile dev}.
Variables mask_garbage buf_garbage input_garbage send_garbage : list Z.
Variable sample : nat -> nat -> double.
Hypothesis Hmg : length mask_garbage = 288%nat.
Hypothesis Hbg : length buf_garbage = Z.to_nat kMaxDataSize.
Hypothesis Hig : length input_garbage = 2000%nat.
Hypothesis Hsg : length send_garbage = 2000%nat.

(** The reader's turn with a channel: enter, leave and wake. *)
Lemma chan_reader_lock f c pc :
  chan_ok f c pc -> queueMutex c = None ->
  chan_ok (mkFlags true (f_main_queue f) (f_main_state f) (f_past_queue f) (f_past_state f))
    (with_queueMutex (Some TReader) c) pc.
Proof.
  intros (Hq & Hrest) Hfree. split; [| exact Hrest ]. rewrite Hfree in Hq.
  apply lock_ok_None in Hq as (-> & _ & ->). constructor.
Qed.

Lemma chan_reader_push f c pc p :
  chan_ok f c pc -> f_reader f = true -> good_packet p ->
  chan_ok (mkFlags false (f_main_queue f) (f_main_state f) (f_past_queue f) (f_past_state f))
    (with_queueMutex None (with_queue (packetQueue c ++ [p]) c)) pc.
Proof.
  intros (Hq & Hs & Hqc & Hsc & He & HF & Hw & Hpq & Hps) Hf Hp. rewrite Hf in Hq.
  split_and!; try done; cbn.
  - apply lock_ok_reader in Hq as (_ & -> & ->). constructor.
  - apply Forall_app. split; [ done | by apply Forall_singleton ].
Qed.

Lemma chan_wake_queue f c pc :
  chan_ok f c pc -> chan_ok f (with_queueCondition false c) pc.
Proof.
  intros (Hq & Hs & Hqc & Hsc & He & HF & Hw & Hpq & Hps).
  split_and!; try done. cbn. intros H. by apply Hpq in H as (_ & H).
Qed.

Lemma chan_wake_state f c pc :
  chan_ok f c pc -> chan_ok f (with_stateCondition false c) pc.
Proof.
  intros (Hq & Hs & Hqc & Hsc & He & HF & Hw & Hpq & Hps).
  split_and!; try done. cbn. intros H. by apply Hps in H as (_ & H).
Qed.

Lemma other_channel (t j : nat) : j <> t -> bool_decide (t = j) = false.
Proof. intros. by apply bool_decide_eq_false. Qed.

Lemma reader_read_ok s wk m l t :
  sys_ok (mkSys s (R_read l t) wk m) ->
  exists rd' s', reader_step mask_garbage buf_garbage input_garbage (R_read l t) s = Some (rd', s') /\
    sys_ok (mkSys s' rd' wk m).
Proof.
  intros (Hch & (Hl & Hf & Ht) & Hm & Hcs & Hst). cbn [shared reader main workers] in *.
  cbn [reader_step].
  destruct (dev_read_spec (file l) readChunkSize) as (d' & HR & Hrest); [ unfold readChunkSize; lia |].
  rewrite HR. set (bytes := take _ _).
  assert (Hb : Z.of_nat (length bytes) <= 1009)
    by (unfold bytes, readChunkSize; rewrite length_take; lia).
  destruct bytes as [| b bytes ].
  { eexists _, _. split; [ reflexivity |]. by apply sys_ok_intro. }
  assert (Hl' : length (blit 0 (b :: bytes) (data_buf l)) = Z.to_nat kMaxDataSize).
  { unfold good_buf, kMaxDataSize in Hl. rewrite length_blit; [ done |]. lia. }
  destruct (encode_chunk_ready mask_garbage input_garbage _ (Z.of_nat (length (b :: bytes))) (fec s)
    Hmg Hig Hl') as (f' & HE & Hf'); [ cbn [length] in *; lia | done |].
  rewrite HE. eexists _, _. split; [ reflexivity |]. apply sys_ok_intro; try done.
  cbn [reader_ok with_fec fec]. unfold good_size. cbn [length] in *. split_and!; (done || lia).
Qed.

(** Steps of the reader that touch a channel. *)
Lemma reader_lock_ok s wk m (l : Rloc dev) t sz p c :
  sys_ok (mkSys s (R_lock l t sz p) wk m) -> channels s !! t = Some c -> queueMutex c = None ->
  sys_ok (mkSys (with_channel t (with_queueMutex (Some TReader) c) s) (R_push l t sz p) wk m).
Proof.
  intros (Hch & Hrd & Hm & Hcs & Hst) Hc Hfree. cbn [shared reader main workers] in *.
  apply sys_ok_intro; try done. pose proof Hch as (_ & Hlw & Hall).
  destruct (lookup_lt_is_Some_2 wk t) as (w & Hw); [ apply Hrd || (rewrite Hlw; apply Hrd) |].
  eapply chans_update_channel; [ exact Hch | | exact Hw |].
  - intros j _ Hj. unfold flags. cbn. by rewrite other_channel.
  - apply (chan_reader_lock _ _ _ (Hall t c w Hc Hw)) in Hfree. unfold flags in *. cbn in *.
    by rewrite bool_decide_eq_true_2.
Qed.

Lemma reader_push_ok s wk m (l : Rloc dev) t sz p c :
  sys_ok (mkSys s (R_push l t sz p) wk m) -> channels s !! t = Some c ->
  sys_ok (mkSys (emit (Pushed t p) (with_channel t
    (with_queueMutex None (with_queue (packetQueue c ++ [p]) c)) s)) (R_wake l t sz) wk m).
Proof.
  intros (Hch & Hrd & Hm & Hcs & Hst) Hc. cbn [shared reader main workers] in *.
  destruct Hrd as (Hl & Hf & Ht & Hz & Hp). apply sys_ok_intro; try done.
  pose proof Hch as (_ & Hlw & Hall). destruct (lookup_lt_is_Some_2 wk t) as (w & Hw); [ lia |].
  eapply chans_update_channel; [ exact Hch | | exact Hw |].
  - intros j _ Hj. unfold flags. cbn. by rewrite other_channel.
  - refine (chan_reader_push _ _ _ p (Hall t c w Hc Hw) _ Hp). cbn. by rewrite bool_decide_eq_true_2.
Qed.

(** Waking the waiters of a channel, or a spurious wakeup. *)
Lemma wake_ok s (rd : Rpc dev) wk m t c c' :
  sys_ok (mkSys s rd wk m) -> channels s !! t = Some c ->
  c' = with_queueCondition false c \/ c' = with_stateCondition false c ->
  sys_ok (mkSys (with_channel t c' s) rd wk m).
Proof.
  intros (Hch & Hrd & Hm & Hcs & Hst) Hc Hc'. cbn [shared reader main workers] in *.
  apply sys_ok_intro; try done. pose proof Hch as (Hlc & Hlw & Hall).
  destruct (lookup_lt_is_Some_2 wk t) as (w & Hw); [ apply lookup_lt_Some in Hc; lia |].
  eapply chans_update_channel; [ exact Hch | done | exact Hw |].
  destruct Hc' as [-> | ->]; auto using chan_wake_queue, chan_wake_state.
Qed.

Lemma reader_step_ok s rd wk m rd' s' :
  sys_ok (mkSys s rd wk m) ->
  reader_step mask_garbage buf_garbage input_garbage rd s = Some (rd', s') ->
  sys_ok (mkSys s' rd' wk m).
Proof.
  intros Hok Hstep.
  destruct rd as [ | p | l | l st at' | l st at' | l | l t | l t sz | l t sz p | l t sz p | l t sz | | e];
    try discriminate.
  7: by destruct (reader_read_ok _ _ _ _ _ Hok) as (rd2 & s2 & H2 & Hok2); congruence.
  all: pose proof Hok as (Hch & Hrd & Hm & Hcs & Hst); cbn [shared reader main workers] in *;
    cbn [reader_step] in Hstep.
  - case_bool_decide; simplify_eq; by apply sys_ok_intro.
  - destruct (dev_open p); simplify_eq; by apply sys_ok_intro.
  - destruct (_ && _); simplify_eq; apply sys_ok_intro; try done.
    + cbn. destruct Hrd. split_and!; (done || lia).
    + apply Hrd.
  - destruct Hrd as (Hl & Hf & H1 & H2).
    destruct (_ && _) eqn:E; simplify_eq; apply sys_ok_intro; try done.
    unfold SOCKET_POOL_SIZE in *. bool_prop. cbn. split_and!; (done || lia).
  - destruct Hrd as (Hl & Hf & H1 & H2). unfold SOCKET_POOL_SIZE in *.
    destruct (channels s !! _) as [c |] eqn:Hc; [| discriminate ]. cbn in Hstep.
    pose proof (Z.rem_bound_pos st 3 ltac:(lia) ltac:(lia)).
    pose proof (Z.rem_bound_pos (Z.rem st 3 + 1) 3 ltac:(lia) ltac:(lia)).
    destruct (enabled c =? 1); simplify_eq; apply sys_ok_intro; try done; cbn; try lia.
    + split_and!; (done || lia).
    + rewrite i32_id by lia. split_and!; (done || lia).
  - revert Hstep. case_eq (is_running s); intros Hr Hstep; simplify_eq; apply sys_ok_intro;
      first [ done | apply Hrd ].
  - destruct Hrd as (Hl & Hf & Ht & Hz).
    destruct (buffer_packets (fec s)) as [| p rest] eqn:Hb; simplify_eq; apply sys_ok_intro; try done.
    + cbn. split; [ done |]. destruct Hf as (Hinv & _ & Hall). split_and!; [ done | by rewrite Hb | done ].
    + destruct (fec_ready_pop _ _ _ _ Hf Hb) as [Hf' Hp]. cbn. split_and!;
        first [ done | apply Hz | split; [ by exists p | done ] ].
  - destruct (channels s !! t) as [c |] eqn:Hc; [| discriminate ]. cbn in Hstep.
    destruct (queueMutex c) eqn:Hq; simplify_eq. by eapply reader_lock_ok.
  - destruct (channels s !! t) as [c |] eqn:Hc; [| discriminate ]. cbn in Hstep. simplify_eq.
    by eapply reader_push_ok.
  - destruct (channels s !! t) as [c |] eqn:Hc; [| discriminate ]. cbn in Hstep. simplify_eq.
    eapply (wake_ok s (R_drain l t sz) wk m t c); [| done | by left ].
    destruct Hrd as (Hl & Hf & Ht & Hz). apply sys_ok_intro; try done. cbn.
    split_and!; first [ done | apply Hz | by apply (fec_ready_mono 2); [ lia |] ].
Qed.

(** ** Workers *)

Lemma sendable_good h sp pk :
  good_hand h -> sendable h = Some (sp, pk) ->
  h = Some sp /\ length (p_data pk) = Z.to_nat kMaxDataSize /\ good_size (actual_payload_size sp).
Proof.
  destruct h as [p |]; [| done ]. intros [(pk' & Hp & Hl) Hs]. cbn. rewrite Hp.
  destruct (0 <? _); [| done ]. by intros [= -> ->].
Qed.

(** A step that moves only the program counter. *)
Lemma chan_move F c pc pc' :
  chan_ok F c pc -> holds_queue pc' = holds_queue pc -> holds_state pc' = holds_state pc ->
  pc <> W_wait -> (forall h, pc <> W_swait h) -> worker_ok pc' ->
  (f_past_queue F = true -> pc' <> W_c2 /\ pc' <> W_c3) ->
  (f_past_state F = true -> forall h, pc' <> W_s2 h) ->
  chan_ok F c pc'.
Proof.
  intros (Hq & Hs & Hqc & Hsc & He & HF & Hw & Hpq & Hps) Hhq Hhs Hnw Hns Hok Hpq' Hps'.
  rewrite <- Hhq in Hq. rewrite <- Hhs in Hs. repeat split; try done.
  - by intros ?%Hqc.
  - intros [h ?]%Hsc. by destruct (Hns h).
  - by destruct (Hpq H).
  - by apply Hpq'.
  - by apply Hpq'.
  - by destruct (Hps H).
  - by apply Hps'.
Qed.

(** Entering and leaving the code [queueMutex] protects, possibly with the
    queue changed or to wait. *)
Lemma chan_enter_queue F c pc :
  chan_ok F c pc -> queueMutex c = None -> queueCondition c = false -> (forall h, pc <> W_swait h) ->
  holds_state pc = false -> chan_ok F (with_queueMutex (Some TWorker) c) W_c1.
Proof.
  intros (Hq & Hs & Hqc & Hsc & He & HF & Hw & Hpq & Hps) Hfree Hc Hns Hhs.
  rewrite Hfree in Hq. apply lock_ok_None in Hq as (_ & Hr & Hm). rewrite Hhs in Hs.
  repeat split; cbn; try done.
  - rewrite Hr, Hm. constructor.
  - by rewrite Hc.
  - intros [h ?]%Hsc. by destruct (Hns h).
  - by destruct (Hps H).
Qed.

Lemma chan_leave_queue F c pc q b pc' :
  chan_ok F c pc -> holds_queue pc = true -> Forall good_packet q ->
  (b = true -> pc' = W_wait) -> (f_past_queue F = true -> b = false) ->
  holds_queue pc' = false -> holds_state pc' = false -> worker_ok pc' -> (forall h, pc' <> W_s2 h) ->
  chan_ok F (mkChannel q None b (stateMutex c) (stateCondition c) (enabled c) (lossRate c)) pc'.
Proof.
  intros (Hq & Hs & Hqc & Hsc & He & HF & Hw & Hpq & Hps) Hh Hq' Hb Hpb Hhq Hhs Hok Hn.
  rewrite Hh in Hq. apply lock_ok_worker in Hq as (_ & Hr & Hm).
  assert (Hst : holds_state pc = false) by (by destruct pc). rewrite Hst in Hs.
  assert (Hsc0 : stateCondition c = false).
  { destruct (stateCondition c); [| done ]. destruct (Hsc eq_refl) as [h ->]. done. }
  repeat split; cbn; try done.
  - rewrite Hhq, Hr, Hm. constructor.
  - by rewrite Hhs.
  - by rewrite Hsc0.
  - by apply Hpb.
  - by intros ->.
  - by intros ->.
Qed.

(** The same for [stateMutex]. *)
Lemma chan_enter_state F c pc h :
  chan_ok F c pc -> stateMutex c = None -> stateCondition c = false -> pc <> W_wait ->
  holds_queue pc = false -> good_hand h -> chan_ok F (with_stateMutex (Some TWorker) c) (W_s1 h).
Proof.
  intros (Hq & Hs & Hqc & Hsc & He & HF & Hw & Hpq & Hps) Hfree Hc Hnw Hhq Hh.
  rewrite Hfree in Hs. apply lock_ok_None in Hs as (_ & _ & Hm). rewrite Hhq in Hq.
  repeat split; cbn; try done.
  - rewrite Hm. constructor.
  - by intros ?%Hqc.
  - by rewrite Hc.
  - by destruct (Hpq H).
Qed.

Lemma chan_leave_state F c pc b pc' :
  chan_ok F c pc -> holds_state pc = true ->
  (b = true -> exists h, pc' = W_swait h) -> (f_past_state F = true -> b = false) ->
  holds_queue pc' = false -> holds_state pc' = false -> worker_ok pc' ->
  chan_ok F (mkChannel (packetQueue c) (queueMutex c) (queueCondition c) None b (enabled c) (lossRate c)) pc'.
Proof.
  intros (Hq & Hs & Hqc & Hsc & He & HF & Hw & Hpq & Hps) Hh Hb Hpb Hhq Hhs Hok.
  rewrite Hh in Hs. apply lock_ok_worker in Hs as (_ & _ & Hm).
  assert (Hqq : holds_queue pc = false) by (by destruct pc). rewrite Hqq in Hq.
  assert (Hqc0 : queueCondition c = false).
  { destruct (queueCondition c); [| done ]. by rewrite (Hqc eq_refl) in Hh. }
  repeat split; cbn; try done.
  - by rewrite Hhq.
  - rewrite Hhs, Hm. constructor.
  - by rewrite Hqc0.
  - by intros ->.
  - by intros ->.
  - by apply Hpb.
  - by intros h ->.
Qed.

(** What no worker changes. *)
Lemma worker_frame i w s w' s' :
  worker_step send_garbage sample i w s = Some (w', s') ->
  fec s' = fec s /\ is_running s' = is_running s /\ currentSocket s' = currentSocket s /\
  currentFilePath s' = currentFilePath s.
Proof.
  unfold worker_step. destruct (channels s !! i) as [c |]; [| discriminate ]. cbn [mbind option_bind].
  destruct (w_pc w) as [ | | | | | | | | | h | h | h | h | h | h | sp pk | sp pk | | e]; intros Hstep;
    unfold emit_hand in Hstep; repeat case_match; simplify_eq/=; by repeat split.
Qed.

(** The phases of a worker's turn: taking a packet under [queueMutex], waiting
    for the channel under [stateMutex], sending. *)
Definition queue_phase (pc : Wpc) : bool :=
  match pc with
  | W_loop | W_lock | W_c1 | W_c2 | W_c3 | W_wait | W_run | W_en | W_pop => true
  | _ => false
  end.

Definition state_phase (pc : Wpc) : bool :=
  match pc with W_slock _ | W_s1 _ | W_s2 _ | W_swait _ | W_after _ => true | _ => false end.

Lemma channel_kept F c pc (cs : list ChannelContext) i :
  cs !! i = Some c -> chan_ok F c pc -> exists c', cs = <[i := c']> cs /\ chan_ok F c' pc.
Proof. intros Hc H. exists c. by rewrite list_insert_id. Qed.

Lemma channel_set F c pc (cs : list ChannelContext) i :
  chan_ok F c pc -> exists c', <[i := c]> cs = <[i := c']> cs /\ chan_ok F c' pc.
Proof. intros H. by exists c. Qed.

Lemma chan_not_waiting F c pc : chan_ok F c pc -> pc <> W_wait -> queueCondition c = false.
Proof.
  intros (_ & _ & Hqc & _) Hn. destruct (queueCondition c); [ by destruct Hn; apply Hqc | done ].
Qed.

Lemma chan_not_swaiting F c pc : chan_ok F c pc -> (forall h, pc <> W_swait h) -> stateCondition c = false.
Proof.
  intros (_ & _ & _ & Hsc & _) Hn. destruct (stateCondition c); [| done ].
  destruct (Hsc eq_refl) as [h ?]. by destruct (Hn h).
Qed.

(** A worker's step, seen from its channel, phase by phase. *)
Section WorkerStep.
Context (F : Flags) (c : ChannelContext) (i : nat) (w : Worker) (s : Shared) (w' : Worker) (s' : Shared).
Hypothesis Hc : channels s !! i = Some c.
Hypothesis Hok : chan_ok F c (w_pc w).
Hypothesis Hpast : f_past_queue F = true \/ f_past_state F = true -> is_running s = false.
Hypothesis Hstep : worker_step send_garbage sample i w s = Some (w', s').

Local Ltac start_step :=
  revert Hstep; unfold worker_step; rewrite Hc; cbn [mbind option_bind];
  pose proof (chan_not_waiting _ _ _ Hok) as Hqf; pose proof (chan_not_swaiting _ _ _ Hok) as Hsf;
  pose proof Hok as (_ & _ & _ & _ & _ & HF & Hw & Hpq & Hps);
  destruct w as [pc dr]; cbn [w_pc w_draws] in *.

Lemma worker_queue_phase :
  queue_phase (w_pc w) = true -> exists c', channels s' = <[i := c']> (channels s) /\ chan_ok F c' (w_pc w').
Proof.
  start_step. destruct pc; intros Hstep' Hphase; try discriminate.
  - (* W_loop *)
    destruct (is_running s); simplify_eq/=; apply (channel_kept _ _ _ _ _ Hc); by eapply chan_move.
  - (* W_lock *)
    destruct (queueMutex c) eqn:Hq; simplify_eq/=. apply channel_set.
    eapply chan_enter_queue; eauto; done.
  - (* W_c1 *)
    destruct (is_running s) eqn:Hr; simplify_eq/=; apply (channel_kept _ _ _ _ _ Hc); eapply chan_move; eauto; try done.
    intros H. specialize (Hpast (or_introl H)). congruence.
  - (* W_c2 *)
    destruct (enabled c =? 1); simplify_eq/=; apply (channel_kept _ _ _ _ _ Hc); eapply chan_move; eauto; try done;
      intros H; by destruct (Hpq H) as (_ & ? & ?).
  - (* W_c3 *)
    destruct (packetQueue c) eqn:Hq; simplify_eq/=.
    + apply channel_set.
      eapply (chan_leave_queue F c _ (packetQueue c) true); eauto; try done; [ by rewrite Hq |].
      intros H. by destruct (Hpq H) as (_ & ? & ?).
    + apply (channel_kept _ _ _ _ _ Hc). by eapply chan_move.
  - (* W_wait *)
    destruct (queueCondition c) eqn:Hcond; [ discriminate |].
    destruct (queueMutex c) eqn:Hq; simplify_eq/=. apply channel_set.
    eapply chan_enter_queue; eauto; done.
  - (* W_run *)
    destruct (is_running s) eqn:Hr; simplify_eq/=; [ apply (channel_kept _ _ _ _ _ Hc); by eapply chan_move |].
    apply channel_set. eapply (chan_leave_queue F c _ (packetQueue c) (queueCondition c)); eauto; try done;
      by rewrite Hqf.
  - (* W_en *)
    destruct (enabled c =? 0); simplify_eq/=; [| apply (channel_kept _ _ _ _ _ Hc); by eapply chan_move ].
    apply channel_set. eapply (chan_leave_queue F c _ (packetQueue c) (queueCondition c)); eauto; try done;
      by rewrite Hqf.
  - (* W_pop *)
    destruct (packetQueue c) as [| p q] eqn:Hq; simplify_eq/=; apply channel_set.
    + eapply (chan_leave_queue F c _ (packetQueue c) (queueCondition c)); eauto; try done;
        rewrite ?Hq; try done; by rewrite Hqf.
    + apply Forall_cons_1 in HF as [Hp HF].
      eapply (chan_leave_queue F c _ q (queueCondition c)); eauto; try done; by rewrite Hqf.
Qed.

Lemma worker_state_phase :
  state_phase (w_pc w) = true -> exists c', channels s' = <[i := c']> (channels s) /\ chan_ok F c' (w_pc w').
Proof.
  start_step. destruct pc as [ | | | | | | | | | h | h | h | h | h | h | sp pk | sp pk | | e];
    intros Hstep' Hphase; try discriminate.
  - (* W_slock *)
    destruct (stateMutex c) eqn:Hq; simplify_eq/=. apply channel_set. eapply chan_enter_state; eauto; done.
  - (* W_s1 *)
    destruct (is_running s) eqn:Hr; simplify_eq/=.
    + apply (channel_kept _ _ _ _ _ Hc). eapply chan_move; eauto; try done.
      intros H. specialize (Hpast (or_intror H)). congruence.
    + apply channel_set. eapply (chan_leave_state F c _ (stateCondition c)); eauto; try done;
        by rewrite Hsf.
  - (* W_s2 *)
    destruct (enabled c =? 0); simplify_eq/=; apply channel_set.
    + eapply (chan_leave_state F c _ true); eauto; try done.
      intros H. destruct (Hps H) as [_ Hn]. by destruct (Hn h).
    + eapply (chan_leave_state F c _ (stateCondition c)); eauto; try done; by rewrite Hsf.
  - (* W_swait *)
    destruct (stateCondition c) eqn:Hcond; [ discriminate |].
    destruct (stateMutex c) eqn:Hq; simplify_eq/=. apply channel_set. eapply chan_enter_state; eauto; done.
  - (* W_after *)
    destruct (is_running s); simplify_eq/=; [ apply (channel_kept _ _ _ _ _ Hc); by eapply chan_move |].
    destruct h; apply (channel_kept _ _ _ _ _ Hc); by eapply chan_move.
Qed.

Lemma worker_send_phase :
  queue_phase (w_pc w) = false -> state_phase (w_pc w) = false ->
  exists c', channels s' = <[i := c']> (channels s) /\ chan_ok F c' (w_pc w').
Proof.
  start_step. destruct pc as [ | | | | | | | | | h | h | h | h | h | h | sp pk | sp pk | | e];
    intros Hstep' Hq Hs; try discriminate.
  - (* W_loss *)
    destruct (sendable h) as [[sp pk] |] eqn:Hse; cbn in Hstep'.
    + destruct (sendable_good _ _ _ Hw Hse) as (-> & Hl & Hz).
      destruct (loss_decision _ _) as [[] used]; simplify_eq/=; apply (channel_kept _ _ _ _ _ Hc); by eapply chan_move.
    + simplify_eq/=. destruct h; apply (channel_kept _ _ _ _ _ Hc); by eapply chan_move.
  - (* W_seq *)
    simplify_eq/=. apply (channel_kept _ _ _ _ _ Hc). by eapply chan_move.
  - (* W_out *)
    destruct Hw as [Hl Hz]. unfold good_size in Hz.
    rewrite send_datagram_Ok in Hstep' by (done || lia). simplify_eq/=. apply (channel_kept _ _ _ _ _ Hc). by eapply chan_move.
Qed.

Lemma worker_chan : exists c', channels s' = <[i := c']> (channels s) /\ chan_ok F c' (w_pc w').
Proof.
  destruct (queue_phase (w_pc w)) eqn:Hq; [ by apply worker_queue_phase |].
  destruct (state_phase (w_pc w)) eqn:Hs; [ by apply worker_state_phase | by apply worker_send_phase ].
Qed.

End WorkerStep.

Lemma worker_step_ok s (rd : Rpc dev) wk m i w w' s' :
  sys_ok (mkSys s rd wk m) -> wk !! i = Some w ->
  worker_step send_garbage sample i w s = Some (w', s') ->
  sys_ok (mkSys s' rd (<[i := w']> wk) m).
Proof.
  intros (Hch & Hrd & Hm & Hcs & Hst) Hw Hstep. cbn [shared reader main workers] in *.
  pose proof Hch as (Hlc & Hlw & Hall). pose proof (lookup_lt_Some _ _ _ Hw) as Hi.
  destruct (lookup_lt_is_Some_2 (channels s) i ltac:(lia)) as (c & Hc).
  destruct (worker_chan (flags rd m i) c i w s w' s' Hc (Hall i c w Hc Hw)) as
    (c' & Hcs' & Hok'); [| done |].
  { intros [Hp | Hp]; apply Hst; cbn in Hp; by destruct m. }
  destruct (worker_frame i w s w' s' Hstep) as (Hf & Hr & Hcur & _).
  apply sys_ok_intro; rewrite ?Hcs', ?Hf, ?Hr, ?Hcur; try done.
  eapply chans_update; [ exact Hch | done | lia | exact Hok' ].
Qed.

End Preservation.
