(* ===== verification/Threads.v ===== *)
(** * The threads together

    The interface thread's half of the invariant of [SystemInv], the invariant
    in every reachable state, and what follows from it: the mutexes exclude, no
    thread runs into undefined behaviour, no wakeup is lost, and a stop always
    ends, with every thread joined. *)
From S2P Require Import Prelude.
From S2P Require Import MaskTable.
From S2P Require Import Packet.
From S2P Require Import Encoder.
From S2P Require Import EncoderFacts.
From S2P Require Import Channel.
From S2P Require Import Worker.
From S2P Require Import System.
From S2P Require Import SystemInv.
From stdpp Require Import base list list_numbers numbers option strings relations tactics.
From Stdlib Require Import ZArith Lia.

#[local] Open Scope Z_scope.

Section Threads.
Context {mode : CheckMode} {dev : Type} {D : Device dev} {RF : RegularFile dev}.
Variables mask_garbage buf_garbage input_garbage send_garbage : list Z.
Variable sample : nat -> nat -> double.
Hypothesis Hmg : length mask_garbage = 288%nat.
Hypothesis Hbg : length buf_garbage = Z.to_nat kMaxDataSize.
Hypothesis Hig : length input_garbage = 2000%nat.
Hypothesis Hsg : length send_garbage = 2000%nat.

(** ** The interface thread *)

(** Compute flags without unfolding the comparisons. *)
Tactic Notation "flag_simpl" := cbn [r_flag mq_flag ms_flag pq_flag ps_flag
  f_reader f_main_queue f_main_state f_past_queue f_past_state].
Tactic Notation "flag_simpl" "in" "*" := cbn [r_flag mq_flag ms_flag pq_flag ps_flag
  f_reader f_main_queue f_main_state f_past_queue f_past_state] in *.

Lemma chan_main_state_lock f c pc :
  chan_ok f c pc -> stateMutex c = None ->
  chan_ok (mkFlags (f_reader f) (f_main_queue f) true (f_past_queue f) (f_past_state f))
    (with_stateMutex (Some TMain) c) pc.
Proof.
  intros (Hq & Hs & Hrest) Hfree. split; [ done |]. split; [| exact Hrest ]. rewrite Hfree in Hs.
  apply lock_ok_None in Hs as (-> & _ & _). constructor.
Qed.

Lemma chan_main_state_wake f c pc past :
  chan_ok f c pc -> f_main_state f = true ->
  chan_ok (mkFlags (f_reader f) (f_main_queue f) false (f_past_queue f) past)
    (with_stateMutex None (with_stateCondition false c)) pc.
Proof.
  intros (Hq & Hs & Hqc & Hsc & He & HF & Hw & Hpq & Hps) Hf.
  rewrite Hf in Hs. apply lock_ok_main in Hs as (_ & Hh & _).
  repeat split; cbn; try done; [ rewrite Hh; constructor | by apply Hpq .. |].
  by intros h ->.
Qed.

Lemma chan_main_queue_lock f c pc :
  chan_ok f c pc -> queueMutex c = None ->
  chan_ok (mkFlags (f_reader f) true (f_main_state f) (f_past_queue f) (f_past_state f))
    (with_queueMutex (Some TMain) c) pc.
Proof.
  intros (Hq & Hrest) Hfree. split; [| exact Hrest ]. rewrite Hfree in Hq.
  apply lock_ok_None in Hq as (-> & -> & _). constructor.
Qed.

Lemma chan_main_queue_wake f c pc past :
  chan_ok f c pc -> f_main_queue f = true ->
  chan_ok (mkFlags (f_reader f) false (f_main_state f) past (f_past_state f))
    (with_queueMutex None (with_queueCondition false c)) pc.
Proof.
  intros (Hq & Hs & Hqc & Hsc & He & HF & Hw & Hpq & Hps) Hf.
  rewrite Hf in Hq. apply lock_ok_main in Hq as (_ & Hh & Hr).
  repeat split; cbn; try done; [ rewrite Hh, Hr; constructor | by intros -> | by intros -> | by apply Hps .. ].
Qed.

(** A step of the interface thread changes one channel and what it means for
    the others. *)
Lemma main_update s (rd : Rpc dev) wk m m' i c c' :
  sys_ok (mkSys s rd wk m) -> channels s !! i = Some c ->
  (forall w, wk !! i = Some w -> chan_ok (flags rd m i) c (w_pc w) -> chan_ok (flags rd m' i) c' (w_pc w)) ->
  (forall j, (j < 3)%nat -> j <> i -> flags rd m' j = flags rd m j) ->
  main_ok m' -> (stopping m' = true -> stopping m = true) ->
  sys_ok (mkSys (with_channel i c' s) rd wk m').
Proof.
  intros (Hch & Hrd & Hm & Hcs & Hst) Hc Hstep Hflags Hm' Hstop. cbn [shared reader main workers] in *.
  pose proof Hch as (Hlc & Hlw & Hall).
  destruct (lookup_lt_is_Some_2 wk i) as (w & Hw); [ apply lookup_lt_Some in Hc; lia |].
  apply sys_ok_intro; try done; [| cbn; auto ].
  eapply chans_update_channel; [ exact Hch | exact Hflags | exact Hw |]. eauto.
Qed.

(** The flags after the waiters of channel [i] have been woken. *)
Lemma next_flags (rd : Rpc dev) i j :
  (i < 3)%nat -> (j < 3)%nat ->
  flags rd (if (S i <? 3)%nat then M_stop_slock (S i) else M_join 4) j
    = mkFlags (r_flag rd j) false false (j <=? i)%nat (j <=? i)%nat.
Proof. intros Hi Hj. destruct i as [| [| [| i]]], j as [| [| [| j]]]; (done || lia). Qed.

Lemma main_step_ok s (rd : Rpc dev) wk m m' s' :
  sys_ok (mkSys s rd wk m) -> main_step m rd wk s = Some (m', s') -> sys_ok (mkSys s' rd wk m').
Proof.
  intros Hok Hstep. pose proof Hok as (Hch & Hrd & Hm & Hcs & Hst). cbn [shared reader main workers] in *.
  destruct m as [ | i | i | i | i | i | i | n | ]; try discriminate; cbn [main_step] in Hstep.
  1-6: destruct (channels s !! i) as [c |] eqn:Hc; [| discriminate ]; cbn in Hstep.
  - destruct (stateMutex c) eqn:Hfree; simplify_eq.
    eapply main_update; [ exact Hok | exact Hc | | | done | done ].
    + intros w Hw Hco. apply chan_main_state_lock in Hco; [| done ]. unfold flags in *; flag_simpl in *.
      by rewrite bool_decide_eq_true_2.
    + intros j _ Hj. unfold flags; flag_simpl. by rewrite other_channel.
  - simplify_eq. eapply main_update; [ exact Hok | exact Hc | | | done | done ].
    + intros w Hw Hco. eapply (chan_main_state_wake _ _ _ false) in Hco; [ exact Hco |]. cbn.
      by rewrite bool_decide_eq_true_2.
    + intros j _ Hj. unfold flags; flag_simpl. by rewrite other_channel.
  - destruct (stateMutex c) eqn:Hfree; simplify_eq.
    eapply main_update; [ exact Hok | exact Hc | | | done | done ].
    + intros w Hw Hco. apply chan_main_state_lock in Hco; [| done ]. unfold flags in *; flag_simpl in *.
      by rewrite bool_decide_eq_true_2.
    + intros j _ Hj. unfold flags; flag_simpl. by rewrite other_channel.
  - simplify_eq. eapply main_update; [ exact Hok | exact Hc | | | done | done ].
    + intros w Hw Hco. eapply (chan_main_state_wake _ _ _ true) in Hco; [| cbn; by rewrite bool_decide_eq_true_2 ].
      unfold flags in *; flag_simpl in *. by rewrite (proj2 (Nat.leb_le i i)) by lia.
    + intros j _ Hj. unfold flags; flag_simpl. rewrite other_channel by done. f_equal.
      destruct (Nat.leb_spec j i), (Nat.ltb_spec j i); lia.
  - destruct (queueMutex c) eqn:Hfree; simplify_eq.
    eapply main_update; [ exact Hok | exact Hc | | | done | done ].
    + intros w Hw Hco. apply chan_main_queue_lock in Hco; [| done ]. unfold flags in *; flag_simpl in *.
      by rewrite bool_decide_eq_true_2.
    + intros j _ Hj. unfold flags; flag_simpl. by rewrite other_channel.
  - simplify_eq. change ((i <=? 1)%nat) with ((S i <? 3)%nat).
    eapply main_update; [ exact Hok | exact Hc | | | | done ].
    + intros w Hw Hco. rewrite next_flags, (proj2 (Nat.leb_le i i)) by (done || lia).
      eapply (chan_main_queue_wake _ _ _ true) in Hco; [| cbn; by rewrite bool_decide_eq_true_2 ].
      unfold flags in *; flag_simpl in *. by rewrite (proj2 (Nat.leb_le i i)) in Hco by lia.
    + intros j Hj3 Hj. rewrite next_flags by done. unfold flags; flag_simpl.
      rewrite other_channel by done. f_equal. destruct (Nat.leb_spec j i), (Nat.ltb_spec j i); (done || lia).
    + cbn in Hm. destruct (Nat.ltb_spec (S i) 3); cbn; lia.
  - destruct n as [| n ]; [| destruct (thread_done rd wk n) ]; simplify_eq; apply sys_ok_intro; try done.
    cbn in *. lia.
Qed.

Lemma main_request_ok s (rd : Rpc dev) wk r m' s' :
  sys_ok (mkSys s rd wk M_idle) -> main_request r s = Some (m', s') -> sys_ok (mkSys s' rd wk m').
Proof.
  intros Hok Hstep. destruct r as [ch state | ch rate | ]; cbn [main_request] in Hstep.
  - destruct (_ || _) eqn:Hrange; [ by simplify_eq |]. unfold SOCKET_POOL_SIZE in Hrange.
    apply orb_false_iff in Hrange as [H1 H2]. bool_prop.
    destruct (channels s !! Z.to_nat ch) as [c |] eqn:Hc; [| discriminate ]. cbn in Hstep.
    assert (Hm : forall m, m = M_idle \/ m = M_slock (Z.to_nat ch) ->
      sys_ok (mkSys (with_channel (Z.to_nat ch) (with_enabled (if state then 1 else 0) c) s) rd wk m)).
    { intros m Hm. eapply main_update; [ exact Hok | exact Hc | | | |].
      - intros w Hw (Hq & Hs & Hqc & Hsc & He & Hrest). destruct Hm as [-> | ->]; split_and!; try done;
          try apply Hrest; destruct state; auto.
      - by destruct Hm as [-> | ->].
      - destruct Hm as [-> | ->]; cbn; lia.
      - by destruct Hm as [-> | ->]. }
    destruct (_ && state); simplify_eq; auto.
  - destruct (_ && _) eqn:Hrange; [| by simplify_eq ]. bool_prop.
    destruct (channels s !! Z.to_nat ch) as [c |] eqn:Hc; [| discriminate ]. cbn in Hstep. simplify_eq.
    by eapply main_update; [ exact Hok | exact Hc | | | |].
  - simplify_eq. destruct Hok as (Hch & Hrd & Hm & Hcs & Hst). apply sys_ok_intro; try done. cbn. lia.
Qed.

(** ** Every reachable state *)

Let step := sys_step mask_garbage buf_garbage input_garbage send_garbage sample.

Lemma sys_step_ok st st' : sys_ok st -> step st st' -> sys_ok st'.
Proof.
  intros Hok Hstep. destruct Hstep.
  - by eapply (reader_step_ok mask_garbage buf_garbage input_garbage send_garbage Hmg Hbg Hig Hsg).
  - by eapply (worker_step_ok mask_garbage buf_garbage input_garbage send_garbage sample Hmg Hbg Hig Hsg).
  - eapply main_step_ok; eauto.
  - eapply main_request_ok; eauto.
  - eapply (wake_ok mask_garbage buf_garbage input_garbage send_garbage); eauto.
  - eapply (wake_ok mask_garbage buf_garbage input_garbage send_garbage); eauto.
Qed.

Lemma reachable_ok init st : sys_ok init -> rtc step init st -> sys_ok st.
Proof. intros Hok Hr. induction Hr; eauto using sys_step_ok. Qed.

(** ** Stopping *)

(** How many steps a thread can still take once [is_running] is false. *)
Definition rank_w (pc : Wpc) : nat :=
  match pc with
  | W_exit | W_fault _ => 0
  | W_loop | W_after _ => 1
  | W_run | W_s1 _ | W_out _ _ => 2
  | W_c1 | W_slock _ | W_swait _ | W_seq _ _ => 3
  | W_wait | W_lock | W_pop | W_loss _ => 4
  | W_s2 _ | W_en => 5
  | W_c3 => 6
  | W_c2 => 7
  end.

Definition rank_r (rd : Rpc dev) (n : nat) : nat :=
  match rd with
  | R_done | R_fault _ => 0
  | R_while _ | R_none _ => 1
  | R_open _ | R_search _ _ _ => 2
  | R_start => 3
  | R_drain _ _ _ => 2 + 4 * n
  | R_wake _ _ _ => 3 + 4 * n
  | R_push _ _ _ _ => 4 + 4 * n
  | R_lock _ _ _ _ => 5 + 4 * n
  | R_read _ _ => 15
  | R_test _ _ _ => 16
  end.

Definition rank_m (m : Mpc) : nat :=
  match m with
  | M_idle | M_slock _ | M_swake _ | M_closed => 0
  | M_join n => 1 + n
  | M_stop_qwake i => 6 + 4 * (2 - i)
  | M_stop_qlock i => 7 + 4 * (2 - i)
  | M_stop_swake i => 8 + 4 * (2 - i)
  | M_stop_slock i => 9 + 4 * (2 - i)
  end.

Definition waiting (c : ChannelContext) : nat :=
  Nat.b2n (queueCondition c) + Nat.b2n (stateCondition c).

Definition measure (st : Sys (dev := dev)) : nat :=
  rank_r (reader st) (length (buffer_packets (fec (shared st)))) +
  sum_list_with (fun w => rank_w (w_pc w)) (workers st) + rank_m (main st) +
  sum_list_with waiting (channels (shared st)).

Lemma sum_list_insert {A} (f : A -> nat) l i x y :
  l !! i = Some x ->
  (sum_list_with f (<[i := y]> l) + f x = sum_list_with f l + f y)%nat.
Proof.
  revert i; induction l as [| z l IH ]; intros [| i] Hi; try done.
  - injection Hi as ->. change (<[0%nat := y]> (x :: l)) with (y :: l). cbn [sum_list_with]. lia.
  - change (<[S i := y]> (z :: l)) with (z :: <[i := y]> l).
    specialize (IH i Hi). cbn [sum_list_with]. lia.
Qed.

(** Account for the waiters when a channel is replaced. *)
Ltac wait_tac Hc :=
  match goal with |- context [sum_list_with waiting (<[?i := ?c']> ?cs)] =>
    let HS := fresh in
    pose proof (sum_list_insert waiting cs i _ c' Hc) as HS;
    unfold waiting in HS at 2 4; cbn in HS;
    repeat match type of HS with context [Nat.b2n ?b] => destruct b; cbn in HS end; lia
  end.

Lemma reader_decreases s rd wk m rd' s' :
  sys_ok (mkSys s rd wk m) -> is_running s = false ->
  reader_step mask_garbage buf_garbage input_garbage rd s = Some (rd', s') ->
  (measure (mkSys s' rd' wk m) < measure (mkSys s rd wk m))%nat.
Proof.
  intros Hok Hr Hstep.
  assert (Hok' : sys_ok (mkSys s' rd' wk m))
    by (by eapply (reader_step_ok mask_garbage buf_garbage input_garbage send_garbage Hmg Hbg Hig Hsg)).
  destruct Hok as (_ & Hrd & _), Hok' as (_ & Hrd' & _). cbn [shared reader main workers] in *.
  unfold measure. cbn [shared reader main workers].
  destruct rd as [ | p | l | l st at' | l st at' | l | l t | l t sz | l t sz p | l t sz p | l t sz | | e];
    cbn [reader_step] in Hstep; rewrite ?Hr, ?andb_false_r in Hstep; cbn [andb] in Hstep; try discriminate.
  7: { destruct (dev_read (file l) readChunkSize) as [got f].
       destruct got as [[| b bytes ] |]; simplify_eq; cbn; try lia.
       destruct (encode_chunk _ _ _ _ _) as [[f' size] | e] eqn:HE; simplify_eq; cbn [channels with_fec]; cbn; [| lia ].
       destruct Hrd' as (_ & (_ & Hlen & _) & _). cbn [fec with_fec] in Hlen. lia. }
  all: repeat match type of Hstep with
    | (?l !! ?i ≫= _) = _ => let E := fresh "Hc" in destruct (l !! i) eqn:E; [ cbn [mbind option_bind] in Hstep | discriminate ]
    | (match ?x with _ => _ end) = _ => let E := fresh "Hm" in destruct x eqn:E
    end; simplify_eq; cbn [channels with_channel emit with_running with_currentSocket with_fec fec
      set_buffer buffer_packets length rank_r]; rewrite ?Hm; cbn [length]; try lia.
  all: wait_tac Hc.
Qed.

Lemma worker_decreases s (rd : Rpc dev) wk m i w w' s' :
  is_running s = false -> wk !! i = Some w ->
  worker_step send_garbage sample i w s = Some (w', s') ->
  (measure (mkSys s' rd (<[i := w']> wk) m) < measure (mkSys s rd wk m))%nat.
Proof.
  intros Hr Hw Hstep. unfold measure. cbn [shared reader main workers].
  pose proof (sum_list_insert (fun w => rank_w (w_pc w)) wk i w w' Hw) as HW. cbn beta in HW.
  destruct (worker_frame send_garbage sample i w s w' s' Hstep) as (-> & _).
  unfold worker_step in Hstep. destruct (channels s !! i) as [c |] eqn:Hc; [| discriminate ].
  cbn [mbind option_bind] in Hstep. rewrite Hr in Hstep. destruct w as [pc dr]. cbn [w_pc w_draws] in *.
  destruct pc as [ | | | | | | | | | h | h | h | h | h | h | sp pk | sp pk | | e];
    unfold emit_hand in Hstep; repeat case_match; simplify_eq; cbn [w_pc rank_w] in HW;
    cbn [channels with_channel emit with_seqCounter]; first [ lia | wait_tac Hc ].
Qed.

Lemma main_decreases s (rd : Rpc dev) wk m m' s' :
  main_ok m -> stopping m = true -> main_step m rd wk s = Some (m', s') ->
  stopping m' = true /\ (measure (mkSys s' rd wk m') < measure (mkSys s rd wk m))%nat.
Proof.
  intros Hm Hst Hstep. unfold measure. cbn [shared reader main workers].
  destruct m as [ | i | i | i | i | i | i | n | ]; try discriminate; cbn [main_step] in Hstep.
  1-4: destruct (channels s !! i) as [c |] eqn:Hc; [| discriminate ]; cbn [mbind option_bind] in Hstep;
    repeat case_match; simplify_eq; split; try done; cbn [rank_m fec channels with_channel];
    cbn [main_ok] in Hm; try wait_tac Hc.
  - destruct i as [| [| i]]; [ wait_tac Hc .. |].
    match goal with H : _ = true |- _ => discriminate H end.
  - destruct n; [| destruct (thread_done rd wk n) ]; simplify_eq; (split; [ done |]); cbn; lia.
Qed.

Lemma stop_decreases st st' :
  sys_ok st -> stopping (main st) = true -> step st st' ->
  stopping (main st') = true /\ (measure st' < measure st)%nat.
Proof.
  intros Hok Hst Hstep. pose proof Hok as (_ & _ & Hm & _ & Hr). specialize (Hr Hst).
  destruct Hstep as [ s rd wk m rd' s' H | s rd wk m i w w' s' Hw H | s rd wk m m' s' H
    | s rd wk r m' s' H | s rd wk m i c Hc H | s rd wk m i c Hc H ]; cbn [main shared] in *.
  - split; [ done |]. by eapply reader_decreases.
  - split; [ done |]. by eapply worker_decreases.
  - by eapply main_decreases.
  - discriminate.
  - split; [ done |]. unfold measure. cbn [shared reader main workers channels with_channel fec].
    pose proof (sum_list_insert waiting (channels s) i c (with_queueCondition false c) Hc) as HS.
    unfold waiting in HS at 2 4. cbn in HS. rewrite H in HS. cbn in HS. lia.
  - split; [ done |]. unfold measure. cbn [shared reader main workers channels with_channel fec].
    pose proof (sum_list_insert waiting (channels s) i c (with_stateCondition false c) Hc) as HS.
    unfold waiting in HS at 2 4. cbn in HS. rewrite H in HS. cbn in HS. lia.
Qed.

(** *** Somebody can always move *)

Lemma worker_can_step i w s c :
  channels s !! i = Some c ->
  (queueMutex c = None \/ (w_pc w <> W_lock /\ w_pc w <> W_wait)) ->
  (stateMutex c = None \/ (forall h, w_pc w <> W_slock h /\ w_pc w <> W_swait h)) ->
  (w_pc w = W_wait -> queueCondition c = false) -> (forall h, w_pc w = W_swait h -> stateCondition c = false) ->
  w_pc w <> W_exit -> (forall e, w_pc w <> W_fault e) ->
  exists w' s', worker_step send_garbage sample i w s = Some (w', s').
Proof.
  intros Hc Hq Hs Hqw Hsw Hexit Hfault. unfold worker_step. rewrite Hc. cbn [mbind option_bind].
  destruct w as [pc dr]; cbn [w_pc w_draws] in *.
  destruct pc as [ | | | | | | | | | h | h | h | h | h | h | sp pk | sp pk | | e]; try by repeat case_match; eauto.
  - destruct Hq as [-> | [? ?]]; [ eauto | done ].
  - rewrite (Hqw eq_refl). destruct Hq as [-> | [? ?]]; [ eauto | done ].
  - destruct Hs as [-> | Hs]; [ eauto | by destruct (Hs h) ].
  - rewrite (Hsw h eq_refl). destruct Hs as [-> | Hs]; [ eauto | by destruct (Hs h) ].
  - by destruct (Hfault e).
Qed.

(** Whoever holds a queue mutex can move. *)
Lemma queue_holder_moves s rd wk m i c :
  sys_ok (mkSys s rd wk m) -> channels s !! i = Some c -> queueMutex c <> None -> mq_flag m i = false ->
  exists st', step (mkSys s rd wk m) st'.
Proof.
  intros (Hch & Hrd & _) Hc Hheld Hm. cbn [shared reader main workers] in *.
  pose proof Hch as (Hlc & Hlw & Hall). pose proof (lookup_lt_Some _ _ _ Hc) as Hi.
  destruct (lookup_lt_is_Some_2 wk i ltac:(lia)) as (w & Hw).
  destruct (Hall i c w Hc Hw) as (Hq & _ & _ & _ & _ & _ & Hok & _). cbn in Hq.
  destruct (holds_queue (w_pc w)) eqn:Hhq.
  - destruct (worker_can_step i w s c) as (w' & s' & H); try done; try (by right; destruct (w_pc w));
      try (by destruct (w_pc w)).
    eexists. by eapply step_worker.
  - rewrite Hm in Hq. destruct (r_flag rd i) eqn:Hr; [| by inversion Hq; congruence ].
    destruct rd; try discriminate. cbn in Hr. apply bool_decide_eq_true in Hr as ->.
    eexists. eapply step_reader. cbn [reader_step]. rewrite Hc. reflexivity.
Qed.

Lemma state_holder_moves s (rd : Rpc dev) wk m i c :
  sys_ok (mkSys s rd wk m) -> channels s !! i = Some c -> stateMutex c <> None -> ms_flag m i = false ->
  exists st', step (mkSys s rd wk m) st'.
Proof.
  intros (Hch & Hrd & _) Hc Hheld Hm. cbn [shared reader main workers] in *.
  pose proof Hch as (Hlc & Hlw & Hall). pose proof (lookup_lt_Some _ _ _ Hc) as Hi.
  destruct (lookup_lt_is_Some_2 wk i ltac:(lia)) as (w & Hw).
  destruct (Hall i c w Hc Hw) as (_ & Hs & _ & _ & _ & _ & Hok & _). cbn in Hs.
  destruct (holds_state (w_pc w)) eqn:Hhs.
  - destruct (worker_can_step i w s c) as (w' & s' & H); try done; try (by right; destruct (w_pc w));
      try (by destruct (w_pc w)).
    eexists. by eapply step_worker.
  - rewrite Hm in Hs. by inversion Hs; congruence.
Qed.

(** While waiting for a thread that has not ended, some thread can move. *)
Lemma join_progress s rd wk n k :
  sys_ok (mkSys s rd wk (M_join n)) -> (k < 4)%nat -> thread_done rd wk k = false ->
  exists st', step (mkSys s rd wk (M_join n)) st'.
Proof.
  intros Hok Hk Hnd. pose proof Hok as (Hch & Hrd & _). cbn [shared reader main workers] in *.
  pose proof Hch as (Hlc & Hlw & Hall).
  destruct k as [| k ]; cbn [thread_done] in Hnd.
  - assert (Hmove : (exists x, reader_step mask_garbage buf_garbage input_garbage rd s = Some x) ->
      exists st', step (mkSys s rd wk (M_join n)) st')
      by (intros [[rd' s'] H]; eexists; by eapply step_reader).
    destruct rd as [ | p | l | l st at' | l st at' | l | l t | l t sz | l t sz p | l t sz p | l t sz | | e];
      try discriminate; try (by destruct Hrd);
      try (by apply Hmove; cbn [reader_step]; repeat case_match; eauto).
    + destruct Hrd as (_ & _ & H1 & H2).
      pose proof (Z.rem_bound_pos st 3 ltac:(lia) ltac:(lia)).
      destruct (lookup_lt_is_Some_2 (channels s) (Z.to_nat (Z.rem st SOCKET_POOL_SIZE))) as (c & Hc);
        [ unfold SOCKET_POOL_SIZE; lia |].
      apply Hmove. cbn [reader_step]. rewrite Hc. cbn. case_match; eauto.
    + destruct Hrd as (_ & _ & Ht & _). destruct (lookup_lt_is_Some_2 (channels s) t ltac:(lia)) as (c & Hc).
      destruct (queueMutex c) eqn:Hq; [ by eapply queue_holder_moves; [| | rewrite Hq |] |].
      apply Hmove. cbn [reader_step]. rewrite Hc. cbn. rewrite Hq. eauto.
    + destruct Hrd as (_ & _ & Ht & _). destruct (lookup_lt_is_Some_2 (channels s) t ltac:(lia)) as (c & Hc).
      apply Hmove. cbn [reader_step]. rewrite Hc. eauto.
    + destruct Hrd as (_ & _ & Ht & _). destruct (lookup_lt_is_Some_2 (channels s) t ltac:(lia)) as (c & Hc).
      apply Hmove. cbn [reader_step]. rewrite Hc. eauto.
  - destruct (lookup_lt_is_Some_2 (channels s) k ltac:(lia)) as (c & Hc).
    destruct (lookup_lt_is_Some_2 wk k ltac:(lia)) as (w & Hw). rewrite Hw in Hnd.
    destruct (Hall k c w Hc Hw) as (Hq & Hs & _ & _ & _ & _ & Hok' & Hpq & Hps). cbn in Hpq, Hps.
    destruct (queueMutex c) eqn:Hqm; [ by eapply queue_holder_moves; [| | rewrite Hqm |] |].
    destruct (stateMutex c) eqn:Hsm; [ by eapply state_holder_moves; [| | rewrite Hsm |] |].
    destruct (worker_can_step k w s c) as (w' & s' & H); auto.
    + intros _. by apply Hpq.
    + intros h _. by apply Hps.
    + intros E. by rewrite E in Hnd.
    + intros e E. by rewrite E in Hok'.
    + eexists. by eapply step_worker.
Qed.

Lemma stop_progress st :
  sys_ok st -> stopping (main st) = true -> main st <> M_closed -> exists st', step st st'.
Proof.
  destruct st as [s rd wk m]. cbn [main]. intros Hok Hst Hnc.
  pose proof Hok as (Hch & _ & Hm & _). cbn [shared reader main workers] in *.
  pose proof Hch as (Hlc & _ & _).
  assert (Hmove : (exists x, main_step m rd wk s = Some x) -> exists st', step (mkSys s rd wk m) st')
    by (intros [[m' s'] H]; eexists; by eapply step_main).
  destruct m as [ | i | i | i | i | i | i | n | ]; try done; cbn [main_ok] in Hm.
  1-4: destruct (lookup_lt_is_Some_2 (channels s) i ltac:(lia)) as (c & Hc).
  - destruct (stateMutex c) eqn:Hs; [ by eapply state_holder_moves; [| | rewrite Hs |] |].
    apply Hmove. cbn [main_step]. rewrite Hc. cbn. rewrite Hs. eauto.
  - apply Hmove. cbn [main_step]. rewrite Hc. cbn. eauto.
  - destruct (queueMutex c) eqn:Hq; [ by eapply queue_holder_moves; [| | rewrite Hq |] |].
    apply Hmove. cbn [main_step]. rewrite Hc. cbn. rewrite Hq. eauto.
  - apply Hmove. cbn [main_step]. rewrite Hc. cbn. eauto.
  - destruct n as [| n ]; [ apply Hmove; cbn; eauto |].
    destruct (thread_done rd wk n) eqn:Hd; [| eapply join_progress; eauto; lia ].
    apply Hmove. cbn [main_step]. rewrite Hd. eauto.
Qed.

(** *** Joined threads have ended *)

Definition joined (st : Sys (dev := dev)) : Prop :=
  forall k, match main st with M_join n => (n <= k < 4)%nat | M_closed => (k < 4)%nat | _ => False end ->
    thread_done (reader st) (workers st) k = true.

Lemma joined_step st st' : joined st -> step st st' -> joined st'.
Proof.
  intros Hj Hstep. destruct Hstep as [ s rd wk m rd' s' H | s rd wk m i w w' s' Hw H | s rd wk m m' s' H
    | s rd wk r m' s' H | s rd wk m i c Hc H | s rd wk m i c Hc H ]; intros k; cbn [main reader workers];
    intros Hk; try (exact (Hj k Hk)).
  - specialize (Hj k Hk). cbn [reader workers] in Hj. destruct k; [| done ]. by destruct rd.
  - specialize (Hj k Hk). cbn [reader workers] in Hj. destruct k as [| k]; [ done |].
    cbn [thread_done] in *. destruct (decide (k = i)) as [-> | Hne].
    + rewrite Hw in Hj. unfold worker_step in H. destruct (channels s !! i); [| discriminate ]. cbn in H.
      by destruct (w_pc w).
    + by rewrite list_lookup_insert_ne.
  - destruct m as [ | i | i | i | i | i | i | n | ]; try discriminate; cbn [main_step] in H.
    1-6: destruct (channels s !! i); [| discriminate ]; cbn [mbind option_bind] in H;
      repeat case_match; simplify_eq; lia.
    destruct n as [| n ]; [ simplify_eq; apply Hj; cbn; lia |].
    destruct (thread_done rd wk n) eqn:Hd; simplify_eq.
    destruct (decide (k = n)) as [-> |]; [ done | apply Hj; cbn; lia ].
  - destruct r as [ch state | ch rate | ]; cbn [main_request] in H; repeat case_match; simplify_eq; try done;
      destruct (channels s !! _); cbn in *; repeat case_match; simplify_eq; done.
Qed.

Lemma reachable_joined init st : joined init -> rtc step init st -> joined st.
Proof. intros Hok Hr. induction Hr; eauto using joined_step. Qed.

(** *** The bound *)

Lemma measure_bound st : sys_ok st -> (measure st <= 60)%nat.
Proof.
  destruct st as [s rd wk m]. intros ((Hlc & Hlw & _) & Hrd & Hm & _). unfold measure.
  cbn [shared reader main workers] in *.
  assert (Hr : (rank_r rd (length (buffer_packets (fec s))) <= 16)%nat).
  { destruct rd; cbn [rank_r reader_ok] in *; try lia;
      destruct Hrd as (_ & (_ & Hl & _) & _); lia. }
  assert (Hw : (sum_list_with (fun w => rank_w (w_pc w)) wk <= 21)%nat).
  { destruct wk as [| w0 [| w1 [| w2 [|]]]]; try discriminate. cbn [sum_list_with].
    assert (Hone : forall pc, (rank_w pc <= 7)%nat) by (intros []; cbn; lia).
    pose proof (Hone (w_pc w0)). pose proof (Hone (w_pc w1)). pose proof (Hone (w_pc w2)). lia. }
  assert (Hc : (sum_list_with waiting (channels s) <= 6)%nat).
  { destruct (channels s) as [| c0 [| c1 [| c2 [|]]]]; try discriminate. cbn [sum_list_with].
    assert (Hone : forall c, (waiting c <= 2)%nat)
      by (intros c; unfold waiting; destruct (queueCondition c), (stateCondition c); cbn; lia).
    pose proof (Hone c0). pose proof (Hone c1). pose proof (Hone c2). lia. }
  assert (Hm' : (rank_m m <= 17)%nat) by (destruct m; cbn [rank_m main_ok] in *; lia).
  lia.
Qed.

Lemma stop_bounded n st st' :
  sys_ok st -> stopping (main st) = true -> nsteps step n st st' ->
  stopping (main st') = true /\ (n + measure st' <= measure st)%nat.
Proof.
  intros Hok Hst Hn. induction Hn as [ st | n st st1 st' Hstep Hn IH ]; [ split; [ done | lia ] |].
  destruct (stop_decreases _ _ Hok Hst Hstep) as [Hst1 Hlt].
  destruct (IH (sys_step_ok _ _ Hok Hstep) Hst1). split; [ done | lia ].
Qed.

(** The settings a session starts with: three channels, on or off. *)
Definition settings_ok (settings : list (Z * double)) : Prop :=
  length settings = 3%nat /\ Forall (fun p => fst p = 0 \/ fst p = 1) settings.

Lemma initial_ok path seq0 f settings :
  settings_ok settings -> fec_ready 0 f -> sys_ok (initial (dev := dev) path seq0 f settings).
Proof.
  intros [Hl Hall] Hf. apply sys_ok_intro; cbn [is_running fec channels currentSocket]; try (done || lia).
  split_and!; [ by rewrite length_map | done |].
  intros i c w Hc Hw. apply lookup_replicate in Hw as [-> _].
  rewrite list_lookup_fmap in Hc. destruct (settings !! i) as [[e r] |] eqn:Hs; [| discriminate ].
  injection Hc as <-. pose proof (Forall_lookup_1 _ _ _ _ Hall Hs) as He.
  repeat split; cbn; try done; constructor.
Qed.

End Threads.

(** Sizes of the uninitialised arrays. *)
Definition garbage_ok (mask_garbage buf_garbage input_garbage send_garbage : list Z) : Prop :=
  length mask_garbage = 288%nat /\ length buf_garbage = Z.to_nat kMaxDataSize /\
  length input_garbage = 2000%nat /\ length send_garbage = 2000%nat.

(** The encoder of a program that has not sent yet. *)
Lemma fec_ready_new masks mask_size :
  length masks = 288%nat -> fec_ready 0 (ForwardErrorCorrection_new masks mask_size).
Proof. intros. split_and!; [ by apply fec_inv_new | done | constructor ]. Qed.

(** A session over a file in memory, for the witnesses. *)
Definition sample_files : string -> option (list Z) := fun _ => Some (replicate 3000 65).
Definition sample_settings : list (Z * double) :=
  [(1, double_zero); (0, double_zero); (1, double_zero)].
Definition sample_initial : Sys (dev := list Z) :=
  initial "video.ts" 0 (ForwardErrorCorrection_new (replicate 288 0) 0) sample_settings.
Definition sample_step : Sys (dev := list Z) -> Sys (dev := list Z) -> Prop :=
  @sys_step true (list Z) (list_device sample_files) (replicate 288 1) (replicate 2000 2)
    (replicate 2000 3) (replicate 2000 4) (fun _ _ => double_zero).

(** The state right after the user has asked to stop. *)
Definition sample_stopped : Sys (dev := list Z) :=
  mkSys (with_running false (shared sample_initial)) (reader sample_initial)
    (workers sample_initial) (M_stop_slock 0).

Lemma sample_garbage_ok :
  garbage_ok (replicate 288 1) (replicate 2000 2) (replicate 2000 3) (replicate 2000 4).
Proof. repeat split. Qed.

Lemma sample_settings_ok : settings_ok sample_settings.
Proof. split; [ done |]. repeat (apply Forall_cons_2; [ cbn; lia |]). constructor. Qed.

Lemma sample_stop_reachable : rtc sample_step sample_initial sample_stopped.
Proof. apply rtc_once. by apply (step_request _ _ _ _ _ _ _ _ StopSending). Qed.

(** ** Theorems *)







(** [n] steps of one worker with no other thread moving. *)
Fixpoint worker_run send_garbage sample (i n : nat) (w : Worker) (s : Shared) : option (Worker * Shared) :=
  match n with
  | O => Some (w, s)
  | S n => '(w, s) ← worker_step send_garbage sample i w s; worker_run send_garbage sample i n w s
  end.

Lemma worker_run_app send_garbage sample i n m w s :
  worker_run send_garbage sample i (n + m) w s =
  '(w, s) ← worker_run send_garbage sample i n w s; worker_run send_garbage sample i m w s.
Proof.
  revert w s. induction n as [| n IH ]; intros w s; [ done |]. cbn [Nat.add worker_run].
  destruct (worker_step _ _ _ _ _) as [[w' s'] |]; [ apply IH | done ].
Qed.

(** One turn of the loop of a disabled channel's worker. *)
Lemma disabled_channel_turn send_garbage sample i s c draws :
  channels s !! i = Some c -> is_running s = true -> enabled c = 0 -> queueMutex c = None ->
  worker_run send_garbage sample i 6 (mkWorker W_loop draws) s = Some (mkWorker W_loop draws, s).
Proof.
  intros Hc Hr He Hq. pose proof (lookup_lt_Some _ _ _ Hc) as Hi.
  set (c' := with_queueMutex (Some TWorker) c). set (s' := with_channel i c' s).
  assert (Hc' : channels s' !! i = Some c') by (by apply list_lookup_insert_eq).
  assert (Hback : with_channel i (with_queueMutex None c') s' = s).
  { unfold s', with_channel. cbn. rewrite list_insert_insert_eq.
    unfold c', with_queueMutex. cbn. rewrite <- Hq.
    replace (mkChannel _ _ _ _ _ _ _) with c by (by destruct c).
    rewrite list_insert_id by done. by destruct s. }
  assert (Hr' : is_running s' = true) by done. assert (He' : enabled c' = 0) by done.
  unfold worker_run, worker_step.
  repeat (rewrite ?Hc, ?Hc', ?Hr, ?Hr', ?He', ?Hq; cbn [mbind option_bind w_pc w_draws Z.eqb]; fold c' s').
  by rewrite Hback.
Qed.

(** The worker of a disabled channel does not sleep: while the channel stays
    off, every turn of its loop takes the queue mutex, sees that the channel is
    off, releases it and starts again. However long it runs, each turn is six
    steps that change nothing, and the wait on [stateCondition] that the code
    describes as waiting for the channel to be enabled is not reached. *)
Theorem disabled_channel_spins send_garbage sample i s c draws turns :
  channels s !! i = Some c -> is_running s = true -> enabled c = 0 -> queueMutex c = None ->
  worker_run send_garbage sample i (6 * turns) (mkWorker W_loop draws) s =
    Some (mkWorker W_loop draws, s).
Proof.
  intros. induction turns as [| n IH ]; [ done |].
  rewrite Nat.mul_succ_r, worker_run_app, IH. cbn [mbind option_bind].
  by eapply disabled_channel_turn.
Qed.

Lemma disabled_channel_spins_witness :
  worker_run (replicate 2000 4) (fun _ _ => double_zero) 1 (6 * 1000) (mkWorker W_loop 0)
    (shared sample_initial) = Some (mkWorker W_loop 0, shared sample_initial).
Proof.
  exact (disabled_channel_spins (replicate 2000 4) (fun _ _ => double_zero) 1 (shared sample_initial)
    (initial_channel 0 double_zero) 0 1000 eq_refl eq_refl eq_refl eq_refl).
Defined.
