(* ===== verification/Fifo.v ===== *)
(** * What becomes of every packet

    The trace of [System] records each packet that is queued, sent, dropped by
    the loss simulation or abandoned when the process is stopped. Under every
    interleaving a channel is a lossless queue: what was pushed is what has been
    dealt with, then what the worker holds, then what is still queued, in that
    order. The global counter numbers the datagrams that are really sent. *)
From S2P Require Import Prelude.
From S2P Require Import Packet.
From S2P Require Import Encoder.
From S2P Require Import Channel.
From S2P Require Import Worker.
From S2P Require Import System.
From S2P Require Import SystemInv.
From S2P Require Import Threads.
From stdpp Require Import base list list_numbers numbers option strings relations sorting tactics.
From Stdlib Require Import ZArith Lia.

#[local] Open Scope Z_scope.

(** ** Histories of a channel *)

(** A packet apart from the number the worker gives it. *)
Definition unnumbered (p : SendPacket) : SendPacket :=
  mkSendPacket (packet_to_send p) (crc32 p) (stream_type p) (channel_index p) 0 (actual_payload_size p).

Definition pushed (i : nat) (tr : list event) : list SendPacket :=
  omap (fun e => match e with
                 | Pushed j p => if decide (j = i) then Some (unnumbered p) else None
                 | _ => None
                 end) tr.

(** Packets the worker has dealt with: sent, dropped or abandoned. *)
Definition finished (i : nat) (tr : list event) : list SendPacket :=
  omap (fun e => match e with
                 | Dropped j p | Abandoned j p | Sent j p _ =>
                     if decide (j = i) then Some (unnumbered p) else None
                 | _ => None
                 end) tr.

(** The packet a worker has taken and not dealt with yet. *)
Definition in_hand (pc : Wpc) : list SendPacket :=
  match pc with
  | W_slock h | W_s1 h | W_s2 h | W_swait h | W_after h | W_loss h =>
      match h with Some p => [unnumbered p] | None => [] end
  | W_seq p _ | W_out p _ => [unnumbered p]
  | _ => []
  end.

Definition queues (s : Shared) : list (list SendPacket) := map packetQueue (channels s).

(** The numbers of the datagrams sent, and of those about to be sent. *)
Definition sent_numbers (tr : list event) : list Z :=
  omap (fun e => match e with Sent _ p _ => Some (pkt_seq p) | _ => None end) tr.
Definition number_of (pc : Wpc) : list Z := match pc with W_out p _ => [pkt_seq p] | _ => [] end.
Definition pending_numbers (wk : list Worker) : list Z := concat (map (fun w => number_of (w_pc w)) wk).

Lemma queues_insert s i c : queues (with_channel i c s) = <[i := packetQueue c]> (queues s).
Proof. unfold queues. cbn. apply list_fmap_insert. Qed.

Lemma lookup_queues s i c : channels s !! i = Some c -> queues s !! i = Some (packetQueue c).
Proof. intros Hc. unfold queues. by rewrite list_lookup_fmap, Hc. Qed.

Lemma queues_same s i c c' :
  channels s !! i = Some c -> packetQueue c' = packetQueue c -> queues (with_channel i c' s) = queues s.
Proof.
  intros Hc Hq. rewrite queues_insert, Hq. by apply list_insert_id, lookup_queues.
Qed.

(** ** What a step does to queues and trace *)

Section Effects.
Context {mode : CheckMode} {dev : Type} {D : Device dev}.
Variable mask_garbage buf_garbage input_garbage send_garbage : list Z.
Variable sample : nat -> nat -> double.

(** Nothing, as far as packets are concerned. *)
Definition silent (s s' : Shared) : Prop :=
  queues s' = queues s /\ trace s' = trace s /\ globalSeqCounter s' = globalSeqCounter s.

Lemma silent_channel s i c c' :
  channels s !! i = Some c -> packetQueue c' = packetQueue c -> silent s (with_channel i c' s).
Proof. intros. by split_and!; [ eapply queues_same | |]. Qed.

Hint Resolve silent_channel : core.

Lemma silent_refl s : silent s s.
Proof. done. Qed.

Hint Resolve silent_refl : core.

Lemma reader_effect rd s rd' s' :
  reader_step mask_garbage buf_garbage input_garbage rd s = Some (rd', s') ->
  silent s s' \/
  exists t q p, queues s !! t = Some q /\ queues s' = <[t := q ++ [p]]> (queues s) /\
    trace s' = trace s ++ [Pushed t p] /\ globalSeqCounter s' = globalSeqCounter s.
Proof.
  destruct rd; cbn [reader_step]; intros H; try discriminate;
    try (destruct (channels s !! _) as [c |] eqn:Hc; [| discriminate ]; cbn [mbind option_bind] in H);
    try (injection H as <- <-; right; exists target_channel, (packetQueue c), sendPkt;
         split_and!; [ by apply lookup_queues | apply queues_insert | done | done ]);
    left; repeat case_match; simplify_eq; eauto; done.
Qed.

Lemma main_effect pc rd wk s pc' s' :
  main_step (dev := dev) pc rd wk s = Some (pc', s') -> silent s s'.
Proof.
  destruct pc; cbn [main_step]; intros H; try discriminate;
    try (destruct (channels s !! _) as [c |] eqn:Hc; [| discriminate ]; cbn [mbind option_bind] in H);
    repeat case_match; simplify_eq; eauto.
Qed.

Lemma request_effect r s pc' s' : main_request r s = Some (pc', s') -> silent s s'.
Proof.
  destruct r; cbn [main_request]; intros H; repeat case_match; simplify_eq; eauto; try done;
    (destruct (channels s !! _) as [c |] eqn:Hc; [| discriminate ]); cbn [mbind option_bind] in H;
    repeat case_match; simplify_eq; eauto.
Qed.

(** A worker consumes its own queue from the front and deals with what it
    holds; the events it adds concern its own channel. *)
Definition own (i : nat) (e : event) : Prop :=
  match e with Pushed _ _ => False | Popped j _ | Dropped j _ | Abandoned j _ | Sent j _ _ => j = i end.

Lemma finished_own i p e :
  e = Dropped i p \/ e = Abandoned i p \/ (exists bytes, e = Sent i p bytes) ->
  finished i [e] = [unnumbered p].
Proof. intros [-> | [-> | [bytes ->]]]; cbn; by rewrite decide_True. Qed.

Lemma sendable_hand h p pk : sendable h = Some (p, pk) -> h = Some p.
Proof. unfold sendable. intros H. by repeat case_match; simplify_eq. Qed.

Definition effect (i : nat) (c : ChannelContext) (pc pc' : Wpc) (s s' : Shared) : Prop :=
  exists q ev, queues s' = <[i := q]> (queues s) /\ trace s' = trace s ++ ev /\ Forall (own i) ev /\
    ((forall e, pc' <> W_fault e) ->
     in_hand pc ++ map unnumbered (packetQueue c) = finished i ev ++ in_hand pc' ++ map unnumbered q).

Lemma effect_none i c pc pc' s s' :
  channels s !! i = Some c -> queues s' = queues s -> trace s' = trace s ->
  in_hand pc = in_hand pc' \/ (exists e, pc' = W_fault e) -> effect i c pc pc' s s'.
Proof.
  intros Hc Hq Ht Hh. exists (packetQueue c), []. rewrite Hq, Ht, app_nil_r. split_and!; [| done | done |].
  - symmetry. by apply list_insert_id, lookup_queues.
  - intros Hf. destruct Hh as [-> | [e ->]]; [ done | by destruct (Hf e) ].
Qed.

Lemma effect_pop i c p q s pc' :
  packetQueue c = p :: q -> in_hand pc' = [unnumbered p] ->
  effect i c W_pop pc' s (emit (Popped i p) (with_channel i (with_queueMutex None (with_queue q c)) s)).
Proof.
  intros Hq Hh. exists q, [Popped i p]. split_and!; [ apply (queues_insert s i) | done | by repeat constructor |].
  intros _. by rewrite Hq, Hh.
Qed.

Lemma effect_finish i c pc pc' s p e :
  channels s !! i = Some c -> e = Dropped i p \/ e = Abandoned i p \/ (exists bytes, e = Sent i p bytes) ->
  in_hand pc = [unnumbered p] -> in_hand pc' = [] -> effect i c pc pc' s (emit e s).
Proof.
  intros Hc He Hh Hh'. exists (packetQueue c), [e]. split_and!; [| done | |].
  - symmetry. by apply list_insert_id, lookup_queues.
  - constructor; [| done ]. by destruct He as [-> | [-> | [bytes ->]]].
  - intros _. by rewrite (finished_own i p), Hh, Hh'.
Qed.

Lemma worker_effect i w s w' s' c :
  channels s !! i = Some c -> worker_step send_garbage sample i w s = Some (w', s') ->
  effect i c (w_pc w) (w_pc w') s s'.
Proof.
  intros Hc. unfold worker_step. rewrite Hc. cbn [mbind option_bind].
  destruct (w_pc w) eqn:Hpc; intros H; unfold emit_hand, assign_seq in H;
    repeat case_match; simplify_eq; cbn [w_pc];
    try match goal with H : sendable _ = Some _ |- _ => apply sendable_hand in H; subst end;
    first
      [ apply effect_none; [ done | done || by eapply queues_same | done | by left ]
      | apply effect_none; [ done.. | by right; eexists ]
      | by apply effect_pop
      | eapply effect_finish; eauto ].
Qed.

End Effects.

(** ** Invariants *)

Lemma pushed_own i j ev : Forall (own i) ev -> pushed j ev = [].
Proof. induction 1 as [| e ev He _ IH ]; [ done |]. by destruct e. Qed.

Lemma finished_other i j ev : Forall (own i) ev -> j <> i -> finished j ev = [].
Proof.
  intros H Hne. induction H as [| e ev He _ IH ]; [ done |].
  destruct e; cbn in *; subst; rewrite ?decide_False by done; auto; contradiction.
Qed.

Definition fifo_inv (s : Shared) (wk : list Worker) : Prop :=
  forall i q w, queues s !! i = Some q -> wk !! i = Some w -> (forall e, w_pc w <> W_fault e) ->
    pushed i (trace s) = finished i (trace s) ++ in_hand (w_pc w) ++ map unnumbered q.

Lemma fifo_silent s s' wk : silent s s' -> fifo_inv s wk -> fifo_inv s' wk.
Proof. intros (Hq & Ht & _) Hinv i q w. rewrite Hq, Ht. apply Hinv. Qed.

Lemma fifo_push s s' wk t q p :
  queues s !! t = Some q -> queues s' = <[t := q ++ [p]]> (queues s) ->
  trace s' = trace s ++ [Pushed t p] -> fifo_inv s wk -> fifo_inv s' wk.
Proof.
  intros Hq Hq' Ht Hinv i q0 w Hi Hw Hf. rewrite Ht. unfold pushed, finished. rewrite !omap_app.
  fold (pushed i (trace s)) (finished i (trace s)). cbn [omap list_omap]. rewrite app_nil_r.
  rewrite Hq' in Hi. destruct (decide (t = i)) as [-> | Hne].
  - rewrite list_lookup_insert_eq in Hi by (by eapply lookup_lt_Some). injection Hi as <-.
    rewrite (Hinv i q w Hq Hw Hf), map_app, <- !app_assoc. done.
  - rewrite list_lookup_insert_ne in Hi by done. rewrite app_nil_r. by apply Hinv.
Qed.

Lemma fifo_worker s s' wk i w w' c :
  channels s !! i = Some c -> wk !! i = Some w -> (forall e, w_pc w <> W_fault e) ->
  effect i c (w_pc w) (w_pc w') s s' -> fifo_inv s wk -> fifo_inv s' (<[i := w']> wk).
Proof.
  intros Hc Hw Hf (q & ev & Hq & Ht & Hown & Heq) Hinv j q0 w0 Hj Hj' Hf'.
  rewrite Ht. unfold pushed, finished. rewrite !omap_app.
  fold (pushed j (trace s)) (finished j (trace s)) (pushed j ev) (finished j ev).
  rewrite (pushed_own i j ev Hown), app_nil_r. rewrite Hq in Hj. destruct (decide (i = j)) as [<- | Hne].
  - rewrite list_lookup_insert_eq in Hj by (by eapply lookup_lt_Some, lookup_queues). injection Hj as <-.
    rewrite list_lookup_insert_eq in Hj' by (by eapply lookup_lt_Some). injection Hj' as <-.
    rewrite (Hinv i _ w (lookup_queues s i c Hc) Hw Hf), (Heq Hf'), app_assoc. done.
  - rewrite list_lookup_insert_ne in Hj by done. rewrite list_lookup_insert_ne in Hj' by done.
    rewrite (finished_other i j ev Hown), app_nil_r by done. by apply Hinv.
Qed.

(** Workers keep the pointer they took out of the packet, and every datagram on
    the wire was assembled from the packet it is recorded with. *)
Definition keeps_packet (w : Worker) : Prop :=
  match w_pc w with W_seq p pk | W_out p pk => packet_to_send p = Some pk | _ => True end.

Definition event_ok (send_garbage : list Z) (e : event) : Prop :=
  match e with
  | Sent _ p bytes => exists pk, packet_to_send p = Some pk /\
      bytes = packet_bytes pk (actual_payload_size p) ++ trailer p ++
              take (Z.to_nat (1024 - actual_payload_size p))
                (drop (Z.to_nat (actual_payload_size p + 13)) send_garbage)
  | _ => True
  end.

Lemma worker_keeps send_garbage sample i w s w' s' :
  length send_garbage = 2000%nat -> worker_ok (w_pc w) ->
  worker_step send_garbage sample i w s = Some (w', s') -> keeps_packet w ->
  Forall (event_ok send_garbage) (trace s) ->
  keeps_packet w' /\ Forall (event_ok send_garbage) (trace s').
Proof.
  intros Hg Hok. unfold worker_step. destruct (channels s !! i) as [c |]; [| done ]. cbn [mbind option_bind].
  intros H Hk Htr. unfold keeps_packet in Hk. unfold emit_hand, assign_seq, sendable in H.
  destruct (w_pc w) eqn:Hpc;
    try match type of Hok with worker_ok (W_out _ _) =>
      destruct Hok as [Hl Hsz]; unfold good_size in Hsz; rewrite send_datagram_Ok in H by (done || lia) end;
    repeat case_match; simplify_eq; split; try done; cbn [trace emit];
    apply Forall_app; split; try done; constructor; try done; cbn; eauto.
Qed.

(** *** Numbers *)

Lemma pending_insert wk i w w' :
  wk !! i = Some w -> exists rest,
    pending_numbers wk ≡ₚ number_of (w_pc w) ++ rest /\
    pending_numbers (<[i := w']> wk) ≡ₚ number_of (w_pc w') ++ rest.
Proof.
  intros Hw. pose proof (lookup_lt_Some _ _ _ Hw).
  exists (pending_numbers (take i wk) ++ pending_numbers (drop (S i) wk)). unfold pending_numbers. split.
  - rewrite <- (take_drop_middle wk i w Hw) at 1. rewrite map_app, concat_app. cbn [map concat].
    rewrite !app_assoc. by rewrite (Permutation_app_comm (concat _) (number_of (w_pc w))).
  - rewrite insert_take_drop by done. rewrite map_app, concat_app. cbn [map concat].
    rewrite !app_assoc. by rewrite (Permutation_app_comm (concat _) (number_of (w_pc w'))).
Qed.

(** The numbers given out so far: sent or about to be sent, each once. *)
Definition number_inv (seq0 : Z) (s : Shared) (wk : list Worker) : Prop :=
  exists n, 0 <= n /\ globalSeqCounter s = u8 (seq0 + n) /\
    sent_numbers (trace s) ++ pending_numbers wk ≡ₚ map (fun j => u8 (seq0 + j)) (seqZ 0 n).

Definition emits_sent (s s' : Shared) (l : list Z) : Prop :=
  exists ev, trace s' = trace s ++ ev /\ sent_numbers ev = l.

Lemma worker_numbers send_garbage sample i w s w' s' :
  length send_garbage = 2000%nat -> worker_ok (w_pc w) ->
  worker_step send_garbage sample i w s = Some (w', s') ->
  (globalSeqCounter s' = globalSeqCounter s /\
   exists l, emits_sent s s' l /\ number_of (w_pc w) = l ++ number_of (w_pc w')) \/
  (globalSeqCounter s' = u8 (globalSeqCounter s + 1) /\ emits_sent s s' [] /\
   number_of (w_pc w) = [] /\ number_of (w_pc w') = [globalSeqCounter s]).
Proof.
  intros Hg Hok. unfold worker_step. destruct (channels s !! i) as [c |]; [| done ]. cbn [mbind option_bind].
  assert (Hs0 : emits_sent s s []) by (exists []; by rewrite app_nil_r).
  assert (Hs1 : forall c0, emits_sent s (with_channel i c0 s) []) by (intros; exists []; by rewrite app_nil_r).
  assert (Hs2 : forall e s0, emits_sent s s0 [] -> (forall j p b, e <> Sent j p b) -> emits_sent s (emit e s0) []).
  { intros e s0 (ev & Ht & He) Hne. exists (ev ++ [e]). cbn. rewrite Ht, app_assoc. split; [ done |].
    unfold sent_numbers in *. rewrite omap_app, He. destruct e; cbn; [ done.. | by destruct (Hne channel p bytes) ]. }
  destruct (w_pc w) eqn:Hpc; intros H; unfold emit_hand, assign_seq in H.
  all: try (left; repeat case_match; simplify_eq; (split; [ done | exists [] ]);
    (split; [ first [ apply Hs0 | apply Hs1 | apply Hs2; [ auto | done ] ] | done ])).
  - right. simplify_eq. split_and!; [ done | exists []; by rewrite app_nil_r | done | done ].
  - destruct Hok as [Hl Hsz]. unfold good_size in Hsz. rewrite send_datagram_Ok in H by (done || lia).
    simplify_eq. left. split; [ done |]. exists [pkt_seq sendPkt]. split; [ by eexists [_] | done ].
Qed.

Lemma number_worker seq0 send_garbage sample i w s w' s' wk :
  length send_garbage = 2000%nat -> worker_ok (w_pc w) -> wk !! i = Some w ->
  worker_step send_garbage sample i w s = Some (w', s') ->
  number_inv seq0 s wk -> number_inv seq0 s' (<[i := w']> wk).
Proof.
  intros Hg Hok Hw Hstep (n & Hn & Hcnt & Hperm). destruct (pending_insert wk i w w' Hw) as (rest & Hr & Hr').
  rewrite Hr in Hperm.
  destruct (worker_numbers send_garbage sample i w s w' s' Hg Hok Hstep)
    as [(Hc & l & (ev & Ht & He) & Hl) | (Hc & (ev & Ht & He) & Hl & Hl')].
  - exists n. rewrite Hc, Ht, Hr'. split_and!; [ done | done |]. rewrite <- Hperm, Hl.
    unfold sent_numbers in *. by rewrite omap_app, He, <- !app_assoc.
  - exists (n + 1). split_and!; [ lia | |].
    + rewrite Hc, Hcnt. unfold u8. rewrite Zplus_mod_idemp_l. f_equal. lia.
    + rewrite Ht, Hr', seqZ_app, map_app, <- Hperm, Hl, Hl' by lia. cbn [seqZ map app].
      unfold sent_numbers in *. rewrite omap_app, He, app_nil_r, Hcnt.
      change (map (fun j => u8 (seq0 + j)) (seqZ (0 + n) 1)) with [u8 (seq0 + (0 + n))].
      rewrite Z.add_0_l. by rewrite <- Permutation_cons_append, <- Permutation_middle.
Qed.

(** ** The whole history *)

Section History.
Context {mode : CheckMode} {dev : Type} {D : Device dev} {RF : RegularFile dev}.
Variable mask_garbage buf_garbage input_garbage send_garbage : list Z.
Variable sample : nat -> nat -> double.
Hypothesis Hgarbage : garbage_ok mask_garbage buf_garbage input_garbage send_garbage.
Let step := sys_step (dev := dev) mask_garbage buf_garbage input_garbage send_garbage sample.

Definition history_ok (seq0 : Z) (st : Sys (dev := dev)) : Prop :=
  fifo_inv (shared st) (workers st) /\ Forall keeps_packet (workers st) /\
  Forall (event_ok send_garbage) (trace (shared st)) /\ number_inv seq0 (shared st) (workers st).

Lemma history_silent seq0 s s' rd rd' wk m m' :
  silent s s' -> history_ok seq0 (mkSys s rd wk m) -> history_ok seq0 (mkSys s' rd' wk m').
Proof.
  intros Hs (Hf & Hk & Ht & Hn). split_and!; cbn [shared workers] in *.
  - by eapply fifo_silent.
  - done.
  - by destruct Hs as (_ & -> & _).
  - destruct Hs as (_ & Htr & Hc). unfold number_inv. by rewrite Htr, Hc.
Qed.

Lemma worker_ok_of st i w :
  sys_ok (dev := dev) st -> workers st !! i = Some w -> worker_ok (w_pc w).
Proof.
  intros ((Hlc & Hlw & Hall) & _) Hw.
  destruct (lookup_lt_is_Some_2 (channels (shared st)) i) as [c Hc]; [ apply lookup_lt_Some in Hw; lia |].
  by destruct (Hall i c w Hc Hw) as (_ & _ & _ & _ & _ & _ & Hok & _).
Qed.

Lemma worker_not_fault st i w :
  sys_ok (dev := dev) st -> workers st !! i = Some w -> forall e, w_pc w <> W_fault e.
Proof. intros Hok Hw e E. pose proof (worker_ok_of st i w Hok Hw) as H. by rewrite E in H. Qed.

Lemma history_step seq0 st st' :
  sys_ok st -> history_ok seq0 st -> step st st' -> history_ok seq0 st'.
Proof.
  intros Hok Hh Hstep. destruct Hstep.
  - destruct (reader_effect _ _ _ _ _ _ _ H) as [Hs | (t & q & p & Hq & Hq' & Ht & Hc)];
      [ by eapply history_silent |].
    destruct Hh as (Hf & Hk & He & (n & Hn & Hcnt & Hp)). split_and!; cbn [shared workers] in *.
    + by eapply fifo_push.
    + done.
    + rewrite Ht. apply Forall_app. split; [ done |]. by repeat constructor.
    + exists n. rewrite Hc, Ht. unfold sent_numbers. rewrite omap_app. cbn. by rewrite app_nil_r.
  - destruct Hh as (Hf & Hk & He & Hn). cbn [shared workers] in *.
    destruct (channels s !! i) as [c |] eqn:Hc; [| unfold worker_step in H0; by rewrite Hc in H0 ].
    pose proof (worker_not_fault _ i w Hok H) as Hnf. pose proof (worker_ok_of _ i w Hok H) as Hwok.
    destruct (worker_keeps _ _ _ _ _ _ _ (proj2 (proj2 (proj2 Hgarbage))) Hwok H0 (Forall_lookup_1 _ _ _ _ Hk H) He) as [Hk' He'].
    split_and!; cbn [shared workers]; [ | by apply Forall_insert | done |].
    + eapply fifo_worker; try done. by eapply worker_effect.
    + eapply number_worker; try done. apply Hgarbage.
  - eapply history_silent; [ by eapply main_effect | done ].
  - eapply history_silent; [ by eapply request_effect | done ].
  - eapply history_silent; [ by eapply silent_channel | done ].
  - eapply history_silent; [ by eapply silent_channel | done ].
Qed.

Lemma initial_history path seq0 f settings :
  0 <= seq0 < 256 -> history_ok seq0 (initial (dev := dev) path seq0 f settings).
Proof.
  intros Hs. split_and!; cbn [shared workers initial].
  - intros i q w Hq Hw _. apply lookup_replicate in Hw as [-> _]. unfold queues in Hq.
    rewrite list_lookup_fmap in Hq. cbn in *. rewrite list_lookup_fmap in Hq.
    destruct (settings !! i) as [[e r] |]; [| done ]. by injection Hq as <-.
  - apply Forall_replicate. done.
  - constructor.
  - exists 0. split_and!; [ done | | done ]. unfold u8. rewrite Z.add_0_r, Z.mod_small; [ done | lia ].
Qed.

Lemma reachable_history path seq0 f settings st :
  settings_ok settings -> fec_ready 0 f -> 0 <= seq0 < 256 ->
  rtc step (initial path seq0 f settings) st -> sys_ok st /\ history_ok seq0 st.
Proof.
  intros Hset Hf Hs Hr. destruct Hgarbage as (Hmg & Hbg & Hig & Hsg).
  assert (forall st0, rtc step st0 st -> sys_ok st0 -> history_ok seq0 st0 -> sys_ok st /\ history_ok seq0 st).
  { clear Hr. intros st0 Hr. induction Hr as [| x y z Hxy _ IH ]; [ done |]. intros Hok Hh. apply IH.
    - by eapply (sys_step_ok mask_garbage buf_garbage input_garbage send_garbage sample Hmg Hbg Hig Hsg).
    - by eapply history_step. }
  apply (H _ Hr); [ by apply initial_ok | by apply initial_history ].
Qed.

End History.

(** ** Schedules *)

(** Running the threads in a given order. *)
Inductive choice : Type := CReader | CWorker (i : nat) | CMain | CRequest (r : request).

Section Schedule.
Context {mode : CheckMode} {dev : Type} {D : Device dev}.
Variable mask_garbage buf_garbage input_garbage send_garbage : list Z.
Variable sample : nat -> nat -> double.

Definition choose (ch : choice) (st : Sys (dev := dev)) : option Sys :=
  let '(mkSys s rd wk m) := st in
  match ch with
  | CReader => '(rd', s') ← reader_step mask_garbage buf_garbage input_garbage rd s; Some (mkSys s' rd' wk m)
  | CWorker i =>
      w ← wk !! i; '(w', s') ← worker_step send_garbage sample i w s; Some (mkSys s' rd (<[i := w']> wk) m)
  | CMain => '(m', s') ← main_step m rd wk s; Some (mkSys s' rd wk m')
  | CRequest r =>
      match m with
      | M_idle => '(m', s') ← main_request r s; Some (mkSys s' rd wk m')
      | _ => None
      end
  end.

Fixpoint schedule (l : list choice) (st : Sys) : option Sys :=
  match l with [] => Some st | ch :: l => st ← choose ch st; schedule l st end.

Lemma choose_sound ch st st' :
  choose ch st = Some st' -> sys_step mask_garbage buf_garbage input_garbage send_garbage sample st st'.
Proof.
  destruct st as [s rd wk m]. destruct ch; cbn [choose]; intros H.
  - destruct (reader_step _ _ _ _ _) as [[rd' s'] |] eqn:E; [| done ]. injection H as <-. by constructor.
  - destruct (wk !! i) as [w |] eqn:Hw; [| done ]. cbn [mbind option_bind] in H.
    destruct (worker_step _ _ _ _ _) as [[w' s'] |] eqn:E; [| done ]. injection H as <-. by econstructor.
  - destruct (main_step _ _ _ _) as [[m' s'] |] eqn:E; [| done ]. injection H as <-. by constructor.
  - destruct m; try done. destruct (main_request _ _) as [[m' s'] |] eqn:E; [| done ]. injection H as <-.
    by econstructor.
Qed.

Lemma schedule_sound l st st' :
  schedule l st = Some st' ->
  rtc (sys_step mask_garbage buf_garbage input_garbage send_garbage sample) st st'.
Proof.
  revert st. induction l as [| ch l IH ]; cbn [schedule]; intros st H; [ by simplify_eq |].
  destruct (choose ch st) as [st1 |] eqn:E; [| done ]. eapply rtc_l; [ by apply choose_sound with ch | auto ].
Qed.

End Schedule.

(** The reader queues the first packet on channel 0 and its worker sends it. *)
Definition sample_schedule : list choice := replicate 10 CReader ++ replicate 15 (CWorker 0).
Definition sample_sent : Sys (dev := list Z) :=
  match @schedule true (list Z) (list_device sample_files) (replicate 288 1) (replicate 2000 2)
          (replicate 2000 3) (replicate 2000 4) (fun _ _ => double_zero) sample_schedule sample_initial with
  | Some st => st
  | None => sample_initial
  end.

Lemma sample_sent_reachable : rtc sample_step sample_initial sample_sent.
Proof.
  unfold sample_sent. destruct (schedule _ _ _ _ _ _ _) as [st |] eqn:E; [| done ].
  by apply schedule_sound in E.
Qed.

(** ** Theorems *)

(** C13. Each channel is a queue that neither loses, duplicates nor reorders
    packets, under every interleaving: in every reachable state the packets the
    reader has pushed on it are those its worker has sent, dropped by the loss
    simulation or abandoned at a stop, followed by the one it holds, followed by
    those still queued. *)
Theorem channel_fifo {dev} (mode : CheckMode) (D : Device dev) (RF : RegularFile dev)
    mg bg ig sg sample path seq0 f settings st i c w :
  garbage_ok mg bg ig sg -> settings_ok settings -> fec_ready 0 f -> 0 <= seq0 < 256 ->
  rtc (sys_step mg bg ig sg sample) (initial path seq0 f settings) st ->
  channels (shared st) !! i = Some c -> workers st !! i = Some w ->
  pushed i (trace (shared st)) =
    finished i (trace (shared st)) ++ in_hand (w_pc w) ++ map unnumbered (packetQueue c).
Proof.
  intros Hg Hset Hf Hs Hr Hc Hw.
  destruct (reachable_history mg bg ig sg sample Hg path seq0 f settings st Hset Hf Hs Hr) as (Hok & Hfifo & _).
  apply Hfifo; [ by apply lookup_queues | done | by eapply worker_not_fault ].
Qed.

Lemma channel_fifo_witness :
  length (finished 0 (trace (shared sample_sent))) = 1%nat /\
  pushed 0 (trace (shared sample_sent)) =
    finished 0 (trace (shared sample_sent)) ++ in_hand W_loop ++ map unnumbered [].
Proof.
  split; [ vm_compute; reflexivity |].
  apply (channel_fifo true (list_device sample_files) (list_regular sample_files)
    (replicate 288 1) (replicate 2000 2) (replicate 2000 3) (replicate 2000 4) (fun _ _ => double_zero)
    "video.ts" 0 (ForwardErrorCorrection_new (replicate 288 0) 0) sample_settings sample_sent 0
    (initial_channel 1 double_zero) (mkWorker W_loop 0)
    sample_garbage_ok sample_settings_ok (fec_ready_new (replicate 288 0) 0 eq_refl));
    [ lia | exact sample_sent_reachable | vm_compute; reflexivity | vm_compute; reflexivity ].
Defined.

(** C30. What goes out on socket [i] was queued for channel [i]: every datagram
    recorded as sent is the serialised form of the FEC packet of a packet pushed
    on that channel, followed by its CRC, stream type, channel and number fields
    and, for a short packet, by left-over bytes of the send buffer. *)
Theorem wire_integrity {dev} (mode : CheckMode) (D : Device dev) (RF : RegularFile dev)
    mg bg ig sg sample path seq0 f settings st i p bytes :
  garbage_ok mg bg ig sg -> settings_ok settings -> fec_ready 0 f -> 0 <= seq0 < 256 ->
  rtc (sys_step mg bg ig sg sample) (initial path seq0 f settings) st -> (i < 3)%nat ->
  Sent i p bytes ∈ trace (shared st) ->
  exists pk, packet_to_send p = Some pk /\ unnumbered p ∈ pushed i (trace (shared st)) /\
    bytes = packet_bytes pk (actual_payload_size p) ++ trailer p ++
            take (Z.to_nat (1024 - actual_payload_size p))
              (drop (Z.to_nat (actual_payload_size p + 13)) sg).
Proof.
  intros Hg Hset Hf Hs Hr Hi Hin.
  destruct (reachable_history mg bg ig sg sample Hg path seq0 f settings st Hset Hf Hs Hr)
    as (Hok & Hfifo & _ & Hev & _).
  destruct (proj1 (list.Forall_forall _ _) Hev _ Hin) as (pk & Hpk & Hb). exists pk. split_and!; [ done | | done ].
  pose proof Hok as ((Hlc & Hlw & _) & _).
  destruct (lookup_lt_is_Some_2 (channels (shared st)) i) as [c Hc]; [ lia |].
  destruct (lookup_lt_is_Some_2 (workers st) i) as [w Hw]; [ lia |].
  rewrite (Hfifo i _ w (lookup_queues _ _ _ Hc) Hw (worker_not_fault st i w Hok Hw)).
  apply elem_of_app. left. apply list_elem_of_omap. exists (Sent i p bytes). split; [ done |].
  by rewrite decide_True.
Qed.

Lemma wire_integrity_witness :
  exists p bytes, Sent 0 p bytes ∈ trace (shared sample_sent) /\
  exists pk, packet_to_send p = Some pk /\ unnumbered p ∈ pushed 0 (trace (shared sample_sent)) /\
    bytes = packet_bytes pk (actual_payload_size p) ++ trailer p ++
            take (Z.to_nat (1024 - actual_payload_size p))
              (drop (Z.to_nat (actual_payload_size p + 13)) (replicate 2000 4)).
Proof.
  destruct (trace (shared sample_sent) !! 2%nat) as [[] |] eqn:E; try (vm_compute in E; discriminate E).
  assert (channel = 0%nat) as -> by (vm_compute in E; injection E; congruence).
  apply list_elem_of_lookup_2 in E. exists p, bytes. split; [ exact E |].
  apply (wire_integrity true (list_device sample_files) (list_regular sample_files)
    (replicate 288 1) (replicate 2000 2) (replicate 2000 3) (replicate 2000 4) (fun _ _ => double_zero)
    "video.ts" 0 (ForwardErrorCorrection_new (replicate 288 0) 0) sample_settings sample_sent 0 p bytes
    sample_garbage_ok sample_settings_ok (fec_ready_new (replicate 288 0) 0 eq_refl));
    [ lia | exact sample_sent_reachable | lia | exact E ].
Defined.

(** C36. The global counter numbers the datagrams that leave, not the packets: in
    every reachable state the numbers of the datagrams sent, together with those
    of the at most three being assembled, are the first [n] values of the eight-bit counter,
    each used once per round, and the counter holds the next one. A packet
    dropped by the loss simulation takes no number, so a receiver sees no gap
    where it is missing. *)
Theorem sequence_numbers {dev} (mode : CheckMode) (D : Device dev) (RF : RegularFile dev)
    mg bg ig sg sample path seq0 f settings st :
  garbage_ok mg bg ig sg -> settings_ok settings -> fec_ready 0 f -> 0 <= seq0 < 256 ->
  rtc (sys_step mg bg ig sg sample) (initial path seq0 f settings) st ->
  exists n, 0 <= n /\ globalSeqCounter (shared st) = (seq0 + n) mod 256 /\
    sent_numbers (trace (shared st)) ++ pending_numbers (workers st)
      ≡ₚ map (fun j => (seq0 + j) mod 256) (seqZ 0 n).
Proof.
  intros Hg Hset Hf Hs Hr.
  by destruct (reachable_history mg bg ig sg sample Hg path seq0 f settings st Hset Hf Hs Hr)
    as (_ & _ & _ & _ & Hn).
Qed.

Lemma sequence_numbers_witness :
  sent_numbers (trace (shared sample_sent)) = [0] /\
  exists n, 0 <= n /\ globalSeqCounter (shared sample_sent) = (0 + n) mod 256 /\
    sent_numbers (trace (shared sample_sent)) ++ pending_numbers (workers sample_sent)
      ≡ₚ map (fun j => (0 + j) mod 256) (seqZ 0 n).
Proof.
  split; [ vm_compute; reflexivity |].
  apply (sequence_numbers true (list_device sample_files) (list_regular sample_files)
    (replicate 288 1) (replicate 2000 2) (replicate 2000 3) (replicate 2000 4) (fun _ _ => double_zero)
    "video.ts" 0 (ForwardErrorCorrection_new (replicate 288 0) 0) sample_settings sample_sent
    sample_garbage_ok sample_settings_ok (fec_ready_new (replicate 288 0) 0 eq_refl));
    [ lia | exact sample_sent_reachable ].
Defined.
