(* ===== verification/ReaderRun.v ===== *)
(** * The reader on a regular file

    [Udpserver::fileReaderTask] from its main loop to its end, while no other
    thread changes the settings: which packets it queues on which channel. The
    file comes through unharmed: it is cut into chunks of 1009 bytes, each chunk
    travels behind its 15-byte header in one source packet, and the chunks go
    round the enabled channels. *)
From S2P Require Import Prelude.
From S2P Require Import MaskTable.
From S2P Require Import Packet.
From S2P Require Import Encoder.
From S2P Require Import EncoderFacts.
From S2P Require Import Channel.
From S2P Require Import Worker.
From S2P Require Import System.
From S2P Require Import SystemInv.
From S2P Require Import Threads.
From stdpp Require Import base list list_numbers numbers option strings relations tactics.
From Stdlib Require Import ZArith Lia.

#[local] Open Scope Z_scope.

(** ** Specification *)

(** The file in chunks of [readChunkSize] bytes; [fuel] bounds their number. *)
Fixpoint chunks (fuel : nat) (bytes : list Z) : list (list Z) :=
  match fuel, bytes with
  | O, _ | _, [] => []
  | S fuel, _ => take 1009 bytes :: chunks fuel (drop 1009 bytes)
  end.

(** The first enabled channel from [cur] on, going round. *)
Definition next_enabled (en : list Z) (cur : Z) : option nat :=
  let at_ d := Z.to_nat ((cur + d) mod 3) in
  if bool_decide (en !! at_ 0 = Some 1) then Some (at_ 0)
  else if bool_decide (en !! at_ 1 = Some 1) then Some (at_ 1)
  else if bool_decide (en !! at_ 2 = Some 1) then Some (at_ 2)
  else None.

(** The header in front of every chunk. *)
Definition flight_header : list Z := [0; 0; 0; 0; 1; 1; 0; 0; 0; 1; 6; 1; 1; 0xF1; 0x03].

(** What a packet carries for a chunk: header, chunk, zeros. *)
Definition frame (chunk : list Z) : list Z :=
  flight_header ++ chunk ++ replicate (1985 - length chunk) 0.

(** The packets queued for the chunks, with their channels. [pend] and [g] are
    the payloads of the open group and its number. *)
Fixpoint reader_spec (en : list Z) (cur : Z) (pend : list (list Z)) (g : Z) (cs : list (list Z))
    : list (nat * SendPacket) :=
  match cs with
  | [] => []
  | c :: cs =>
      match next_enabled en cur with
      | None => []
      | Some t =>
          let s := spec_step fec_k fec_r (frame c) (mkSpec pend g []) in
          map (fun pk => (t, make_send_packet pk (Z.of_nat t) (15 + Z.of_nat (length c)))) (produced s)
          ++ reader_spec en (Z.of_nat (S t) mod 3) (pending s) (group s) cs
      end
  end.

(** ** Data *)

Lemma flightpkt_bytes l :
  length l = Z.to_nat kMaxDataSize -> videoStruct_bytes (flightpkt_of l) = flight_header ++ take 1009 l.
Proof. reflexivity. Qed.

(** A chunk written at the start of [data_buf] is stored as its frame. *)
Lemma stored_frame buf l c :
  (0 < length c <= 1009)%nat -> length l = Z.to_nat kMaxDataSize ->
  take (Z.to_nat (15 + Z.of_nat (length c))) buf =
    take (Z.to_nat (15 + Z.of_nat (length c))) (videoStruct_bytes (flightpkt_of (blit 0 c l))) ->
  stored 1024 (15 + Z.of_nat (length c)) buf = frame c.
Proof.
  intros Hc Hl Hbuf. unfold stored, frame, kMaxDataSize in *.
  rewrite Z.min_l, Hbuf, flightpkt_bytes by (rewrite ?length_blit; unfold kMaxDataSize; lia).
  replace (Z.to_nat (15 + Z.of_nat (length c))) with (15 + length c)%nat by lia.
  rewrite (take_app_add' flight_header) by done.
  rewrite take_take, Nat.min_l, take_blit_0 by lia.
  rewrite <- app_assoc. do 3 f_equal. lia.
Qed.

(** ** Choosing a channel *)

Lemma next_enabled_lt en cur t : next_enabled en cur = Some t -> (t < 3)%nat.
Proof.
  unfold next_enabled. pose proof (Z.mod_pos_bound (cur + 0) 3). pose proof (Z.mod_pos_bound (cur + 1) 3).
  pose proof (Z.mod_pos_bound (cur + 2) 3). repeat case_bool_decide; intros [= <-]; lia.
Qed.

Lemma next_enabled_total en cur :
  length en = 3%nat -> 1 ∈ en -> 0 <= cur <= 2 -> exists t, next_enabled en cur = Some t.
Proof.
  intros Hl Hin Hcur. destruct en as [| a [| b [| c [|]]]]; try discriminate Hl.
  assert (Hone : a = 1 \/ b = 1 \/ c = 1).
  { rewrite !elem_of_cons, elem_of_nil in Hin. destruct Hin as [ | [ | [ | [] ]]]; auto. }
  assert (Hc : cur = 0 \/ cur = 1 \/ cur = 2) by lia. unfold next_enabled.
  destruct Hc as [-> | [-> | ->]];
    repeat match goal with |- context [Z.to_nat ?x] =>
      let v := eval vm_compute in (Z.to_nat x) in change (Z.to_nat x) with v end;
    cbn [lookup list_lookup]; repeat case_bool_decide; eauto; exfalso;
    destruct Hone as [-> | [-> | ->]]; congruence.
Qed.

(** ** The run *)

Section Run.
Context {mode : CheckMode} {dev : Type} {D : Device dev} {RF : RegularFile dev}.
Variable mask_garbage buf_garbage input_garbage : list Z.
Hypothesis Hmg : length mask_garbage = 288%nat.
Hypothesis Hig : length input_garbage = 2000%nat.

(** One step of the reader while the others rest. *)
Definition reader_moves (x y : Rpc dev * Shared) : Prop :=
  reader_step mask_garbage buf_garbage input_garbage (fst x) (snd x) = Some y.

(** Nobody else is in a critical section, and sending is on. *)
Definition quiet (en : list Z) (s : Shared) : Prop :=
  is_running s = true /\ map enabled (channels s) = en /\
  Forall (fun c => queueMutex c = None) (channels s).

Lemma quiet_lookup en s t :
  quiet en s -> (t < length en)%nat -> exists c, channels s !! t = Some c /\ queueMutex c = None.
Proof.
  intros (_ & He & Hm) Ht. rewrite <- He, length_map in Ht.
  destruct (lookup_lt_is_Some_2 (channels s) t Ht) as [c Hc]. exists c. split; [ done |].
  exact (Forall_lookup_1 _ _ _ _ Hm Hc).
Qed.

Lemma quiet_channel en s t c c' :
  quiet en s -> channels s !! t = Some c -> enabled c' = enabled c -> queueMutex c' = None ->
  quiet en (with_channel t c' s).
Proof.
  intros (Hr & He & Hm) Hc Hen Hq. split_and!; [ done | | by apply Forall_insert ].
  cbn. rewrite list_fmap_insert, Hen, list_insert_id; [ done |]. by rewrite list_lookup_fmap, Hc.
Qed.

(** What a stretch of the run leaves as it was. *)
Definition follows (en : list Z) (pushes : list (nat * SendPacket)) (s s' : Shared) : Prop :=
  quiet en s' /\ trace s' = trace s ++ map (fun '(t, p) => Pushed t p) pushes /\
  currentSocket s' = currentSocket s.

Lemma push_one en s l t sz p :
  quiet en s -> (t < length en)%nat ->
  exists s', rtc reader_moves (R_lock l t sz p, s) (R_drain l t sz, s') /\
    follows en [(t, p)] s s' /\ fec s' = fec s.
Proof.
  intros Hq Ht. destruct (quiet_lookup en s t Hq Ht) as (c & Hc & Hfree).
  pose proof (lookup_lt_Some _ _ _ Hc) as Hlt.
  set (c1 := with_queueMutex (Some TReader) c). set (s1 := with_channel t c1 s).
  assert (Hc1 : channels s1 !! t = Some c1) by (by apply list_lookup_insert_eq).
  set (c2 := with_queueMutex None (with_queue (packetQueue c1 ++ [p]) c1)).
  set (s2 := emit (Pushed t p) (with_channel t c2 s1)).
  assert (Hc2 : channels s2 !! t = Some c2)
    by (apply list_lookup_insert_eq; cbn; by rewrite length_insert).
  exists (with_channel t (with_queueCondition false c2) s2). split_and!; [| | done ].
  - apply (rtc_l _ _ (R_push l t sz p, s1)).
    { unfold reader_moves. cbn [reader_step fst snd]. by rewrite Hc; cbn [mbind option_bind]; rewrite Hfree. }
    apply (rtc_l _ _ (R_wake l t sz, s2)).
    { unfold reader_moves. cbn [reader_step fst snd]. by rewrite Hc1. }
    apply rtc_once. unfold reader_moves. cbn [reader_step fst snd]. by rewrite Hc2.
  - split_and!; [| done | done ].
    unfold s2, s1, with_channel, emit. cbn. rewrite !list_insert_insert_eq.
    exact (quiet_channel en s t c (with_queueCondition false c2) Hq Hc eq_refl eq_refl).
Qed.

Lemma drain_all en l t sz pks s :
  quiet en s -> (t < length en)%nat -> buffer_packets (fec s) = pks ->
  exists s', rtc reader_moves (R_drain l t sz, s) (R_while l, s') /\
    follows en (map (fun pk => (t, make_send_packet pk (Z.of_nat t) sz)) pks) s s' /\
    fec s' = set_buffer [] (fec s).
Proof.
  revert s. induction pks as [| pk pks IH ]; intros s Hq Ht Hb.
  - exists s. split_and!.
    + apply rtc_once. unfold reader_moves. cbn [reader_step fst snd]. by rewrite Hb.
    + split_and!; [ done | by rewrite app_nil_r | done ].
    + rewrite <- Hb. by destruct (fec s).
  - set (s1 := with_fec (set_buffer pks (fec s)) s).
    destruct (push_one en s1 l t sz (make_send_packet pk (Z.of_nat t) sz) Hq Ht)
      as (s2 & Hr2 & (Hq2 & Ht2 & Hc2) & Hf2).
    destruct (IH s2 Hq2 Ht ltac:(by rewrite Hf2)) as (s3 & Hr3 & (Hq3 & Ht3 & Hc3) & Hf3).
    exists s3. split_and!.
    + eapply rtc_l; [| etransitivity; [ exact Hr2 | exact Hr3 ] ].
      unfold reader_moves. cbn [reader_step fst snd]. by rewrite Hb.
    + split_and!; [ done | | by rewrite Hc3, Hc2 ]. rewrite Ht3, Ht2, <- app_assoc. done.
    + by rewrite Hf3, Hf2.
Qed.

Lemma search_turn en s l start a :
  quiet en s -> length en = 3%nat -> 0 <= start <= 10 -> 0 <= a < 3 ->
  let t := Z.to_nat (start mod 3) in
  rtc reader_moves (R_search l start a, s)
    (if bool_decide (en !! t = Some 1)
     then (R_read l t, with_currentSocket (Z.of_nat (S t) mod 3) s)
     else (R_search l (start + 1) (a + 1), s)).
Proof.
  intros Hq Hl Hs Ha t. pose proof Hq as (Hr & He & _).
  pose proof (Z.mod_pos_bound start 3 ltac:(lia)) as Hm.
  destruct (quiet_lookup en s t Hq ltac:(lia)) as (c & Hc & _).
  assert (Het : en !! t = Some (enabled c)) by (by rewrite <- He, list_lookup_fmap, Hc).
  eapply (rtc_l _ _ (R_test l start a, s)).
  { unfold reader_moves, SOCKET_POOL_SIZE. cbn [reader_step fst snd].
    by rewrite (proj2 (Z.ltb_lt _ _)), Hr by (unfold SOCKET_POOL_SIZE; lia). }
  apply rtc_once. unfold reader_moves. cbn [reader_step fst snd]. unfold SOCKET_POOL_SIZE.
  rewrite Z.rem_mod_nonneg by lia. fold t. rewrite Hc, Het. cbn [mbind option_bind].
  destruct (Z.eqb_spec (enabled c) 1) as [E | E].
  - rewrite bool_decide_true by congruence. do 3 f_equal. rewrite Z.rem_mod_nonneg by lia. f_equal. lia.
  - rewrite bool_decide_false by congruence. rewrite i32_id by lia. done.
Qed.

Lemma search_finds en s l t :
  quiet en s -> length en = 3%nat -> 0 <= currentSocket s <= 2 ->
  next_enabled en (currentSocket s) = Some t ->
  rtc reader_moves (R_search l (currentSocket s) 0, s)
    (R_read l t, with_currentSocket (Z.of_nat (S t) mod 3) s).
Proof.
  intros Hq Hl Hcur. unfold next_enabled. rewrite Z.add_0_r.
  pose proof (search_turn en s l (currentSocket s) 0 Hq Hl ltac:(lia) ltac:(lia)) as H0.
  pose proof (search_turn en s l (currentSocket s + 1) 1 Hq Hl ltac:(lia) ltac:(lia)) as H1.
  pose proof (search_turn en s l (currentSocket s + 1 + 1) 2 Hq Hl ltac:(lia) ltac:(lia)) as H2.
  cbn zeta in *. rewrite <- Z.add_assoc in H2. change (1 + 1) with 2 in H2.
  destruct (bool_decide (en !! Z.to_nat (currentSocket s mod 3) = Some 1)); [ by intros [= <-] |].
  etransitivity; [ exact H0 |]. change (0 + 1) with 1.
  destruct (bool_decide (en !! Z.to_nat ((currentSocket s + 1) mod 3) = Some 1)); [ by injection H as <- |].
  etransitivity; [ exact H1 |]. rewrite <- Z.add_assoc. change (1 + 1) with 2.
  destruct (bool_decide (en !! Z.to_nat ((currentSocket s + 2) mod 3) = Some 1)); [ by injection H as <- | done ].
Qed.


(** The encoder between two chunks: payloads of the open group, its number, and
    the packet size is 1024 or will be with the next [n] bytes. *)
Definition encoder_at (pend : list (list Z)) (g : Z) (f : ForwardErrorCorrection) : Prop :=
  fec_inv fec_k f /\ represents f (mkSpec pend g []).
Definition sized (n : nat) (f : ForwardErrorCorrection) : Prop := size_after f (15 + Z.of_nat n) = 1024.

Lemma encode_frame l c pend g f :
  length l = Z.to_nat kMaxDataSize -> (0 < length c <= 1009)%nat -> encoder_at pend g f -> sized (length c) f ->
  let sp := spec_step fec_k fec_r (frame c) (mkSpec pend g []) in
  exists f', encode_chunk mask_garbage input_garbage (blit 0 c l) (Z.of_nat (length c)) f
      = Ok (f', 15 + Z.of_nat (length c)) /\
    buffer_packets f' = produced sp /\ encoder_at (pending sp) (group sp) (set_buffer [] f') /\
    (forall n, sized n (set_buffer [] f')).
Proof.
  intros Hl Hc (Hinv & HR) Hsz sp. unfold encode_chunk, sized in *.
  assert (Hl' : length (blit 0 c l) = Z.to_nat kMaxDataSize)
    by (rewrite length_blit; unfold kMaxDataSize in *; lia).
  destruct (fec_input_Ok input_garbage (blit 0 c l) (Z.of_nat (length c)) Hig Hl' ltac:(lia))
    as (buf & HI & Hb & Htake).
  rewrite HI, bind_Ok, i32_id by lia.
  destruct (PacketByFEC_simulates (mode := mode) mask_garbage f _ buf (15 + Z.of_nat (length c)) fec_k fec_r Hmg
    ltac:(unfold fec_k, fec_r; lia) ltac:(unfold fec_k; lia) ltac:(unfold fec_k; lia) Hinv HR
    ltac:(unfold kMaxDataSize; lia) ltac:(lia)) as (f' & b' & HP & Hinv' & HR' & Hfirst & Hps).
  rewrite Hsz, (stored_frame buf l c Hc Hl Htake) in HR'. fold sp in HR'. destruct HR' as (Hp & Hg & HB).
  exists f'. rewrite HP, bind_Ok. split_and!; [ done | done | by split_and! |].
  intros n. unfold size_after. cbn. by rewrite Hfirst, Hps, Hsz.
Qed.

Lemma one_chunk en s l t c rest pend g :
  let sp := spec_step fec_k fec_r (frame c) (mkSpec pend g []) in
  quiet en s -> length en = 3%nat -> 0 <= currentSocket s <= 2 ->
  next_enabled en (currentSocket s) = Some t -> length (data_buf l) = Z.to_nat kMaxDataSize ->
  dev_rest (file l) = c ++ rest -> c = take 1009 (c ++ rest) -> c <> [] ->
  encoder_at pend g (fec s) -> sized (length c) (fec s) ->
  exists l' s', rtc reader_moves (R_while l, s) (R_while l', s') /\
    length (data_buf l') = Z.to_nat kMaxDataSize /\ dev_rest (file l') = rest /\
    quiet en s' /\ currentSocket s' = Z.of_nat (S t) mod 3 /\
    trace s' = trace s ++ map (fun pk => Pushed t (make_send_packet pk (Z.of_nat t) (15 + Z.of_nat (length c))))
                            (produced sp) /\
    encoder_at (pending sp) (group sp) (fec s') /\ (forall n, sized n (fec s')).
Proof.
  intros sp Hq Hen Hcur Hn Hl Hrest Hc Hne Henc Hsz. pose proof Hq as (Hrun & _).
  assert (Hlen : (0 < length c <= 1009)%nat).
  { destruct c; [ done |]. rewrite Hc, length_take. cbn [length app]. lia. }
  assert (Hdrop : drop 1009 (c ++ rest) = rest).
  { apply (app_inv_head c). rewrite Hc at 1. by rewrite take_drop. }
  destruct (dev_read_spec (file l) readChunkSize ltac:(done)) as (d' & Hread & Hrest').
  change (Z.to_nat readChunkSize) with 1009%nat in Hread, Hrest'.
  rewrite Hrest, Hdrop in Hrest'. rewrite Hrest, <- Hc in Hread.
  destruct (encode_frame (data_buf l) c pend g (fec s) Hl Hlen Henc Hsz) as (f' & HE & HB & Henc' & Hsz').
  set (s1 := with_currentSocket (Z.of_nat (S t) mod 3) s). set (l' := mkRloc d' (blit 0 c (data_buf l))).
  destruct (drain_all en l' t (15 + Z.of_nat (length c)) (produced sp) (with_fec f' s1))
    as (s2 & Hr2 & (Hq2 & Ht2 & Hc2) & Hf2);
    [ exact Hq | rewrite Hen; by eapply next_enabled_lt | exact HB |].
  exists l', s2. split_and!; try done.
  - apply (rtc_l _ _ (R_search l (currentSocket s) 0, s)).
    { unfold reader_moves. cbn [reader_step fst snd]. rewrite Hrun, dev_atEnd_spec, Hrest.
      rewrite bool_decide_false by (by destruct c). done. }
    etransitivity; [ by apply (search_finds en) |].
    eapply rtc_l; [| exact Hr2 ]. unfold reader_moves. cbn [reader_step fst snd]. rewrite Hread.
    change (fec (with_currentSocket _ s)) with (fec s). rewrite HE. by destruct c.
  - cbn. rewrite length_blit; [ done | unfold kMaxDataSize in *; lia ].
  - rewrite Ht2, map_map. done.
  - by rewrite Hf2.
  - intros n. rewrite Hf2. apply Hsz'.
Qed.

Lemma reader_runs en fuel : forall bytes s l pend g,
  (length bytes <= fuel)%nat -> dev_rest (file l) = bytes -> quiet en s -> length en = 3%nat -> 1 ∈ en ->
  0 <= currentSocket s <= 2 -> length (data_buf l) = Z.to_nat kMaxDataSize ->
  encoder_at pend g (fec s) -> (bytes <> [] -> sized (length (take 1009 bytes)) (fec s)) ->
  exists s', rtc reader_moves (R_while l, s) (R_done, s') /\ quiet en s' /\
    trace s' = trace s ++ map (fun '(t, p) => Pushed t p)
                            (reader_spec en (currentSocket s) pend g (chunks fuel bytes)).
Proof.
  induction fuel as [| fuel IH ]; intros bytes s l pend g Hfuel Hrest Hq Hen Hone Hcur Hl Henc Hsz;
    (destruct (decide (bytes = [])) as [-> | Hne];
     [ exists s; pose proof Hq as (Hrun & _); split_and!;
       [ apply rtc_once; unfold reader_moves; cbn [reader_step fst snd];
         by rewrite Hrun, dev_atEnd_spec, bool_decide_true by done
       | done | by rewrite app_nil_r ] |]).
  { destruct bytes; cbn in *; [ done | lia ]. }
  destruct (next_enabled_total en (currentSocket s) Hen Hone Hcur) as (t & Hn).
  assert (Hc : take 1009 bytes <> []) by (by destruct bytes).
  destruct (one_chunk en s l t (take 1009 bytes) (drop 1009 bytes) pend g Hq Hen Hcur Hn Hl
    ltac:(by rewrite take_drop) ltac:(by rewrite take_drop) Hc Henc (Hsz Hne))
    as (l1 & s1 & Hr1 & Hl1 & Hrest1 & Hq1 & Hcur1 & Ht1 & Henc1 & Hsz1).
  assert (Hb1 : 0 <= currentSocket s1 <= 2).
  { rewrite Hcur1. pose proof (Z.mod_pos_bound (Z.of_nat (S t)) 3). lia. }
  destruct (IH (drop 1009 bytes) s1 l1 _ _ ltac:(rewrite length_drop; destruct bytes; [ done | cbn in *; lia ])
    Hrest1 Hq1 Hen Hone Hb1 Hl1 Henc1 (fun _ => Hsz1 _)) as (s2 & Hr2 & Hq2 & Ht2).
  exists s2. split_and!; [ by etransitivity | done |].
  rewrite Ht2, Ht1, Hcur1. destruct bytes as [| b bytes ]; [ done |].
  cbn [chunks reader_spec]. rewrite Hn, map_app, map_map, <- app_assoc. done.
Qed.

(** From the start of the task. *)
Lemma task_runs en path d bytes s pend g :
  length buf_garbage = Z.to_nat kMaxDataSize ->
  currentFilePath s = path -> path <> EmptyString -> dev_open path = Some d -> dev_rest d = bytes ->
  quiet en s -> length en = 3%nat -> 1 ∈ en -> 0 <= currentSocket s <= 2 ->
  encoder_at pend g (fec s) -> (bytes <> [] -> sized (length (take 1009 bytes)) (fec s)) ->
  exists s', rtc reader_moves (R_start, s) (R_done, s') /\ quiet en s' /\
    trace s' = trace s ++ map (fun '(t, p) => Pushed t p)
                            (reader_spec en (currentSocket s) pend g (chunks (length bytes) bytes)).
Proof.
  intros Hbg Hpath Hne Hopen Hrest Hq Hen Hone Hcur Henc Hsz.
  destruct (reader_runs en (length bytes) bytes s (mkRloc d buf_garbage) pend g) as (s' & Hr & Hq' & Ht); try done.
  exists s'. split_and!; [| done | done ].
  apply (rtc_l _ _ (R_open path, s)).
  { unfold reader_moves. cbn [reader_step fst snd]. rewrite Hpath. by rewrite bool_decide_false. }
  eapply rtc_l; [| exact Hr ]. unfold reader_moves. cbn [reader_step fst snd]. by rewrite Hopen.
Qed.

End Run.

(** ** Reading the file back *)

(** The part of the file a queued packet carries: none for a FEC packet. *)
Definition carried (p : SendPacket) : list Z :=
  match packet_to_send p with
  | Some pk =>
      if p_sequence_number pk <? p_k pk
      then take (Z.to_nat (actual_payload_size p - flightpkt_header_size))
             (drop (Z.to_nat flightpkt_header_size) (p_data pk))
      else []
  | None => []
  end.

Definition reassemble (tr : list event) : list Z :=
  concat (map (fun e => match e with Pushed _ p => carried p | _ => [] end) tr).

Lemma chunks_concat fuel bytes : (length bytes <= fuel)%nat -> concat (chunks fuel bytes) = bytes.
Proof.
  revert bytes. induction fuel as [| fuel IH ]; intros [| b bytes ] Hl; try done; [ cbn in Hl; lia |].
  cbn [chunks concat]. rewrite IH; [ by rewrite take_drop |].
  rewrite length_drop. cbn [length] in *. lia.
Qed.

Lemma chunks_lengths fuel bytes : Forall (fun c => length c <= 1009)%nat (chunks fuel bytes).
Proof.
  revert bytes. induction fuel as [| fuel IH ]; intros [| b bytes ]; try constructor; [| apply IH ].
  rewrite length_take. lia.
Qed.

Lemma carried_source c t g n :
  (length c <= 1009)%nat -> 0 <= n < fec_k ->
  carried (make_send_packet (source_spec g n fec_k fec_r (frame c)) t (15 + Z.of_nat (length c))) = c.
Proof.
  intros Hc Hn. unfold carried, make_send_packet, source_spec, flightpkt_header_size, fec_k in *.
  cbn [packet_to_send p_sequence_number p_k p_data actual_payload_size].
  rewrite (proj2 (Z.ltb_lt _ _)) by (unfold u8; rewrite !Z.mod_small; lia).
  replace (Z.to_nat (15 + Z.of_nat (length c) - 15)) with (length c) by lia.
  change (Z.to_nat 15) with (length flight_header). unfold frame.
  by rewrite drop_app_length, take_app_length.
Qed.

Lemma carried_fec ty ds t g i sz :
  0 <= i < fec_r -> carried (make_send_packet (fec_spec ty g fec_k fec_r ds i) t sz) = [].
Proof.
  intros Hi. unfold carried, make_send_packet, fec_spec, fec_k, fec_r in *.
  cbn [packet_to_send p_sequence_number p_k].
  rewrite (proj2 (Z.ltb_ge _ _)); [ done |]. unfold u8. rewrite !Z.mod_small; lia.
Qed.

(** One step of the abstract encoder carries its chunk once. *)
Lemma carried_step c pend g t :
  (length c <= 1009)%nat -> Z.of_nat (length pend) < fec_k ->
  concat (map (fun pk => carried (make_send_packet pk t (15 + Z.of_nat (length c))))
    (produced (spec_step fec_k fec_r (frame c) (mkSpec pend g [])))) = c.
Proof.
  intros Hc Hp. unfold spec_step. cbn [pending group produced app].
  destruct (_ =? fec_k); cbn [produced map concat];
    rewrite carried_source by lia; [| apply app_nil_r ].
  rewrite map_map. change (seqZ 0 fec_r) with [0; 1]. cbn [map concat].
  rewrite !carried_fec by (unfold fec_r; lia). by rewrite !app_nil_r.
Qed.

Lemma reassemble_spec en cs : forall cur pend g,
  length en = 3%nat -> 1 ∈ en -> 0 <= cur <= 2 -> Z.of_nat (length pend) < fec_k ->
  Forall (fun c => length c <= 1009)%nat cs ->
  reassemble (map (fun '(t, p) => Pushed t p) (reader_spec en cur pend g cs)) = concat cs.
Proof.
  induction cs as [| c cs IH ]; intros cur pend g Hen Hone Hcur Hp Hcs; [ done |].
  apply Forall_cons_1 in Hcs as [Hc Hcs].
  destruct (next_enabled_total en cur Hen Hone Hcur) as (t & Hn). cbn [reader_spec concat]. rewrite Hn.
  unfold reassemble in *. rewrite map_app, map_app, concat_app, IH; try done.
  - rewrite !map_map. f_equal. by apply carried_step.
  - pose proof (Z.mod_pos_bound (Z.of_nat (S t)) 3). lia.
  - destruct (spec_step_length fec_k fec_r (frame c) (mkSpec pend g [])) as [-> _]; [ done | done |].
    apply Z.mod_pos_bound. done.
Qed.

(** ** Theorems *)

(** What a session starts the reader with: settings that rest, and an encoder
    between two packets, whose packet size is or becomes 1024. *)
Definition ready_to_read (en : list Z) (bytes : list Z) (pend : list (list Z)) (g : Z) (s : Shared) : Prop :=
  quiet en s /\ length en = 3%nat /\ 1 ∈ en /\ 0 <= currentSocket s <= 2 /\
  encoder_at pend g (fec s) /\ (bytes <> [] -> sized (length (take 1009 bytes)) (fec s)).



Lemma sample_ready :
  ready_to_read [1; 0; 1] (replicate 3000 65) [] 0 (shared sample_initial).
Proof.
  split; [ split_and!; [ done | done | by repeat apply Forall_cons_2 ] |].
  split_and!; [ done | apply list_elem_of_here | done | done | | done ].
  split; [ by apply fec_inv_new | done ].
Qed.



(** ** Deviations *)

(** [memcpy(flightpkt.videoData, data_buf, sizeof(data_buf))] as it is written:
    the destination is the member of 1009 bytes. *)
Definition fill_videoData (videoData data_buf : list Z) : outcome (list Z) :=
  memcpy videoData 0 data_buf 0 (Z.of_nat (length data_buf)).

(** The pause of the comment, 3 Mbps. *)
Definition documented_pause_us (bytesRead : Z) : Z := Z.quot (bytesRead * 8 * 1000000) 3000000.

(** The copy into [videoData] leaves the array on every packet: it moves the
    2000 bytes of [data_buf] into a member of 1009. *)
Theorem videoData_overrun videoData data_buf :
  length videoData = 1009%nat -> length data_buf = Z.to_nat kMaxDataSize ->
  fill_videoData videoData data_buf = Fail OutOfBounds.
Proof.
  intros Hv Hd. unfold fill_videoData, memcpy. rewrite Hv, Hd.
  change (Z.of_nat (Z.to_nat kMaxDataSize)) with 2000. reflexivity.
Qed.

Lemma videoData_overrun_witness :
  fill_videoData (replicate 1009 0) (replicate 2000 65) = Fail OutOfBounds.
Proof. exact (videoData_overrun (replicate 1009 0) (replicate 2000 65) eq_refl eq_refl). Defined.

(** The pause after a packet is a tenth of the one the comment promises: the
    divisor is 30,000,000 where 3 Mbps needs 3,000,000. *)
Theorem pacing_ten_times_fast n :
  0 <= n <= readChunkSize ->
  10 * sleep_duration_us n <= documented_pause_us n < 10 * sleep_duration_us n + 10.
Proof.
  intros Hn. unfold sleep_duration_us, documented_pause_us.
  rewrite !Z.quot_div_nonneg by lia.
  pose proof (Z.div_mod (n * 8 * 1000000) 30000000 ltac:(lia)).
  pose proof (Z.mod_pos_bound (n * 8 * 1000000) 30000000 ltac:(lia)).
  pose proof (Z.div_mod (n * 8 * 1000000) 3000000 ltac:(lia)).
  pose proof (Z.mod_pos_bound (n * 8 * 1000000) 3000000 ltac:(lia)). lia.
Qed.

Lemma pacing_ten_times_fast_witness :
  sleep_duration_us 1009 = 269 /\ documented_pause_us 1009 = 2690 /\
  10 * sleep_duration_us 1009 <= documented_pause_us 1009 < 10 * sleep_duration_us 1009 + 10.
Proof.
  split; [ reflexivity |]. split; [ reflexivity |].
  apply (pacing_ten_times_fast 1009). unfold readChunkSize. lia.
Defined.

(** The very first packet of the process fixes the packet size for good: when
    the first file is shorter than a chunk, the packets of every later file are
    cut to that length, the rest of their payload is zeros. *)
Theorem short_first_packet_truncates (mode : CheckMode) mg masks mask_size buf0 len0 buf1 len1 :
  length mg = 288%nat -> length masks = 288%nat -> 0 < len0 <= len1 -> len1 <= kMaxDataSize ->
  len0 <= Z.of_nat (length buf0) -> len1 <= Z.of_nat (length buf1) ->
  exists t p0 p1,
    feed mg (ForwardErrorCorrection_new masks mask_size) fec_k fec_r [(buf0, len0); (buf1, len1)] = Ok t /\
    buffer_packets t = [p0; p1] /\
    p_data p1 = take (Z.to_nat len0) buf1 ++ replicate (Z.to_nat (kMaxDataSize - len0)) 0.
Proof.
  intros Hmg Hm H0 H1 Hb0 Hb1.
  destruct (feed_simulates (mode := mode) mg (ForwardErrorCorrection_new masks mask_size) (mkSpec [] 0 [])
    fec_k fec_r len0 [(buf0, len0); (buf1, len1)] Hmg) as (t & HF & _ & (_ & _ & HB) & _);
    try (unfold fec_k, fec_r; lia); try done.
  - repeat apply Forall_cons_2; try done; unfold call_ok; cbn [fst snd]; lia.
  - by repeat constructor.
  - eexists t, _, _. split_and!; [ done | exact HB |]. cbn. unfold stored. by rewrite Z.min_r by lia.
Qed.

Lemma short_first_packet_truncates_witness :
  exists t p0 p1,
    @feed true (replicate 288 1) (ForwardErrorCorrection_new (replicate 288 0) 0) fec_k fec_r
      [(replicate 2000 65, 115); (replicate 2000 66, 1024)] = Ok t /\
    buffer_packets t = [p0; p1] /\
    p_data p1 = take (Z.to_nat 115) (replicate 2000 66) ++ replicate (Z.to_nat (kMaxDataSize - 115)) 0.
Proof.
  apply (short_first_packet_truncates true (replicate 288 1) (replicate 288 0) 0 (replicate 2000 65) 115
    (replicate 2000 66) 1024 eq_refl eq_refl); try lia; try (unfold kMaxDataSize; lia);
    rewrite length_replicate; lia.
Defined.
