(* ===== verification/Liveness.v ===== *)
(** * Packets do not stay in a queue

    On a run of [System] that goes on for ever and treats its threads fairly, a
    channel that stays enabled while the server runs deals with every packet
    that was queued on it. The signals are not lost: a worker that waits for its
    queue although it holds packets is about to be woken by the reader, and one
    that waits for its channel although it is enabled by the interface thread. *)
From S2P Require Import Prelude.
From S2P Require Import Packet.
From S2P Require Import Encoder.
From S2P Require Import Channel.
From S2P Require Import Worker.
From S2P Require Import System.
From S2P Require Import SystemInv.
From S2P Require Import Threads.
From S2P Require Import Fifo.
From stdpp Require Import base list list_numbers numbers option strings relations sorting tactics.
From Stdlib Require Import ZArith Lia.

#[local] Open Scope Z_scope.

(** ** Who moves *)

Section Live.
Context {mode : CheckMode} {dev : Type} {D : Device dev} {RF : RegularFile dev}.
Variable mask_garbage buf_garbage input_garbage send_garbage : list Z.
Variable sample : nat -> nat -> double.
#[local] Notation state := (Sys (dev := dev)).
Let step := sys_step (dev := dev) mask_garbage buf_garbage input_garbage send_garbage sample.

Definition reader_moves (st st' : state) : Prop :=
  exists rd' s', reader_step mask_garbage buf_garbage input_garbage (reader st) (shared st) = Some (rd', s') /\
    st' = mkSys s' rd' (workers st) (main st).
Definition worker_moves (i : nat) (st st' : state) : Prop :=
  exists w w' s', workers st !! i = Some w /\ worker_step send_garbage sample i w (shared st) = Some (w', s') /\
    st' = mkSys s' (reader st) (<[i := w']> (workers st)) (main st).
Definition main_moves (st st' : state) : Prop :=
  exists m' s', main_step (main st) (reader st) (workers st) (shared st) = Some (m', s') /\
    st' = mkSys s' (reader st) (workers st) m'.
Definition can (R : state -> state -> Prop) (st : state) : Prop := exists st', R st st'.

(** A thread that can move moves or is stopped from moving; a thread that can
    move again and again moves. The second is what a mutex has to give to those
    that wait for it. *)
Definition weakly_fair (r : nat -> state) (R : state -> state -> Prop) : Prop :=
  forall n, exists m, (n <= m)%nat /\ (R (r m) (r (S m)) \/ ~ can R (r m)).
Definition strongly_fair (r : nat -> state) (R : state -> state -> Prop) : Prop :=
  forall n, exists m, (n <= m)%nat /\ (R (r m) (r (S m)) \/ forall k, (m <= k)%nat -> ~ can R (r k)).
Definition fair (r : nat -> state) : Prop :=
  weakly_fair r reader_moves /\ weakly_fair r main_moves /\ forall i, strongly_fair r (worker_moves i).

(** ** No signal is lost *)

Definition chan_wakes (rd : Rpc dev) (m : Mpc) (i : nat) (c : ChannelContext) : Prop :=
  (queueCondition c = true -> packetQueue c = [] \/ exists l sz, rd = R_wake l i sz) /\
  (stateCondition c = true -> enabled c = 0 \/ m = M_slock i \/ m = M_swake i).

Definition wakes (st : state) : Prop :=
  forall i c, channels (shared st) !! i = Some c -> chan_wakes (reader st) (main st) i c.

Lemma wakes_update s rd rd' wk wk' m m' s' t c' :
  wakes (mkSys s rd wk m) -> channels s' = <[t := c']> (channels s) ->
  ((t < length (channels s))%nat -> chan_wakes rd' m' t c') ->
  (forall i c, i <> t -> chan_wakes rd m i c -> chan_wakes rd' m' i c) ->
  wakes (mkSys s' rd' wk' m').
Proof.
  intros Hw Hcs Ht Hother i c. cbn [shared reader main]. rewrite Hcs. intros Hi.
  destruct (decide (i = t)) as [-> | Hne].
  - pose proof (lookup_lt_Some _ _ _ Hi) as Hl. rewrite length_insert in Hl.
    rewrite list_lookup_insert_eq in Hi by done. injection Hi as <-. auto.
  - rewrite list_lookup_insert_ne in Hi by done. apply Hother; [ done |]. by apply (Hw i c).
Qed.

Lemma wakes_same s rd rd' wk wk' m m' s' :
  wakes (mkSys s rd wk m) -> channels s' = channels s ->
  (forall i c, chan_wakes rd m i c -> chan_wakes rd' m' i c) -> wakes (mkSys s' rd' wk' m').
Proof. intros Hw Hcs Hall i c Hi. cbn in *. rewrite Hcs in Hi. apply Hall. by apply (Hw i c). Qed.

Lemma reader_wakes s rd wk m rd' s' :
  wakes (mkSys s rd wk m) -> reader_step mask_garbage buf_garbage input_garbage rd s = Some (rd', s') ->
  wakes (mkSys s' rd' wk m).
Proof.
  intros Hw H. destruct rd; cbn [reader_step] in H; try discriminate;
    try (destruct (channels s !! _) as [c |] eqn:Hc; [| discriminate ]; cbn [mbind option_bind] in H).
  10: { injection H as <- <-. pose proof (Hw _ c Hc) as [_ Hs].
    eapply wakes_update; [ exact Hw | done | intros _; split; eauto |].
    intros i c1 Hne [Hq Hs1]. split; [| done ]. intros E. left. destruct (Hq E) as [? | (? & ? & ?)]; [ done | by simplify_eq/= ]. }
  10: { injection H as <- <-. pose proof (Hw _ c Hc) as [_ Hs].
    eapply wakes_update; [ exact Hw | done | intros _; by split |].
    intros i c1 Hne [Hq Hs1]. split; [| done ]. intros E. left. destruct (Hq E) as [? | (? & ? & ?)]; [ done | by simplify_eq/= ]. }
  9: { destruct (queueMutex c); [ done |]. injection H as <- <-. pose proof (Hw _ c Hc) as [Hq Hs].
    eapply wakes_update; [ exact Hw | done | intros _; split; [| done ] |].
    - intros E. left. destruct (Hq E) as [? | (? & ? & ?)]; [ done | by simplify_eq/= ].
    - intros i c1 Hne [Hq1 Hs1]. split; [| done ]. intros E. left. destruct (Hq1 E) as [? | (? & ? & ?)]; [ done | by simplify_eq/= ]. }
  all: eapply wakes_same; [ exact Hw | by repeat case_match; simplify_eq |];
    intros i c1 [Hq1 Hs1]; split; [| done ]; intros E; left; destruct (Hq1 E) as [? | (? & ? & ?)]; [ done | by simplify_eq/= ].
Qed.

Lemma worker_wakes s rd wk wk' m i w w' s' :
  wakes (mkSys s rd wk m) -> worker_step send_garbage sample i w s = Some (w', s') ->
  wakes (mkSys s' rd wk' m).
Proof.
  intros Hw. unfold worker_step. destruct (channels s !! i) as [c |] eqn:Hc; [| done ]. cbn [mbind option_bind].
  pose proof (Hw i c Hc) as [Hq Hs]. cbn [reader main] in *.
  assert (Hset : forall c' s0, channels s0 = <[i := c']> (channels s) -> chan_wakes rd m i c' -> wakes (mkSys s0 rd wk' m)).
  { intros c' s0 Hcs Hc'. by eapply wakes_update. }
  assert (Hkeep : forall s0, channels s0 = channels s -> wakes (mkSys s0 rd wk' m)).
  { intros s0 Hcs. by eapply wakes_same. }
  destruct (w_pc w); intros H; unfold emit_hand, assign_seq in H; repeat case_match; simplify_eq;
    first [ by apply Hkeep | (eapply Hset; [ reflexivity |]; split; cbn; intros E; try by auto) ].
  all: first [ congruence | left; lia | right; by destruct (Hq E) as [? | ?] ].
Qed.

Lemma main_wakes s rd wk m m' s' :
  wakes (mkSys s rd wk m) -> main_step m rd wk s = Some (m', s') -> wakes (mkSys s' rd wk m').
Proof.
  intros Hw H. destruct m; cbn [main_step] in H; try discriminate;
    try (destruct (channels s !! _) as [c |] eqn:Hc; [| discriminate ]; cbn [mbind option_bind] in H;
         pose proof (Hw _ c Hc) as [Hq Hs]; cbn [reader main] in * ).
  all: repeat case_match; simplify_eq;
    first
      [ eapply wakes_update; [ exact Hw | reflexivity | intros _; split; cbn; intros E; try by auto |]
      | eapply wakes_same; [ exact Hw | reflexivity |] ].
  all: try (intros j c1 Hne [Hq1 Hs1]; split; [ done |]; intros E1; destruct (Hs1 E1) as [? | [? | ?]];
    [ by left | simplify_eq/=.. ]).
  all: try (destruct (Hs E) as [? | [? | ?]]; [ by left | simplify_eq/=.. ]).
  all: intros j c1 [Hq1 Hs1]; split; [ done |]; intros E1; destruct (Hs1 E1) as [? | [? | ?]]; [ by left | simplify_eq/=.. ].
Qed.

Lemma request_wakes s rd wk r m' s' :
  wakes (mkSys s rd wk M_idle) -> main_request r s = Some (m', s') -> wakes (mkSys s' rd wk m').
Proof.
  intros Hw H.
  assert (Hother : forall m0 i c, chan_wakes rd M_idle i c -> chan_wakes rd m0 i c).
  { intros m0 i c [Hq Hs]. split; [ done |]. intros E. destruct (Hs E) as [? | [? | ?]]; [ by left | simplify_eq/=.. ]. }
  destruct r; cbn [main_request] in H; repeat case_match; simplify_eq; try (eapply wakes_same; eauto; fail);
    (destruct (channels s !! _) as [c |] eqn:Hc; [| discriminate ]); cbn [mbind option_bind] in H;
    pose proof (Hw _ c Hc) as [Hq Hs]; cbn [reader main] in *; repeat case_match; simplify_eq;
    (eapply wakes_update; [ exact Hw | reflexivity | intros _; split; cbn; intros E; try by auto | eauto ]).
  destruct (Hs E) as [? | [? | ?]]; [ lia | done.. ].
Qed.

Lemma step_wakes st st' : wakes st -> step st st' -> wakes st'.
Proof.
  intros Hw Hstep. destruct Hstep as [ s rd wk m rd' s' H | s rd wk m i w w' s' Hi H | s rd wk m m' s' H
    | s rd wk r m' s' H | s rd wk m i c Hc H | s rd wk m i c Hc H ];
    [ by eapply reader_wakes | by eapply worker_wakes | by eapply main_wakes | by eapply request_wakes |..];
    (destruct (Hw i c Hc) as [Hq Hs]; eapply wakes_update; [ exact Hw | reflexivity | by split | done ]).
Qed.

Lemma initial_wakes path seq0 f settings : wakes (initial path seq0 f settings).
Proof.
  intros i c Hi. cbn in Hi. rewrite list_lookup_fmap in Hi. destruct (settings !! i) as [[e x] |]; [| done ].
  injection Hi as <-. by split.
Qed.

(** ** What a step leaves alone *)

Lemma reader_kept st st' : step st st' -> reader_moves st st' \/ reader st' = reader st.
Proof. destruct 1; [ left; by eexists _, _ | by right.. ]. Qed.

Lemma main_kept st st' : step st st' -> main_moves st st' \/ main st' = main st \/ main st = M_idle.
Proof. destruct 1; [ by right; left | by right; left | left; by eexists _, _ | by right; right | by right; left.. ]. Qed.

Lemma worker_kept i st st' :
  step st st' -> worker_moves i st st' \/
    (workers st' !! i = workers st !! i /\ finished i (trace (shared st')) = finished i (trace (shared st))).
Proof.
  destruct 1 as [ s rd wk m rd' s' H | s rd wk m j w w' s' Hj H | s rd wk m m' s' H
    | s rd wk r m' s' H | s rd wk m j c Hc H | s rd wk m j c Hc H ]; cbn [shared workers].
  - right. split; [ done |]. destruct (reader_effect _ _ _ _ _ _ _ H) as [(_ & -> & _) | (t & q & p & _ & _ & -> & _)]; [ done |].
    unfold finished. rewrite omap_app. apply app_nil_r.
  - destruct (decide (i = j)) as [<- | Hne]; [ left; by eexists _, _, _ | right ].
    rewrite list_lookup_insert_ne by done. split; [ done |].
    destruct (channels s !! j) as [c |] eqn:Hc; [| unfold worker_step in H; by rewrite Hc in H ].
    destruct (worker_effect send_garbage sample j w s w' s' c Hc H) as (q & ev & _ & -> & Hown & _).
    unfold finished. rewrite omap_app. fold (finished i ev). by rewrite (finished_other j i ev Hown), app_nil_r.
  - right. split; [ done |]. by destruct (main_effect _ _ _ _ _ _ H) as (_ & -> & _).
  - right. split; [ done |]. by destruct (request_effect _ _ _ _ H) as (_ & -> & _).
  - by right.
  - by right.
Qed.

Lemma trace_grows st st' : step st st' -> trace (shared st) `prefix_of` trace (shared st').
Proof.
  destruct 1 as [ s rd wk m rd' s' H | s rd wk m j w w' s' Hj H | s rd wk m m' s' H
    | s rd wk r m' s' H | s rd wk m j c Hc H | s rd wk m j c Hc H ]; cbn [shared]; try done.
  - destruct (reader_effect _ _ _ _ _ _ _ H) as [(_ & -> & _) | (t & q & p & _ & _ & -> & _)]; [ done |]. by eexists.
  - destruct (channels s !! j) as [c |] eqn:Hc; [| unfold worker_step in H; by rewrite Hc in H ].
    destruct (worker_effect send_garbage sample j w s w' s' c Hc H) as (q & ev & _ & -> & _). by eexists.
  - by destruct (main_effect _ _ _ _ _ _ H) as (_ & -> & _).
  - by destruct (request_effect _ _ _ _ H) as (_ & -> & _).
Qed.

(** ** A worker gets on *)

(** Steps a worker takes to finish a packet, at most. *)
Definition distance (pc : Wpc) : nat :=
  let hand (h : option SendPacket) n := match h with Some _ => n | None => 13 + n end%nat in
  match pc with
  | W_out _ _ => 1 | W_seq _ _ => 2 | W_loss h => hand h 3 | W_after h => hand h 4
  | W_s2 h => hand h 5 | W_s1 h => hand h 6 | W_swait h | W_slock h => hand h 7
  | W_pop => 8 | W_en => 9 | W_run => 10 | W_c3 => 11 | W_c2 => 12 | W_c1 => 13
  | W_wait | W_lock => 14 | W_loop => 15
  | W_exit | W_fault _ => 0
  end%nat.

Lemma worker_advances i w s w' s' c :
  channels s !! i = Some c -> is_running s = true -> enabled c = 1 ->
  (in_hand (w_pc w) = [] -> packetQueue c <> []) -> (forall e, w_pc w' <> W_fault e) ->
  worker_step send_garbage sample i w s = Some (w', s') ->
  (finished i (trace s') = finished i (trace s) /\ (distance (w_pc w') < distance (w_pc w))%nat) \/
  (length (finished i (trace s')) = S (length (finished i (trace s))) /\ (distance (w_pc w') <= 15)%nat).
Proof.
  intros Hc Hrun Hen Hq Hf. unfold worker_step. rewrite Hc. cbn [mbind option_bind]. rewrite Hrun, Hen. cbn.
  assert (Hadd : forall e s0, trace s0 = trace s ++ [e] -> length (finished i [e]) = 1%nat ->
    length (finished i (trace s0)) = S (length (finished i (trace s)))).
  { intros e s0 -> He. unfold finished in *. rewrite omap_app, length_app, He. lia. }
  destruct (w_pc w) eqn:Hpc; intros H; cbn [in_hand] in Hq; unfold emit_hand, assign_seq in H;
    repeat case_match; simplify_eq; try (left; split; [ done | cbn; lia ]); try (by destruct Hq).
  - left. split; [| cbn; lia ]. unfold finished. cbn [trace emit with_channel]. rewrite omap_app. apply app_nil_r.
  - right. split; [| done ]. apply (Hadd (Dropped i s0)); [ done | by rewrite (finished_own i s0) by eauto ].
  - right. split; [| done ]. apply (Hadd (Abandoned i s0)); [ done | by rewrite (finished_own i s0) by eauto ].
  - right. split; [| done ]. apply (Hadd (Sent i sendPkt l)); [ done | by rewrite (finished_own i sendPkt) by eauto ].
  - right. split; [| done ]. apply (Hadd (Abandoned i sendPkt)); [ done | by rewrite (finished_own i sendPkt) by eauto ].
Qed.

Definition at_queue (pc : Wpc) : bool := match pc with W_lock | W_wait => true | _ => false end.
Definition at_state (pc : Wpc) : bool := match pc with W_slock _ | W_swait _ => true | _ => false end.

(** What a worker that cannot move waits for. *)
Lemma worker_blocked st i c w :
  sys_ok st -> wakes st -> channels (shared st) !! i = Some c -> workers st !! i = Some w ->
  is_running (shared st) = true -> enabled c = 1 -> w_pc w <> W_exit ->
  (w_pc w = W_wait -> packetQueue c <> []) ->
  can (worker_moves i) st \/
  (at_queue (w_pc w) = true /\ exists l sz p, reader st = R_push l i sz p) \/
  (w_pc w = W_wait /\ exists l sz, reader st = R_wake l i sz) \/
  ((exists h, w_pc w = W_swait h) /\ main st = M_slock i) \/
  (at_state (w_pc w) = true /\ main st = M_swake i).
Proof.
  intros Hok Hwk Hc Hw Hrun Hen Hexit Hne. pose proof Hok as ((_ & _ & Hall) & _ & _ & _ & Hst).
  destruct (Hall i c w Hc Hw) as (Hq & Hs & Hqc & Hsc & _ & _ & Hwok & _).
  destruct (Hwk i c Hc) as [Hwq Hws]. cbn in Hq, Hs.
  assert (Hmq : mq_flag (main st) i = false).
  { destruct (main st); try done. by rewrite Hst in Hrun. }
  destruct (at_queue (w_pc w) && r_flag (reader st) i) eqn:Hr.
  { apply andb_true_iff in Hr as [Hpc Hr]. right; left. split; [ done |]. destruct (reader st); try done. cbn in Hr.
    apply bool_decide_eq_true in Hr as ->. by eexists _, _, _. }
  destruct (at_state (w_pc w) && ms_flag (main st) i) eqn:Hm.
  { apply andb_true_iff in Hm as [Hpc Hm]. destruct (main st); try done; cbn in Hm;
      apply bool_decide_eq_true in Hm as ->; [ by auto 6 |]. by rewrite Hst in Hrun. }
  destruct (queueCondition c) eqn:Eq.
  { specialize (Hqc eq_refl). destruct (Hwq eq_refl) as [? | ?]; [ by destruct Hne | by auto ]. }
  destruct (stateCondition c) eqn:Es.
  { destruct (Hsc eq_refl) as [h Hh]. destruct (Hws eq_refl) as [? | [? | ?]]; [ lia | do 3 right; left; by eauto |].
    do 4 right. by rewrite Hh. }
  left. destruct (worker_can_step send_garbage sample i w (shared st) c Hc) as (w' & s' & H); try done.
  - destruct (w_pc w); cbn in Hq, Hr; try (by right); left; rewrite Hr, Hmq in Hq; by inversion Hq.
  - destruct (w_pc w); cbn in Hs, Hm; try (by right); left; rewrite Hm in Hs; by inversion Hs.
  - intros e E. by rewrite E in Hwok.
  - eexists. by eexists _, _, _.
Qed.

(** A worker has ended only if the server was stopped. *)
Definition ended_stopped (st : state) : Prop :=
  forall i w, workers st !! i = Some w -> w_pc w = W_exit -> is_running (shared st) = false.

Lemma running_kept st st' : step st st' -> is_running (shared st) = false -> is_running (shared st') = false.
Proof.
  destruct 1 as [ s rd wk m rd' s' H | s rd wk m i w w' s' Hw H | s rd wk m m' s' H
    | s rd wk r m' s' H | s rd wk m i c Hc H | s rd wk m i c Hc H ]; cbn [shared]; intros Hr; try done.
  - destruct rd; cbn [reader_step] in H; try discriminate;
      try (destruct (channels s !! _) as [c |]; [| discriminate ]; cbn [mbind option_bind] in H);
      repeat case_match; by simplify_eq.
  - by destruct (worker_frame send_garbage sample _ _ _ _ _ H) as (_ & -> & _).
  - destruct m; cbn [main_step] in H; try discriminate;
      try (destruct (channels s !! _) as [c |]; [| discriminate ]; cbn [mbind option_bind] in H);
      repeat case_match; by simplify_eq.
  - destruct r; cbn [main_request] in H; repeat case_match; simplify_eq; try done;
      (destruct (channels s !! _) as [c |]; [| discriminate ]; cbn [mbind option_bind] in H);
      repeat case_match; by simplify_eq.
Qed.

Lemma worker_ends i w s w' s' :
  worker_step send_garbage sample i w s = Some (w', s') -> w_pc w' = W_exit -> is_running s = false.
Proof.
  unfold worker_step. destruct (channels s !! i) as [c |]; [| done ]. cbn [mbind option_bind].
  destruct (w_pc w); intros H E; unfold emit_hand, assign_seq in H; repeat case_match; by simplify_eq/=.
Qed.

Lemma step_ended st st' : ended_stopped st -> step st st' -> ended_stopped st'.
Proof.
  intros He Hstep i w Hw Hpc. apply (running_kept _ _ Hstep).
  destruct (worker_kept i _ _ Hstep) as [(w0 & w' & s' & Hw0 & H & ->) | [Hk _]].
  - cbn in Hw. rewrite list_lookup_insert_eq in Hw by (by eapply lookup_lt_Some). injection Hw as <-.
    by eapply worker_ends.
  - rewrite Hk in Hw. by eapply He.
Qed.

(** ** Fair runs *)

Section Run.
Variable r : nat -> state.
Hypothesis Hsteps : forall k, step (r k) (r (S k)).

(** What holds until [R] happens, or [Q] does. *)
Lemma until (R : state -> state -> Prop) (P Q : state -> Prop) n m :
  (forall k, (n <= k)%nat -> P (r k) -> R (r k) (r (S k)) \/ Q (r k) \/ P (r (S k))) ->
  P (r n) -> (n <= m)%nat ->
  (exists k, (n <= k)%nat /\ P (r k) /\ (R (r k) (r (S k)) \/ Q (r k))) \/ P (r m).
Proof.
  intros Hkeep Hn Hle. induction Hle as [| m Hle IH ]; [ by right |].
  destruct IH as [IH | HP]; [ by left |]. destruct (Hkeep m Hle HP) as [? | [? | ?]]; [ left; eauto 6.. | by right ].
Qed.

Lemma weak_leads (R : state -> state -> Prop) (P Q : state -> Prop) n :
  weakly_fair r R -> (forall k, (n <= k)%nat -> P (r k) -> R (r k) (r (S k)) \/ Q (r k) \/ P (r (S k))) ->
  (forall k, (n <= k)%nat -> P (r k) -> can R (r k)) -> P (r n) ->
  exists k, (n <= k)%nat /\ P (r k) /\ (R (r k) (r (S k)) \/ Q (r k)).
Proof.
  intros Hf Hkeep Hcan Hn. destruct (Hf n) as (m & Hle & Hm).
  destruct (until R P Q n m Hkeep Hn Hle) as [? | HP]; [ done |].
  destruct Hm as [? | Hno]; [ by eauto 6 |]. destruct Hno. by apply Hcan.
Qed.

Lemma strong_leads (R : state -> state -> Prop) (P : state -> Prop) n :
  strongly_fair r R -> (forall k, (n <= k)%nat -> P (r k) -> R (r k) (r (S k)) \/ P (r (S k))) ->
  (forall k, (n <= k)%nat -> P (r k) -> exists k', (k <= k')%nat /\ can R (r k')) -> P (r n) ->
  exists k, (n <= k)%nat /\ P (r k) /\ R (r k) (r (S k)).
Proof.
  intros Hf Hkeep Hcan Hn. destruct (Hf n) as (m & Hle & Hm).
  destruct (until R P (fun _ => False) n m) as [(k & ? & ? & [? | ?]) | HP]; [| done | done | by eauto | done |].
  { intros k Hk HP. destruct (Hkeep k Hk HP); auto. }
  destruct Hm as [? | Hno]; [ by eauto |]. destruct (Hcan m Hle HP) as (k' & Hk' & Hc). by destruct (Hno k' Hk').
Qed.

(** From time [n] on the server runs and channel [i] is enabled; [N] packets
    were queued on it before. *)
Hypothesis Hfair : fair r.
Hypothesis Hinv : forall k, sys_ok (r k) /\ wakes (r k) /\ fifo_inv (shared (r k)) (workers (r k)) /\ ended_stopped (r k).
Variable i n N : nat.
Hypothesis Hon : forall k, (n <= k)%nat -> is_running (shared (r k)) = true /\
  exists c, channels (shared (r k)) !! i = Some c /\ enabled c = 1.
Hypothesis HN : forall k, (n <= k)%nat -> (N <= length (pushed i (trace (shared (r k)))))%nat.

Definition stays (w : Worker) (F : list SendPacket) (st : state) : Prop :=
  workers st !! i = Some w /\ finished i (trace (shared st)) = F.

Section Stays.
Variable w : Worker.
Variable F : list SendPacket.
Hypothesis HF : (length F < N)%nat.

Lemma stays_next k : stays w F (r k) -> worker_moves i (r k) (r (S k)) \/ stays w F (r (S k)).
Proof.
  intros [Hw Hfin]. destruct (worker_kept i _ _ (Hsteps k)) as [? | [Hw' Hfin']]; [ by left | right ].
  unfold stays. by rewrite Hw', Hfin'.
Qed.

Lemma stays_queue k c :
  (n <= k)%nat -> stays w F (r k) -> channels (shared (r k)) !! i = Some c -> in_hand (w_pc w) = [] -> packetQueue c <> [].
Proof.
  intros Hk [Hw Hfin] Hc Hh Hq. destruct (Hinv k) as (Hok & _ & Hfifo & _).
  pose proof (HN k Hk) as Hlen.
  rewrite (Hfifo i _ w (lookup_queues _ _ _ Hc) Hw (worker_not_fault _ i w Hok Hw)), Hfin, Hh, Hq in Hlen.
  cbn in Hlen. rewrite app_nil_r in Hlen. lia.
Qed.

Lemma stays_blocked k :
  (n <= k)%nat -> stays w F (r k) ->
  can (worker_moves i) (r k) \/
  (at_queue (w_pc w) = true /\ exists l sz p, reader (r k) = R_push l i sz p) \/
  (w_pc w = W_wait /\ exists l sz, reader (r k) = R_wake l i sz) \/
  ((exists h, w_pc w = W_swait h) /\ main (r k) = M_slock i) \/
  (at_state (w_pc w) = true /\ main (r k) = M_swake i).
Proof.
  intros Hk HS. pose proof HS as [Hw _]. destruct (Hinv k) as (Hok & Hwk & _ & Hend).
  destruct (Hon k Hk) as (Hrun & c & Hc & Hen). apply (worker_blocked (r k) i c w); try done.
  - intros E. by rewrite (Hend i w Hw E) in Hrun.
  - intros E. eapply stays_queue; [ done.. | by rewrite E ].
Qed.

(** The reader gets past its present place, or the worker can move. *)
Lemma reader_turn k rd :
  (n <= k)%nat -> stays w F (r k) -> reader (r k) = rd ->
  (forall k', (n <= k')%nat -> reader (r k') = rd -> can reader_moves (r k')) ->
  exists k', (k <= k')%nat /\ (can (worker_moves i) (r k') \/
    (reader (r k') = rd /\ reader_moves (r k') (r (S k')) /\ stays w F (r (S k')))).
Proof.
  intros Hk HS Hrd Hcan. destruct Hfair as (Hfr & _).
  destruct (weak_leads reader_moves (fun st => stays w F st /\ reader st = rd) (can (worker_moves i)) k)
    as (k' & Hk' & [HS' Hrd'] & HR); [ done | | | done |].
  - intros j Hj [HSj Hrdj]. destruct (stays_next j HSj) as [? | HSj']; [ right; left; by eexists |].
    destruct (reader_kept _ _ (Hsteps j)) as [? | Hsame]; [ by left | right; right; by rewrite Hsame ].
  - intros j Hj [_ Hrdj]. apply Hcan; [ lia | done ].
  - exists k'. split; [ done |]. destruct HR as [HR | ?]; [| by left ].
    destruct (stays_next k' HS') as [? | ?]; [ left; by eexists | by right ].
Qed.

(** The same for the interface thread. *)
Lemma main_turn k m :
  (n <= k)%nat -> stays w F (r k) -> main (r k) = m -> m <> M_idle ->
  (forall k', (n <= k')%nat -> stays w F (r k') -> main (r k') = m -> can main_moves (r k')) ->
  exists k', (k <= k')%nat /\ (can (worker_moves i) (r k') \/
    (main (r k') = m /\ main_moves (r k') (r (S k')) /\ stays w F (r (S k')))).
Proof.
  intros Hk HS Hm Hidle Hcan. destruct Hfair as (_ & Hfm & _).
  destruct (weak_leads main_moves (fun st => stays w F st /\ main st = m) (can (worker_moves i)) k)
    as (k' & Hk' & [HS' Hm'] & HR); [ done | | | done |].
  - intros j Hj [HSj Hmj]. destruct (stays_next j HSj) as [? | HSj']; [ right; left; by eexists |].
    destruct (main_kept _ _ (Hsteps j)) as [? | [Hsame | ?]]; [ by left | right; right; by rewrite Hsame | congruence ].
  - intros j Hj [HSj Hmj]. apply Hcan; [ lia | done | done ].
  - exists k'. split; [ done |]. destruct HR as [HR | ?]; [| by left ].
    destruct (stays_next k' HS') as [? | ?]; [ left; by eexists | by right ].
Qed.

Lemma reader_moves_to st st' rd rd' :
  reader_moves st st' -> reader st = rd ->
  (forall rd1 s', reader_step mask_garbage buf_garbage input_garbage rd (shared st) = Some (rd1, s') -> rd1 = rd') ->
  reader st' = rd'.
Proof. intros (rd1 & s' & H & ->) Hrd Hto. rewrite Hrd in H. by apply Hto in H. Qed.

Lemma main_moves_to st st' m m' :
  main_moves st st' -> main st = m ->
  (forall m1 s', main_step m (reader st) (workers st) (shared st) = Some (m1, s') -> m1 = m') -> main st' = m'.
Proof. intros (m1 & s' & H & ->) Hm Hto. rewrite Hm in H. by apply Hto in H. Qed.

Lemma after_wake k l sz :
  (n <= k)%nat -> stays w F (r k) -> w_pc w = W_wait -> reader (r k) = R_wake l i sz ->
  exists k', (k <= k')%nat /\ can (worker_moves i) (r k').
Proof.
  intros Hk HS Hpc Hrd. destruct (reader_turn k _ Hk HS Hrd) as (k' & Hk' & [? | (Hrd' & Hmv & HS')]); [| by eauto |].
  - intros j Hj Hrdj. destruct (Hon j Hj) as (_ & c & Hc & _). eexists. eexists _, _. split; [| done ].
    rewrite Hrdj. cbn. by rewrite Hc.
  - exists (S k'). split; [ lia |].
    assert (Hnow : reader (r (S k')) = R_drain l i sz).
    { eapply reader_moves_to; [ done | done |]. cbn. intros rd1 s' H.
      by destruct (channels _ !! i); simplify_eq/=. }
    destruct (stays_blocked (S k') ltac:(lia) HS') as
      [? | [(_ & ? & ? & ? & ?) | [(_ & ? & ? & ?) | [([? ?] & _) | [? _]]]]]; [ done | congruence.. |].
    by rewrite Hpc in *.
Qed.

Lemma after_push k l sz p :
  (n <= k)%nat -> stays w F (r k) -> at_queue (w_pc w) = true -> reader (r k) = R_push l i sz p ->
  exists k', (k <= k')%nat /\ can (worker_moves i) (r k').
Proof.
  intros Hk HS Hpc Hrd. destruct (reader_turn k _ Hk HS Hrd) as (k' & Hk' & [? | (Hrd' & Hmv & HS')]); [| by eauto |].
  - intros j Hj Hrdj. destruct (Hon j Hj) as (_ & c & Hc & _). eexists. eexists _, _. split; [| done ].
    rewrite Hrdj. cbn. by rewrite Hc.
  - assert (Hnow : reader (r (S k')) = R_wake l i sz).
    { eapply reader_moves_to; [ done | done |]. cbn. intros rd1 s' H.
      by destruct (channels _ !! i); simplify_eq/=. }
    destruct (stays_blocked (S k') ltac:(lia) HS') as
      [? | [(_ & ? & ? & ? & ?) | [(? & _) | [([? E] & _) | [? _]]]]].
    + exists (S k'). split; [ lia | done ].
    + congruence.
    + destruct (after_wake (S k') l sz) as (k2 & ? & ?); [ lia | done.. |]. exists k2. split; [ lia | done ].
    + by rewrite E in Hpc.
    + by destruct (w_pc w).
Qed.

Lemma after_swake k :
  (n <= k)%nat -> stays w F (r k) -> at_state (w_pc w) = true -> main (r k) = M_swake i ->
  exists k', (k <= k')%nat /\ can (worker_moves i) (r k').
Proof.
  intros Hk HS Hpc Hm. destruct (main_turn k _ Hk HS Hm) as (k' & Hk' & [? | (Hm' & Hmv & HS')]); [ done | | by eauto |].
  - intros j Hj _ Hmj. destruct (Hon j Hj) as (_ & c & Hc & _). eexists. eexists _, _. split; [| done ].
    rewrite Hmj. cbn. by rewrite Hc.
  - exists (S k'). split; [ lia |].
    assert (Hnow : main (r (S k')) = M_idle).
    { eapply main_moves_to; [ done | done |]. cbn. intros m1 s' H. by destruct (channels _ !! i); simplify_eq/=. }
    destruct (stays_blocked (S k') ltac:(lia) HS') as [? | [(? & _) | [(E & _) | [(_ & ?) | [_ ?]]]]];
      [ done | by destruct (w_pc w) | by rewrite E in Hpc | congruence.. ].
Qed.

Lemma after_slock k h :
  (n <= k)%nat -> stays w F (r k) -> w_pc w = W_swait h -> main (r k) = M_slock i ->
  exists k', (k <= k')%nat /\ can (worker_moves i) (r k').
Proof.
  intros Hk HS Hpc Hm. destruct (main_turn k _ Hk HS Hm) as (k' & Hk' & [? | (Hm' & Hmv & HS')]); [ done | | by eauto |].
  - intros j Hj [Hw _] Hmj. destruct (Hon j Hj) as (_ & c & Hc & _). destruct (Hinv j) as (((_ & _ & Hall) & _) & _).
    destruct (Hall i c w Hc Hw) as (_ & Hs & _). cbn in Hs. rewrite Hpc, Hmj in Hs. cbn in Hs.
    assert (Hfree : stateMutex c = None) by (by inversion Hs).
    eexists. eexists _, _. split; [| done ]. rewrite Hmj. cbn. rewrite Hc. cbn. by rewrite Hfree.
  - assert (Hnow : main (r (S k')) = M_swake i).
    { eapply main_moves_to; [ done | done |]. cbn. intros m1 s' H.
      destruct (channels _ !! i); [| done ]. cbn in H. by case_match; simplify_eq/=. }
    destruct (after_swake (S k')) as (k2 & ? & ?); [ lia | done | by rewrite Hpc | done |].
    exists k2. split; [ lia | done ].
Qed.

(** A worker with something to do can move again. *)
Lemma worker_enabled k :
  (n <= k)%nat -> stays w F (r k) -> exists k', (k <= k')%nat /\ can (worker_moves i) (r k').
Proof.
  intros Hk HS. destruct (stays_blocked k Hk HS) as
    [? | [(? & l & sz & p & ?) | [(? & l & sz & ?) | [([h ?] & ?) | [? ?]]]]];
    eauto using after_push, after_wake, after_slock, after_swake.
Qed.

End Stays.

(** *** Progress *)

Definition left_over (st : state) : nat :=
  (24 * (N - length (finished i (trace (shared st)))) +
   match workers st !! i with Some w => distance (w_pc w) | None => 0 end)%nat.

Lemma worker_progress k :
  (n <= k)%nat -> (length (finished i (trace (shared (r k)))) < N)%nat ->
  exists k', (k <= k')%nat /\ (left_over (r (S k')) < left_over (r k))%nat.
Proof.
  intros Hk HF. destruct (Hinv k) as (((Hlc & Hlw & _) & _) & _).
  destruct (Hon k Hk) as (_ & c0 & Hc0 & _). apply lookup_lt_Some in Hc0.
  destruct (lookup_lt_is_Some_2 (workers (r k)) i) as [w Hw]; [ lia |].
  pose (F := finished i (trace (shared (r k)))).
  destruct (strong_leads (worker_moves i) (stays w F) k) as (k' & Hk' & HS & Hmv); [ apply Hfair | | | done |].
  - intros j _. by apply stays_next.
  - intros j Hj HSj. apply (worker_enabled w F HF j); [ lia | done ].
  - exists k'. split; [ done |]. pose proof HS as [Hw' Hfin]. destruct Hmv as (w0 & w1 & s1 & Hw0 & Hst & Hnext).
    rewrite Hw' in Hw0. injection Hw0 as <-. destruct (Hon k' ltac:(lia)) as (Hrun & c & Hc & Hen).
    assert (Hnew : workers (r (S k')) !! i = Some w1).
    { rewrite Hnext. cbn. apply list_lookup_insert_eq. by eapply lookup_lt_Some. }
    destruct (worker_advances i w _ w1 s1 c Hc Hrun Hen) as [[Hf Hd] | [Hf Hd]]; [ | | done | |].
    + intros Hh. eapply (stays_queue w F HF k' c); [ lia | done.. ].
    + apply (worker_not_fault _ i w1 (proj1 (Hinv (S k'))) Hnew).
    + unfold left_over. rewrite Hnew, Hw, Hnext. cbn [shared]. rewrite Hf, Hfin. unfold F. lia.
    + unfold left_over. rewrite Hnew, Hw, Hnext. cbn [shared]. rewrite Hf, Hfin. unfold F. lia.
Qed.

Lemma all_finished k : (n <= k)%nat -> exists m, (k <= m)%nat /\ (N <= length (finished i (trace (shared (r m)))))%nat.
Proof.
  remember (left_over (r k)) as v eqn:Hv. revert k Hv. induction (lt_wf v) as [v _ IH]. intros k -> Hk.
  destruct (decide (N <= length (finished i (trace (shared (r k)))))%nat) as [? | Hlt]; [ by exists k |].
  destruct (worker_progress k Hk) as (k' & Hk' & Hless); [ lia |].
  destruct (IH _ Hless (S k') eq_refl) as (m & Hm & Hdone); [ lia |]. exists m. split; [ lia | done ].
Qed.

End Run.

Lemma trace_run r n m :
  (forall k, step (r k) (r (S k))) -> (n <= m)%nat -> trace (shared (r n)) `prefix_of` trace (shared (r m)).
Proof.
  intros Hsteps Hle. induction Hle as [| m Hle IH ]; [ done |]. etrans; [ exact IH | by apply trace_grows ].
Qed.

Lemma run_invariants r path seq0 f settings k :
  garbage_ok mask_garbage buf_garbage input_garbage send_garbage -> settings_ok settings -> fec_ready 0 f ->
  0 <= seq0 < 256 -> r 0%nat = initial path seq0 f settings -> (forall k, step (r k) (r (S k))) ->
  sys_ok (r k) /\ wakes (r k) /\ fifo_inv (shared (r k)) (workers (r k)) /\ ended_stopped (r k).
Proof.
  intros Hg Hset Hf Hs H0 Hsteps.
  assert (Hr : rtc step (r 0%nat) (r k)) by (induction k; [ done | by eapply rtc_r ]).
  rewrite H0 in Hr.
  destruct (reachable_history mask_garbage buf_garbage input_garbage send_garbage sample Hg path seq0 f settings _ Hset Hf Hs Hr)
    as (Hok & Hfifo & _).
  split_and!; [ done | | done |].
  - clear Hr Hok Hfifo. induction k; [ rewrite H0; apply initial_wakes | by eapply step_wakes ].
  - clear Hr Hok Hfifo. induction k; [| by eapply step_ended ]. rewrite H0. intros i w Hw Hpc. cbn [initial workers] in Hw.
    apply lookup_replicate in Hw as [-> _]. done.
Qed.

End Live.

Lemma pushed_prefix i tr tr' : tr `prefix_of` tr' -> pushed i tr `prefix_of` pushed i tr'.
Proof. intros [l ->]. unfold pushed. rewrite omap_app. by eexists. Qed.

Lemma prefix_shorter {A} (l1 l2 l : list A) :
  l1 `prefix_of` l -> l2 `prefix_of` l -> (length l1 <= length l2)%nat -> l1 `prefix_of` l2.
Proof.
  intros H1 H2 Hle. destruct (prefix_weak_total l1 l2 l H1 H2) as [? | Hp]; [ done |].
  by rewrite (prefix_length_eq _ _ Hp Hle).
Qed.

(** ** Theorems *)

(** C9. Packets do not stay in a queue. On every run that goes on for ever and
    is fair to the threads (the reader and the interface thread move when they
    can all the time, a worker when it can again and again), if from some time on
    the server runs and a channel stays enabled, then every packet queued on the
    channel until that time has later been dealt with by its worker, in the order
    in which they were queued: no deadlock, no lost wakeup, no starvation. *)
Theorem queued_packets_leave {dev} (mode : CheckMode) (D : Device dev) (RF : RegularFile dev)
    mg bg ig sg sample path seq0 f settings (r : nat -> Sys) i n :
  garbage_ok mg bg ig sg -> settings_ok settings -> fec_ready 0 f -> 0 <= seq0 < 256 ->
  r 0%nat = initial path seq0 f settings -> (forall k, sys_step mg bg ig sg sample (r k) (r (S k))) ->
  fair mg bg ig sg sample r ->
  (forall k, (n <= k)%nat -> is_running (shared (r k)) = true /\
     exists c, channels (shared (r k)) !! i = Some c /\ enabled c = 1) ->
  exists m, (n <= m)%nat /\ pushed i (trace (shared (r n))) `prefix_of` finished i (trace (shared (r m))).
Proof.
  intros Hg Hset Hf Hs H0 Hsteps Hfair Hon.
  assert (Hinv := fun k => run_invariants mg bg ig sg sample r path seq0 f settings k Hg Hset Hf Hs H0 Hsteps).
  destruct (all_finished mg bg ig sg sample r Hsteps Hfair Hinv i n (length (pushed i (trace (shared (r n))))) Hon)
    with (k := n) as (m & Hm & Hlen); [| done |].
  { intros k Hk. eapply prefix_length, pushed_prefix, (trace_run mg bg ig sg sample r n k Hsteps Hk). }
  exists m. split; [ done |]. destruct (Hinv m) as (Hok & _ & Hfifo & _). pose proof Hok as ((Hlc & Hlw & _) & _).
  destruct (Hon m Hm) as (_ & c & Hc & _). destruct (lookup_lt_is_Some_2 (workers (r m)) i) as [w Hw];
    [ apply lookup_lt_Some in Hc; lia |].
  apply (prefix_shorter _ _ (pushed i (trace (shared (r m))))); [| | done ].
  - by eapply pushed_prefix, (trace_run mg bg ig sg sample r n m Hsteps Hm).
  - rewrite (Hfifo i _ w (lookup_queues _ _ _ Hc) Hw (worker_not_fault _ i w Hok Hw)). by eexists.
Qed.

(** *** A run *)

Section Follow.
Context {mode : CheckMode} {dev : Type} {D : Device dev}.
Variable mask_garbage buf_garbage input_garbage send_garbage : list Z.
Variable sample : nat -> nat -> double.

(** The states of a schedule, the last one repeated. *)
Fixpoint follow (l : list choice) (st : Sys (dev := dev)) (k : nat) : Sys :=
  match k, l with
  | S k, ch :: l =>
      match choose mask_garbage buf_garbage input_garbage send_garbage sample ch st with
      | Some st' => follow l st' k
      | None => st
      end
  | _, _ => st
  end.

Lemma follow_end l st fin k :
  schedule mask_garbage buf_garbage input_garbage send_garbage sample l st = Some fin ->
  (length l <= k)%nat -> follow l st k = fin.
Proof.
  revert st k. induction l as [| ch l IH ]; intros st k H Hk; [ injection H as ->; by destruct k |].
  destruct k as [| k ]; cbn in *; [ lia |]. destruct (choose _ _ _ _ _ ch st) as [st' |]; [| done ].
  apply IH; [ done | lia ].
Qed.

Lemma follow_step l st fin k :
  schedule mask_garbage buf_garbage input_garbage send_garbage sample l st = Some fin ->
  sys_step mask_garbage buf_garbage input_garbage send_garbage sample fin fin ->
  sys_step mask_garbage buf_garbage input_garbage send_garbage sample (follow l st k) (follow l st (S k)).
Proof.
  intros H Hfin. revert st k H. induction l as [| ch l IH ]; intros st k H; [ injection H as ->; by destruct k |].
  cbn [schedule] in H. destruct (choose _ _ _ _ _ ch st) as [st' |] eqn:E; [| done ]. cbn [mbind option_bind] in H.
  destruct k as [| k ]; cbn [follow]; rewrite E.
  - destruct l; by apply (choose_sound _ _ _ _ _ ch).
  - by apply IH.
Qed.

End Follow.

(** Worker 0 waits for its queue, the reader sends the whole file and wakes it,
    and the workers send what they got; then only calls that change nothing. *)
Definition live_initial : Sys (dev := list Z) :=
  initial "video.ts" 0 (ForwardErrorCorrection_new (replicate 288 0) 0) (replicate 3 (1, double_zero)).
Definition live_schedule : list choice :=
  replicate 5 (CWorker 0) ++ replicate 30 CReader ++ replicate 19 (CWorker 0) ++
  replicate 20 (CWorker 1) ++ replicate 20 (CWorker 2).
Definition live_run : nat -> Sys :=
  @follow true (list Z) (list_device sample_files) (replicate 288 1) (replicate 2000 2)
    (replicate 2000 3) (replicate 2000 4) (fun _ _ => double_zero) live_schedule live_initial.

Definition live_end : Sys := live_run 94.

Lemma live_scheduled :
  @schedule true (list Z) (list_device sample_files) (replicate 288 1) (replicate 2000 2)
    (replicate 2000 3) (replicate 2000 4) (fun _ _ => double_zero) live_schedule live_initial = Some live_end.
Proof. vm_compute. reflexivity. Qed.

Lemma live_run_end k : (94 <= k)%nat -> live_run k = live_end.
Proof. intros Hk. apply follow_end; [ exact live_scheduled | exact Hk ]. Qed.

Lemma live_run_step k :
  @sys_step true (list Z) (list_device sample_files) (replicate 288 1) (replicate 2000 2)
    (replicate 2000 3) (replicate 2000 4) (fun _ _ => double_zero) (live_run k) (live_run (S k)).
Proof.
  apply (follow_step _ _ _ _ _ _ _ live_end); [ exact live_scheduled |].
  apply (choose_sound _ _ _ _ _ (CRequest (SetLossRate (-1) double_zero))). vm_compute. reflexivity.
Qed.

Lemma live_end_reader :
  @reader_step true (list Z) (list_device sample_files) (replicate 288 1) (replicate 2000 2) (replicate 2000 3)
    (reader live_end) (shared live_end) = None.
Proof. vm_compute. reflexivity. Qed.

Lemma live_end_main : main_step (main live_end) (reader live_end) (workers live_end) (shared live_end) = None.
Proof. vm_compute. reflexivity. Qed.

Lemma live_end_worker i w :
  workers live_end !! i = Some w ->
  worker_step (replicate 2000 4) (fun _ _ => double_zero) i w (shared live_end) = None.
Proof.
  assert (Hw : workers live_end = replicate 3 (mkWorker W_wait 0)) by (vm_compute; reflexivity).
  rewrite Hw. intros [-> Hi]%lookup_replicate.
  do 3 (destruct i as [| i ]; [ vm_compute; reflexivity |]). lia.
Qed.

Lemma live_run_fair :
  @fair true (list Z) (list_device sample_files) (replicate 288 1) (replicate 2000 2)
    (replicate 2000 3) (replicate 2000 4) (fun _ _ => double_zero) live_run.
Proof.
  split_and!.
  - intros n. exists (Nat.max n 94). split; [ lia | right ]. rewrite live_run_end by lia.
    intros (st' & rd' & s' & H & _). by rewrite live_end_reader in H.
  - intros n. exists (Nat.max n 94). split; [ lia | right ]. rewrite live_run_end by lia.
    intros (st' & m' & s' & H & _). by rewrite live_end_main in H.
  - intros i n. exists (Nat.max n 94). split; [ lia | right ]. intros k Hk. rewrite live_run_end by lia.
    intros (st' & w & w' & s' & Hw & H & _). by rewrite (live_end_worker i w Hw) in H.
Qed.

Definition live_on (st : Sys (dev := list Z)) : bool :=
  is_running (shared st) && match channels (shared st) !! 0%nat with Some c => enabled c =? 1 | None => false end.

Lemma live_run_on k :
  is_running (shared (live_run k)) = true /\
  exists c, channels (shared (live_run k)) !! 0%nat = Some c /\ enabled c = 1.
Proof.
  assert (H : live_on (live_run k) = true).
  { destruct (decide (94 <= k)%nat) as [Hk | Hk]; [ rewrite live_run_end by done; vm_compute; reflexivity |].
    assert (Hall : forallb (fun k => live_on (live_run k)) (seq 0 94) = true) by (vm_compute; reflexivity).
    apply (proj1 (forallb_forall _ _) Hall). apply in_seq. lia. }
  apply andb_true_iff in H as [Hr H]. split; [ done |].
  destruct (channels (shared (live_run k)) !! 0%nat) as [c |]; [| done ]. exists c. split; [ done | by apply Z.eqb_eq ].
Qed.

Lemma queued_packets_leave_witness :
  length (pushed 0 (trace (shared (live_run 16)))) = 1%nat /\ finished 0 (trace (shared (live_run 16))) = [] /\
  exists m, (16 <= m)%nat /\
    pushed 0 (trace (shared (live_run 16))) `prefix_of` finished 0 (trace (shared (live_run m))).
Proof.
  split; [ vm_compute; reflexivity |]. split; [ vm_compute; reflexivity |].
  apply (queued_packets_leave true (list_device sample_files) (list_regular sample_files)
    (replicate 288 1) (replicate 2000 2) (replicate 2000 3) (replicate 2000 4) (fun _ _ => double_zero)
    "video.ts" 0 (ForwardErrorCorrection_new (replicate 288 0) 0) (replicate 3 (1, double_zero)) live_run 0 16
    sample_garbage_ok).
  - split; [ done |]. repeat (apply Forall_cons_2; [ cbn; lia |]). constructor.
  - exact (fec_ready_new (replicate 288 0) 0 eq_refl).
  - lia.
  - reflexivity.
  - exact live_run_step.
  - exact live_run_fair.
  - intros k _. exact (live_run_on k).
Defined.
