(* ===== verification/Server.v ===== *)
(** * The life of a [Udpserver]

    Constructor, destructor, [initializeSockets], [SetFileName], [StartSending]
    and [StopSending] of [Channel_sim/Udpserver.cpp], around the sessions that
    [System] models: sockets and their addresses, the thread list, and the calls
    made to the socket library, recorded in order. Results of [WSAStartup],
    [socket], [inet_pton] and [QThread::create] are parameters. *)
From S2P Require Import Prelude.
From S2P Require Import Packet.
From S2P Require Import Encoder.
From S2P Require Import EncoderFacts.
From S2P Require Import Channel.
From S2P Require Import Worker.
From S2P Require Import System.
From S2P Require Import SystemInv.
From S2P Require Import Threads.
From S2P Require Import Fifo.
From stdpp Require Import base list list_numbers numbers option strings relations tactics.
From Stdlib Require Import ZArith Lia.

#[local] Open Scope Z_scope.

(** ** State *)

Definition INVALID_SOCKET : Z := 2 ^ 64 - 1.
Definition AF_INET : Z := 2.

Record sockaddr_in : Type := mkSockaddr { sin_family : Z; sin_port : Z; sin_addr : Z }.

(** Calls to the socket library. *)
Inductive wsa_call : Type :=
| WSAStartup (result : Z)
| CreateSocket (handle : Z)
| closesocket (handle : Z)
| WSACleanup.

#[export] Instance wsa_call_eq_dec : EqDecision wsa_call.
Proof. solve_decision. Defined.

Inductive task : Type := fileReader | socketWorker (i : nat).

(** [members] holds the atomics, the path, the channels and the encoder. *)
Record Udpserver : Type := mkUdpserver {
  sockets : list Z;
  targetAddr : list sockaddr_in;
  workerThreads : list task;
  members : Shared;
  wsa_log : list wsa_call
}.

Definition set_sockets (l : list Z) (u : Udpserver) : Udpserver :=
  mkUdpserver l (targetAddr u) (workerThreads u) (members u) (wsa_log u).
Definition set_threads (l : list task) (u : Udpserver) : Udpserver :=
  mkUdpserver (sockets u) (targetAddr u) l (members u) (wsa_log u).
Definition set_members (s : Shared) (u : Udpserver) : Udpserver :=
  mkUdpserver (sockets u) (targetAddr u) (workerThreads u) s (wsa_log u).
Definition log (c : wsa_call) (u : Udpserver) : Udpserver :=
  mkUdpserver (sockets u) (targetAddr u) (workerThreads u) (members u) (wsa_log u ++ [c]).

Section Server.
Variable startup_result : Z.
Variable socket_result : nat -> Z.        (* handle the i-th channel gets *)
Variable inet_pton : string -> option Z.
Variable create_ok : nat -> bool.         (* 0 is the reader, i + 1 worker i *)

(** ** Operations *)

(** [htons]: the bytes of a [u_short] swapped. *)
Definition htons (x : Z) : Z := (u16 x mod 256) * 256 + u16 x / 256.

(** [for (int j = 0; j < i; ++j) closesocket(sockets[j]);] *)
Fixpoint close_first (j : nat) (l : list Z) (u : Udpserver) : Udpserver :=
  match j, l with
  | S j, h :: l => close_first j l (log (closesocket h) u)
  | _, _ => u
  end.

(** The loop of [initializeSockets] from channel [i] on, [n] channels left. *)
Fixpoint create_sockets (n i : nat) (u : Udpserver) : Udpserver :=
  match n with
  | O => u
  | S n =>
      let u := set_sockets (<[i := socket_result i]> (sockets u)) (log (CreateSocket (socket_result i)) u) in
      if bool_decide (socket_result i = INVALID_SOCKET)
      then log WSACleanup (close_first i (sockets u) u)
      else create_sockets n (S i) u
  end.

Definition initializeSockets (u : Udpserver) : Udpserver :=
  let u := log (WSAStartup startup_result) u in
  if bool_decide (startup_result <> 0) then u
  else create_sockets (Z.to_nat SOCKET_POOL_SIZE) 0 u.

(** The constructor; [garbage] is what the array of sockets held, [f] the new
    encoder. *)
Definition Udpserver_new (garbage : list Z) (f : ForwardErrorCorrection) (dest_host : string)
    (baseport : Z) : Udpserver :=
  let addr i := mkSockaddr AF_INET (htons (baseport + i)) (default 0 (inet_pton dest_host)) in
  initializeSockets
    (mkUdpserver garbage (map addr (seqZ 0 SOCKET_POOL_SIZE)) []
       (mkShared false EmptyString 0 0 (replicate 3 (initial_channel 0 double_zero)) f []) []).

Definition with_path (p : string) (s : Shared) : Shared :=
  mkShared (is_running s) p (currentSocket s) (globalSeqCounter s) (channels s) (fec s) (trace s).
Definition with_channels (cs : list ChannelContext) (s : Shared) : Shared :=
  mkShared (is_running s) (currentFilePath s) (currentSocket s) (globalSeqCounter s) cs (fec s) (trace s).

Definition SetFileName (filePath : string) (u : Udpserver) : Udpserver :=
  set_members (with_path filePath (members u)) u.

(** [if (sockets[i] != INVALID_SOCKET) { closesocket(...); ... = INVALID_SOCKET; }] *)
Fixpoint close_sockets (l : list Z) : list Z * list wsa_call :=
  match l with
  | [] => ([], [])
  | h :: l =>
      let '(l, calls) := close_sockets l in
      (INVALID_SOCKET :: l,
       if bool_decide (h = INVALID_SOCKET) then calls else closesocket h :: calls)
  end.

(** Waking and joining the threads is the part [System] models; here they are
    gone when it is over. *)
Definition StopSending (u : Udpserver) : Udpserver :=
  let was_running := is_running (members u) in
  let u := set_members (with_running false (members u)) u in
  if negb was_running && bool_decide (length (workerThreads u) = 0%nat) then u
  else
    let u := set_threads [] u in
    let '(l, calls) := close_sockets (sockets u) in
    log WSACleanup
      (mkUdpserver l (targetAddr u) (workerThreads u) (members u) (wsa_log u ++ calls)).

(** The loop that starts the workers from [i] on. *)
Fixpoint start_workers (n i : nat) (u : Udpserver) : Udpserver :=
  match n with
  | O => u
  | S n =>
      if create_ok (S i) then start_workers n (S i) (set_threads (workerThreads u ++ [socketWorker i]) u)
      else StopSending u
  end.

Definition StartSending (u : Udpserver) : Udpserver :=
  if bool_decide (currentFilePath (members u) = EmptyString) then u
  else if is_running (members u) then u
  else
    let u := if bool_decide (length (workerThreads u) = 0%nat) then u else StopSending u in
    let u := set_threads [] u in
    let u := set_members (with_channels (map (with_queue []) (channels (members u))) (members u)) u in
    let u := set_members (with_currentSocket 0 (with_running true (members u))) u in
    if create_ok 0 then
      start_workers (Z.to_nat SOCKET_POOL_SIZE) 0 (set_threads (workerThreads u ++ [fileReader]) u)
    else set_members (with_running false (members u)) u.

(** The destructor. *)
Definition Udpserver_delete (u : Udpserver) : Udpserver := StopSending u.

(** [channelStateChange] and [setLossRate] while no thread is running. *)
Definition configure (r : request) (u : Udpserver) : Udpserver :=
  match r with
  | System.StopSending => u
  | r => match main_request r (members u) with Some (_, s) => set_members s u | None => u end
  end.

(** ** Sessions *)

Definition settings_of (s : Shared) : list (Z * double) :=
  map (fun c => (enabled c, lossRate c)) (channels s).

(** The four threads as [StartSending] has just started them. *)
Definition launch {dev} (u : Udpserver) : Sys (dev := dev) :=
  initial (currentFilePath (members u)) (globalSeqCounter (members u)) (fec (members u))
    (settings_of (members u)).

(** The members at the end of a session. *)
Definition absorb {dev} (st : Sys (dev := dev)) (u : Udpserver) : Udpserver :=
  set_members (shared st) u.


(** ** Operations in sequence *)

(** What can happen to a server: calls of its interface, and the threads of a
    session changing the shared members. *)
Inductive op : Type :=
| DoSetFileName (p : string)
| DoStart
| DoStop
| DoConfigure (r : request)
| DoThreads (s : Shared).

Definition run_op (u : Udpserver) (o : op) : Udpserver :=
  match o with
  | DoSetFileName p => SetFileName p u
  | DoStart => StartSending u
  | DoStop => StopSending u
  | DoConfigure r => configure r u
  | DoThreads s => set_members s u
  end.

Definition closes (l : list wsa_call) : list Z :=
  omap (fun c => match c with closesocket h => Some h | _ => None end) l.
Definition cleanups (l : list wsa_call) : nat :=
  length (filter (fun c => c = WSACleanup) l).

Definition handles : list Z := map socket_result [0; 1; 2]%nat.

(** The sockets are all open, or all closed and marked so. *)
Definition sockets_ok (addr : list sockaddr_in) (u : Udpserver) : Prop :=
  targetAddr u = addr /\
  ((sockets u = handles /\ closes (wsa_log u) = [] /\ cleanups (wsa_log u) = 0%nat) \/
   (sockets u = replicate 3 INVALID_SOCKET /\ closes (wsa_log u) = handles)).

Lemma closes_app l l' : closes (l ++ l') = closes l ++ closes l'.
Proof. apply omap_app. Qed.

Lemma close_sockets_closed n : close_sockets (replicate n INVALID_SOCKET) = (replicate n INVALID_SOCKET, []).
Proof. induction n as [| n IH ]; [ done |]. cbn [replicate close_sockets]. by rewrite IH, bool_decide_true. Qed.

Lemma close_sockets_open l :
  Forall (fun h => h <> INVALID_SOCKET) l ->
  close_sockets l = (replicate (length l) INVALID_SOCKET, map closesocket l).
Proof.
  induction 1 as [| h l Hh _ IH ]; [ done |]. cbn [close_sockets length map replicate].
  by rewrite IH, bool_decide_false.
Qed.

Lemma closes_map l : closes (map closesocket l) = l.
Proof. induction l as [| h l IH ]; [ done |]. cbn. by f_equal. Qed.

Hypothesis Hvalid : Forall (fun h => h <> INVALID_SOCKET) handles.

Lemma sockets_ok_stop addr u : sockets_ok addr u -> sockets_ok addr (StopSending u).
Proof.
  intros (Ha & Hs). unfold StopSending. cbn [sockets workerThreads set_members set_threads].
  destruct (negb _ && _); [ by split |].
  split; [ by case_match |]. right.
  assert (Hend : forall c, closes (wsa_log u ++ c) ++ [] = closes (wsa_log u) ++ closes c)
    by (intros; by rewrite closes_app, app_nil_r).
  destruct Hs as [(Hs & Hc & _) | (Hs & Hc)]; rewrite Hs, ?close_sockets_closed, ?close_sockets_open by done;
    cbn [sockets wsa_log log set_threads set_members]; (split; [ done |]);
    rewrite closes_app; change (closes [WSACleanup]) with (@nil Z); rewrite Hend, Hc, ?closes_map; done.
Qed.

(** Only these fields matter. *)
Lemma sockets_ok_frame addr u u' :
  sockets u' = sockets u -> targetAddr u' = targetAddr u -> wsa_log u' = wsa_log u ->
  sockets_ok addr u -> sockets_ok addr u'.
Proof. unfold sockets_ok. by intros -> -> ->. Qed.

Lemma sockets_ok_workers addr n i u : sockets_ok addr u -> sockets_ok addr (start_workers n i u).
Proof.
  revert i u. induction n as [| n IH ]; intros i u H; [ done |]. cbn [start_workers].
  destruct (create_ok _); [ apply IH; by eapply sockets_ok_frame | by apply sockets_ok_stop ].
Qed.

Lemma sockets_ok_start addr u : sockets_ok addr u -> sockets_ok addr (StartSending u).
Proof.
  intros H. unfold StartSending. destruct (bool_decide _); [ done |]. destruct (is_running _); [ done |].
  assert (H1 : sockets_ok addr (if bool_decide (length (workerThreads u) = 0%nat) then u else StopSending u))
    by (destruct (bool_decide _); [ done | by apply sockets_ok_stop ]).
  revert H1. generalize (if bool_decide (length (workerThreads u) = 0%nat) then u else StopSending u).
  intros u1 H1. destruct (create_ok 0); [ apply sockets_ok_workers |]; by eapply sockets_ok_frame, H1.
Qed.

Lemma sockets_ok_op addr u o : sockets_ok addr u -> sockets_ok addr (run_op u o).
Proof.
  intros H. destruct o as [p | | | r | s]; cbn [run_op]; auto using sockets_ok_start, sockets_ok_stop.
  unfold configure. destruct r; try done; by destruct (main_request _ _) as [[]|].
Qed.

Lemma Udpserver_new_sockets garbage f host port :
  startup_result = 0 -> length garbage = 3%nat ->
  sockets_ok (map (fun i => mkSockaddr AF_INET (htons (port + i)) (default 0 (inet_pton host))) [0; 1; 2])
    (Udpserver_new garbage f host port).
Proof.
  intros H0 Hg. unfold Udpserver_new, initializeSockets. rewrite bool_decide_false by (intros Hn; by apply Hn).
  destruct garbage as [| a [| b [| c [|]]]]; try discriminate Hg.
  change (Z.to_nat SOCKET_POOL_SIZE) with 3%nat. unfold handles in Hvalid. cbn [map] in Hvalid.
  apply Forall_cons_1 in Hvalid as [V0 V]. apply Forall_cons_1 in V as [V1 V]. apply Forall_cons_1 in V as [V2 _].
  cbn [create_sockets sockets set_sockets log].
  rewrite !bool_decide_false by done. split; [ done |]. by left.
Qed.

End Server.

(** ** Starting and stopping *)

Definition all_tasks : list task := [fileReader; socketWorker 0; socketWorker 1; socketWorker 2].

(** Every thread can be created: what [StartSending] does when it starts. *)
Lemma StartSending_starts create_ok u :
  (forall i, create_ok i = true) -> currentFilePath (members u) <> EmptyString ->
  is_running (members u) = false -> workerThreads u = [] ->
  StartSending create_ok u =
    mkUdpserver (sockets u) (targetAddr u) all_tasks
      (with_currentSocket 0 (with_running true
         (with_channels (map (with_queue []) (channels (members u))) (members u)))) (wsa_log u).
Proof.
  intros Hc Hp Hr Ht. unfold StartSending. rewrite bool_decide_false by done. rewrite Hr, Ht.
  rewrite bool_decide_true by done. change (Z.to_nat SOCKET_POOL_SIZE) with 3%nat.
  rewrite Hc. cbn [start_workers]. rewrite !Hc. done.
Qed.

Lemma StopSending_stops u :
  is_running (members u) = true \/ workerThreads u <> [] ->
  StopSending u =
    let '(l, calls) := close_sockets (sockets u) in
    mkUdpserver l (targetAddr u) [] (with_running false (members u)) ((wsa_log u ++ calls) ++ [WSACleanup]).
Proof.
  intros H. unfold StopSending. cbn [sockets workerThreads set_members set_threads].
  replace (negb _ && _) with false; [ by destruct (close_sockets _) |].
  destruct H as [-> | H]; [ done |]. symmetry. apply andb_false_intro2, bool_decide_eq_false.
  by destruct (workerThreads u).
Qed.

(** Starting with threads of an earlier session left over. *)
Lemma StartSending_again create_ok u :
  (forall i, create_ok i = true) -> currentFilePath (members u) <> EmptyString ->
  is_running (members u) = false -> workerThreads u <> [] ->
  StartSending create_ok u = StartSending create_ok (StopSending u).
Proof.
  intros Hc Hp Hr Ht.
  assert (Hs : currentFilePath (members (StopSending u)) = currentFilePath (members u) /\
    is_running (members (StopSending u)) = false /\ workerThreads (StopSending u) = []).
  { rewrite StopSending_stops by auto. by destruct (close_sockets _). }
  destruct Hs as (Hp' & Hr' & Ht').
  rewrite (StartSending_starts create_ok (StopSending u)) by (done || by rewrite Hp').
  unfold StartSending. rewrite bool_decide_false, Hr by done.
  rewrite bool_decide_false by (by destruct (workerThreads u)).
  change (Z.to_nat SOCKET_POOL_SIZE) with 3%nat. rewrite Hc. cbn [start_workers]. by rewrite !Hc.
Qed.

(** A server whose sockets could all be created. *)
Definition fresh_server (hs : list Z) (addr : list sockaddr_in) (u : Udpserver) : Prop :=
  length hs = 3%nat /\ Forall (fun h => h <> INVALID_SOCKET) hs /\
  sockets u = hs /\ targetAddr u = addr /\ workerThreads u = [] /\ is_running (members u) = false.

Lemma fresh_start_stop create_ok hs addr u p :
  (forall i, create_ok i = true) -> fresh_server hs addr u -> p <> EmptyString ->
  let u1 := StartSending create_ok (SetFileName p u) in
  workerThreads u1 = all_tasks /\ is_running (members u1) = true /\ sockets u1 = hs /\
  currentFilePath (members u1) = p /\ wsa_log u1 = wsa_log u /\
  forall u2, sockets u2 = hs -> workerThreads u2 = all_tasks ->
    sockets (StopSending u2) = replicate 3 INVALID_SOCKET /\ workerThreads (StopSending u2) = [] /\
    members (StopSending u2) = with_running false (members u2) /\
    wsa_log (StopSending u2) = (wsa_log u2 ++ map closesocket hs) ++ [WSACleanup].
Proof.
  intros Hc (Hl & Hv & Hs & Ha & Ht & Hr) Hp u1. unfold u1.
  rewrite StartSending_starts by done. split_and!; try done. intros u2 Hs2 Ht2.
  rewrite StopSending_stops by (right; by rewrite Ht2). rewrite Hs2, close_sockets_open by done.
  by rewrite Hl.
Qed.

(** ** Sessions follow one another *)

(** What a session needs of the members it starts from. *)
Definition can_launch (s : Shared) : Prop :=
  settings_ok (settings_of s) /\ fec_ready 0 (fec s) /\ 0 <= globalSeqCounter s < 256.

Lemma closed_reader_done {dev} (mode : CheckMode) (D : Device dev) mg bg ig sg sample
    (Hg : garbage_ok mg bg ig sg) path seq0 f settings st :
  rtc (sys_step mg bg ig sg sample) (initial path seq0 f settings) st -> main st = M_closed ->
  reader st = R_done.
Proof.
  intros Hr Hm. destruct Hg as (Hmg & Hbg & Hig & Hsg).
  assert (Hj : joined st)
    by (apply (reachable_joined mg bg ig sg sample Hmg Hbg Hig Hsg (initial path seq0 f settings)); [ by intros k | done ]).
  unfold joined in Hj. rewrite Hm in Hj. specialize (Hj 0%nat ltac:(lia)). cbn in Hj. by destruct (reader st).
Qed.

Lemma settings_of_ok {dev} (st : Sys (dev := dev)) : sys_ok st -> settings_ok (settings_of (shared st)).
Proof.
  intros ((Hlc & Hlw & Hall) & _). unfold settings_ok, settings_of. rewrite length_map. split; [ done |].
  apply Forall_lookup_2. intros i p Hp. rewrite list_lookup_fmap in Hp.
  destruct (channels (shared st) !! i) as [c |] eqn:Hc; [| done ]. injection Hp as <-.
  destruct (lookup_lt_is_Some_2 (workers st) i) as [w Hw]; [ apply lookup_lt_Some in Hc; lia |].
  by destruct (Hall i c w Hc Hw) as (_ & _ & _ & _ & He & _).
Qed.

(** ** Theorems *)


Definition sample_server : Udpserver :=
  mkUdpserver [4; 5; 6] [] all_tasks (shared sample_initial) [].
(** Stop at once: the waiters are woken, the threads leave, they are joined. *)
Definition stop_schedule : list choice :=
  [CRequest System.StopSending] ++ replicate 12 CMain ++ replicate 3 CReader ++
  [CWorker 0; CWorker 1; CWorker 2] ++ replicate 5 CMain.
Definition sample_closed : Sys (dev := list Z) :=
  match @schedule true (list Z) (list_device sample_files) (replicate 288 1) (replicate 2000 2)
          (replicate 2000 3) (replicate 2000 4) (fun _ _ => double_zero) stop_schedule sample_initial with
  | Some st => st
  | None => sample_initial
  end.

Lemma sample_closed_reachable : rtc sample_step sample_initial sample_closed.
Proof.
  unfold sample_closed. destruct (schedule _ _ _ _ _ _ _) as [st |] eqn:E; [| done ].
  by apply schedule_sound in E.
Qed.



Definition sample_create : nat -> bool := fun _ => true.
Definition sample_new : Udpserver :=
  Udpserver_new 0 (fun i => 100 + Z.of_nat i) (fun _ => Some 16777343) [7; 7; 7]
    (ForwardErrorCorrection_new (replicate 288 0) 0) "127.0.0.1" 8000.


(** A server sends only once in its life. After a stop, [StartSending]
    starts all four threads again although the sockets are closed and
    [WSACleanup] has been called, and nothing creates new ones: every [sendto]
    of the new session is on [INVALID_SOCKET]. The same happens, without any
    call of [StopSending] by the user, after a session whose file could not be
    opened. *)
Theorem restart_on_closed_sockets create_ok hs addr u p :
  (forall i, create_ok i = true) -> fresh_server hs addr u -> p <> EmptyString ->
  let u1 := StartSending create_ok (SetFileName p u) in
  let again u2 := workerThreads u2 = all_tasks /\ is_running (members u2) = true /\
                  sockets u2 = replicate 3 INVALID_SOCKET /\ closes (wsa_log u2) = closes (wsa_log u) ++ hs in
  again (StartSending create_ok (StopSending u1)) /\
  again (StartSending create_ok (set_members (with_running false (members u1)) u1)).
Proof.
  intros Hc Hfresh Hp u1 again.
  destruct (fresh_start_stop create_ok hs addr u p Hc Hfresh Hp) as (Ht & Hr & Hs & Hpath & Hlog & Hstop).
  fold u1 in Ht, Hr, Hs, Hpath, Hlog.
  assert (Hagain : forall u2, sockets u2 = hs -> workerThreads u2 = all_tasks ->
    currentFilePath (members u2) = p -> wsa_log u2 = wsa_log u -> again (StartSending create_ok (StopSending u2))).
  { intros u2 Hs2 Ht2 Hp2 Hl2. destruct (Hstop u2 Hs2 Ht2) as (Hs3 & Ht3 & Hm3 & Hl3).
    rewrite StartSending_starts; [| done | by rewrite Hm3, <- Hp2 in * | by rewrite Hm3 | done ].
    split_and!; cbn [workerThreads members sockets wsa_log]; try done.
    rewrite Hl3, !closes_app, closes_map, Hl2. apply app_nil_r. }
  split; [ by apply Hagain |].
  rewrite StartSending_again; [ by apply Hagain | done | by rewrite <- Hpath in Hp | done | by cbn; rewrite Ht ].
Qed.

Lemma restart_on_closed_sockets_witness :
  let u1 := StartSending sample_create (SetFileName "video.ts" sample_new) in
  let again u2 := workerThreads u2 = all_tasks /\ is_running (members u2) = true /\
                  sockets u2 = replicate 3 INVALID_SOCKET /\ closes (wsa_log u2) = [] ++ [100; 101; 102] in
  again (StartSending sample_create (StopSending u1)) /\
  again (StartSending sample_create (set_members (with_running false (members u1)) u1)).
Proof.
  apply (restart_on_closed_sockets sample_create [100; 101; 102] (targetAddr sample_new) sample_new "video.ts");
    [ reflexivity | | discriminate ].
  split; [ reflexivity |]. split; [ repeat apply Forall_cons_2; try discriminate; constructor |].
  repeat split.
Defined.

(** When a socket cannot be created the constructor closes the earlier ones
    but keeps their handles: a later stop closes the first one a second time,
    and passes the member that was never written to [closesocket]. *)
Theorem failed_init_closes_twice socket_result inet_pton create_ok g0 g1 g2 f host port p :
  socket_result 0%nat <> INVALID_SOCKET -> socket_result 1%nat = INVALID_SOCKET -> g2 <> INVALID_SOCKET ->
  (forall i, create_ok i = true) -> p <> EmptyString ->
  let u := Udpserver_new 0 socket_result inet_pton [g0; g1; g2] f host port in
  closes (wsa_log (StopSending (StartSending create_ok (SetFileName p u)))) =
    [socket_result 0%nat; socket_result 0%nat; g2].
Proof.
  intros V0 V1 V2 Hc Hp. unfold Udpserver_new, initializeSockets. rewrite bool_decide_false by (intros Hn; by apply Hn).
  change (Z.to_nat SOCKET_POOL_SIZE) with 3%nat. cbn [create_sockets sockets set_sockets log].
  rewrite (bool_decide_false _ V0), (bool_decide_true _ V1).
  cbn zeta. rewrite StartSending_starts by done. rewrite StopSending_stops by (left; done).
  cbn [sockets insert list_insert close_first SetFileName set_members close_sockets log set_sockets].
  rewrite (bool_decide_false _ V0), (bool_decide_false _ V2), (bool_decide_true _ V1). done.
Qed.

Lemma failed_init_closes_twice_witness :
  let results i := match i with O => 100 | _ => INVALID_SOCKET end in
  let u := Udpserver_new 0 results (fun _ => None) [0; 0; 0]
             (ForwardErrorCorrection_new (replicate 288 0) 0) "127.0.0.1" 8000 in
  closes (wsa_log (StopSending (StartSending sample_create (SetFileName "video.ts" u)))) = [100; 100; 0].
Proof.
  apply (failed_init_closes_twice (fun i => match i with O => 100 | _ => INVALID_SOCKET end) (fun _ => None)
    sample_create 0 0 0 (ForwardErrorCorrection_new (replicate 288 0) 0) "127.0.0.1" 8000 "video.ts");
    first [ discriminate | reflexivity ].
Defined.
