(* ===== verification/Gui.v ===== *)
(** * The main window and the log

    [Channel_sim/Channel_sim.cpp]: the slots of the window, the signals they
    emit and what the connections of the constructor make of them;
    [Channel_sim/LogEmitter.cpp]: the message handler that copies log lines into
    the window; [main.cpp], which installs it. Widgets are their values; the
    text Qt makes of a number and the clock are parameters. *)
From S2P Require Import Prelude.
From S2P Require Import Encoder.
From S2P Require Import Channel.
From S2P Require Import System.
From S2P Require Import Threads.
From S2P Require Import Server.
From stdpp Require Import base list list_numbers numbers option strings tactics.
From Stdlib Require Import ZArith Lia SpecFloat.

#[local] Open Scope Z_scope.

(** ** State *)

(** [checkState] is 0, 1 or 2 (unchecked, partially checked, checked). *)
Record Channel_sim : Type := mkChannel_sim {
  udp : Udpserver;
  file_name : string;
  checkState : list Z;
  barValue : list Z;
  lostrate_label : list string;
  statusText : string
}.

Definition set_udp (u : Udpserver) (g : Channel_sim) : Channel_sim :=
  mkChannel_sim u (file_name g) (checkState g) (barValue g) (lostrate_label g) (statusText g).
Definition set_file_name (f : string) (g : Channel_sim) : Channel_sim :=
  mkChannel_sim (udp g) f (checkState g) (barValue g) (lostrate_label g) (statusText g).
Definition set_check (i : nat) (v : Z) (g : Channel_sim) : Channel_sim :=
  mkChannel_sim (udp g) (file_name g) (<[i := v]> (checkState g)) (barValue g) (lostrate_label g) (statusText g).
Definition set_bar (i : nat) (v : Z) (g : Channel_sim) : Channel_sim :=
  mkChannel_sim (udp g) (file_name g) (checkState g) (<[i := v]> (barValue g)) (lostrate_label g) (statusText g).
Definition setText (i : nat) (t : string) (g : Channel_sim) : Channel_sim :=
  mkChannel_sim (udp g) (file_name g) (checkState g) (barValue g) (<[i := t]> (lostrate_label g)) (statusText g).
Definition showMessage (t : string) (g : Channel_sim) : Channel_sim :=
  mkChannel_sim (udp g) (file_name g) (checkState g) (barValue g) (lostrate_label g) t.

Section Window.
Variable arg : double -> string.          (* what QString::arg makes of a double *)
Variable create_ok : nat -> bool.
Variable startup_result : Z.
Variable socket_result : nat -> Z.
Variable inet_pton : string -> option Z.

(** ** Signals: the connections to the server *)

Definition ChannelStateChanging (channel : Z) (state : bool) (g : Channel_sim) : Channel_sim :=
  set_udp (configure (ChannelStateChange channel state) (udp g)) g.
Definition ChannelLostRateChanging (channel : Z) (rate : double) (g : Channel_sim) : Channel_sim :=
  set_udp (configure (SetLossRate channel rate) (udp g)) g.

(** ** Slots *)

Definition getChannelState_1 (g : Channel_sim) : Channel_sim :=
  if negb (checkState g !!! 0%nat =? 0)
  then showMessage "Channel 1 open" (ChannelStateChanging 0 true g)
  else showMessage "Channel 1 close " (ChannelStateChanging 0 false g).
Definition getChannelState_2 (g : Channel_sim) : Channel_sim :=
  if negb (checkState g !!! 1%nat =? 0)
  then showMessage "Channel 2 open" (ChannelStateChanging 1 true g)
  else showMessage "Channel 2 close" (ChannelStateChanging 1 false g).
Definition getChannelState_3 (g : Channel_sim) : Channel_sim :=
  if negb (checkState g !!! 2%nat =? 0)
  then showMessage "Channel 3 open" (ChannelStateChanging 2 true g)
  else showMessage "Channel 3 close" (ChannelStateChanging 2 false g).

(** [(double)vaule / 1000.0] and the label text. *)
Definition bar_rate (vaule : Z) : double := double_div (double_of_Z vaule) (double_of_Z 1000).
Definition drop_label (vaule : Z) : string :=
  ("Drop:%" +:+ arg (double_div (double_of_Z vaule) (double_of_Z 10)))%stdpp.

Definition getLostrate_1 (vaule : Z) (g : Channel_sim) : Channel_sim :=
  ChannelLostRateChanging 0 (bar_rate vaule) (setText 0 (drop_label vaule) g).
Definition getLostrate_2 (vaule : Z) (g : Channel_sim) : Channel_sim :=
  ChannelLostRateChanging 1 (bar_rate vaule) (setText 1 (drop_label vaule) g).
Definition getLostrate_3 (vaule : Z) (g : Channel_sim) : Channel_sim :=
  ChannelLostRateChanging 2 (bar_rate vaule) (setText 2 (drop_label vaule) g).

(** [chosen] is the result of the dialog, empty when it was cancelled. *)
Definition Readfile (chosen : string) (g : Channel_sim) : Channel_sim :=
  let g := set_file_name chosen g in
  set_udp (SetFileName (file_name g) (udp g)) g.

Definition start_message (g : Channel_sim) : Channel_sim := showMessage "Start sending" g.

(** The constructor: the widgets as the form sets them up, the server. *)
Definition Channel_sim_new (garbage : list Z) (f : ForwardErrorCorrection) : Channel_sim :=
  mkChannel_sim
    (Udpserver_new startup_result socket_result inet_pton garbage f "225.0.10.101" 600)
    EmptyString [0; 0; 0] [0; 0; 0] (replicate 3 EmptyString) EmptyString.

(** ** User actions *)

Inductive action : Type :=
| Check1 (state : Z) | Check2 (state : Z) | Check3 (state : Z)
| Slide1 (value : Z) | Slide2 (value : Z) | Slide3 (value : Z)
| ChooseFile (chosen : string)
| ClickPlay.

(** A widget takes its new value, then its signal runs the connected slots. *)
Definition perform (g : Channel_sim) (a : action) : Channel_sim :=
  match a with
  | Check1 s => getChannelState_1 (set_check 0 s g)
  | Check2 s => getChannelState_2 (set_check 1 s g)
  | Check3 s => getChannelState_3 (set_check 2 s g)
  | Slide1 v => getLostrate_1 v (set_bar 0 v g)
  | Slide2 v => getLostrate_2 v (set_bar 1 v g)
  | Slide3 v => getLostrate_3 v (set_bar 2 v g)
  | ChooseFile p => Readfile p g
  | ClickPlay => start_message (set_udp (StartSending create_ok (udp g)) g)
  end.

End Window.

(** ** The log *)

Inductive QtMsgType : Type := QtDebugMsg | QtWarningMsg | QtCriticalMsg | QtFatalMsg | QtInfoMsg.

(** Lines of the log window, and calls of the handler Qt had before. *)
Record Log : Type := mkLog { logTextEdit : list string; previous_calls : list (QtMsgType * string) }.

Definition msg_prefix (type : QtMsgType) : string :=
  match type with
  | QtDebugMsg => EmptyString
  | QtInfoMsg => "INFO: "
  | QtWarningMsg => "警告: "
  | QtCriticalMsg => "严重错误: "
  | QtFatalMsg => "致命错误: "
  end.

Definition appendLogToUi (message : string) (l : Log) : Log :=
  mkLog (logTextEdit l ++ [message]) (previous_calls l).

(** [has_instance], [has_previous]: the two pointers the handler tests. *)
Definition customMessageHandler (has_instance has_previous : bool) (now : string) (type : QtMsgType)
    (msg : string) (l : Log) : Log :=
  let formattedMessage := (now +:+ msg_prefix type +:+ msg)%stdpp in
  let l := if has_instance then appendLogToUi formattedMessage l else l in
  if has_previous then mkLog (logTextEdit l) (previous_calls l ++ [(type, msg)]) else l.

(** ** Lemmas *)

Definition on_off (state : Z) : Z := if state =? 0 then 0 else 1.

(** The settings the widgets show. *)
Definition shown_settings (g : Channel_sim) : list (Z * double) :=
  zip_with (fun s v => (on_off s, bar_rate v)) (checkState g) (barValue g).

Lemma bar_rate_unclamped v : 0 <= v <= 1000 -> clamped_rate (bar_rate v) = bar_rate v.
Proof.
  intros Hv. destruct (decide (v = 0)) as [-> |]; [ vm_compute; reflexivity |].
  destruct (decide (v = 1000)) as [-> |]; [ vm_compute; reflexivity |].
  assert (H : all_between 1 999 (fun v => SFltb (bar_rate v) double_one && SFltb double_zero (bar_rate v)) = true)
    by (vm_compute; reflexivity).
  pose proof (all_between_spec _ _ _ H v ltac:(lia)) as Hb.
  apply andb_true_iff in Hb as [H1 H0]. unfold clamped_rate, std_min, std_max. by rewrite H1, H0.
Qed.

Lemma settings_insert s i c :
  settings_of (with_channel i c s) = <[i := (enabled c, lossRate c)]> (settings_of s).
Proof. apply (list_fmap_insert (fun c => (enabled c, lossRate c))). Qed.

Lemma settings_lookup s i e r :
  settings_of s !! i = Some (e, r) -> exists c, channels s !! i = Some c /\ enabled c = e /\ lossRate c = r.
Proof.
  unfold settings_of. rewrite list_lookup_fmap. destruct (channels s !! i) as [c |]; [| done ].
  intros [= <- <-]. by exists c.
Qed.

Lemma pool_index i : (i < 3)%nat ->
  (Z.of_nat i <? 0) || (SOCKET_POOL_SIZE <=? Z.of_nat i) = false /\
  (0 <=? Z.of_nat i) && (Z.of_nat i <? SOCKET_POOL_SIZE) = true.
Proof. intros. unfold SOCKET_POOL_SIZE. split; lia. Qed.

Lemma configure_state u i b e r :
  (i < 3)%nat -> settings_of (members u) !! i = Some (e, r) ->
  settings_of (members (configure (ChannelStateChange (Z.of_nat i) b) u)) =
    <[i := (if b then 1 else 0, r)]> (settings_of (members u)).
Proof.
  intros Hi Hs. apply settings_lookup in Hs as (c & Hc & _ & <-). unfold configure, main_request.
  rewrite (proj1 (pool_index i Hi)), Nat2Z.id, Hc. cbn [mbind option_bind].
  destruct (negb _ && b); cbn [members set_members]; by rewrite settings_insert.
Qed.

Lemma configure_rate u i x e r :
  (i < 3)%nat -> settings_of (members u) !! i = Some (e, r) ->
  settings_of (members (configure (SetLossRate (Z.of_nat i) x) u)) =
    <[i := (e, clamped_rate x)]> (settings_of (members u)).
Proof.
  intros Hi Hs. apply settings_lookup in Hs as (c & Hc & <- & _). unfold configure, main_request.
  rewrite (proj2 (pool_index i Hi)), Nat2Z.id, Hc. cbn [mbind option_bind members set_members].
  by rewrite settings_insert.
Qed.

Lemma settings_stop u : settings_of (members (StopSending u)) = settings_of (members u).
Proof. unfold StopSending. by repeat case_match. Qed.

Lemma settings_workers create_ok n i u :
  settings_of (members (start_workers create_ok n i u)) = settings_of (members u).
Proof.
  revert i u. induction n as [| n IH ]; intros i u; [ done |]. cbn [start_workers].
  destruct (create_ok _); [ by rewrite IH | apply settings_stop ].
Qed.

Lemma settings_start create_ok u :
  settings_of (members (StartSending create_ok u)) = settings_of (members u).
Proof.
  unfold StartSending. destruct (bool_decide _); [ done |]. destruct (is_running _); [ done |].
  assert (H1 : settings_of (members (if bool_decide (length (workerThreads u) = 0%nat) then u else StopSending u))
    = settings_of (members u)) by (destruct (bool_decide _); [ done | apply settings_stop ]).
  rewrite <- H1. generalize (if bool_decide (length (workerThreads u) = 0%nat) then u else StopSending u).
  intros u1. destruct (create_ok 0%nat); rewrite ?settings_workers;
    unfold settings_of; cbn [members set_members set_threads channels]; cbn; by rewrite map_map.
Qed.

Lemma members_close_first j l u : members (close_first j l u) = members u.
Proof. revert l u. induction j as [| j IH ]; intros [| h l] u; try done. cbn [close_first]. by rewrite IH. Qed.

Lemma members_create socket_result n i u : members (create_sockets socket_result n i u) = members u.
Proof.
  revert i u. induction n as [| n IH ]; intros i u; [ done |]. cbn [create_sockets].
  destruct (bool_decide _); [| by rewrite IH ]. cbn [log members]. by rewrite members_close_first.
Qed.

(** The server's settings are those the widgets show. *)
Definition mirrors (g : Channel_sim) : Prop :=
  settings_of (members (udp g)) = shown_settings g /\
  length (checkState g) = 3%nat /\ length (barValue g) = 3%nat.

Lemma shown_lookup g i :
  mirrors g -> (i < 3)%nat ->
  exists s v, checkState g !! i = Some s /\ barValue g !! i = Some v /\
    settings_of (members (udp g)) !! i = Some (on_off s, bar_rate v).
Proof.
  intros (Hm & Hc & Hb) Hi.
  destruct (lookup_lt_is_Some_2 (checkState g) i) as [s Hs]; [ lia |].
  destruct (lookup_lt_is_Some_2 (barValue g) i) as [v Hv]; [ lia |].
  exists s, v. split_and!; [ done | done |]. rewrite Hm. apply lookup_zip_with_Some. eauto.
Qed.

Lemma mirrors_check g i s t :
  mirrors g -> (i < 3)%nat ->
  mirrors (showMessage t (ChannelStateChanging (Z.of_nat i) (negb (s =? 0)) (set_check i s g))).
Proof.
  intros Hm Hi. destruct (shown_lookup g i Hm Hi) as (s0 & v & Hs0 & Hv & Hset).
  destruct Hm as (Hm & Hc & Hb). split_and!; [| cbn; by rewrite length_insert | done ].
  cbn [showMessage ChannelStateChanging udp set_udp set_check].
  rewrite (configure_state _ i _ _ _ Hi Hset), Hm. unfold shown_settings. cbn [checkState barValue showMessage
    ChannelStateChanging set_udp set_check].
  rewrite <- (list_insert_id (barValue g) i v Hv) at 2. rewrite <- insert_zip_with. f_equal.
  unfold on_off. by destruct (s =? 0).
Qed.

Lemma mirrors_toggle g i s opened closed :
  mirrors g -> (i < 3)%nat ->
  mirrors (if negb (s =? 0)
           then showMessage opened (ChannelStateChanging (Z.of_nat i) true (set_check i s g))
           else showMessage closed (ChannelStateChanging (Z.of_nat i) false (set_check i s g))).
Proof.
  intros Hm Hi. destruct (s =? 0) eqn:E;
    [ pose proof (mirrors_check g i s closed Hm Hi) as H | pose proof (mirrors_check g i s opened Hm Hi) as H ];
    by rewrite E in H.
Qed.

Lemma mirrors_slide arg g i v :
  mirrors g -> (i < 3)%nat -> 0 <= v <= 1000 ->
  mirrors (ChannelLostRateChanging (Z.of_nat i) (bar_rate v) (setText i (drop_label arg v) (set_bar i v g))).
Proof.
  intros Hm Hi Hv. destruct (shown_lookup g i Hm Hi) as (s & v0 & Hs & Hv0 & Hset).
  destruct Hm as (Hm & Hc & Hb). split_and!; [| done | cbn; by rewrite length_insert ].
  cbn [ChannelLostRateChanging udp set_udp set_bar setText].
  rewrite (configure_rate _ i _ _ _ Hi Hset), Hm, bar_rate_unclamped by done.
  unfold shown_settings. cbn [checkState barValue ChannelLostRateChanging set_udp set_bar setText].
  rewrite <- (list_insert_id (checkState g) i s Hs) at 2. by rewrite <- insert_zip_with.
Qed.

(** Values the scroll bars can take; they stand for permille. *)
Definition action_ok (a : action) : Prop :=
  match a with Slide1 v | Slide2 v | Slide3 v => 0 <= v <= 1000 | _ => True end.

Lemma mirrors_perform arg create_ok g a : action_ok a -> mirrors g -> mirrors (perform arg create_ok g a).
Proof.
  intros Ha Hm. pose proof Hm as (Hset & Hc & Hb).
  assert (Hself : forall i s, (i < 3)%nat -> checkState (set_check i s g) !!! i = s)
    by (intros; apply list_lookup_total_insert_eq; lia).
  destruct a as [s | s | s | v | v | v | p | ]; cbn [perform action_ok] in *.
  - unfold getChannelState_1. rewrite Hself by lia. exact (mirrors_toggle g 0 s _ _ Hm ltac:(lia)).
  - unfold getChannelState_2. rewrite Hself by lia. exact (mirrors_toggle g 1 s _ _ Hm ltac:(lia)).
  - unfold getChannelState_3. rewrite Hself by lia. exact (mirrors_toggle g 2 s _ _ Hm ltac:(lia)).
  - exact (mirrors_slide arg g 0 v Hm ltac:(lia) Ha).
  - exact (mirrors_slide arg g 1 v Hm ltac:(lia) Ha).
  - exact (mirrors_slide arg g 2 v Hm ltac:(lia) Ha).
  - done.
  - split_and!; [| done | done ]. cbn [udp start_message showMessage set_udp]. by rewrite settings_start.
Qed.

(** ** Theorems *)


