(* ===== verification/Ascending.v ===== *)
(** * Ascending lists of integers

    Positions in a mask and offsets of sequence numbers come as strictly
    ascending lists; the facts about such lists the FEC components share. *)
From S2P Require Import Prelude.
From stdpp Require Import base list list_numbers numbers option tactics sorting.
From Stdlib Require Import ZArith Lia Sorted.

#[local] Open Scope Z_scope.

Lemma sorted_apart (gs : list Z) j k a b :
  StronglySorted Z.lt gs -> gs !! j = Some a -> gs !! k = Some b -> (j <= k)%nat -> Z.of_nat k - Z.of_nat j <= b - a.
Proof.
  intros Hs. revert j k a b. induction Hs as [| g gs Hs IH Hall ]; intros j k a b Ha Hb Hjk; [ done |].
  destruct j as [| j ], k as [| k ]; try lia; cbn in Ha, Hb.
  - simplify_eq. lia.
  - simplify_eq. destruct (gs !! 0%nat) as [g0 |] eqn:E0.
    + specialize (IH 0%nat k g0 b E0 Hb ltac:(lia)). pose proof (Forall_lookup_1 _ _ _ _ Hall E0). cbn in *. lia.
    + apply lookup_ge_None in E0. apply lookup_lt_Some in Hb. lia.
  - specialize (IH j k a b Ha Hb ltac:(lia)). lia.
Qed.

Lemma sorted_lookup l i j x y :
  StronglySorted Z.lt l -> l !! i = Some x -> l !! j = Some y -> (x <? y) = bool_decide (i < j)%nat.
Proof.
  intros Hs. revert i j. induction Hs as [| z l _ IH Hz ]; intros i j Hx Hy; [ done |].
  rewrite list.Forall_forall in Hz. destruct i as [| i ], j as [| j ]; cbn in Hx, Hy.
  - injection Hx as ->. injection Hy as ->. rewrite Z.ltb_irrefl. by rewrite bool_decide_false by lia.
  - injection Hx as ->. rewrite bool_decide_true by lia. apply Z.ltb_lt, Hz. by eapply list_elem_of_lookup_2.
  - injection Hy as ->. rewrite bool_decide_false by lia. apply Z.ltb_ge. apply list_elem_of_lookup_2, Hz in Hx. lia.
  - rewrite (IH i j Hx Hy). apply bool_decide_ext. lia.
Qed.

Lemma sorted_nodup (l : list Z) : StronglySorted Z.lt l -> NoDup l.
Proof.
  induction 1 as [| x l _ IH Hx ]; constructor; [| done ]. intros Hin.
  pose proof (proj1 (list.Forall_forall _ _) Hx x Hin). lia.
Qed.

Lemma sorted_filter (P : Z -> bool) (l : list Z) : StronglySorted Z.lt l -> StronglySorted Z.lt (filter (fun x => P x = true) l).
Proof.
  induction 1 as [| x l _ IH Hx ]; [ constructor |]. rewrite filter_cons. case_decide; [| done ].
  constructor; [ done |]. apply list.Forall_forall. intros y [_ Hy]%list_elem_of_filter.
  exact (proj1 (list.Forall_forall _ _) Hx y Hy).
Qed.

Lemma sorted_seqZ m n : StronglySorted Z.lt (seqZ m n).
Proof.
  destruct (Z.le_gt_cases n 0); [ rewrite seqZ_nil by lia; constructor |].
  rewrite <- (Z2Nat.id n) by lia. generalize (Z.to_nat n). clear n H. intros n. revert m.
  induction n as [| n IH ]; intros m; [ constructor |]. rewrite seqZ_cons by lia.
  replace (Z.pred (Z.of_nat (S n))) with (Z.of_nat n) by lia. constructor; [ apply IH |].
  apply list.Forall_forall. intros y ?%elem_of_seqZ. lia.
Qed.

Lemma sorted_same (l k : list Z) :
  StronglySorted Z.lt l -> StronglySorted Z.lt k -> (forall x, x ∈ l <-> x ∈ k) -> l = k.
Proof.
  intros Hl Hk He. apply (StronglySorted_unique_strong Z.lt); [ lia | done | done |].
  apply NoDup_Permutation; [ by apply sorted_nodup.. | done ].
Qed.

Lemma sorted_intro (l : list Z) :
  (forall j k x y, (j < k)%nat -> l !! j = Some x -> l !! k = Some y -> x < y) -> StronglySorted Z.lt l.
Proof.
  induction l as [| x l IH ]; intros Hl; constructor.
  - apply IH. intros j k y z Hjk Hy Hz. apply (Hl (S j) (S k)); [ lia | done | done ].
  - apply Forall_lookup_2. intros k y Hy. apply (Hl 0%nat (S k)); [ lia | done | done ].
Qed.

Lemma sorted_length (l : list Z) n : StronglySorted Z.lt l -> 0 <= n -> Forall (fun x => 0 <= x < n) l -> Z.of_nat (length l) <= n.
Proof.
  intros Hs Hn Hr. destruct l as [| x l ]; [ cbn; lia |].
  destruct (lookup_lt_is_Some_2 (x :: l) (length l)) as [y Hy]; [ cbn; lia |].
  pose proof (sorted_apart (x :: l) 0 (length l) x y Hs eq_refl Hy ltac:(lia)).
  pose proof (Forall_lookup_1 _ _ _ _ Hr Hy) as Hry. pose proof (Forall_inv Hr) as Hrx. cbn beta in *. cbn [length]. lia.
Qed.
