(* ===== verification/SeqNum.v ===== *)
(** * Sequence numbers that wrap

    [rtc_base/numerics/mod_ops.h], [rtc_base/numerics/sequence_number_util.h]
    and [modules/include/module_common_types_public.h]: differences and order
    of numbers modulo a power of two (or modulo a given number). The unsigned
    type [T] is its width [w]; operands narrower than [int] are promoted before
    they are subtracted. *)
From S2P Require Import Prelude.
From stdpp Require Import base list list_numbers numbers option tactics.
From Stdlib Require Import ZArith Lia.

#[local] Open Scope Z_scope.

(** [static_cast<T>(z)], and [a - b] as C++ computes it. *)
Definition wrap (w z : Z) : Z := z mod 2 ^ w.
Definition minus (w a b : Z) : Z := if w <? 32 then a - b else wrap w (a - b).

Section ModOps.
Context `{CheckMode}.

(** [Add<M>], [Subtract<M>] on [unsigned long], [w] bits wide. *)
Definition Add (w M a b : Z) : outcome Z :=
  RTC_DCHECK (a <? M);;
  let t := wrap w (M - b mod M) in
  let res := wrap w (a - t) in
  Ok (if a <? t then wrap w (res + M) else res).

Definition Subtract (w M a b : Z) : outcome Z :=
  RTC_DCHECK (a <? M);;
  let sub := b mod M in
  Ok (if a <? sub then wrap w (M - wrap w (sub - a)) else wrap w (a - sub)).

(** [M = 0]: wrapping at the width of the type. *)
Definition ForwardDiff (w M a b : Z) : outcome Z :=
  if 0 <? M then
    RTC_DCHECK (a <? M);; RTC_DCHECK (b <? M);;
    Ok (wrap w (if a <=? b then b - a else M - (a - b)))
  else Ok (wrap w (b - a)).

Definition ReverseDiff (w M a b : Z) : outcome Z :=
  if 0 <? M then
    RTC_DCHECK (a <? M);; RTC_DCHECK (b <? M);;
    Ok (wrap w (if b <=? a then a - b else M - (b - a)))
  else Ok (wrap w (a - b)).

Definition MinDiff_M (w M a b : Z) : outcome Z :=
  f ← ForwardDiff w M a b; r ← ReverseDiff w M a b; Ok (Z.min f r).

Definition AheadOrAt (w M a b : Z) : outcome bool :=
  if 0 <? M then
    let maxDist := M / 2 in
    at_max ← (if Z.even M then d ← MinDiff_M w M a b; Ok (d =? maxDist) else Ok false);
    if (at_max : bool) then Ok (b <? a)
    else f ← ForwardDiff w M b a; Ok (f <=? maxDist)
  else
    let maxDist := (2 ^ w - 1) / 2 + 1 in
    if minus w a b =? maxDist then Ok (b <? a)
    else f ← ForwardDiff w 0 b a; Ok (f <? maxDist).

Definition AheadOf (w M a b : Z) : outcome bool :=
  if a =? b then Ok false else AheadOrAt w M a b.

End ModOps.

(** [MinDiff<uint16_t>], the instance the FEC code uses. *)
Definition MinDiff (a b : Z) : Z := Z.min (u16 (b - a)) (u16 (a - b)).

Definition IsNewer (w value prev_value : Z) : bool :=
  let kBreakpoint := Z.shiftr (2 ^ w - 1) 1 + 1 in
  if minus w value prev_value =? kBreakpoint then prev_value <? value
  else negb (value =? prev_value) && (wrap w (value - prev_value) <? kBreakpoint).

Definition IsNewerSequenceNumber (sequence_number prev_sequence_number : Z) : bool :=
  IsNewer 16 sequence_number prev_sequence_number.
Definition IsNewerTimestamp (timestamp prev_timestamp : Z) : bool :=
  IsNewer 32 timestamp prev_timestamp.
Definition LatestSequenceNumber (sequence_number1 sequence_number2 : Z) : Z :=
  if IsNewerSequenceNumber sequence_number1 sequence_number2 then sequence_number1 else sequence_number2.
Definition LatestTimestamp (timestamp1 timestamp2 : Z) : Z :=
  if IsNewerTimestamp timestamp1 timestamp2 then timestamp1 else timestamp2.

(** ** The order *)

Lemma half_range w : 1 <= w -> Z.shiftr (2 ^ w - 1) 1 + 1 = 2 ^ (w - 1) /\ (2 ^ w - 1) / 2 + 1 = 2 ^ (w - 1) /\
  2 ^ w = 2 * 2 ^ (w - 1) /\ 0 < 2 ^ (w - 1).
Proof.
  intros Hw. assert (H2 : 2 ^ w = 2 * 2 ^ (w - 1)) by (rewrite <- Z.pow_succ_r by lia; f_equal; lia).
  assert (0 < 2 ^ (w - 1)) by (apply Z.pow_pos_nonneg; lia).
  assert (Hd : (2 ^ w - 1) / 2 = 2 ^ (w - 1) - 1) by (Z.to_euclidean_division_equations; lia).
  rewrite Z.shiftr_div_pow2 by lia. change (2 ^ 1) with 2. lia.
Qed.

(** How far [a] lies ahead of [b]. *)
Definition ahead_by (w a b : Z) : Z := (a - b) mod 2 ^ w.

(** The difference of two representable numbers is one of two values. *)
Lemma ahead_by_cases w a b :
  1 <= w -> 0 <= a < 2 ^ w -> 0 <= b < 2 ^ w ->
  ahead_by w a b = if b <=? a then a - b else a - b + 2 ^ w.
Proof.
  intros Hw Ha Hb. unfold ahead_by. destruct (Z.leb_spec b a); [ apply Z.mod_small; lia |].
  rewrite <- (Z.mod_add _ 1), Z.mod_small by lia. lia.
Qed.

Lemma IsNewer_spec w a b :
  1 <= w -> 0 <= a < 2 ^ w -> 0 <= b < 2 ^ w ->
  IsNewer w a b = (0 <? ahead_by w a b) && ((ahead_by w a b <? 2 ^ (w - 1)) || (ahead_by w a b =? 2 ^ (w - 1)) && (b <? a)).
Proof.
  intros Hw Ha Hb. destruct (half_range w Hw) as (H1 & _ & H2 & H3). unfold IsNewer. cbn zeta. rewrite H1.
  unfold minus, wrap. fold (ahead_by w a b). pose proof (ahead_by_cases w a b Hw Ha Hb) as Hc.
  destruct (w <? 32), (Z.leb_spec b a); rewrite Hc;
    repeat match goal with |- context [?x =? ?y] => destruct (Z.eqb_spec x y) end;
    repeat match goal with |- context [?x <? ?y] => destruct (Z.ltb_spec x y) end; cbn; (lia || done).
Qed.

(** Numbers less than half the space away from [base], in terms of how far they
    are ahead of it. *)
Lemma ahead_by_shift w a b base :
  1 <= w -> 0 <= a < 2 ^ w -> 0 <= b < 2 ^ w -> 0 <= base < 2 ^ w ->
  ahead_by w a b = (ahead_by w a base - ahead_by w b base) mod 2 ^ w.
Proof.
  intros Hw Ha Hb Hc. unfold ahead_by. rewrite <- Zminus_mod. f_equal. lia.
Qed.

Lemma IsNewer_offsets w a b base :
  1 <= w -> 0 <= a < 2 ^ w -> 0 <= b < 2 ^ w -> 0 <= base < 2 ^ w ->
  ahead_by w a base < 2 ^ (w - 1) -> ahead_by w b base < 2 ^ (w - 1) ->
  IsNewer w a b = (ahead_by w b base <? ahead_by w a base).
Proof.
  intros Hw Ha Hb Hc Hla Hlb. destruct (half_range w Hw) as (_ & _ & H2 & H3).
  rewrite IsNewer_spec by done. rewrite (ahead_by_shift w a b base) by done.
  assert (0 <= ahead_by w a base) by (apply Z.mod_pos_bound; lia).
  assert (0 <= ahead_by w b base) by (apply Z.mod_pos_bound; lia).
  set (x := ahead_by w a base) in *. set (y := ahead_by w b base) in *.
  destruct (Z.ltb_spec y x).
  - rewrite Z.mod_small by lia. rewrite (proj2 (Z.ltb_lt _ _)), (proj2 (Z.ltb_lt _ (2 ^ (w - 1)))) by lia. done.
  - destruct (Z.eq_dec x y) as [-> | Hne]; [ by rewrite Z.sub_diag, Z.mod_0_l by lia |].
    rewrite <- (Z.mod_add _ 1), Z.mod_small by lia.
    rewrite (proj2 (Z.ltb_ge _ (2 ^ (w - 1)))), (proj2 (Z.eqb_neq _ _)) by lia. apply andb_false_r.
Qed.

(** ** Theorems *)

(** The two orders on sequence numbers are one: [AheadOf] of
    [sequence_number_util.h] and [IsNewer] agree at every width, and of two
    different numbers exactly one is newer, also when they are half the space
    apart. *)
Theorem sequence_orders_agree (mode : CheckMode) w a b :
  1 <= w <= 64 -> 0 <= a < 2 ^ w -> 0 <= b < 2 ^ w ->
  AheadOf w 0 a b = Ok (IsNewer w a b) /\
  (a <> b -> IsNewer w b a = negb (IsNewer w a b)) /\ IsNewer w a a = false.
Proof.
  intros Hw Ha Hb. destruct (half_range w ltac:(lia)) as (H1 & H1' & H2 & H3).
  pose proof (ahead_by_cases w a b ltac:(lia) Ha Hb) as Hab. pose proof (ahead_by_cases w b a ltac:(lia) Hb Ha) as Hba.
  rewrite !IsNewer_spec by lia. split_and!.
  - unfold AheadOf, AheadOrAt, ForwardDiff. change (0 <? 0) with false. cbn iota zeta. rewrite !bind_Ok, H1'.
    unfold minus, wrap. fold (ahead_by w a b).
    destruct (w <? 32), (Z.leb_spec b a); rewrite Hab;
      repeat match goal with |- context [?x =? ?y] => destruct (Z.eqb_spec x y) end;
      repeat match goal with |- context [?x <? ?y] => destruct (Z.ltb_spec x y) end; cbn; (lia || done).
  - intros Hne. destruct (Z.leb_spec b a), (Z.leb_spec a b); rewrite Hab, Hba;
      repeat match goal with |- context [?x =? ?y] => destruct (Z.eqb_spec x y) end;
      repeat match goal with |- context [?x <? ?y] => destruct (Z.ltb_spec x y) end; cbn; (lia || done).
  - unfold ahead_by. rewrite Z.sub_diag, Z.mod_0_l by lia. done.
Qed.

Lemma sequence_orders_agree_witness :
  @AheadOf true 16 0 3 65534 = Ok (IsNewer 16 3 65534) /\
  (3 <> 65534 -> IsNewer 16 65534 3 = negb (IsNewer 16 3 65534)) /\ IsNewer 16 3 3 = false.
Proof. apply (sequence_orders_agree true 16 3 65534); lia. Defined.

(** Arithmetic modulo [M] without overflow: [Add] and [Subtract] are addition
    and subtraction modulo [M] for every [M] that fits the type, although their
    intermediate values wrap. *)
Theorem mod_arithmetic (mode : CheckMode) w M a b :
  1 <= w -> 0 < M < 2 ^ w -> 0 <= a < M -> 0 <= b < 2 ^ w ->
  Add w M a b = Ok ((a + b) mod M) /\ Subtract w M a b = Ok ((a - b) mod M).
Proof.
  intros Hw HM Ha Hb. unfold Add, Subtract. rewrite RTC_DCHECK_Ok, !bind_Ok by lia. cbn zeta.
  pose proof (Z.mod_pos_bound b M ltac:(lia)) as Hm. set (r := b mod M) in *.
  assert (Hadd : (a + b) mod M = (a + r) mod M) by (unfold r; by rewrite Zplus_mod_idemp_r).
  assert (Hsub : (a - b) mod M = (a - r) mod M) by (unfold r; by rewrite Zminus_mod_idemp_r).
  rewrite Hadd, Hsub. unfold wrap. rewrite (Z.mod_small (M - r)) by lia. split; f_equal.
  - destruct (Z.ltb_spec a (M - r)).
    + rewrite Zplus_mod_idemp_l, Z.mod_small, Z.mod_small by lia. lia.
    + rewrite Z.mod_small by lia. rewrite <- (Z.mod_add _ (-1)), Z.mod_small by lia. lia.
  - destruct (Z.ltb_spec a r).
    + rewrite (Z.mod_small (r - a)), Z.mod_small by lia. rewrite <- (Z.mod_add _ 1), Z.mod_small by lia. lia.
    + rewrite !Z.mod_small by lia. done.
Qed.

Lemma mod_arithmetic_witness :
  @Add true 32 1000 999 4294967295 = Ok ((999 + 4294967295) mod 1000) /\
  @Subtract true 32 1000 999 4294967295 = Ok ((999 - 4294967295) mod 1000).
Proof. apply (mod_arithmetic true 32 1000 999 4294967295); lia. Defined.
