(* ===== verification/RtpFecCodec.v ===== *)
(** * RTP FEC packets: the vendored original

    [modules/rtp_rtcp/source/forward_error_correction.cc], the WebRTC file the
    fork was cut from, as far as it deals with one FEC packet: how its payload
    is made from RTP packets of different lengths ([GenerateFecPayloads]) and
    how the one packet that is missing is rebuilt ([RecoverPacket]). The layout
    of the FEC header is behind two interfaces, [FecHeaderWriter] and
    [FecHeaderReader], as in the source; [UlpfecHeader] and [FlexfecHeader] hold
    their implementations. The header file that declared the class has been
    replaced by the fork's; the fields here are those the code uses.

    A [CopyOnWriteBuffer] is the list of its bytes; [SetSize] with the [memset]
    behind it is [grow]. *)
From S2P Require Import Prelude.
From S2P Require Import MaskTable.
From stdpp Require Import base list list_numbers numbers option tactics.
From Stdlib Require Import ZArith Lia.

#[local] Open Scope Z_scope.

(** ** Constants *)

Definition kRtpHeaderSize : Z := 12.
Definition IP_PACKET_SIZE : Z := 1500.
(** ** Bytes *)

(** [ByteReader<uint16_t>::ReadBigEndian], [ByteWriter<...>::WriteBigEndian]. *)
Definition read_be16 (data : list Z) (off : Z) : outcome Z :=
  a ← get data off; b ← get data (off + 1); Ok (a * 256 + b).
Definition write_be16 (data : list Z) (off x : Z) : outcome (list Z) :=
  data ← put data off (u8 (x / 256)); put data (off + 1) (u8 x).
Definition write_be32 (data : list Z) (off x : Z) : outcome (list Z) :=
  data ← put data off (u8 (x / 2 ^ 24)); data ← put data (off + 1) (u8 (x / 2 ^ 16));
  data ← put data (off + 2) (u8 (x / 256)); put data (off + 3) (u8 x).

Definition read_be32 (data : list Z) (off : Z) : outcome Z :=
  a ← read_be16 data off; b ← read_be16 data (off + 2); Ok (a * 2 ^ 16 + b).
Definition read_be64 (data : list Z) (off : Z) : outcome Z :=
  a ← read_be32 data off; b ← read_be32 data (off + 4); Ok (a * 2 ^ 32 + b).
Definition write_be64 (data : list Z) (off x : Z) : outcome (list Z) :=
  data ← write_be32 data off (x / 2 ^ 32); write_be32 data (off + 4) x.

(** [data[i] ^= v]. *)
Definition xor_at (data : list Z) (i v : Z) : outcome (list Z) :=
  b ← get data i; put data i (Z.lxor b v).

(** [SetSize(n)] and [memset] of the new bytes, when the buffer grows. *)
Definition grow (n : Z) (data : list Z) : list Z :=
  if Z.of_nat (length data) <? n then data ++ replicate (Z.to_nat n - length data) 0 else data.

Definition ParseSequenceNumber (packet : list Z) : outcome Z :=
  a ← get packet 2; b ← get packet 3; Ok (u16 (Z.shiftl a 8 + b)).
Definition ParseSsrc (packet : list Z) : outcome Z :=
  a ← get packet 8; b ← get packet 9; c ← get packet 10; d ← get packet 11;
  Ok (u32 (Z.shiftl a 24 + Z.shiftl b 16 + Z.shiftl c 8 + d)).

(** ** Interfaces *)

(** [class FecHeaderWriter]. [MinPacketMaskSize] gets the masks from the row it
    is called for on; [FinalizeFecHeader] gets the SSRC, the base sequence
    number and the mask of the one protected stream, and the packet. *)
Class FecHeaderWriter : Type := {
  MinPacketMaskSize : list Z -> Z -> outcome Z;
  FecHeaderSize : Z -> outcome Z;
  FinalizeFecHeader : Z -> Z -> list Z -> list Z -> outcome (list Z);
  writer_MaxMediaPackets : Z;
  writer_MaxFecPackets : Z;
  MaxPacketOverhead : Z
}.

(** What reading a FEC header finds out: [fec_header_size],
    [protection_length] and [protected_streams[0]]. *)
Record FecHeader : Type := mkFecHeader {
  fh_size : Z;
  fh_protection_length : Z;
  fh_ssrc : Z;
  fh_seq_num_base : Z;
  fh_packet_mask_offset : Z;
  fh_packet_mask_size : Z
}.

(** [class FecHeaderReader]. [ReadFecHeader] gets the SSRC the packet came with
    and its bytes, and returns them as it leaves them; [None] means the packet
    is refused. *)
Class FecHeaderReader : Type := {
  ReadFecHeader : Z -> list Z -> outcome (option (FecHeader * list Z));
  reader_MaxMediaPackets : Z;
  reader_MaxFecPackets : Z
}.

Section Codec.
Context `{CheckMode} `{FecHeaderWriter}.

(** ** Exclusive or *)

Definition XorHeaders (src dst : list Z) : outcome (list Z) :=
  s0 ← get src 0; dst ← xor_at dst 0 s0;
  s1 ← get src 1; dst ← xor_at dst 1 s1;
  let payload_length := u16 (Z.of_nat (length src) - kRtpHeaderSize) in
  dst ← xor_at dst 2 (u8 (payload_length / 256));
  dst ← xor_at dst 3 (u8 payload_length);
  s4 ← get src 4; dst ← xor_at dst 4 s4;
  s5 ← get src 5; dst ← xor_at dst 5 s5;
  s6 ← get src 6; dst ← xor_at dst 6 s6;
  s7 ← get src 7; xor_at dst 7 s7.

(** The capacity of every buffer written to is [IP_PACKET_SIZE]. *)
Definition XorPayloads_upstream (src : list Z) (payload_length dst_offset : Z) (dst : list Z)
    : outcome (list Z) :=
  RTC_DCHECK (u64 (kRtpHeaderSize + payload_length) <=? Z.of_nat (length src));;
  RTC_DCHECK (u64 (dst_offset + payload_length) <=? IP_PACKET_SIZE);;
  for_loop 0 (Z.to_nat payload_length) (fun i dst =>
    s ← get src (kRtpHeaderSize + i); xor_at dst (dst_offset + i) s)
    (grow (u64 (dst_offset + payload_length)) dst).

(** ** Making a FEC packet *)

(** The inner loop of [GenerateFecPayloads]: [pkt_mask_idx] and [media_pkt_idx]
    address the mask bit of the next media packet, which moves with its
    sequence number. *)
Fixpoint generate_row (masks : list Z) (fec_header_size pkt_mask_idx media_pkt_idx prev_seq_num : Z)
    (media_packets : list (list Z)) (fec_packet : list Z) : outcome (list Z) :=
  match media_packets with
  | [] => Ok fec_packet
  | media_packet :: rest =>
      mask ← get masks pkt_mask_idx;
      fec_packet ←
        (if negb (Z.land mask (Z.shiftl 1 (7 - media_pkt_idx)) =? 0) then
           let media_payload_length := u64 (Z.of_nat (length media_packet) - kRtpHeaderSize) in
           let fec_packet_length := u64 (fec_header_size + media_payload_length) in
           fec_packet ← XorHeaders media_packet (grow fec_packet_length fec_packet);
           XorPayloads_upstream media_packet media_payload_length fec_header_size fec_packet
         else Ok fec_packet);
      '(media_pkt_idx, prev_seq_num) ←
        match rest with
        | [] => Ok (media_pkt_idx, prev_seq_num)
        | next :: _ =>
            seq_num ← ParseSequenceNumber next;
            Ok (media_pkt_idx + u16 (seq_num - prev_seq_num), seq_num)
        end;
      generate_row masks fec_header_size (pkt_mask_idx + media_pkt_idx / 8) (media_pkt_idx mod 8)
        prev_seq_num rest fec_packet
  end.

(** One turn of the outer loop; the FEC packet starts with size 0. *)
Definition generate_fec_payload (masks : list Z) (packet_mask_size i : Z) (media_packets : list (list Z))
    : outcome (list Z) :=
  let pkt_mask_idx := i * packet_mask_size in
  min_packet_mask_size ← MinPacketMaskSize (drop (Z.to_nat pkt_mask_idx) masks) packet_mask_size;
  fec_header_size ← FecHeaderSize min_packet_mask_size;
  match media_packets with
  | [] => Fail OutOfBounds
  | first :: _ =>
      prev_seq_num ← ParseSequenceNumber first;
      fec_packet ← generate_row masks fec_header_size pkt_mask_idx 0 prev_seq_num media_packets [];
      RTC_DCHECK (0 <? Z.of_nat (length fec_packet));;
      Ok fec_packet
  end.

(** ** Rebuilding a media packet *)

(** A packet the FEC packet protects; [None] when it is missing. *)
Record ProtectedPacket : Type := mkProtected { pp_ssrc : Z; pp_seq_num : Z; pp_pkt : option (list Z) }.

(** [None]: the FEC packet is unusable. *)
Definition StartPacketRecovery (h : FecHeader) (fec_data : list Z) : outcome (option (list Z)) :=
  if Z.of_nat (length fec_data) <? fh_size h + fh_protection_length h then Ok None
  else if Z.min (IP_PACKET_SIZE - kRtpHeaderSize) (IP_PACKET_SIZE - fh_size h) <? fh_protection_length h
  then Ok None
  else
    header ← slice fec_data 0 kRtpHeaderSize;
    payload ← slice fec_data (fh_size h) (fh_protection_length h);
    Ok (Some (header ++ payload)).

(** The loop of [RecoverPacket]: the data, and the sequence number and SSRC of
    the packet that is missing. *)
Fixpoint xor_received (protected : list ProtectedPacket) (data : list Z) (seq_num ssrc : Z)
    : outcome (list Z * Z * Z) :=
  match protected with
  | [] => Ok (data, seq_num, ssrc)
  | p :: protected =>
      match pp_pkt p with
      | None => xor_received protected data (pp_seq_num p) (pp_ssrc p)
      | Some pkt =>
          data ← XorHeaders pkt data;
          data ← XorPayloads_upstream pkt (u64 (Z.of_nat (length pkt) - kRtpHeaderSize)) kRtpHeaderSize data;
          xor_received protected data seq_num ssrc
      end
  end.

Definition FinishPacketRecovery (data : list Z) (seq_num ssrc : Z) : outcome (option (list Z)) :=
  b0 ← get data 0; data ← put data 0 (Z.lor b0 0x80);
  b0 ← get data 0; data ← put data 0 (Z.land b0 0xbf);
  len ← read_be16 data 2;
  let new_size := len + kRtpHeaderSize in
  if IP_PACKET_SIZE - kRtpHeaderSize <? new_size then Ok None
  else
    let data := take (Z.to_nat new_size) (grow new_size data) in
    data ← write_be16 data 2 seq_num;
    data ← write_be32 data 8 ssrc;
    Ok (Some data).

Definition RecoverPacket (h : FecHeader) (fec_data : list Z) (protected : list ProtectedPacket)
    : outcome (option (list Z * Z * Z)) :=
  start ← StartPacketRecovery h fec_data;
  match start with
  | None => Ok None
  | Some data =>
      '(data, seq_num, ssrc) ← xor_received protected data 0 0;
      finish ← FinishPacketRecovery data seq_num ssrc;
      match finish with
      | None => Ok None
      | Some data => Ok (Some (data, seq_num, ssrc))
      end
  end.

End Codec.
