(* ===== verification/RtpFecAlgebra.v ===== *)
(** * A missing RTP packet comes back

    The algebra behind [RtpFecCodec]: exclusive or of byte strings of different
    lengths, the payload a FEC packet over given media packets has ([assemble]),
    what it means that a packet read by a receiver [carries] them, and the
    theorem's core: whatever the layout of the header, any one of the packets
    carried can be rebuilt from the others, byte for byte and at its own
    length. [FecHeaderLaws] states what a header writer and reader owe each
    other for that. *)
From S2P Require Import Prelude.
From S2P Require Import MaskTable.
From S2P Require Import RtpFecCodec.
From stdpp Require Import base list list_numbers numbers option tactics.
From Stdlib Require Import ZArith Lia.

#[local] Open Scope Z_scope.

(** ** Padded exclusive or *)

(** The shorter string counts as followed by zeros. *)
Fixpoint pxor (a b : list Z) : list Z :=
  match a, b with
  | [], b => b
  | a, [] => a
  | x :: a, y :: b => Z.lxor x y :: pxor a b
  end.

Definition pxor_all (l : list (list Z)) : list Z := foldr pxor [] l.

(** Byte [i], zero past the end. *)
Definition byte (l : list Z) (i : nat) : Z := default 0 (l !! i).

Lemma byte_pxor a b i : byte (pxor a b) i = Z.lxor (byte a i) (byte b i).
Proof.
  revert b i. induction a as [| x a IH ]; intros [| y b] i; cbn [pxor].
  - done.
  - unfold byte at 2. cbn. by rewrite Z.lxor_0_l.
  - unfold byte at 3. cbn. by rewrite Z.lxor_0_r.
  - destruct i as [| i ]; [ done |]. apply (IH b i).
Qed.

Lemma length_pxor a b : length (pxor a b) = Nat.max (length a) (length b).
Proof.
  revert b. induction a as [| x a IH ]; intros [| y b]; cbn [pxor length]; try lia.
  rewrite IH. lia.
Qed.

(** Equal lengths and bytes make equal strings. *)
Lemma bytes_eq a b :
  length a = length b -> (forall i, (i < length a)%nat -> byte a i = byte b i) -> a = b.
Proof.
  intros Hl Hb. apply list_eq_same_length with (length a); [ done | done |].
  intros i x y Hi Hx Hy. specialize (Hb i Hi). unfold byte in Hb. rewrite Hx, Hy in Hb. done.
Qed.

Lemma pxor_comm a b : pxor a b = pxor b a.
Proof.
  apply bytes_eq; [ rewrite !length_pxor; lia |]. intros i _. by rewrite !byte_pxor, Z.lxor_comm.
Qed.

Lemma pxor_assoc a b c : pxor a (pxor b c) = pxor (pxor a b) c.
Proof.
  apply bytes_eq; [ rewrite !length_pxor; lia |]. intros i _. by rewrite !byte_pxor, Z.lxor_assoc.
Qed.

Lemma pxor_nil_r a : pxor a [] = a.
Proof. by destruct a. Qed.

Lemma byte_ge l i : (length l <= i)%nat -> byte l i = 0.
Proof. intros. unfold byte. by rewrite lookup_ge_None_2. Qed.

(** Removing what is there leaves the padding. *)
Lemma pxor_cancel a b : pxor a (pxor a b) = b ++ replicate (length a - length b) 0.
Proof.
  apply bytes_eq; [ rewrite !length_pxor, length_app, length_replicate; lia |].
  intros i _. rewrite !byte_pxor, <- Z.lxor_assoc, Z.lxor_nilpotent, Z.lxor_0_l.
  unfold byte. destruct (decide (i < length b)%nat).
  - by rewrite lookup_app_l.
  - rewrite lookup_app_r, (lookup_ge_None_2 b i) by lia.
    destruct (replicate _ _ !! _) as [z |] eqn:E; [| done ]. by apply lookup_replicate in E as [-> _].
Qed.

Lemma pxor_all_perm l l' : l ≡ₚ l' -> pxor_all l = pxor_all l'.
Proof.
  induction 1 as [| x l l' _ IH | x y l | l l' l'' _ IH1 _ IH2 ]; cbn [pxor_all foldr]; try congruence.
  - fold (pxor_all l) (pxor_all l'). by rewrite IH.
  - by rewrite !pxor_assoc, (pxor_comm x y).
Qed.

Lemma pxor_all_snoc l x : pxor_all (l ++ [x]) = pxor (pxor_all l) x.
Proof.
  rewrite (pxor_all_perm (l ++ [x]) (x :: l)) by apply Permutation_app_comm. apply pxor_comm.
Qed.

Lemma pxor_all_app l l' : pxor_all (l ++ l') = pxor (pxor_all l) (pxor_all l').
Proof.
  induction l as [| x l IH ]; [ done |]. cbn [app pxor_all foldr].
  fold (pxor_all (l ++ l')) (pxor_all l). by rewrite IH, pxor_assoc.
Qed.

(** The sum of all but one, taken off the sum of all. *)
Lemma pxor_all_cancel x l :
  pxor (pxor_all (x :: l)) (pxor_all l) = x ++ replicate (length (pxor_all l) - length x) 0.
Proof.
  cbn [pxor_all foldr]. fold (pxor_all l). rewrite (pxor_comm x), <- (pxor_cancel (pxor_all l) x).
  apply pxor_comm.
Qed.

Lemma length_pxor_all_le l x : x ∈ l -> (length x <= length (pxor_all l))%nat.
Proof.
  induction l as [| y l IH ]; [ by intros ?%elem_of_nil |]. intros [-> | Hin]%elem_of_cons;
    cbn [pxor_all foldr]; fold (pxor_all l); rewrite length_pxor; [ lia |]. specialize (IH Hin). lia.
Qed.

Lemma length_pxor_all_same n l :
  Forall (fun x => length x = n) l -> l <> [] -> length (pxor_all l) = n.
Proof.
  intros H. induction H as [| x l Hx Hl IH ]; [ done |]. intros _. cbn [pxor_all foldr]. fold (pxor_all l).
  rewrite length_pxor. destruct l as [| y l ]; [ cbn; lia |]. rewrite IH by done. lia.
Qed.

(** ** The two loops *)

(** What [XorHeaders] takes from a packet: flags, payload type, the length of
    its payload, time stamp. *)
Definition hvec (m : list Z) : list Z :=
  let n := u16 (Z.of_nat (length m) - kRtpHeaderSize) in
  [byte m 0; byte m 1; u8 (n / 256); u8 n; byte m 4; byte m 5; byte m 6; byte m 7].

Lemma get_byte data i : 0 <= i < Z.of_nat (length data) -> get data i = Ok (byte data (Z.to_nat i)).
Proof.
  intros Hi. unfold byte. destruct (lookup_lt_is_Some_2 data (Z.to_nat i)) as [b Hb]; [ lia |].
  rewrite (get_Ok data i b), Hb by (done || lia). done.
Qed.

Lemma xor_at_Ok data i v :
  0 <= i < Z.of_nat (length data) ->
  xor_at data i v = Ok (<[Z.to_nat i := Z.lxor (byte data (Z.to_nat i)) v]> data).
Proof. intros Hi. unfold xor_at. by rewrite get_byte, bind_Ok, put_Ok by lia. Qed.

Lemma XorHeaders_Ok m h rest :
  (12 <= length m)%nat -> length h = 8%nat -> XorHeaders m (h ++ rest) = Ok (pxor h (hvec m) ++ rest).
Proof.
  intros Hm Hh. unfold hvec. set (n := u16 (Z.of_nat (length m) - kRtpHeaderSize)).
  unfold XorHeaders. fold n. generalize (u8 (n / 256)) (u8 n). clear n. intros hi lo.
  assert (Hl : (8 <= length (h ++ rest))%nat) by (rewrite length_app; lia).
  rewrite !get_byte by lia.
  repeat first [ rewrite bind_Ok | rewrite xor_at_Ok by (rewrite ?length_insert; lia) ].
  do 8 (destruct h as [| ? h ]; [ discriminate Hh |]). destruct h; [| discriminate Hh ]. reflexivity.
Qed.

Lemma byte_insert l i j v :
  (i < length l)%nat -> byte (<[i := v]> l) j = if decide (i = j) then v else byte l j.
Proof.
  intros Hi. unfold byte. destruct (decide (i = j)) as [<- |].
  - by rewrite list_lookup_insert_eq.
  - by rewrite list_lookup_insert_ne.
Qed.

Lemma byte_app_l a b i : (i < length a)%nat -> byte (a ++ b) i = byte a i.
Proof. intros. unfold byte. by rewrite lookup_app_l. Qed.

Lemma byte_app_r a b i : (length a <= i)%nat -> byte (a ++ b) i = byte b (i - length a).
Proof. intros. unfold byte. by rewrite lookup_app_r. Qed.

Lemma byte_zeros n i : byte (replicate n 0) i = 0.
Proof.
  unfold byte. destruct (replicate n 0 !! i) as [z |] eqn:E; [| done ]. by apply lookup_replicate in E as [-> _].
Qed.

Lemma byte_drop l n i : byte (drop n l) i = byte l (n + i).
Proof. unfold byte. by rewrite lookup_drop. Qed.

Lemma grow_app pre p n :
  Z.of_nat (length pre) <= n ->
  grow n (pre ++ p) = pre ++ p ++ replicate (Z.to_nat n - length pre - length p) 0.
Proof.
  intros Hn. unfold grow. destruct (Z.ltb_spec (Z.of_nat (length (pre ++ p))) n) as [H | H];
    rewrite length_app in *.
  - rewrite <- app_assoc. do 3 f_equal. lia.
  - replace (Z.to_nat n - length pre - length p)%nat with 0%nat by lia. by rewrite app_nil_r.
Qed.

(** The loop, bytewise. *)
Lemma xor_loop m off n d :
  (off + n <= length d)%nat -> (12 + n <= length m)%nat ->
  exists d', for_loop 0 n (fun i dst => s ← get m (kRtpHeaderSize + i); xor_at dst (Z.of_nat off + i) s) d = Ok d' /\
    length d' = length d /\
    forall j, byte d' j = if decide (off <= j < off + n)%nat then Z.lxor (byte d j) (byte m (12 + (j - off)))
                          else byte d j.
Proof.
  intros Hd Hm.
  destruct (for_loop_rule (fun i (x : list Z) => length x = length d /\
    forall j, byte x j = if decide (off <= j < off + Z.to_nat i)%nat
                         then Z.lxor (byte d j) (byte m (12 + (j - off))) else byte d j)
    (fun i dst => s ← get m (kRtpHeaderSize + i); xor_at dst (Z.of_nat off + i) s) n 0 d) as (d' & HL & Hl & Hb).
  - split; [ done |]. intros j. by rewrite decide_False by lia.
  - intros i x Hi (Hlx & Hx). unfold kRtpHeaderSize. rewrite get_byte, bind_Ok, xor_at_Ok by lia.
    eexists. split; [ done |]. rewrite length_insert. split; [ done |]. intros j.
    rewrite byte_insert by lia. replace (Z.to_nat (Z.of_nat off + i)) with (off + Z.to_nat i)%nat by lia.
    destruct (decide (off + Z.to_nat i = j)%nat) as [<- | Hne].
    + rewrite decide_True by lia. rewrite Hx, decide_False by lia. do 2 f_equal. lia.
    + rewrite Hx. destruct (decide (off <= j < off + Z.to_nat i)%nat); [ by rewrite decide_True by lia |].
      by rewrite decide_False by lia.
  - exists d'. split_and!; [ done | done |]. intros j. rewrite Hb. by replace (Z.to_nat (0 + Z.of_nat n)) with n by lia.
Qed.

Lemma xor_payloads_grow `{CheckMode} m pre p :
  (12 <= length m)%nat -> (length pre + (length m - 12) <= 1500)%nat ->
  XorPayloads_upstream m (Z.of_nat (length m) - kRtpHeaderSize) (Z.of_nat (length pre)) (pre ++ p)
    = Ok (pre ++ pxor p (drop 12 m)).
Proof.
  intros Hm Hs. unfold XorPayloads_upstream, kRtpHeaderSize, IP_PACKET_SIZE in *.
  rewrite !u64_id, !RTC_DCHECK_Ok by lia. rewrite !bind_Ok, grow_app by lia.
  replace (Z.to_nat (Z.of_nat (length m) - 12)) with (length m - 12)%nat by lia.
  set (z := replicate _ 0).
  assert (Hz : length z = (length m - 12 - length p)%nat) by (unfold z; rewrite length_replicate; lia).
  destruct (xor_loop m (length pre) (length m - 12) (pre ++ p ++ z)) as (d' & HL & Hl & Hb);
    [ rewrite !length_app; lia | lia |].
  unfold kRtpHeaderSize in HL. rewrite HL. f_equal.
  assert (Hpz : forall j, byte (p ++ z) j = byte p j).
  { intros j. destruct (decide (j < length p)%nat); [ by rewrite byte_app_l |].
    rewrite byte_app_r, (byte_ge p) by lia. apply byte_zeros. }
  apply bytes_eq.
  { rewrite Hl, !length_app, length_pxor, length_drop, Hz. lia. }
  intros j Hj. rewrite Hb. destruct (decide (j < length pre)%nat).
  - rewrite decide_False, !byte_app_l by lia. done.
  - rewrite (byte_app_r pre (p ++ z)), (byte_app_r pre (pxor _ _)), byte_pxor, byte_drop, Hpz by lia.
    destruct (decide (length pre <= j < length pre + (length m - 12))%nat) as [Hin | Hout]; [ done |].
    rewrite (byte_ge m) by lia. by rewrite Z.lxor_0_r.
Qed.

(** ** The payload of a FEC packet *)

(** The packet over the media packets [s], with room for [h] bytes of header. *)
Definition assemble (h : nat) (s : list (list Z)) : list Z :=
  match s with
  | [] => []
  | _ => pxor_all (map hvec s) ++ replicate (h - 8) 0 ++ pxor_all (map (drop 12) s)
  end.

Lemma pxor_pad p k l :
  (length p + k <= Nat.max (length p) (length l))%nat -> pxor (p ++ replicate k 0) l = pxor p l.
Proof.
  intros Hk. apply bytes_eq; [ rewrite !length_pxor, length_app, length_replicate; lia |].
  intros j _. rewrite !byte_pxor. f_equal. destruct (decide (j < length p)%nat); [ by rewrite byte_app_l |].
  rewrite byte_app_r, byte_zeros, (byte_ge p) by lia. done.
Qed.

Lemma pxor_zeros k l : (k <= length l)%nat -> pxor (replicate k 0) l = l.
Proof. intros. rewrite <- (app_nil_l (replicate k 0)), pxor_pad; [ done | cbn; lia ]. Qed.

Lemma length_hvec m : length (hvec m) = 8%nat.
Proof. done. Qed.

Lemma length_hvecs s : s <> [] -> length (pxor_all (map hvec s)) = 8%nat.
Proof.
  intros Hs. apply length_pxor_all_same; [| by destruct s ]. apply Forall_map, Forall_true. done.
Qed.

(** Room for another packet: head, gap, and payload with zeros behind. *)
Lemma grow_assemble h n s :
  (8 <= h)%nat ->
  exists hd k, grow (Z.of_nat (h + n)) (assemble h s) =
      hd ++ replicate (h - 8) 0 ++ (pxor_all (map (drop 12) s) ++ replicate k 0) /\
    length hd = 8%nat /\ (forall m, pxor hd (hvec m) = pxor_all (map hvec (s ++ [m]))) /\
    (length (pxor_all (map (drop 12) s)) + k <= Nat.max (length (pxor_all (map (drop 12) s))) n)%nat.
Proof.
  intros Hh. destruct s as [| m0 s ].
  - exists (replicate 8 0), n. split_and!; [| done | | cbn; lia ].
    + cbn [assemble map pxor_all foldr]. unfold grow. cbn [length app].
      destruct (Z.ltb_spec (Z.of_nat 0) (Z.of_nat (h + n))); [| lia ].
      rewrite <- !replicate_add. f_equal. lia.
    + intros m. rewrite pxor_zeros by done. cbn. done.
  - set (hd := pxor_all (map hvec (m0 :: s))). set (p := pxor_all (map (drop 12) (m0 :: s))).
    assert (Hhd : length hd = 8%nat) by (by apply length_hvecs).
    exists hd, (n - length p)%nat. split_and!; [| done | | lia ].
    + cbn [assemble]. fold hd p. rewrite app_assoc.
      rewrite grow_app by (rewrite length_app, length_replicate; lia).
      rewrite length_app, length_replicate, Hhd, <- app_assoc. do 4 f_equal. lia.
    + intros m. rewrite map_app. cbn [map]. by rewrite pxor_all_snoc.
Qed.

Lemma fec_add `{CheckMode} h s m :
  (8 <= h)%nat -> (12 <= length m)%nat -> (h + (length m - 12) <= 1500)%nat ->
  (x ← XorHeaders m (grow (u64 (Z.of_nat h + (Z.of_nat (length m) - kRtpHeaderSize))) (assemble h s));
   XorPayloads_upstream m (Z.of_nat (length m) - kRtpHeaderSize) (Z.of_nat h) x) = Ok (assemble h (s ++ [m])).
Proof.
  intros Hh Hm Hs. unfold kRtpHeaderSize. rewrite u64_id by lia.
  replace (Z.of_nat h + (Z.of_nat (length m) - 12)) with (Z.of_nat (h + (length m - 12))) by lia.
  destruct (grow_assemble h (length m - 12) s Hh) as (hd & k & -> & Hhd & Hadd & Hk).
  rewrite XorHeaders_Ok, bind_Ok by done. rewrite Hadd, app_assoc.
  assert (Hpre : length (pxor_all (map hvec (s ++ [m])) ++ replicate (h - 8) 0) = h).
  { rewrite length_app, length_replicate, length_hvecs; [ lia | by destruct s ]. }
  rewrite <- Hpre at 1. change 12 with kRtpHeaderSize. rewrite xor_payloads_grow by lia.
  rewrite pxor_pad by (rewrite length_drop; lia).
  assert (Ha : assemble h (s ++ [m]) =
    pxor_all (map hvec (s ++ [m])) ++ replicate (h - 8) 0 ++ pxor_all (map (drop 12) (s ++ [m])))
    by (by destruct s).
  rewrite Ha, (map_app (drop 12)). cbn [map]. by rewrite pxor_all_snoc, app_assoc.
Qed.

(** ** Which packets a row protects *)

Definition seq_of (m : list Z) : Z := byte m 2 * 256 + byte m 3.
Definition ssrc_of (m : list Z) : Z :=
  byte m 8 * 2 ^ 24 + byte m 9 * 2 ^ 16 + byte m 10 * 2 ^ 8 + byte m 11.

(** An RTP packet of version 2 that, rebuilt, passes the size check. *)
Definition rtp_ok (m : list Z) : Prop :=
  (12 <= length m <= 1488)%nat /\ Forall (fun b => 0 <= b < 256) m /\ Z.land (byte m 0) 0xc0 = 0x80.

(** With [h] bytes of FEC header it stays within the capacity of a packet. *)
Definition fits (h : nat) (m : list Z) : Prop := (h + length m <= 1512)%nat.

Lemma rtp_byte m i : rtp_ok m -> 0 <= byte m i < 256.
Proof.
  intros (_ & Hb & _). unfold byte. destruct (m !! i) as [b |] eqn:E; cbn; [| lia ].
  by eapply (Forall_lookup_1 (fun b => 0 <= b < 256)).
Qed.

Lemma seq_of_range m : rtp_ok m -> 0 <= seq_of m < 2 ^ 16.
Proof. intros Hm. pose proof (rtp_byte m 2 Hm). pose proof (rtp_byte m 3 Hm). unfold seq_of. lia. Qed.

Lemma ParseSequenceNumber_Ok m : rtp_ok m -> ParseSequenceNumber m = Ok (seq_of m).
Proof.
  intros Hm. pose proof (seq_of_range m Hm) as Hs. pose proof Hm as (Hl & _).
  unfold ParseSequenceNumber. rewrite !get_byte by lia. rewrite !bind_Ok, Z.shiftl_mul_pow2 by lia.
  change (2 ^ 8) with 256. fold (seq_of m). f_equal. by apply u16_id.
Qed.

(** Bit [g] of a mask array, counted over all its bytes. *)
Definition bit_at (masks : list Z) (g : Z) : bool :=
  Z.testbit (masks !!! Z.to_nat (g / 8)) (7 - g mod 8).

(** The bit of each packet: it moves on with the sequence number. *)
Fixpoint positions (g prev : Z) (media : list (list Z)) : list Z :=
  match media with
  | [] => []
  | m :: media => let g := g + u16 (seq_of m - prev) in g :: positions g (seq_of m) media
  end.

Definition chosen (masks : list Z) (ps : list Z) (media : list (list Z)) : list (list Z) :=
  omap (fun '(g, m) => if bit_at masks g then Some m else None) (zip ps media).

Lemma mask_test b i : 0 <= i -> negb (Z.land b (Z.shiftl 1 i) =? 0) = Z.testbit b i.
Proof.
  intros Hi. rewrite Z.shiftl_1_l. destruct (Z.testbit b i) eqn:E.
  - apply negb_true_iff, Z.eqb_neq. intros H0. apply (f_equal (fun z => Z.testbit z i)) in H0.
    rewrite Z.land_spec, E, Z.pow2_bits_true, Z.bits_0 in H0 by lia. discriminate.
  - apply negb_false_iff, Z.eqb_eq, Z.bits_inj'. intros j Hj. rewrite Z.land_spec, Z.bits_0.
    destruct (Z.eq_dec i j) as [<- | Hne]; [ by rewrite E |]. by rewrite Z.pow2_bits_false, andb_false_r.
Qed.

Lemma generate_row_Ok `{CheckMode} masks h media : forall g s m0,
  (8 <= h)%nat -> Forall rtp_ok media -> Forall (fits h) media -> 0 <= g ->
  head media = Some m0 ->
  Forall (fun g => g < 8 * Z.of_nat (length masks)) (positions g (seq_of m0) media) ->
  generate_row masks (Z.of_nat h) (g / 8) (g mod 8) (seq_of m0) media (assemble h s) =
    Ok (assemble h (s ++ chosen masks (positions g (seq_of m0) media) media)).
Proof.
  induction media as [| m media IH ]; intros g s m0 Hh Hok Hfit Hg Hhead Hps; [ discriminate |].
  injection Hhead as <-. apply Forall_cons_1 in Hok as [Hm Hok]. apply Forall_cons_1 in Hfit as [Hf Hfit].
  assert (Hself : g + u16 (seq_of m - seq_of m) = g) by (rewrite Z.sub_diag; apply Z.add_0_r).
  cbn [positions] in *. rewrite Hself in *. apply Forall_cons_1 in Hps as [Hlt Hps].
  pose proof (Z.div_mod g 8 ltac:(lia)). pose proof (Z.mod_pos_bound g 8 ltac:(lia)).
  pose proof Hm as ((Hlen & Hmax) & _). unfold fits in Hf.
  cbn [generate_row]. rewrite get_byte, bind_Ok by (split; [ apply Z.div_pos | ]; lia).
  rewrite mask_test by lia. rewrite (u64_id (Z.of_nat (length m) - kRtpHeaderSize)) by (unfold kRtpHeaderSize; lia).
  set (s' := if bit_at masks g then s ++ [m] else s).
  assert (Hstep : (if Z.testbit (byte masks (Z.to_nat (g / 8))) (7 - g mod 8) then
      x ← XorHeaders m (grow (u64 (Z.of_nat h + (Z.of_nat (length m) - kRtpHeaderSize))) (assemble h s));
      XorPayloads_upstream m (Z.of_nat (length m) - kRtpHeaderSize) (Z.of_nat h) x
    else Ok (assemble h s)) = Ok (assemble h s')).
  { unfold s', bit_at. replace (masks !!! Z.to_nat (g / 8)) with (byte masks (Z.to_nat (g / 8))).
    - destruct (Z.testbit _ _); [ apply fec_add; lia | done ].
    - destruct (lookup_lt_is_Some_2 masks (Z.to_nat (g / 8))) as [b Hb]; [ lia |].
      unfold byte. by rewrite Hb, (list_lookup_total_correct _ _ _ Hb). }
  cbn zeta. rewrite Hstep, bind_Ok.
  assert (Hs' : s ++ chosen masks (g :: positions g (seq_of m) media) (m :: media) =
    s' ++ chosen masks (positions g (seq_of m) media) media).
  { unfold s', chosen. cbn [zip zip_with omap list_omap]. by destruct (bit_at masks g); [ rewrite <- app_assoc |]. }
  rewrite Hs'. destruct media as [| next media ]; [ cbn; by rewrite app_nil_r |].
  pose proof (Forall_inv Hok) as Hnext. rewrite ParseSequenceNumber_Ok, !bind_Ok by done.
  pose proof (u16_range (seq_of next - seq_of m)) as Hu.
  rewrite <- (Z.div_add_l (g / 8) 8) by lia.
  replace (g / 8 * 8 + (g mod 8 + u16 (seq_of next - seq_of m))) with (g + u16 (seq_of next - seq_of m)) by lia.
  rewrite Z.add_mod_idemp_l by lia.
  assert (Hpos : positions g (seq_of m) (next :: media) =
    positions (g + u16 (seq_of next - seq_of m)) (seq_of next) (next :: media)).
  { cbn [positions]. by rewrite Z.sub_diag, Z.add_0_r. }
  rewrite Hpos in Hps |- *. apply IH; try done. lia.
Qed.

(** ** Bytes in place *)

Lemma write_be16_Ok data i x :
  0 <= i -> i + 2 <= Z.of_nat (length data) ->
  write_be16 data i x = Ok (<[Z.to_nat (i + 1) := u8 x]> (<[Z.to_nat i := u8 (x / 256)]> data)).
Proof. intros. unfold write_be16. by rewrite put_Ok, bind_Ok, put_Ok by (rewrite ?length_insert; lia). Qed.

Lemma write_be32_Ok data i x :
  0 <= i -> i + 4 <= Z.of_nat (length data) ->
  write_be32 data i x =
    Ok (<[Z.to_nat (i + 3) := u8 x]> (<[Z.to_nat (i + 2) := u8 (x / 256)]>
       (<[Z.to_nat (i + 1) := u8 (x / 2 ^ 16)]> (<[Z.to_nat i := u8 (x / 2 ^ 24)]> data)))).
Proof.
  intros. unfold write_be32.
  repeat first [ rewrite bind_Ok | rewrite put_Ok by (rewrite ?length_insert; lia) ]. done.
Qed.

Lemma read_be16_Ok data i :
  0 <= i -> i + 2 <= Z.of_nat (length data) ->
  read_be16 data i = Ok (byte data (Z.to_nat i) * 256 + byte data (Z.to_nat (i + 1))).
Proof. intros. unfold read_be16. rewrite !get_byte by lia. done. Qed.

(** Overwriting the middle of three parts. *)
Lemma blit_between {A} (a src b c : list A) off :
  off = length a -> length b = length src -> blit off src (a ++ b ++ c) = a ++ src ++ c.
Proof.
  intros -> Hb. unfold blit. rewrite take_app_length, <- Hb. f_equal. f_equal.
  by rewrite app_assoc, <- length_app, drop_app_length.
Qed.

Lemma be16_value n : 0 <= n < 2 ^ 16 -> u8 (n / 256) * 256 + u8 n = n.
Proof.
  intros Hn. unfold u8. rewrite (Z.mod_small (n / 256)).
  - pose proof (Z.div_mod n 256). change (2 ^ 8) with 256. lia.
  - split; [ apply Z.div_pos | apply Z.div_lt_upper_bound ]; lia.
Qed.

Lemma read_be32_Ok data i :
  0 <= i -> i + 4 <= Z.of_nat (length data) ->
  read_be32 data i =
    Ok ((byte data (Z.to_nat i) * 256 + byte data (Z.to_nat (i + 1))) * 2 ^ 16 +
        (byte data (Z.to_nat (i + 2)) * 256 + byte data (Z.to_nat (i + 2 + 1)))).
Proof. intros. unfold read_be32. rewrite !read_be16_Ok by lia. done. Qed.

Lemma be32_value n :
  0 <= n < 2 ^ 32 ->
  (u8 (n / 2 ^ 24) * 256 + u8 (n / 2 ^ 16)) * 2 ^ 16 + (u8 (n / 256) * 256 + u8 n) = n.
Proof. intros Hn. unfold u8. change (2 ^ 8) with 256. Z.to_euclidean_division_equations. lia. Qed.

(** A byte of a number written big endian. *)
Lemma u8_digit b hi lo w :
  0 < w -> 0 <= b < 256 -> 0 <= lo < w -> u8 ((hi * 256 * w + b * w + lo) / w) = b.
Proof.
  intros Hw Hb Hlo. replace (hi * 256 * w + b * w + lo) with ((hi * 256 + b) * w + lo) by lia.
  rewrite Z.div_add_l, Z.div_small, Z.add_0_r by lia. unfold u8. change (2 ^ 8) with 256.
  rewrite Z.add_comm, Z.mod_add by lia. by apply Z.mod_small.
Qed.

Lemma seq_bytes m : rtp_ok m -> u8 (seq_of m / 256) = byte m 2 /\ u8 (seq_of m) = byte m 3.
Proof.
  intros Hm. pose proof (rtp_byte m 2 Hm). pose proof (rtp_byte m 3 Hm). unfold seq_of. split.
  - replace (byte m 2 * 256 + byte m 3) with (0 * 256 * 256 + byte m 2 * 256 + byte m 3) by lia.
    by apply u8_digit.
  - rewrite <- (Z.div_1_r (_ + _)).
    replace (byte m 2 * 256 + byte m 3) with (byte m 2 * 256 * 1 + byte m 3 * 1 + 0) by lia.
    by apply u8_digit.
Qed.

Lemma ssrc_bytes m :
  rtp_ok m ->
  u8 (ssrc_of m / 2 ^ 24) = byte m 8 /\ u8 (ssrc_of m / 2 ^ 16) = byte m 9 /\
  u8 (ssrc_of m / 256) = byte m 10 /\ u8 (ssrc_of m) = byte m 11.
Proof.
  intros Hm. pose proof (rtp_byte m 8 Hm). pose proof (rtp_byte m 9 Hm).
  pose proof (rtp_byte m 10 Hm). pose proof (rtp_byte m 11 Hm). unfold ssrc_of.
  set (a := byte m 8) in *. set (b := byte m 9) in *. set (c := byte m 10) in *. set (d := byte m 11) in *.
  split_and!.
  - replace (a * 2 ^ 24 + _ + _ + _) with (0 * 256 * 2 ^ 24 + a * 2 ^ 24 + (b * 2 ^ 16 + c * 2 ^ 8 + d)) by lia.
    apply u8_digit; lia.
  - replace (a * 2 ^ 24 + _ + _ + _) with (a * 256 * 2 ^ 16 + b * 2 ^ 16 + (c * 2 ^ 8 + d)) by lia.
    apply u8_digit; lia.
  - replace (a * 2 ^ 24 + _ + _ + _) with ((a * 256 + b) * 256 * 256 + c * 256 + d) by lia. apply u8_digit; lia.
  - rewrite <- (Z.div_1_r (_ + _)).
    replace (a * 2 ^ 24 + _ + _ + _) with (((a * 256 + b) * 256 + c) * 256 * 1 + d * 1 + 0) by lia.
    apply u8_digit; lia.
Qed.

Lemma slice_Ok {A} (buf : list A) off n :
  0 <= off -> 0 <= n -> off + n <= Z.of_nat (length buf) ->
  slice buf off n = Ok (take (Z.to_nat n) (drop (Z.to_nat off) buf)).
Proof. intros. unfold slice. by rewrite !(proj2 (Z.leb_le _ _)) by lia. Qed.

(** The twelve bytes of an RTP header. *)
Lemma rtp_split m :
  rtp_ok m ->
  m = [byte m 0; byte m 1; byte m 2; byte m 3; byte m 4; byte m 5; byte m 6; byte m 7;
       byte m 8; byte m 9; byte m 10; byte m 11] ++ drop 12 m.
Proof. intros ((Hl & _) & _). do 12 (destruct m as [| ? m ]; [ cbn in Hl; lia |]). done. Qed.

(** ** Recovery *)

(** A packet of the list that has arrived, and one that has not. *)
Definition arrived (m : list Z) : ProtectedPacket := mkProtected (ssrc_of m) (seq_of m) (Some m).
Definition missing (m : list Z) : ProtectedPacket := mkProtected (ssrc_of m) (seq_of m) None.

Lemma xor_received_arrived `{CheckMode} l : forall rest hd g p s r,
  length hd = 8%nat -> length g = 4%nat -> Forall rtp_ok l ->
  xor_received (map arrived l ++ rest) (hd ++ g ++ p) s r =
    xor_received rest (pxor hd (pxor_all (map hvec l)) ++ g ++ pxor p (pxor_all (map (drop 12) l))) s r.
Proof.
  induction l as [| m l IH ]; intros rest hd g p s r Hhd Hg Hok; [ by rewrite !pxor_nil_r |].
  apply Forall_cons_1 in Hok as [Hm Hok]. pose proof Hm as ((? & ?) & _).
  cbn [map app xor_received pp_pkt arrived]. rewrite XorHeaders_Ok, bind_Ok by done. rewrite app_assoc.
  assert (Hpre : length (pxor hd (hvec m) ++ g) = 12%nat)
    by (rewrite length_app, length_pxor, length_hvec; lia).
  rewrite u64_id by (unfold kRtpHeaderSize; lia).
  replace kRtpHeaderSize with (Z.of_nat (length (pxor hd (hvec m) ++ g))) at 2 by (by rewrite Hpre).
  rewrite xor_payloads_grow, bind_Ok, <- app_assoc by lia.
  rewrite IH by (done || rewrite length_pxor, length_hvec; lia).
  cbn [pxor_all foldr]. by rewrite !pxor_assoc.
Qed.

(** The two version bits, which a FEC header uses for itself, are set again. *)
Lemma flags_restored f q b :
  0 <= b < 256 -> Z.land b 0xc0 = 0x80 -> Z.land f 0x3f = Z.land (Z.lxor b q) 0x3f ->
  Z.land (Z.lor (Z.lxor f q) 0x80) 0xbf = b.
Proof.
  intros Hb Hv Hf. apply Z.bits_inj'. intros i Hi.
  assert (Hv' : forall j, Z.testbit b j && Z.testbit 0xc0 j = Z.testbit 0x80 j)
    by (intros j; by rewrite <- Z.land_spec, Hv).
  assert (Hf' : Z.testbit f i && Z.testbit 0x3f i = xorb (Z.testbit b i) (Z.testbit q i) && Z.testbit 0x3f i)
    by (by rewrite <- Z.lxor_spec, <- !Z.land_spec, Hf).
  specialize (Hv' i). clear Hv Hf. rewrite Z.land_spec, Z.lor_spec, Z.lxor_spec.
  destruct (Z.lt_ge_cases i 8) as [Hlt | Hge].
  - assert (Hcases : i = 0 \/ i = 1 \/ i = 2 \/ i = 3 \/ i = 4 \/ i = 5 \/ i = 6 \/ i = 7) by lia. revert Hv' Hf'.
    repeat destruct Hcases as [-> | Hcases]; try subst i;
      repeat match goal with |- context [Z.testbit (Zpos ?c) ?j] =>
        let v := eval vm_compute in (Z.testbit (Zpos c) j) in change (Z.testbit (Zpos c) j) with v end;
      repeat match goal with |- context [Z.testbit ?x ?j] => destruct (Z.testbit x j) end; done.
  - rewrite (Z.bits_above_log2 0xbf) by (cbn; lia). rewrite andb_false_r.
    symmetry. destruct (Z.eq_dec b 0) as [-> |]; [ apply Z.bits_0 |].
    apply Z.bits_above_log2; [ lia |]. apply Z.log2_lt_pow2; [ lia |].
    apply Z.lt_le_trans with (2 ^ 8); [ lia |]. apply Z.pow_le_mono_r; lia.
Qed.

(** The last step: lengths, sequence number and SSRC go in, the padding goes. *)
Lemma FinishPacketRecovery_Ok m f g k :
  rtp_ok m -> length g = 4%nat -> Z.land (Z.lor f 0x80) 0xbf = byte m 0 ->
  FinishPacketRecovery ((f :: tail (hvec m)) ++ g ++ drop 12 m ++ replicate k 0) (seq_of m) (ssrc_of m) = Ok (Some m).
Proof.
  intros Hm Hg Hf. pose proof Hm as ((Hlo & Hhi) & _). unfold FinishPacketRecovery.
  destruct (seq_bytes m Hm) as [Hs1 Hs0]. destruct (ssrc_bytes m Hm) as (Hr3 & Hr2 & Hr1 & Hr0).
  unfold hvec. rewrite u16_id by (unfold kRtpHeaderSize; lia). cbn [tail].
  set (n := Z.of_nat (length m) - kRtpHeaderSize). assert (Hn : n = Z.of_nat (length m) - 12) by done.
  set (d := _ ++ _ ++ _ ++ _).
  assert (Hd : length d = (length m + k)%nat)
    by (unfold d; rewrite !length_app, Hg, length_drop, length_replicate; cbn; lia).
  rewrite get_byte, bind_Ok, put_Ok, bind_Ok by lia.
  rewrite get_byte, bind_Ok, put_Ok, bind_Ok by (rewrite ?length_insert; lia).
  rewrite read_be16_Ok, bind_Ok by (rewrite ?length_insert; lia).
  match goal with |- context [?a * 256 + ?b] => change (a * 256 + b) with (u8 (n / 256) * 256 + u8 n) end.
  rewrite be16_value by lia. unfold IP_PACKET_SIZE, kRtpHeaderSize.
  rewrite (proj2 (Z.ltb_ge _ _)) by lia.
  unfold grow. rewrite !length_insert, (proj2 (Z.ltb_ge _ _)) by lia.
  replace (Z.to_nat (n + 12)) with (12 + length (drop 12 m))%nat by (rewrite length_drop; lia).
  match goal with |- context [take ?x ?y] => set (d' := take x y) end.
  assert (Hd' : d' = [byte m 0; byte m 1; u8 (n / 256); u8 n; byte m 4; byte m 5; byte m 6; byte m 7] ++ g ++ drop 12 m).
  { unfold d', d. clear -Hf Hg. do 4 (destruct g as [| ? g ]; [ discriminate Hg |]). destruct g; [| discriminate Hg ].
    transitivity (take (12 + length (drop 12 m)) ([Z.land (Z.lor f 0x80) 0xbf; byte m 1; u8 (n / 256); u8 n; byte m 4;
      byte m 5; byte m 6; byte m 7] ++ [z; z0; z1; z2] ++ drop 12 m ++ replicate k 0)); [ reflexivity |].
    rewrite Hf. cbn [app take Nat.add]. by rewrite take_app_length. }
  assert (Hl' : length d' = length m) by (rewrite Hd', !length_app, Hg, length_drop; cbn; lia).
  rewrite write_be16_Ok, bind_Ok by lia. rewrite write_be32_Ok, bind_Ok by (rewrite ?length_insert; lia).
  rewrite Hs1, Hs0, Hr3, Hr2, Hr1, Hr0, Hd'. do 2 f_equal.
  etransitivity; [| symmetry; by apply rtp_split ].
  clear -Hg. do 4 (destruct g as [| ? g ]; [ discriminate Hg |]). destruct g; [| discriminate Hg ]. reflexivity.
Qed.

(** ** What a FEC packet carries *)

(** The sums over the headers and over the payloads of the packets [s]. *)
Definition head_sum (s : list (list Z)) : list Z := pxor_all (map hvec s).
Definition body_sum (s : list (list Z)) : list Z := pxor_all (map (drop 12) s).

Lemma assemble_cons h s : s <> [] -> assemble h s = head_sum s ++ replicate (h - 8) 0 ++ body_sum s.
Proof. by destruct s. Qed.

(** A FEC packet as it is read: the first eight bytes are the sum of the
    headers, but for two bits, and the bytes behind the FEC header are the sum
    of the payloads. *)
Record carries (h : FecHeader) (d : list Z) (s : list (list Z)) : Prop := {
  carries_size : 12 <= fh_size h <= 1500 /\ 0 <= fh_protection_length h;
  carries_length : Z.of_nat (length d) = fh_size h + fh_protection_length h;
  carries_body : drop (Z.to_nat (fh_size h)) d = body_sum s;
  carries_flags : Z.land (byte d 0) 0x3f = Z.land (byte (head_sum s) 0) 0x3f;
  carries_head : forall i, (1 <= i < 8)%nat -> byte d i = byte (head_sum s) i;
  carries_fits : Forall (fits (Z.to_nat (fh_size h))) s
}.

Lemma length_payloads s n :
  Forall (fun m => (length m <= n)%nat) s -> (length (body_sum s) <= n - 12)%nat.
Proof.
  induction 1 as [| m s Hm _ IH ]; unfold body_sum in *; cbn [map pxor_all foldr]; [ cbn; lia |].
  rewrite length_pxor, length_drop. unfold pxor_all in IH. lia.
Qed.

Lemma rtp_payloads s : Forall rtp_ok s -> (length (body_sum s) <= 1476)%nat.
Proof.
  intros Hs. apply (length_payloads s 1488). eapply list.Forall_impl; [ exact Hs |].
  intros m ((_ & H) & _). done.
Qed.

Lemma fits_payloads h s : Forall (fits h) s -> (length (body_sum s) <= 1500 - h)%nat.
Proof.
  intros Hs. replace (1500 - h)%nat with ((1512 - h) - 12)%nat by lia. apply length_payloads.
  eapply list.Forall_impl; [ exact Hs |]. unfold fits. lia.
Qed.

Lemma eight_bytes l :
  length l = 8%nat -> l = [byte l 0; byte l 1; byte l 2; byte l 3; byte l 4; byte l 5; byte l 6; byte l 7].
Proof. intros Hl. do 8 (destruct l as [| ? l ]; [ discriminate Hl |]). by destruct l. Qed.

Lemma StartPacketRecovery_carries h d s :
  carries h d s -> Forall rtp_ok s ->
  StartPacketRecovery h d = Ok (Some (take 12 d ++ body_sum s)).
Proof.
  intros [Hsz Hl Hb _ _ Hfit] Hok. pose proof (rtp_payloads s Hok) as Hp.
  pose proof (fits_payloads _ s Hfit) as Hf. pose proof (f_equal length Hb) as Hlb. rewrite length_drop in Hlb.
  unfold StartPacketRecovery, IP_PACKET_SIZE, kRtpHeaderSize.
  rewrite (proj2 (Z.ltb_ge _ _)), (proj2 (Z.ltb_ge _ _)) by lia.
  rewrite !slice_Ok by lia. rewrite !bind_Ok, Hb, (take_ge (body_sum s)) by lia. done.
Qed.

Lemma carries_first h d s :
  carries h d s -> s <> [] ->
  exists g, take 12 d = (byte d 0 :: tail (head_sum s)) ++ g /\ length g = 4%nat.
Proof.
  intros [Hsz Hl Hb _ Hi _] Hs. pose proof (f_equal length Hb) as Hlb. rewrite length_drop in Hlb.
  pose proof (eight_bytes _ (length_hvecs s Hs)) as Hhd. fold (head_sum s) in Hhd.
  rewrite <- (Hi 1%nat), <- (Hi 2%nat), <- (Hi 3%nat), <- (Hi 4%nat), <- (Hi 5%nat), <- (Hi 6%nat), <- (Hi 7%nat)
    in Hhd by lia.
  do 12 (destruct d as [| ? d ]; [ cbn in Hl, Hlb; lia |]). rewrite Hhd. by eexists [_; _; _; _].
Qed.

(** Taking the sum of all but one off the sum of all. *)
Lemma hvec_tail m q f :
  length q = 8%nat \/ q = [] ->
  pxor (f :: tail (pxor (hvec m) q)) q = Z.lxor f (byte q 0) :: tail (hvec m).
Proof.
  intros [Hq | ->]; [| by rewrite !pxor_nil_r, Z.lxor_0_r ].
  rewrite (eight_bytes q Hq). unfold hvec. cbn [pxor tail byte lookup list_lookup default].
  by rewrite !Z.lxor_assoc, !Z.lxor_nilpotent, !Z.lxor_0_r.
Qed.

(** Any one packet is rebuilt from the FEC packet and the others. *)
Lemma RecoverPacket_carries `{CheckMode} h d s1 m s2 :
  carries h d (s1 ++ m :: s2) -> Forall rtp_ok (s1 ++ m :: s2) ->
  RecoverPacket h d (map arrived s1 ++ missing m :: map arrived s2) = Ok (Some (m, seq_of m, ssrc_of m)).
Proof.
  intros Hc Hok. unfold RecoverPacket. rewrite (StartPacketRecovery_carries h d _ Hc Hok), bind_Ok.
  apply Forall_app in Hok as [Hok1 Hok2]. apply Forall_cons_1 in Hok2 as [Hm Hok2].
  destruct (carries_first h d _ Hc) as (g & -> & Hg); [ by destruct s1 |].
  pose proof (carries_flags _ _ _ Hc) as Hfl. revert Hfl. unfold head_sum, body_sum. clear Hc.
  set (q := pxor_all (map hvec (s1 ++ s2))).
  assert (Hsum : pxor_all (map hvec (s1 ++ m :: s2)) = pxor (hvec m) q).
  { rewrite (pxor_all_perm _ (map hvec (m :: s1 ++ s2))); [ done |]. by rewrite <- Permutation_middle. }
  assert (Hq : length q = 8%nat \/ q = []).
  { unfold q. destruct (decide (s1 ++ s2 = [])) as [-> |]; [ by right |]. left. by apply length_hvecs. }
  assert (Hp : pxor_all (map (drop 12) (s1 ++ m :: s2)) = pxor_all (drop 12 m :: map (drop 12) (s1 ++ s2))).
  { apply pxor_all_perm. rewrite <- map_cons. by rewrite <- Permutation_middle. }
  rewrite Hsum, byte_pxor. change (byte (hvec m) 0) with (byte m 0). intros Hfl. set (f := byte d 0) in *.
  assert (Hlen : length (f :: tail (pxor (hvec m) q)) = 8%nat).
  { destruct Hq as [Hq | Hq]; [ rewrite (eight_bytes q Hq) | rewrite Hq ]; done. }
  rewrite <- app_assoc, xor_received_arrived by done.
  cbn [xor_received pp_pkt missing pp_seq_num pp_ssrc]. rewrite <- (app_nil_r (map arrived s2)).
  rewrite xor_received_arrived; [| | done | done ].
  2:{ rewrite length_pxor, Hlen. destruct s1 as [| m1 s1 ]; [ done |]. by rewrite length_hvecs. }
  cbn [xor_received]. rewrite bind_Ok, <- !pxor_assoc, Hp.
  rewrite <- (pxor_all_app (map hvec s1)), <- (pxor_all_app (map (drop 12) s1)), <- !map_app, pxor_all_cancel.
  fold q. rewrite hvec_tail by done. rewrite FinishPacketRecovery_Ok; [ done | done | done |].
  pose proof (rtp_byte m 0 Hm). apply flags_restored; [ done | apply Hm | done ].
Qed.

(** ** Arrays of bytes *)

Definition bytes_ok (l : list Z) : Prop := Forall (fun b => 0 <= b < 256) l.

(** An array of [n] bytes. *)
Definition buffer (n : nat) (l : list Z) : Prop := length l = n /\ bytes_ok l.

(** A run that succeeded, step by step. *)
Ltac inv_binds := repeat match goal with
  | Hrun : (_ ≫= _) = Ok _ |- _ =>
      let x := fresh "x" in apply bind_Ok_inv in Hrun as (x & ? & Hrun);
      repeat match type of x with (_ * _)%type => let y := fresh "y" in destruct x as [x y] end; cbv beta iota in Hrun
  end.

Lemma blit_bytes off src dst : bytes_ok src -> bytes_ok dst -> bytes_ok (blit off src dst).
Proof. intros Hs Hd. unfold blit. repeat apply Forall_app_2; [ by apply Forall_take | done | by apply Forall_drop ]. Qed.

Lemma put_buffer n l i b l' : buffer n l -> 0 <= b < 256 -> put l i b = Ok l' -> buffer n l'.
Proof.
  intros [Hn Hl] Hb. unfold put. destruct (_ && _); [| done ]. intros [= <-].
  split; [ by rewrite length_insert | by apply Forall_insert ].
Qed.

Lemma get_bytes l i b : bytes_ok l -> get l i = Ok b -> 0 <= b < 256.
Proof.
  intros Hl. unfold get. destruct (0 <=? i); [| done ]. destruct (l !! Z.to_nat i) as [x |] eqn:E; [| done ].
  intros [= <-]. exact (Forall_lookup_1 _ _ _ _ Hl E).
Qed.

Lemma slice_bytes l off n l' : bytes_ok l -> slice l off n = Ok l' -> bytes_ok l'.
Proof. intros Hl. unfold slice. destruct (_ && _); [| done ]. intros [= <-]. by apply Forall_take, Forall_drop. Qed.

Lemma memcpy_buffer n dst doff src soff len out :
  buffer n dst -> bytes_ok src -> memcpy dst doff src soff len = Ok out -> buffer n out.
Proof.
  intros [Hn Hd] Hs. unfold memcpy. destruct (_ && _) eqn:E; [| done ]. intros [= <-]. bool_prop. split.
  - rewrite length_blit; [ done |]. rewrite length_take, length_drop. lia.
  - apply blit_bytes; [ by apply Forall_take, Forall_drop | done ].
Qed.

Lemma memset_buffer n dst doff v len out : buffer n dst -> 0 <= v < 256 -> memset dst doff v len = Ok out -> buffer n out.
Proof.
  intros [Hn Hd] Hv. unfold memset. destruct (_ && _) eqn:E; [| done ]. intros [= <-]. bool_prop. split.
  - rewrite length_blit; [ done |]. rewrite length_replicate. lia.
  - apply blit_bytes; [ by apply Forall_replicate | done ].
Qed.

Lemma write_be16_buffer n l i x l' : buffer n l -> write_be16 l i x = Ok l' -> buffer n l'.
Proof. intros Hl Hrun. unfold write_be16 in Hrun. inv_binds. repeat (eapply put_buffer; [| apply u8_range | eassumption ]). done. Qed.
Lemma write_be32_buffer n l i x l' : buffer n l -> write_be32 l i x = Ok l' -> buffer n l'.
Proof. intros Hl Hrun. unfold write_be32 in Hrun. inv_binds. repeat (eapply put_buffer; [| apply u8_range | eassumption ]). done. Qed.

Lemma land_byte b m : 0 <= b < 256 -> 0 <= m -> 0 <= Z.land b m < 256.
Proof.
  intros Hb Hm. split; [ apply Z.land_nonneg; lia |]. change 256 with (2 ^ 8) in *. rewrite <- (Z.mod_small b (2 ^ 8)) by lia.
  rewrite <- Z.land_ones, <- Z.land_assoc, (Z.land_comm (Z.ones 8)), Z.land_assoc, Z.land_ones by lia. apply Z.mod_pos_bound. lia.
Qed.
Lemma lor_byte b m : 0 <= b < 256 -> 0 <= m < 256 -> 0 <= Z.lor b m < 256.
Proof.
  intros Hb Hm. split; [ apply Z.lor_nonneg; lia |]. destruct (Z.eq_dec (Z.lor b m) 0) as [-> | Hne]; [ lia |].
  pose proof (proj2 (Z.lor_nonneg b m) ltac:(lia)). change 256 with (2 ^ 8) in *. apply Z.log2_lt_pow2; [ lia |]. rewrite Z.log2_lor by lia.
  apply Z.max_lub_lt; (destruct (Z.eq_dec b 0) as [-> |], (Z.eq_dec m 0) as [-> |]; cbn; try lia; apply Z.log2_lt_pow2; lia).
Qed.

Lemma buffer_bytes n l : buffer n l -> bytes_ok l.
Proof. apply proj2. Qed.

(** Follows an array through the accesses of a run that succeeded. *)
Ltac byte_range := first
  [ assumption | apply u8_range | apply land_byte; [ byte_range | lia ] | apply lor_byte; [ byte_range | lia ] | lia ].
Ltac follow_buffer := repeat match goal with
  | Hb : buffer _ ?l, Hg : get ?l _ = Ok ?b |- _ => pose proof (get_bytes _ _ _ (proj2 Hb) Hg); clear Hg
  | Hb : buffer _ ?l, Hp : put ?l _ _ = Ok _ |- _ => apply (put_buffer _ _ _ _ _ Hb) in Hp; [| byte_range ]
  | Hb : buffer _ ?l, Hp : memcpy ?l _ _ _ _ = Ok _ |- _ => apply (memcpy_buffer _ _ _ _ _ _ _ Hb) in Hp; [| by (apply Hb || assumption) ]
  | Hb : buffer _ ?l, Hp : memset ?l _ _ _ = Ok _ |- _ => apply (memset_buffer _ _ _ _ _ _ Hb) in Hp; [| byte_range ]
  | Hb : buffer _ ?l, Hp : write_be16 ?l _ _ = Ok _ |- _ => apply (write_be16_buffer _ _ _ _ _ Hb) in Hp
  | Hb : buffer _ ?l, Hp : write_be32 ?l _ _ = Ok _ |- _ => apply (write_be32_buffer _ _ _ _ _ Hb) in Hp
  end.

(** The payload of a FEC packet is made of bytes, with a head of [h] of them. *)
Lemma lxor_byte a b : 0 <= a < 256 -> 0 <= b < 256 -> 0 <= Z.lxor a b < 256.
Proof.
  assert (Hlog : forall x, 0 <= x < 256 -> Z.log2 x < 8).
  { intros x Hx. destruct (Z.eq_dec x 0) as [-> | Hne]; [ cbn; lia |]. apply Z.log2_lt_pow2; [ lia |]. change (2 ^ 8) with 256. lia. }
  intros Ha Hb. pose proof (proj2 (Z.lxor_nonneg a b) ltac:(lia)). split; [ done |].
  destruct (Z.eq_dec (Z.lxor a b) 0) as [-> | Hne]; [ lia |]. change 256 with (2 ^ 8). apply Z.log2_lt_pow2; [ lia |].
  eapply Z.le_lt_trans; [ apply Z.log2_lxor; lia |]. apply Z.max_lub_lt; by apply Hlog.
Qed.

Lemma pxor_bytes a b : bytes_ok a -> bytes_ok b -> bytes_ok (pxor a b).
Proof.
  intros Ha. revert b. induction Ha as [| x a Hx Ha IH ]; intros b Hb; [ done |]. destruct Hb as [| y b Hy Hb ]; [ by constructor |].
  cbn [pxor]. constructor; [ by apply lxor_byte | by apply IH ].
Qed.

Lemma pxor_all_bytes l : Forall bytes_ok l -> bytes_ok (pxor_all l).
Proof. induction 1 as [| x l Hx _ IH ]; [ constructor |]. by apply pxor_bytes. Qed.

Lemma assemble_buffer h n s :
  (8 <= h)%nat -> s <> [] -> Forall rtp_ok s -> Forall (fun m => (length m <= n)%nat) s ->
  exists k, buffer k (assemble h s) /\ (h <= k <= h + (n - 12))%nat.
Proof.
  intros Hh Hs Hok Hn. rewrite assemble_cons by done. pose proof (length_payloads s n Hn) as Hl.
  exists (h + length (body_sum s))%nat. split; [| lia ]. split.
  - rewrite !length_app, length_replicate. unfold head_sum. rewrite length_hvecs by done. lia.
  - apply Forall_app_2; [| apply Forall_app_2 ].
    + apply pxor_all_bytes, Forall_map. eapply list.Forall_impl; [ exact Hok |]. intros m Hm.
      repeat (constructor; [ first [ by apply rtp_byte | apply u8_range ] |]). constructor.
    + by apply Forall_replicate.
    + apply pxor_all_bytes, Forall_map. eapply list.Forall_impl; [ exact Hok |]. intros m (_ & Hm & _). by apply Forall_drop.
Qed.

(** ** The contract between header writer and header reader *)

Definition mask_ok (mask : list Z) : Prop :=
  (length mask = 2%nat \/ length mask = 6%nat) /\ Forall (fun b => 0 <= b < 256) mask.

(** The header size the writer chooses for a mask. *)
Definition header_size `{FecHeaderWriter} (mask : list Z) (h : nat) : Prop :=
  forall rest, exists k, MinPacketMaskSize (mask ++ rest) (Z.of_nat (length mask)) = Ok k /\
    FecHeaderSize k = Ok (Z.of_nat h).

Lemma header_size_unique `{FecHeaderWriter} mask h h' : header_size mask h -> header_size mask h' -> h = h'.
Proof.
  intros H1 H2. destruct (H1 []) as (k & Hk & Hh), (H2 []) as (k' & Hk' & Hh').
  rewrite Hk in Hk'. injection Hk' as <-. rewrite Hh in Hh'. injection Hh'. lia.
Qed.

(** Bit [g] of the mask in a FEC packet that was read. *)
Definition read_mask_bit (h : FecHeader) (d : list Z) (g : Z) : bool :=
  bit_at (drop (Z.to_nat (fh_packet_mask_offset h)) d) g.

(** A packet that was read protects, under base sequence number [base], the
    packets at the bits of [mask]. *)
Record announces (h : FecHeader) (d : list Z) (media_ssrc base : Z) (mask : list Z) : Prop := {
  announces_ssrc : fh_ssrc h = media_ssrc;
  announces_base : fh_seq_num_base h = base;
  announces_offset : 0 <= fh_packet_mask_offset h;
  announces_size : Z.of_nat (length mask) <= fh_packet_mask_size h;
  announces_within : fh_packet_mask_offset h + fh_packet_mask_size h <= Z.of_nat (length d);
  announces_bits : forall g, 0 <= g < 8 * fh_packet_mask_size h ->
    read_mask_bit h d g = (g <? 8 * Z.of_nat (length mask)) && bit_at mask g
}.

(** What writer and reader promise for FEC packets sent with SSRC [ssrc] about
    the stream [media_ssrc]: every mask has a header size, what the writer
    completes the reader understands, and it completes bytes in place. *)
Class FecHeaderLaws `{FecHeaderWriter} `{FecHeaderReader} (ssrc media_ssrc : Z) : Prop := {
  law_header_size : forall mask, mask_ok mask -> exists h, header_size mask h /\ (12 <= h <= 32)%nat;
  law_read_back : forall mask h base s,
    mask_ok mask -> header_size mask h -> 0 <= base < 2 ^ 16 ->
    s <> [] -> Forall rtp_ok s -> Forall (fits h) s ->
    exists wire hd d, FinalizeFecHeader media_ssrc base mask (assemble h s) = Ok wire /\
      ReadFecHeader ssrc wire = Ok (Some (hd, d)) /\
      carries hd d s /\ announces hd d media_ssrc base mask;
  law_bytes : forall mask base n data wire,
    mask_ok mask -> buffer n data -> FinalizeFecHeader media_ssrc base mask data = Ok wire -> buffer n wire
}.

(** ** Which payload a row of the masks gives *)

Lemma positions_shift a g p l : positions (a + g) p l = map (Z.add a) (positions g p l).
Proof.
  revert g p. induction l as [| m l IH ]; intros g p; [ done |]. cbn [positions map].
  by rewrite <- IH, Z.add_assoc.
Qed.

(** The packets the row [row] protects. *)
Definition selected (row : list Z) (media : list (list Z)) : list (list Z) :=
  match media with
  | [] => []
  | m :: _ => chosen row (positions 0 (seq_of m) media) media
  end.

Definition row_of (masks : list Z) (n i : Z) : list Z := take (Z.to_nat n) (drop (Z.to_nat (i * n)) masks).

Lemma bit_at_row masks n i g :
  0 <= i -> 0 <= n -> 0 <= g < 8 * n -> bit_at masks (8 * (i * n) + g) = bit_at (row_of masks n i) g.
Proof.
  intros Hi Hn Hg. unfold bit_at, row_of. rewrite (Z.mul_comm 8), Z.div_add_l by lia.
  rewrite (Z.add_comm (_ * 8)), Z.mod_add by lia. f_equal. assert (0 <= g / 8 < n) by (split; [ apply Z.div_pos | apply Z.div_lt_upper_bound ]; lia).
  rewrite !list_lookup_total_alt, lookup_take_lt, lookup_drop by lia. do 2 f_equal. lia.
Qed.

Lemma chosen_row masks n i ps media :
  0 <= i -> 0 <= n -> Forall (fun g => 0 <= g < 8 * n) ps ->
  chosen masks (map (Z.add (8 * (i * n))) ps) media = chosen (row_of masks n i) ps media.
Proof.
  intros Hi Hn Hps. revert media. induction Hps as [| g ps Hg _ IH ]; intros [| m media ]; [ done.. |].
  unfold chosen in *. cbn [map zip zip_with omap list_omap]. rewrite bit_at_row by done.
  destruct (bit_at _ g); [ f_equal |]; apply IH.
Qed.

Lemma generate_fec_payload_Ok `{CheckMode} `{FecHeaderWriter} masks n i h m0 rest :
  let media := m0 :: rest in
  n = 2 \/ n = 6 -> 0 <= i -> i * n + n <= Z.of_nat (length masks) ->
  header_size (row_of masks n i) h -> (8 <= h)%nat ->
  Forall rtp_ok media -> Forall (fits h) media ->
  Forall (fun g => 0 <= g < 8 * n) (positions 0 (seq_of m0) media) ->
  selected (row_of masks n i) media <> [] ->
  generate_fec_payload masks n i media = Ok (assemble h (selected (row_of masks n i) media)).
Proof.
  intros media Hn Hi Hlen Hh H8 Hok Hfit Hps Hne. unfold generate_fec_payload.
  assert (Hin : 0 <= i * n) by (destruct Hn; lia).
  destruct (Hh (drop (Z.to_nat n) (drop (Z.to_nat (i * n)) masks))) as (k & Hk & Hs).
  unfold row_of in Hk at 2. rewrite length_take, length_drop in Hk. unfold row_of in Hk. rewrite take_drop in Hk.
  replace (Z.of_nat (Z.to_nat n `min` (length masks - Z.to_nat (i * n)))) with n in Hk by (destruct Hn; lia).
  rewrite Hk, bind_Ok, Hs, bind_Ok. unfold media at 1. cbn beta iota.
  rewrite ParseSequenceNumber_Ok, bind_Ok by (by apply Forall_inv in Hok).
  pose proof (chosen_row masks n i _ media Hi ltac:(destruct Hn; lia) Hps) as Hc.
  rewrite <- positions_shift, Z.add_0_r in Hc.
  pose proof (generate_row_Ok masks h media (8 * (i * n)) [] m0 H8 Hok Hfit ltac:(lia) eq_refl) as Hg.
  rewrite Hc in Hg. replace (8 * (i * n)) with (i * n * 8) in Hg by lia.
  rewrite Z.div_mul, Z.mod_mul in Hg by lia. cbn [app assemble] in Hg.
  unfold media in *. cbn [selected] in *. rewrite Hg, bind_Ok.
  - rewrite RTC_DCHECK_Ok; [ done |]. apply Z.ltb_lt. destruct (chosen _ _ _); [ done |].
    cbn [assemble]. rewrite length_app, length_hvecs by done. lia.
  - rewrite <- (Z.add_0_r (i * n * 8)), positions_shift. apply Forall_map.
    eapply list.Forall_impl; [ exact Hps |]. intros g Hgg. cbn beta in Hgg. lia.
Qed.
