(* ===== verification/UlpfecHeader.v ===== *)
(** * ULPFEC headers

    [modules/rtp_rtcp/source/ulpfec_header_reader_writer.cc]: the header layout
    of RFC 5109 behind the interfaces of [RtpFecCodec], and the proof that
    writer and reader keep the contract [FecHeaderLaws]. Both streams have one
    SSRC, as in RED. *)
From S2P Require Import Prelude.
From S2P Require Import MaskTable.
From S2P Require Import RtpFecCodec.
From S2P Require Import RtpFecAlgebra.
From stdpp Require Import base list list_numbers numbers option tactics.
From Stdlib Require Import ZArith Lia.

#[local] Open Scope Z_scope.

Definition kMaxMediaPackets : Z := 48.
Definition kMaxTrackedMediaPackets : Z := 4 * kMaxMediaPackets.
Definition kMaxFecPackets : Z := kMaxMediaPackets.
Definition kFecLevel0HeaderSize : Z := 10.
Definition kFecLevel1HeaderSizeLBitSet : Z := 2 + kUlpfecPacketMaskSizeLBitSet.
Definition kFecLevel1HeaderSizeLBitClear : Z := 2 + kUlpfecPacketMaskSizeLBitClear.
Definition kPacketMaskOffset : Z := kFecLevel0HeaderSize + 2.

Section Ulpfec.
Context `{CheckMode}.

Definition UlpfecHeaderSize (packet_mask_size : Z) : outcome Z :=
  RTC_DCHECK (packet_mask_size <=? kUlpfecPacketMaskSizeLBitSet);;
  if packet_mask_size <=? kUlpfecPacketMaskSizeLBitClear
  then Ok (kFecLevel0HeaderSize + kFecLevel1HeaderSizeLBitClear)
  else Ok (kFecLevel0HeaderSize + kFecLevel1HeaderSizeLBitSet).

Definition Ulpfec_MinPacketMaskSize (packet_mask : list Z) (packet_mask_size : Z) : outcome Z :=
  Ok packet_mask_size.

(** [UlpfecHeaderWriter::FinalizeFecHeader] for one protected stream; its SSRC
    is not sent. *)
Definition Ulpfec_FinalizeFecHeader (media_ssrc seq_num_base : Z) (packet_mask data : list Z)
    : outcome (list Z) :=
  let packet_mask_size := Z.of_nat (length packet_mask) in
  b0 ← get data 0; data ← put data 0 (Z.land b0 0x7f);
  b0 ← get data 0;
  data ←
    (if packet_mask_size =? kUlpfecPacketMaskSizeLBitSet then put data 0 (Z.lor b0 0x40)
     else
       RTC_DCHECK (packet_mask_size =? kUlpfecPacketMaskSizeLBitClear);;
       put data 0 (Z.land b0 0xbf));
  data ← memcpy data 8 data 2 2;
  data ← write_be16 data 2 seq_num_base;
  fec_header_size ← UlpfecHeaderSize packet_mask_size;
  data ← write_be16 data 10 (u16 (Z.of_nat (length data) - fec_header_size));
  memcpy data 12 packet_mask 0 packet_mask_size.

(** [UlpfecHeaderReader::ReadFecHeader]; [None]: the packet is truncated. *)
Definition Ulpfec_ReadFecHeader (ssrc : Z) (data : list Z) : outcome (option (FecHeader * list Z)) :=
  if Z.of_nat (length data) <? kPacketMaskOffset then Ok None
  else
    b0 ← get data 0;
    let l_bit := negb (Z.land b0 0x40 =? 0) in
    let packet_mask_size :=
      if l_bit then kUlpfecPacketMaskSizeLBitSet else kUlpfecPacketMaskSizeLBitClear in
    fec_header_size ← UlpfecHeaderSize packet_mask_size;
    seq_num_base ← read_be16 data 2;
    protection_length ← read_be16 data 10;
    data ← memcpy data 2 data 8 2;
    Ok (Some (mkFecHeader fec_header_size protection_length ssrc seq_num_base kPacketMaskOffset packet_mask_size,
              data)).

#[export] Instance UlpfecHeaderWriter : FecHeaderWriter := {
  MinPacketMaskSize := Ulpfec_MinPacketMaskSize;
  FecHeaderSize := UlpfecHeaderSize;
  FinalizeFecHeader := Ulpfec_FinalizeFecHeader;
  writer_MaxMediaPackets := kMaxMediaPackets;
  writer_MaxFecPackets := kMaxFecPackets;
  MaxPacketOverhead := kFecLevel0HeaderSize + kFecLevel1HeaderSizeLBitSet
}.

#[export] Instance UlpfecHeaderReader : FecHeaderReader := {
  ReadFecHeader := Ulpfec_ReadFecHeader;
  reader_MaxMediaPackets := kMaxTrackedMediaPackets;
  reader_MaxFecPackets := kMaxFecPackets
}.

End Ulpfec.

(** ** What is written *)

(** The first byte on the wire: no extension bit, the L bit tells the mask size. *)
Definition wire_flags (mask_size : nat) (b0 : Z) : Z :=
  if decide (mask_size = 6%nat) then Z.lor (Z.land b0 0x7f) 0x40 else Z.land (Z.land b0 0x7f) 0xbf.

Definition mask_size_ok (mask : list Z) : Prop := length mask = 2%nat \/ length mask = 6%nat.

Lemma UlpfecHeaderSize_Ok `{CheckMode} n :
  n = 2 \/ n = 6 -> UlpfecHeaderSize n = Ok (12 + n).
Proof. intros [-> | ->]; unfold UlpfecHeaderSize; by rewrite RTC_DCHECK_Ok. Qed.

(** What is sent: flags, base sequence number, the summed length moved to bytes
    8 and 9, the protection length, the mask, the payload. *)
Lemma Ulpfec_FinalizeFecHeader_Ok `{CheckMode} ssrc base mask b0 b1 b2 b3 b4 b5 b6 b7 p :
  mask_size_ok mask ->
  Ulpfec_FinalizeFecHeader ssrc base mask ([b0; b1; b2; b3; b4; b5; b6; b7] ++ replicate (4 + length mask) 0 ++ p) =
    let n := u16 (Z.of_nat (length p)) in
    Ok ([wire_flags (length mask) b0; b1; u8 (base / 256); u8 base; b4; b5; b6; b7; b2; b3; u8 (n / 256); u8 n] ++
        mask ++ p).
Proof.
  intros Hm. unfold Ulpfec_FinalizeFecHeader. set (d := _ ++ _ ++ _).
  assert (Hd : length d = (12 + length mask + length p)%nat)
    by (unfold d; rewrite !length_app, length_replicate; cbn; lia).
  rewrite get_byte, bind_Ok, put_Ok, bind_Ok by lia.
  rewrite get_byte, bind_Ok by (rewrite length_insert; lia).
  match goal with |- context [if ?c then ?x else ?y] =>
    replace (if c then x else y) with (Ok (<[0%nat := wire_flags (length mask) b0]> d) : outcome (list Z)) end.
  2:{ unfold wire_flags. destruct Hm as [-> | ->].
      - change (Z.of_nat 2 =? kUlpfecPacketMaskSizeLBitSet) with false. cbn beta iota.
        rewrite decide_False by done. rewrite RTC_DCHECK_Ok, bind_Ok, put_Ok by (done || rewrite length_insert; lia). done.
      - change (Z.of_nat 6 =? kUlpfecPacketMaskSizeLBitSet) with true. cbn beta iota.
        rewrite decide_True by done. rewrite put_Ok by (rewrite length_insert; lia). done. }
  rewrite bind_Ok, memcpy_Ok, bind_Ok by (rewrite ?length_insert; lia).
  set (d1 := blit _ _ _).
  assert (Hd1 : length d1 = length d).
  { unfold d1. rewrite length_blit; rewrite ?length_take, ?length_drop, ?length_insert; lia. }
  rewrite write_be16_Ok, bind_Ok by lia.
  rewrite UlpfecHeaderSize_Ok, bind_Ok by (destruct Hm; lia). rewrite !length_insert, Hd1, Hd.
  replace (Z.of_nat (12 + length mask + length p) - (12 + Z.of_nat (length mask))) with (Z.of_nat (length p)) by lia.
  generalize (u16 (Z.of_nat (length p))). intros n.
  rewrite write_be16_Ok, bind_Ok, memcpy_Ok by (rewrite ?length_insert; lia).
  cbn zeta. rewrite drop_0, take_ge by lia. f_equal.
  rewrite <- (blit_between _ mask (replicate (length mask) 0) p (Z.to_nat 12)) by (done || by rewrite length_replicate).
  reflexivity.
Qed.

Lemma wire_flags_L mask b0 :
  mask_size_ok mask ->
  negb (Z.land (wire_flags (length mask) b0) 0x40 =? 0) = bool_decide (length mask = 6%nat).
Proof.
  intros Hm. change 0x40 with (Z.shiftl 1 6). rewrite mask_test by lia. unfold wire_flags.
  destruct Hm as [-> | ->]; rewrite ?decide_True, ?decide_False by done;
    rewrite ?Z.lor_spec, !Z.land_spec; cbn; by rewrite ?andb_false_r, ?orb_true_r.
Qed.

(** Reading undoes writing: the header's fields, and the summed length back in
    its place. *)
Lemma Ulpfec_ReadFecHeader_Ok `{CheckMode} ssrc mask b0 b1 s1 s0 b2 b3 b4 b5 b6 b7 n1 n0 p :
  mask_size_ok mask ->
  Ulpfec_ReadFecHeader ssrc ([wire_flags (length mask) b0; b1; s1; s0; b4; b5; b6; b7; b2; b3; n1; n0] ++ mask ++ p) =
    Ok (Some (mkFecHeader (12 + Z.of_nat (length mask)) (n1 * 256 + n0) ssrc (s1 * 256 + s0) 12 (Z.of_nat (length mask)),
              [wire_flags (length mask) b0; b1; b2; b3; b4; b5; b6; b7; b2; b3; n1; n0] ++ mask ++ p)).
Proof.
  intros Hm. unfold Ulpfec_ReadFecHeader. set (d := _ ++ _ ++ _).
  assert (Hd : length d = (12 + length mask + length p)%nat) by (unfold d; rewrite !length_app; cbn; lia).
  rewrite (proj2 (Z.ltb_ge _ _)) by (change kPacketMaskOffset with 12; lia).
  rewrite get_byte, bind_Ok by lia. change (byte d (Z.to_nat 0)) with (wire_flags (length mask) b0).
  rewrite wire_flags_L by done.
  replace (if bool_decide (length mask = 6%nat) then kUlpfecPacketMaskSizeLBitSet else kUlpfecPacketMaskSizeLBitClear)
    with (Z.of_nat (length mask)) by (by destruct Hm as [-> | ->]).
  rewrite UlpfecHeaderSize_Ok, bind_Ok by (destruct Hm; lia).
  rewrite !read_be16_Ok, !bind_Ok by lia. rewrite memcpy_Ok, bind_Ok by lia. reflexivity.
Qed.

(** ** The contract *)

Lemma wire_flags_low k b : Z.land (wire_flags k b) 0x3f = Z.land b 0x3f.
Proof.
  unfold wire_flags. destruct (decide (k = 6%nat)).
  - rewrite Z.land_lor_distr_l, <- Z.land_assoc. cbn. apply Z.lor_0_r.
  - by rewrite <- !Z.land_assoc.
Qed.

Lemma Ulpfec_header_size `{CheckMode} mask : mask_size_ok mask -> header_size mask (12 + length mask).
Proof.
  intros Hm rest. exists (Z.of_nat (length mask)). split; [ done |]. cbn [FecHeaderSize UlpfecHeaderWriter].
  rewrite UlpfecHeaderSize_Ok by (destruct Hm; lia). f_equal. lia.
Qed.

(** The bytes of the FEC packet over [s] from the first header byte to the
    mask, with [x1], [x0] where the base sequence number is sent. *)
Definition ulpfec_bytes (mask : list Z) (s : list (list Z)) (x1 x0 : Z) : list Z :=
  let hd := head_sum s in
  let n := Z.of_nat (length (body_sum s)) in
  [wire_flags (length mask) (byte hd 0); byte hd 1; x1; x0; byte hd 4; byte hd 5; byte hd 6; byte hd 7;
   byte hd 2; byte hd 3; u8 (n / 256); u8 n] ++ mask ++ body_sum s.

Lemma ulpfec_written `{CheckMode} ssrc base mask s :
  mask_size_ok mask -> s <> [] -> Forall rtp_ok s ->
  Ulpfec_FinalizeFecHeader ssrc base mask (assemble (12 + length mask) s) =
    Ok (ulpfec_bytes mask s (u8 (base / 256)) (u8 base)).
Proof.
  intros Hm Hs Hok. pose proof (rtp_payloads s Hok) as Hp. rewrite assemble_cons by done.
  pose proof (length_hvecs s Hs) as Hhd. unfold ulpfec_bytes. fold (head_sum s) in Hhd.
  rewrite (eight_bytes (head_sum s) Hhd) at 1. replace (12 + length mask - 8)%nat with (4 + length mask)%nat by lia.
  rewrite Ulpfec_FinalizeFecHeader_Ok by done. cbn zeta. by rewrite u16_id by lia.
Qed.

Lemma ulpfec_read `{CheckMode} ssrc base mask s :
  mask_size_ok mask -> 0 <= base < 2 ^ 16 -> Forall rtp_ok s ->
  Ulpfec_ReadFecHeader ssrc (ulpfec_bytes mask s (u8 (base / 256)) (u8 base)) =
    Ok (Some (mkFecHeader (12 + Z.of_nat (length mask)) (Z.of_nat (length (body_sum s))) ssrc base 12
                (Z.of_nat (length mask)),
              ulpfec_bytes mask s (byte (head_sum s) 2) (byte (head_sum s) 3))).
Proof.
  intros Hm Hb Hok. pose proof (rtp_payloads s Hok) as Hp. unfold ulpfec_bytes.
  rewrite Ulpfec_ReadFecHeader_Ok by done. by rewrite !be16_value by lia.
Qed.

Lemma Ulpfec_FinalizeFecHeader_buffer `{CheckMode} media_ssrc mask base n data wire :
  bytes_ok mask -> buffer n data -> Ulpfec_FinalizeFecHeader media_ssrc base mask data = Ok wire -> buffer n wire.
Proof.
  intros Hm Hd Hrun. unfold Ulpfec_FinalizeFecHeader in Hrun. inv_binds.
  match goal with Hc : (if ?b then _ else _) = Ok _ |- _ => destruct b; inv_binds end; by follow_buffer.
Qed.

#[export] Instance UlpfecLaws `{CheckMode} ssrc : FecHeaderLaws ssrc ssrc.
Proof.
  split.
  - intros mask [Hm _]. exists (12 + length mask)%nat. split; [ by apply Ulpfec_header_size | destruct Hm; lia ].
  - intros mask h base s [Hm _] Hh Hb Hs Hok Hfit.
    assert (h = (12 + length mask)%nat) as -> by (by eapply header_size_unique, Ulpfec_header_size).
    cbn [FinalizeFecHeader UlpfecHeaderWriter ReadFecHeader UlpfecHeaderReader].
    do 3 eexists. split; [ by apply ulpfec_written |]. split; [ by apply ulpfec_read |].
    assert (Hl : length (ulpfec_bytes mask s (byte (head_sum s) 2) (byte (head_sum s) 3)) =
      (12 + length mask + length (body_sum s))%nat) by (unfold ulpfec_bytes; rewrite !length_app; cbn; lia).
    split; split; cbn [fh_size fh_protection_length fh_ssrc fh_seq_num_base fh_packet_mask_offset fh_packet_mask_size].
    + destruct Hm; lia.
    + lia.
    + unfold ulpfec_bytes. rewrite app_assoc, drop_app_length' by (rewrite length_app; cbn; lia). done.
    + apply wire_flags_low.
    + intros i Hi. do 8 (destruct i as [| i ]; [ (lia || reflexivity) |]). lia.
    + by replace (Z.to_nat (12 + Z.of_nat (length mask))) with (12 + length mask)%nat by lia.
    + done.
    + done.
    + lia.
    + lia.
    + lia.
    + intros g Hg. unfold read_mask_bit, bit_at. cbn [fh_packet_mask_offset]. rewrite (proj2 (Z.ltb_lt _ _)) by lia.
      cbn [andb]. f_equal. unfold ulpfec_bytes. rewrite drop_app_length' by done.
      apply lookup_total_app_l. apply Nat2Z.inj_lt. rewrite Z2Nat.id by (apply Z.div_pos; lia).
      apply Z.div_lt_upper_bound; lia.
  - intros mask base n data wire [_ Hm]. by apply Ulpfec_FinalizeFecHeader_buffer.
Qed.
