(* ===== verification/FlexfecHeader.v ===== *)
(** * FlexFEC headers, draft 03

    [modules/rtp_rtcp/source/flexfec_03_header_reader_writer.cc]: the second
    implementation of the header interfaces of [RtpFecCodec]. The mask is sent
    with control bits (K bits) woven into it that tell its size; the reader
    takes them out again in place. The contract [FecHeaderLaws] holds for any
    two SSRCs. *)
From S2P Require Import Prelude.
From S2P Require Import MaskTable.
From S2P Require Import RtpFecCodec.
From S2P Require Import RtpFecAlgebra.
From stdpp Require Import base list list_numbers numbers option tactics.
From Stdlib Require Import ZArith Lia.

#[local] Open Scope Z_scope.

Module Flexfec03.

Definition kMaxMediaPackets : Z := 48.
Definition kMaxTrackedMediaPackets : Z := 4 * kMaxMediaPackets.
Definition kMaxFecPackets : Z := kMaxMediaPackets.
Definition kFlexfecPacketMaskSizes : list Z := [2; 6; 14].
Definition kBaseHeaderSize : Z := 12.
Definition kStreamSpecificHeaderSize : Z := 6.
Definition kHeaderSizes : list Z :=
  map (fun n => kBaseHeaderSize + kStreamSpecificHeaderSize + n) kFlexfecPacketMaskSizes.
Definition kSsrcCount : Z := 1.
Definition kReservedBits : Z := 0.
Definition kPacketMaskOffset : Z := kBaseHeaderSize + kStreamSpecificHeaderSize.

(** [data[i] |= v]. *)
Definition or_at (data : list Z) (i v : Z) : outcome (list Z) :=
  b ← get data i; put data i (Z.lor b v).

(** [(data[i] & v) != 0]. *)
Definition test_at (data : list Z) (i v : Z) : outcome bool :=
  b ← get data i; Ok (negb (Z.land b v =? 0)).

Section Flexfec.
Context `{CheckMode}.

Definition FlexfecHeaderSize (packet_mask_size : Z) : outcome Z :=
  RTC_DCHECK (packet_mask_size <=? kFlexfecPacketMaskSizes !!! 2%nat);;
  if packet_mask_size <=? kFlexfecPacketMaskSizes !!! 0%nat then Ok (kHeaderSizes !!! 0%nat)
  else if packet_mask_size <=? kFlexfecPacketMaskSizes !!! 1%nat then Ok (kHeaderSizes !!! 1%nat)
  else Ok (kHeaderSizes !!! 2%nat).

(** The mask part of [ReadFecHeader]: the K bits are read and shifted out. The
    offsets are into the packet. *)
Definition read_mask (data : list Z) : outcome (option (Z * list Z)) :=
  let size := Z.of_nat (length data) in
  let pm := kPacketMaskOffset in
  k_bit0 ← test_at data pm 0x80;
  mask_part0 ← read_be16 data pm;
  data ← write_be16 data pm (u16 (Z.shiftl mask_part0 1));
  if (k_bit0 : bool) then Ok (Some (kFlexfecPacketMaskSizes !!! 0%nat, data))
  else if size <? kHeaderSizes !!! 1%nat then Ok None
  else
    k_bit1 ← test_at data (pm + 2) 0x80;
    b2 ← get data (pm + 2);
    let bit15 := Z.land (Z.shiftr b2 6) 0x01 in
    data ← or_at data (pm + 1) bit15;
    mask_part1 ← read_be32 data (pm + 2);
    data ← write_be32 data (pm + 2) (u32 (Z.shiftl mask_part1 2));
    if (k_bit1 : bool) then Ok (Some (kFlexfecPacketMaskSizes !!! 1%nat, data))
    else if size <? kHeaderSizes !!! 2%nat then Ok None
    else
      k_bit2 ← test_at data (pm + 6) 0x80;
      if negb k_bit2 then Ok None
      else
        b6 ← get data (pm + 6);
        let tail_bits := Z.land (Z.shiftr b6 5) 0x03 in
        data ← or_at data (pm + 5) tail_bits;
        mask_part2 ← read_be64 data (pm + 6);
        data ← write_be64 data (pm + 6) (u64 (Z.shiftl mask_part2 3));
        Ok (Some (kFlexfecPacketMaskSizes !!! 2%nat, data)).

(** [Flexfec03HeaderReader::ReadFecHeader]. The SSRC the packet came with does
    not matter. *)
Definition Flexfec_ReadFecHeader (ssrc : Z) (data : list Z) : outcome (option (FecHeader * list Z)) :=
  let size := Z.of_nat (length data) in
  if size <=? kBaseHeaderSize + kStreamSpecificHeaderSize then Ok None
  else
    r_bit ← test_at data 0 0x80;
    if (r_bit : bool) then Ok None
    else
      f_bit ← test_at data 0 0x40;
      if (f_bit : bool) then Ok None
      else
        ssrc_count ← get data 8;
        if negb (ssrc_count =? 1) then Ok None
        else
          protected_ssrc ← read_be32 data 12;
          seq_num_base ← read_be16 data 16;
          if size <? kHeaderSizes !!! 0%nat then Ok None
          else
            mask ← read_mask data;
            match mask with
            | None => Ok None
            | Some (packet_mask_size, data) =>
                fec_header_size ← FlexfecHeaderSize packet_mask_size;
                Ok (Some (mkFecHeader fec_header_size (u64 (Z.of_nat (length data) - fec_header_size))
                            protected_ssrc seq_num_base kPacketMaskOffset packet_mask_size, data))
            end.

Definition Flexfec_MinPacketMaskSize (packet_mask : list Z) (packet_mask_size : Z) : outcome Z :=
  if packet_mask_size =? kUlpfecPacketMaskSizeLBitClear then
    bit15 ← test_at packet_mask 1 0x01;
    Ok (if (bit15 : bool) then kFlexfecPacketMaskSizes !!! 1%nat else kFlexfecPacketMaskSizes !!! 0%nat)
  else if packet_mask_size =? kUlpfecPacketMaskSizeLBitSet then
    bits46_47 ← test_at packet_mask 5 0x03;
    Ok (if (bits46_47 : bool) then kFlexfecPacketMaskSizes !!! 2%nat else kFlexfecPacketMaskSizes !!! 1%nat)
  else RTC_DCHECK false;; Ok (kFlexfecPacketMaskSizes !!! 2%nat).

(** The mask part of [FinalizeFecHeader]. *)
Definition write_mask (packet_mask data : list Z) : outcome (list Z) :=
  let packet_mask_size := Z.of_nat (length packet_mask) in
  let pm := kPacketMaskOffset in
  if packet_mask_size =? kUlpfecPacketMaskSizeLBitSet then
    tmp_mask_part0 ← read_be16 packet_mask 0;
    tmp_mask_part1 ← read_be32 packet_mask 2;
    data ← write_be16 data pm (Z.shiftr tmp_mask_part0 1);
    data ← write_be32 data (pm + 2) (Z.shiftr tmp_mask_part1 2);
    bit15 ← test_at packet_mask 1 0x01;
    data ← (if (bit15 : bool) then or_at data (pm + 2) 0x40 else Ok data);
    bit46 ← test_at packet_mask 5 0x02;
    bit47 ← test_at packet_mask 5 0x01;
    if negb bit46 && negb bit47 then or_at data (pm + 2) 0x80
    else
      data ← memset data (pm + 6) 0 8;
      data ← or_at data (pm + 6) 0x80;
      data ← (if (bit46 : bool) then or_at data (pm + 6) 0x40 else Ok data);
      if (bit47 : bool) then or_at data (pm + 6) 0x20 else Ok data
  else if packet_mask_size =? kUlpfecPacketMaskSizeLBitClear then
    tmp_mask_part0 ← read_be16 packet_mask 0;
    data ← write_be16 data pm (Z.shiftr tmp_mask_part0 1);
    bit15 ← test_at packet_mask 1 0x01;
    if negb bit15 then or_at data pm 0x80
    else
      data ← memset data (pm + 2) 0 4;
      data ← or_at data (pm + 2) 0x80;
      or_at data (pm + 2) 0x40
  else RTC_DCHECK false;; Ok data.

(** [Flexfec03HeaderWriter::FinalizeFecHeader] for one protected stream. *)
Definition Flexfec_FinalizeFecHeader (media_ssrc seq_num_base : Z) (packet_mask data : list Z)
    : outcome (list Z) :=
  b0 ← get data 0; data ← put data 0 (Z.land b0 0x7f);
  b0 ← get data 0; data ← put data 0 (Z.land b0 0xbf);
  data ← put data 8 kSsrcCount;
  data ← put data 9 (u8 (kReservedBits / 2 ^ 16));
  data ← put data 10 (u8 (kReservedBits / 2 ^ 8));
  data ← put data 11 (u8 kReservedBits);
  data ← write_be32 data 12 media_ssrc;
  data ← write_be16 data 16 seq_num_base;
  write_mask packet_mask data.

#[export] Instance Flexfec03HeaderWriter : FecHeaderWriter := {
  MinPacketMaskSize := Flexfec_MinPacketMaskSize;
  FecHeaderSize := FlexfecHeaderSize;
  FinalizeFecHeader := Flexfec_FinalizeFecHeader;
  writer_MaxMediaPackets := kMaxMediaPackets;
  writer_MaxFecPackets := kMaxFecPackets;
  MaxPacketOverhead := kHeaderSizes !!! 2%nat
}.

#[export] Instance Flexfec03HeaderReader : FecHeaderReader := {
  ReadFecHeader := Flexfec_ReadFecHeader;
  reader_MaxMediaPackets := kMaxTrackedMediaPackets;
  reader_MaxFecPackets := kMaxFecPackets
}.

End Flexfec.

(** ** Arithmetic of the K bits *)

Lemma lor_add k x b : 0 <= k -> 0 <= x < 2 ^ k -> Z.lor x (2 ^ k * b) = x + 2 ^ k * b.
Proof.
  intros Hk Hx. rewrite <- Z.add_lor_land. replace (Z.land x (2 ^ k * b)) with 0; [ lia |].
  symmetry. apply Z.bits_inj'. intros i Hi. rewrite Z.land_spec, Z.bits_0, Z.mul_comm, <- Z.shiftl_mul_pow2 by lia.
  destruct (Z.lt_ge_cases i k) as [Hlt | Hge].
  - by rewrite Z.shiftl_spec_low, andb_false_r by lia.
  - rewrite <- (Z.mod_small x (2 ^ k)), Z.mod_pow2_bits_high by lia. done.
Qed.

Lemma lor_low k y t : 0 <= k -> y mod 2 ^ k = 0 -> 0 <= t < 2 ^ k -> Z.lor y t = y + t.
Proof.
  intros Hk Hy Ht. pose proof (Z.div_mod y (2 ^ k) ltac:(lia)) as Hd. rewrite Hy, Z.add_0_r in Hd.
  rewrite Hd, Z.lor_comm, lor_add by lia. lia.
Qed.

(** The bit worth [2 ^ k] is set when the number reaches that far. *)
Lemma test_hi k x (b : bool) : 0 <= k -> 0 <= x < 2 ^ k -> negb (Z.land (x + 2 ^ k * Z.b2z b) (2 ^ k) =? 0) = b.
Proof.
  intros Hk Hx. rewrite <- (Z.shiftl_1_l k) at 2. rewrite mask_test by done.
  rewrite Z.add_comm, Z.mul_comm, Z.testbit_eqb, Z.div_add_l, Z.div_small, Z.add_0_r by lia. by destruct b.
Qed.

(** ** Symbolic execution on a packet with explicit first bytes *)

Lemma or_at_Ok data i v :
  0 <= i < Z.of_nat (length data) ->
  or_at data i v = Ok (<[Z.to_nat i := Z.lor (byte data (Z.to_nat i)) v]> data).
Proof. intros Hi. unfold or_at. by rewrite get_byte, bind_Ok, put_Ok by lia. Qed.

Lemma test_at_Ok data i v :
  0 <= i < Z.of_nat (length data) ->
  test_at data i v = Ok (negb (Z.land (byte data (Z.to_nat i)) v =? 0)).
Proof. intros Hi. unfold test_at. by rewrite get_byte, bind_Ok by lia. Qed.

Lemma or_80 x : 0 <= x < 128 -> Z.lor x 0x80 = x + 128.
Proof. exact (lor_add 7 x 1 ltac:(lia)). Qed.
Lemma or_40 x : 0 <= x < 64 -> Z.lor x 0x40 = x + 64.
Proof. exact (lor_add 6 x 1 ltac:(lia)). Qed.
Lemma test_80 x : 0 <= x < 128 -> negb (Z.land (x + 128) 0x80 =? 0) = true.
Proof. exact (test_hi 7 x true ltac:(lia)). Qed.
Lemma test_80_clear x : 0 <= x < 128 -> negb (Z.land x 0x80 =? 0) = false.
Proof. intros Hx. pose proof (test_hi 7 x false ltac:(lia) Hx) as Ht. by rewrite Z.add_0_r in Ht. Qed.

(** The low bit of a byte, and what is left when it is shifted out. *)
Lemma low_bit b : negb (Z.land b 0x01 =? 0) = Z.odd b.
Proof. change 0x01 with (Z.shiftl 1 0). rewrite mask_test by lia. apply Z.bit0_odd. Qed.

Lemma be16_bytes a b : 0 <= a < 256 -> 0 <= b < 256 -> u8 ((a * 256 + b) / 256) = a /\ u8 (a * 256 + b) = b.
Proof.
  intros Ha Hb. unfold u8. change (2 ^ 8) with 256. rewrite Z.div_add_l, (Z.div_small b), Z.add_0_r by lia.
  rewrite Z.add_comm, Z.mod_add, !Z.mod_small by lia. done.
Qed.

(** The first two bytes: shifted right for sending, left again when read. *)
Lemma part0_bytes x : 0 <= x < 2 ^ 15 -> 0 <= u8 (x / 256) < 128 /\ 0 <= u8 x < 256 /\ u8 (x / 256) * 256 + u8 x = x.
Proof.
  intros Hx. pose proof (u8_range x). rewrite be16_value by lia. rewrite u8_id.
  - split_and!; try lia; [ apply Z.div_pos; lia | apply Z.div_lt_upper_bound; lia ].
  - split; [ apply Z.div_pos | apply Z.div_lt_upper_bound ]; lia.
Qed.

Lemma part0_back x b : 0 <= x < 2 ^ 15 -> u16 (Z.shiftl (x + b * 2 ^ 15) 1) = 2 * x.
Proof.
  intros Hx. rewrite Z.shiftl_mul_pow2 by lia. unfold u16.
  replace ((x + b * 2 ^ 15) * 2 ^ 1) with (2 * x + b * 2 ^ 16) by lia. rewrite Z.mod_add, Z.mod_small; lia.
Qed.

Lemma part0_half a b : 0 <= a < 256 -> 0 <= b < 256 ->
  let x := Z.shiftr (a * 256 + b) 1 in 0 <= x < 2 ^ 15 /\ 2 * x = a * 256 + b - Z.b2z (Z.odd b).
Proof.
  intros Ha Hb x. unfold x. rewrite Z.shiftr_div_pow2 by lia. change (2 ^ 1) with 2.
  pose proof (Z.div_mod (a * 256 + b) 2 ltac:(lia)) as Hd. rewrite Zmod_odd, Z.odd_add, Z.odd_mul, andb_false_r, xorb_false_l in Hd.
  unfold Z.b2z in *. destruct (Z.odd b); lia.
Qed.

(** The next four bytes, shifted by two. *)
Lemma part1_quarter c d e f :
  0 <= c < 256 -> 0 <= d < 256 -> 0 <= e < 256 -> 0 <= f < 256 ->
  let q := Z.shiftr ((c * 256 + d) * 2 ^ 16 + (e * 256 + f)) 2 in
  0 <= q < 2 ^ 30 /\ 4 * q = (c * 256 + d) * 2 ^ 16 + (e * 256 + (f - f mod 4)).
Proof.
  intros Hc Hd He Hf q. unfold q. rewrite Z.shiftr_div_pow2 by lia. change (2 ^ 2) with 4.
  set (n := (c * 256 + d) * 2 ^ 16 + (e * 256 + f)).
  pose proof (Z.div_mod n 4 ltac:(lia)) as Hn.
  replace (n mod 4) with (f mod 4) in Hn.
  - pose proof (Z.mod_pos_bound f 4). lia.
  - unfold n. replace ((c * 256 + d) * 2 ^ 16 + (e * 256 + f)) with (f + ((c * 256 + d) * 2 ^ 14 + e * 64) * 4) by lia.
    by rewrite Z.mod_add by lia.
Qed.

Lemma be32_bytes c d e f :
  0 <= c < 256 -> 0 <= d < 256 -> 0 <= e < 256 -> 0 <= f < 256 ->
  let n := (c * 256 + d) * 2 ^ 16 + (e * 256 + f) in
  u8 (n / 2 ^ 24) = c /\ u8 (n / 2 ^ 16) = d /\ u8 (n / 256) = e /\ u8 n = f.
Proof.
  intros Hc Hd He Hf n. unfold n. split_and!.
  - replace ((c * 256 + d) * 2 ^ 16 + (e * 256 + f)) with (0 * 256 * 2 ^ 24 + c * 2 ^ 24 + (d * 2 ^ 16 + e * 256 + f)) by lia.
    apply u8_digit; lia.
  - replace ((c * 256 + d) * 2 ^ 16 + (e * 256 + f)) with (c * 256 * 2 ^ 16 + d * 2 ^ 16 + (e * 256 + f)) by lia.
    apply u8_digit; lia.
  - replace ((c * 256 + d) * 2 ^ 16 + (e * 256 + f)) with ((c * 256 + d) * 256 * 256 + e * 256 + f) by lia.
    apply u8_digit; lia.
  - rewrite <- (Z.div_1_r (_ + _)).
    replace ((c * 256 + d) * 2 ^ 16 + (e * 256 + f)) with (((c * 256 + d) * 256 + e) * 256 * 1 + f * 1 + 0) by lia.
    apply u8_digit; lia.
Qed.

Lemma part1_bytes q :
  0 <= q < 2 ^ 30 ->
  0 <= u8 (q / 2 ^ 24) < 64 /\
  (u8 (q / 2 ^ 24) * 256 + u8 (q / 2 ^ 16)) * 2 ^ 16 + (u8 (q / 256) * 256 + u8 q) = q.
Proof.
  intros Hq. unfold u8. change (2 ^ 8) with 256. Z.to_euclidean_division_equations. lia.
Qed.

Lemma part1_back q k : 0 <= q < 2 ^ 30 -> u32 (Z.shiftl (q + k * 2 ^ 30) 2) = 4 * q.
Proof.
  intros Hq. rewrite Z.shiftl_mul_pow2 by lia. unfold u32.
  replace ((q + k * 2 ^ 30) * 2 ^ 2) with (4 * q + k * 2 ^ 32) by lia. rewrite Z.mod_add, Z.mod_small; lia.
Qed.

Lemma bit6 h o k : 0 <= h < 64 -> Z.land (Z.shiftr (h + 64 * Z.b2z o + 128 * k) 6) 0x01 = Z.b2z o.
Proof.
  intros Hh. rewrite Z.shiftr_div_pow2 by lia. change 0x01 with (Z.ones 1). rewrite Z.land_ones by lia.
  replace (h + 64 * Z.b2z o + 128 * k) with ((Z.b2z o + k * 2 ^ 1) * 2 ^ 6 + h) by lia.
  rewrite Z.div_add_l, Z.div_small, Z.add_0_r, Z.mod_add by lia. by destruct o.
Qed.

Ltac literal_indices :=
  repeat match goal with |- context [Z.to_nat ?z] =>
    let v := eval vm_compute in (Z.to_nat z) in change (Z.to_nat z) with v end.
Ltac in_packet := unfold kPacketMaskOffset, kBaseHeaderSize, kStreamSpecificHeaderSize; cbn [length]; lia.
(** Runs the operations whose indices are known, leaving an explicit packet. *)
Ltac exec :=
  repeat (first
    [ rewrite bind_Ok
    | rewrite get_byte by in_packet
    | rewrite write_be16_Ok by in_packet
    | rewrite write_be32_Ok by in_packet
    | rewrite or_at_Ok by in_packet
    | rewrite test_at_Ok by in_packet
    | rewrite read_be16_Ok by in_packet
    | rewrite read_be32_Ok by in_packet
    | rewrite memset_Ok by in_packet ];
  literal_indices;
  cbv [insert list_insert lookup list_lookup byte default from_option id blit take drop app replicate length Nat.add]).

Section Masks.
Context `{CheckMode} (c0 c1 c2 c3 c4 c5 c6 c7 c8 c9 c10 c11 c12 c13 c14 c15 c16 c17 : Z) (p : list Z).
Let pre : list Z := [c0; c1; c2; c3; c4; c5; c6; c7; c8; c9; c10; c11; c12; c13; c14; c15; c16; c17].

(** What writing puts in front of the payload, reading turns into the mask. *)
Definition mask_comes_back (mask : list Z) (k : nat) : Prop :=
  exists w, write_mask mask (pre ++ replicate k 0 ++ p) = Ok (pre ++ w ++ p) /\ length w = k /\
    read_mask (pre ++ w ++ p) = Ok (Some (Z.of_nat k, pre ++ (mask ++ replicate (k - length mask) 0) ++ p)).

Lemma two_bytes_even a b :
  0 <= a < 256 -> 0 <= b < 256 -> Z.odd b = false -> mask_comes_back [a; b] 2.
Proof.
  intros Ha Hb Hodd. unfold mask_comes_back, write_mask. change (Z.of_nat (length [a; b])) with 2.
  change (2 =? kUlpfecPacketMaskSizeLBitSet) with false. change (2 =? kUlpfecPacketMaskSizeLBitClear) with true.
  unfold pre. cbn [app replicate]. exec. rewrite low_bit, Hodd. cbn [negb]. cbn iota. exec.
  destruct (part0_half a b Ha Hb) as [Hx H2]. rewrite Hodd in H2. set (x := Z.shiftr (a * 256 + b) 1) in *. clearbody x.
  destruct (part0_bytes x Hx) as (Hh & Hl & Hv). rewrite or_80 by lia.
  eexists [_; _]. split; [ reflexivity |]. split; [ done |].
  unfold read_mask. exec. rewrite test_80 by lia.
  replace ((u8 (x / 256) + 128) * 256 + u8 x) with (x + 1 * 2 ^ 15) by lia. rewrite part0_back, H2 by lia.
  cbn [Z.b2z]. rewrite Z.sub_0_r. destruct (be16_bytes a b Ha Hb) as [-> ->]. reflexivity.
Qed.

Lemma two_bytes_odd a b :
  0 <= a < 256 -> 0 <= b < 256 -> Z.odd b = true -> mask_comes_back [a; b] 6.
Proof.
  intros Ha Hb Hodd. unfold mask_comes_back, write_mask. change (Z.of_nat (length [a; b])) with 2.
  change (2 =? kUlpfecPacketMaskSizeLBitSet) with false. change (2 =? kUlpfecPacketMaskSizeLBitClear) with true.
  unfold pre. cbn [app replicate]. exec. rewrite low_bit, Hodd. cbn [negb]. cbn iota. exec.
  destruct (part0_half a b Ha Hb) as [Hx H2]. rewrite Hodd in H2. set (x := Z.shiftr (a * 256 + b) 1) in *. clearbody x.
  destruct (part0_bytes x Hx) as (Hh & Hl & Hv).
  eexists [_; _; _; _; _; _]. split; [ reflexivity |]. split; [ done |].
  unfold read_mask. exec. rewrite test_80_clear by lia.
  rewrite (proj2 (Z.ltb_ge _ _)) by (change (kHeaderSizes !!! 1%nat) with 24; lia).
  change (negb (Z.land (Z.lor (Z.lor 0 128) 64) 128 =? 0)) with true. cbn iota.
  replace (u8 (x / 256) * 256 + u8 x) with (x + 0 * 2 ^ 15) by lia. rewrite part0_back, H2 by lia. cbn [Z.b2z].
  assert (b <> 0) by (intros ->; discriminate Hodd).
  rewrite <- Z.add_sub_assoc. destruct (be16_bytes a (b - 1)) as [-> ->]; [ lia | lia |].
  change (Z.land _ 1) with 1. rewrite (lor_low 1), Z.sub_add; [ reflexivity | lia | | lia ].
  change (2 ^ 1) with 2. rewrite Zmod_odd, Z.odd_sub, Hodd. done.
Qed.

Lemma two_low_bits f :
  0 <= f < 256 -> f mod 4 = 2 * Z.b2z (negb (Z.land f 0x02 =? 0)) + Z.b2z (negb (Z.land f 0x01 =? 0)).
Proof.
  intros Hf. apply Z.eqb_eq.
  apply (all_between_spec 0 255 (fun f =>
    f mod 4 =? 2 * Z.b2z (negb (Z.land f 0x02 =? 0)) + Z.b2z (negb (Z.land f 0x01 =? 0)))); [ by vm_compute | lia ].
Qed.

(** The two halves of a six-byte mask as they are sent and as they come back. *)
Lemma low_byte b : 0 <= b < 256 ->
  0 <= b - Z.b2z (Z.odd b) < 256 /\ (b - Z.b2z (Z.odd b)) mod 2 ^ 1 = 0.
Proof.
  intros Hb. change (2 ^ 1) with 2. rewrite Zmod_odd, Z.odd_sub.
  destruct (Z.odd b) eqn:Ho; cbn [Z.b2z]; [| split; [ lia | done ] ].
  assert (b <> 0) by (intros ->; discriminate Ho). split; [ lia | done ].
Qed.

Lemma part0_sent a b :
  0 <= a < 256 -> 0 <= b < 256 ->
  let x := Z.shiftr (a * 256 + b) 1 in
  0 <= u8 (x / 256) < 128 /\ 0 <= u8 x < 256 /\ 0 <= x < 2 ^ 15 /\ u8 (x / 256) * 256 + u8 x = x + 0 * 2 ^ 15 /\
  u8 (2 * x / 256) = a /\ u8 (2 * x) = b - Z.b2z (Z.odd b).
Proof.
  intros Ha Hb x. destruct (part0_half a b Ha Hb) as [Hx H2]. fold x in Hx, H2.
  destruct (part0_bytes x Hx) as (Hh & Hl & Hv). destruct (low_byte b Hb) as [Hlo _].
  destruct (be16_bytes a (b - Z.b2z (Z.odd b)) Ha Hlo) as [Hb1 Hb0].
  rewrite Z.add_sub_assoc, <- H2 in Hb1, Hb0. split_and!; (lia || done).
Qed.

Lemma part1_sent c d e f :
  0 <= c < 256 -> 0 <= d < 256 -> 0 <= e < 256 -> 0 <= f < 256 ->
  let q := Z.shiftr ((c * 256 + d) * 2 ^ 16 + (e * 256 + f)) 2 in
  0 <= u8 (q / 2 ^ 24) < 64 /\ 0 <= q < 2 ^ 30 /\
  (u8 (q / 2 ^ 24) * 256 + u8 (q / 2 ^ 16)) * 2 ^ 16 + (u8 (q / 256) * 256 + u8 q) = q /\
  u8 (4 * q / 2 ^ 24) = c /\ u8 (4 * q / 2 ^ 16) = d /\ u8 (4 * q / 256) = e /\ u8 (4 * q) = f - f mod 4.
Proof.
  intros Hc Hd He Hf q. destruct (part1_quarter c d e f Hc Hd He Hf) as [Hq Hq4]. fold q in Hq, Hq4.
  destruct (part1_bytes q Hq) as (Hqh & Hqv). pose proof (Z.mod_pos_bound f 4 ltac:(lia)) as Hm.
  pose proof (Z.mod_le f 4 ltac:(lia) ltac:(lia)) as Hle.
  destruct (be32_bytes c d e (f - f mod 4) Hc Hd He ltac:(lia)) as (H3 & H2 & H1 & H0).
  rewrite <- Hq4 in H3, H2, H1, H0. done.
Qed.

Lemma six_bytes_clear a b c d e f :
  0 <= a < 256 -> 0 <= b < 256 -> 0 <= c < 256 -> 0 <= d < 256 -> 0 <= e < 256 -> 0 <= f < 256 ->
  f mod 4 = 0 -> mask_comes_back [a; b; c; d; e; f] 6.
Proof.
  intros Ha Hb Hc Hd He Hf H4. pose proof (two_low_bits f Hf) as Hlow. rewrite H4 in Hlow.
  unfold mask_comes_back, write_mask.
  change (Z.of_nat (length [a; b; c; d; e; f])) with 6. change (6 =? kUlpfecPacketMaskSizeLBitSet) with true.
  unfold pre. cbn [app replicate]. exec. revert Hlow.
  destruct (negb (Z.land f 2 =? 0)), (negb (Z.land f 1 =? 0)); try discriminate. intros _. rewrite low_bit.
  destruct (part0_sent a b Ha Hb) as (Hh & Hl & Hx & Hv & Hb1 & Hb0). set (x := Z.shiftr (a * 256 + b) 1) in *. clearbody x.
  destruct (part1_sent c d e f Hc Hd He Hf) as (Hqh & Hq & Hqv & H3 & H2 & H1 & H0).
  set (q := Z.shiftr _ 2) in *. clearbody q. rewrite H4, Z.sub_0_r in H0.
  pose proof (bit6 (u8 (q / 2 ^ 24)) (Z.odd b) 1 Hqh) as H6. destruct (low_byte b Hb) as [Hlo Hev].
  destruct (Z.odd b); cbn iota; exec; [ rewrite or_40, or_80 by lia | rewrite or_80 by lia ];
    (eexists [_; _; _; _; _; _]; split; [ reflexivity |]; split; [ done |]);
    unfold read_mask; exec; rewrite test_80_clear by lia;
    rewrite (proj2 (Z.ltb_ge _ _)) by (change (kHeaderSizes !!! 1%nat) with 24; lia);
    rewrite test_80, Hv, part0_back, Hb1, Hb0 by lia; cbn [Z.b2z] in *;
    rewrite ?Z.mul_1_r, ?Z.mul_0_r, ?Z.add_0_r in H6; rewrite H6, (lor_low 1) by lia.
  1: replace (((_ + 64 + 128) * 256 + _) * 2 ^ 16 + _) with (q + 3 * 2 ^ 30) by lia.
  2: replace (((_ + 128) * 256 + _) * 2 ^ 16 + _) with (q + 2 * 2 ^ 30) by lia.
  all: rewrite part1_back, H3, H2, H1, H0, Z.sub_add by lia; reflexivity.
Qed.

Lemma six_bytes_tail a b c d e f :
  0 <= a < 256 -> 0 <= b < 256 -> 0 <= c < 256 -> 0 <= d < 256 -> 0 <= e < 256 -> 0 <= f < 256 ->
  f mod 4 <> 0 -> mask_comes_back [a; b; c; d; e; f] 14.
Proof.
  intros Ha Hb Hc Hd He Hf H4. pose proof (two_low_bits f Hf) as Hlow.
  unfold mask_comes_back, write_mask.
  change (Z.of_nat (length [a; b; c; d; e; f])) with 6. change (6 =? kUlpfecPacketMaskSizeLBitSet) with true.
  unfold pre. cbn [app replicate]. exec. revert Hlow H4.
  generalize (negb (Z.land f 2 =? 0)) (negb (Z.land f 1 =? 0)). intros t1 t0 Hlow H4. rewrite low_bit.
  destruct (part0_sent a b Ha Hb) as (Hh & Hl & Hx & Hv & Hb1 & Hb0). set (x := Z.shiftr (a * 256 + b) 1) in *. clearbody x.
  destruct (part1_sent c d e f Hc Hd He Hf) as (Hqh & Hq & Hqv & H3 & H2 & H1 & H0).
  set (q := Z.shiftr _ 2) in *. clearbody q.
  pose proof (bit6 (u8 (q / 2 ^ 24)) (Z.odd b) 0 Hqh) as H6. destruct (low_byte b Hb) as [Hlo Hev].
  assert (Hmod : (f - f mod 4) mod 2 ^ 2 = 0).
  { change (2 ^ 2) with 4. rewrite Zminus_mod_idemp_r, Z.sub_diag. done. }
  rewrite Hlow in H0, Hmod.
  destruct t1, t0; [| | | done ]; destruct (Z.odd b); cbn iota; exec; rewrite ?or_40 by lia;
    (eexists [_; _; _; _; _; _; _; _; _; _; _; _; _; _]; split; [ reflexivity |]; split; [ done |]);
    unfold read_mask, read_be64, write_be64; exec.
  all: rewrite test_80_clear by lia.
  all: rewrite (proj2 (Z.ltb_ge _ _)) by (change (kHeaderSizes !!! 1%nat) with 24; lia); rewrite test_80_clear by lia.
  all: rewrite (proj2 (Z.ltb_ge _ _)) by (change (kHeaderSizes !!! 2%nat) with 32; lia).
  all: change (negb (Z.land (Z.lor _ _) 128 =? 0)) with true; cbn [negb]; cbn iota.
  all: rewrite Hv, part0_back, Hb1, Hb0 by lia; cbn [Z.b2z] in *.
  all: rewrite ?Z.mul_1_r, ?Z.mul_0_r, ?Z.add_0_r in H6; rewrite H6, (lor_low 1) by lia.
  all: first [ replace (((_ + 64) * 256 + _) * 2 ^ 16 + _) with (q + 1 * 2 ^ 30) by lia
             | replace ((_ * 256 + u8 (q / 2 ^ 16)) * 2 ^ 16 + _) with (q + 0 * 2 ^ 30) by lia ].
  all: rewrite part1_back, H3, H2, H1, H0, Z.sub_add by lia.
  all: repeat match goal with |- context [Z.land (Z.shiftr (Z.lor ?u ?v) 5) 3] =>
    let w := eval vm_compute in (Z.land (Z.shiftr (Z.lor u v) 5) 3) in change (Z.land (Z.shiftr (Z.lor u v) 5) 3) with w end.
  all: rewrite (lor_low 2), Z.sub_add by (lia || exact Hmod); reflexivity.
Qed.

End Masks.

(** ** The contract *)

(** The size the mask has in the header, with its K bits. *)
Definition sent_size (mask : list Z) : nat :=
  if decide (length mask = 2%nat) then if Z.odd (byte mask 1) then 6 else 2
  else if decide (byte mask 5 mod 4 = 0) then 6 else 14.

Lemma masks_come_back `{CheckMode} c0 c1 c2 c3 c4 c5 c6 c7 c8 c9 c10 c11 c12 c13 c14 c15 c16 c17 p mask :
  mask_ok mask ->
  mask_comes_back c0 c1 c2 c3 c4 c5 c6 c7 c8 c9 c10 c11 c12 c13 c14 c15 c16 c17 p mask (sent_size mask).
Proof.
  intros [[Hl | Hl] Hb]; unfold sent_size.
  - do 2 (destruct mask as [| ? mask ]; [ discriminate Hl |]). destruct mask; [| discriminate Hl ].
    rewrite decide_True by done. change (byte [z; z0] 1) with z0.
    apply Forall_cons_1 in Hb as [? Hb]. apply Forall_cons_1 in Hb as [? _].
    destruct (Z.odd z0) eqn:Ho; [ by apply two_bytes_odd | by apply two_bytes_even ].
  - do 6 (destruct mask as [| ? mask ]; [ discriminate Hl |]). destruct mask; [| discriminate Hl ].
    rewrite decide_False by done. change (byte [z; z0; z1; z2; z3; z4] 5) with z4.
    do 5 apply Forall_cons_1 in Hb as [? Hb]. apply Forall_cons_1 in Hb as [? _].
    case_decide; [ by apply six_bytes_clear | by apply six_bytes_tail ].
Qed.

Lemma sent_size_cases mask :
  mask_ok mask -> (length mask <= sent_size mask)%nat /\
    (sent_size mask = 2 \/ sent_size mask = 6 \/ sent_size mask = 14)%nat.
Proof. intros [[Hl | Hl] _]; unfold sent_size; repeat case_decide; try destruct (Z.odd _); lia. Qed.

Lemma FlexfecHeaderSize_Ok `{CheckMode} n :
  n = 2 \/ n = 6 \/ n = 14 -> FlexfecHeaderSize n = Ok (18 + n).
Proof. intros [-> | [-> | ->]]; unfold FlexfecHeaderSize; by rewrite RTC_DCHECK_Ok. Qed.

Lemma Flexfec_MinPacketMaskSize_Ok `{CheckMode} mask rest :
  mask_ok mask -> Flexfec_MinPacketMaskSize (mask ++ rest) (Z.of_nat (length mask)) = Ok (Z.of_nat (sent_size mask)).
Proof.
  unfold Flexfec_MinPacketMaskSize, sent_size. intros [[Hl | Hl] Hb]; rewrite Hl.
  - change (Z.of_nat 2 =? kUlpfecPacketMaskSizeLBitClear) with true. cbn iota. rewrite decide_True by done.
    rewrite test_at_Ok, bind_Ok by (rewrite length_app; lia). change (Z.to_nat 1) with 1%nat.
    rewrite byte_app_l, low_bit by lia. by destruct (Z.odd _).
  - change (Z.of_nat 6 =? kUlpfecPacketMaskSizeLBitClear) with false.
    change (Z.of_nat 6 =? kUlpfecPacketMaskSizeLBitSet) with true. cbn iota. rewrite decide_False by done.
    rewrite test_at_Ok, bind_Ok by (rewrite length_app; lia). change (Z.to_nat 5) with 5%nat.
    rewrite byte_app_l by lia. change 0x03 with (Z.ones 2). rewrite Z.land_ones by lia. change (2 ^ 2) with 4.
    destruct (decide (byte mask 5 mod 4 = 0)) as [-> | Hne]; [ done |].
    by rewrite (proj2 (Z.eqb_neq _ _) Hne).
Qed.

Lemma Flexfec_header_size `{CheckMode} mask : mask_ok mask -> header_size mask (18 + sent_size mask).
Proof.
  intros Hm rest. exists (Z.of_nat (sent_size mask)). destruct (sent_size_cases mask Hm) as [_ Hs].
  split; [ by apply Flexfec_MinPacketMaskSize_Ok |]. cbn [FecHeaderSize Flexfec03HeaderWriter].
  rewrite FlexfecHeaderSize_Ok; [ f_equal |]; lia.
Qed.

(** The first eighteen bytes of the packet over [s]. *)
Definition flexfec_pre (ssrc base : Z) (s : list (list Z)) : list Z :=
  let hd := head_sum s in
  [Z.land (Z.land (byte hd 0) 0x7f) 0xbf; byte hd 1; byte hd 2; byte hd 3; byte hd 4; byte hd 5; byte hd 6; byte hd 7;
   1; 0; 0; 0; u8 (ssrc / 2 ^ 24); u8 (ssrc / 2 ^ 16); u8 (ssrc / 256); u8 ssrc; u8 (base / 256); u8 base].

Lemma flexfec_written `{CheckMode} ssrc base mask s :
  s <> [] ->
  Flexfec_FinalizeFecHeader ssrc base mask (assemble (18 + sent_size mask) s) =
    write_mask mask (flexfec_pre ssrc base s ++ replicate (sent_size mask) 0 ++ body_sum s).
Proof.
  intros Hs. rewrite assemble_cons by done. pose proof (length_hvecs s Hs) as Hhd. fold (head_sum s) in Hhd.
  rewrite (eight_bytes (head_sum s) Hhd). unfold Flexfec_FinalizeFecHeader, flexfec_pre.
  replace (18 + sent_size mask - 8)%nat with (10 + sent_size mask)%nat by lia.
  rewrite (replicate_add 10). generalize (replicate (sent_size mask) 0) (head_sum s). intros z hd.
  set (d := _ ++ _ ++ _).
  assert (Hd : (18 <= length d)%nat) by (unfold d; rewrite !length_app; cbn; lia).
  repeat first
    [ rewrite bind_Ok | rewrite put_Ok by (rewrite ?length_insert; lia)
    | rewrite get_byte by (rewrite ?length_insert; lia)
    | rewrite write_be32_Ok by (rewrite ?length_insert; lia) | rewrite write_be16_Ok by (rewrite ?length_insert; lia) ].
  subst d. reflexivity.
Qed.

Lemma flags_clear b :
  negb (Z.land (Z.land (Z.land b 0x7f) 0xbf) 0x80 =? 0) = false /\
  negb (Z.land (Z.land (Z.land b 0x7f) 0xbf) 0x40 =? 0) = false.
Proof. rewrite <- !Z.land_assoc. cbn. by rewrite !Z.land_0_r. Qed.

(** What is sent is read: the header's fields, and the mask without K bits. *)
Lemma flexfec_read `{CheckMode} ssrc media_ssrc base mask s :
  mask_ok mask -> s <> [] -> 0 <= base < 2 ^ 16 -> 0 <= media_ssrc < 2 ^ 32 -> Z.of_nat (length (body_sum s)) < 2 ^ 16 ->
  let k := sent_size mask in
  exists wire, Flexfec_FinalizeFecHeader media_ssrc base mask (assemble (18 + k) s) = Ok wire /\
    Flexfec_ReadFecHeader ssrc wire =
      Ok (Some (mkFecHeader (18 + Z.of_nat k) (Z.of_nat (length (body_sum s))) media_ssrc base 18 (Z.of_nat k),
                flexfec_pre media_ssrc base s ++ (mask ++ replicate (k - length mask) 0) ++ body_sum s)).
Proof.
  intros Hm Hs Hb Hr Hp k. unfold k. rewrite flexfec_written by done. unfold flexfec_pre.
  destruct (masks_come_back (Z.land (Z.land (byte (head_sum s) 0) 0x7f) 0xbf) (byte (head_sum s) 1) (byte (head_sum s) 2)
    (byte (head_sum s) 3) (byte (head_sum s) 4) (byte (head_sum s) 5) (byte (head_sum s) 6) (byte (head_sum s) 7)
    1 0 0 0 (u8 (media_ssrc / 2 ^ 24)) (u8 (media_ssrc / 2 ^ 16)) (u8 (media_ssrc / 256)) (u8 media_ssrc)
    (u8 (base / 256)) (u8 base) (body_sum s) mask Hm) as (w & -> & Hw & Hread).
  destruct (sent_size_cases mask Hm) as [Hle Hk]. eexists. split; [ reflexivity |].
  unfold Flexfec_ReadFecHeader. set (pre := [_; _; _; _; _; _; _; _; _; _; _; _; _; _; _; _; _; _]) in *.
  assert (Hl : length (pre ++ w ++ body_sum s) = (18 + sent_size mask + length (body_sum s))%nat)
    by (rewrite !length_app, Hw; cbn; lia).
  change (kBaseHeaderSize + kStreamSpecificHeaderSize) with 18. change (kHeaderSizes !!! 0%nat) with 20.
  rewrite (proj2 (Z.leb_gt _ _)), !test_at_Ok, !bind_Ok by lia.
  change (byte (pre ++ w ++ body_sum s) (Z.to_nat 0)) with (Z.land (Z.land (byte (head_sum s) 0) 0x7f) 0xbf).
  destruct (flags_clear (byte (head_sum s) 0)) as [-> ->].
  rewrite get_byte, bind_Ok by lia. change (byte (pre ++ w ++ body_sum s) (Z.to_nat 8)) with 1. cbn [Z.eqb Pos.eqb negb].
  rewrite read_be32_Ok, read_be16_Ok, !bind_Ok by lia.
  rewrite (proj2 (Z.ltb_ge _ _)), Hread, bind_Ok by lia. cbn beta iota.
  rewrite FlexfecHeaderSize_Ok, bind_Ok by lia.
  match goal with |- context [mkFecHeader _ _ ?r ?b _ _] =>
    replace r with media_ssrc; [ replace b with base |] end.
  - rewrite !length_app, length_replicate. change (length pre) with 18%nat.
    rewrite u64_id by lia. do 4 f_equal. lia.
  - symmetry. apply (be16_value base). lia.
  - symmetry. apply (be32_value media_ssrc). lia.
Qed.

Lemma low_six b : Z.land (Z.land (Z.land b 0x7f) 0xbf) 0x3f = Z.land b 0x3f.
Proof. by rewrite <- !Z.land_assoc. Qed.

Lemma or_at_buffer n data i m out : 0 <= m < 256 -> buffer n data -> or_at data i m = Ok out -> buffer n out.
Proof. intros Hm Hd Hrun. unfold or_at in Hrun. inv_binds. by follow_buffer. Qed.

Lemma write_mask_buffer `{CheckMode} mask n data wire :
  buffer n data -> write_mask mask data = Ok wire -> buffer n wire.
Proof.
  intros Hd Hrun. unfold write_mask in Hrun. cbv zeta in Hrun.
  repeat (inv_binds; simplify_eq; follow_buffer; match goal with
    | Hd : buffer _ ?l, Ho : or_at ?l _ _ = Ok _ |- _ => eapply or_at_buffer in Ho; [| lia | exact Hd ]
    | Hc : (if ?b then _ else _) = Ok _ |- _ => destruct b
    end); inv_binds; by simplify_eq.
Qed.

Lemma Flexfec_FinalizeFecHeader_buffer `{CheckMode} media_ssrc mask base n data wire :
  buffer n data -> Flexfec_FinalizeFecHeader media_ssrc base mask data = Ok wire -> buffer n wire.
Proof.
  intros Hd Hrun. unfold Flexfec_FinalizeFecHeader, kSsrcCount in Hrun. inv_binds. follow_buffer. by eapply write_mask_buffer.
Qed.

#[export] Instance FlexfecLaws `{CheckMode} ssrc media_ssrc (Hr : 0 <= media_ssrc < 2 ^ 32) :
  FecHeaderLaws ssrc media_ssrc.
Proof.
  split.
  - intros mask Hm. exists (18 + sent_size mask)%nat. split; [ by apply Flexfec_header_size |].
    destruct (sent_size_cases mask Hm). lia.
  - intros mask h base s Hm Hh Hb Hs Hok Hfit.
    assert (h = (18 + sent_size mask)%nat) as -> by (by eapply header_size_unique, Flexfec_header_size).
    pose proof (rtp_payloads s Hok) as Hp. destruct (sent_size_cases mask Hm) as [Hle Hk].
    destruct (flexfec_read ssrc media_ssrc base mask s Hm Hs Hb Hr) as (wire & Hw & Hread); [ lia |].
    exists wire. do 2 eexists. split; [ exact Hw |]. split; [ exact Hread |]. set (d := _ ++ _ ++ _).
    assert (Hl : length d = (18 + sent_size mask + length (body_sum s))%nat).
    { unfold d. rewrite !length_app, length_replicate. change (length (flexfec_pre media_ssrc base s)) with 18%nat. lia. }
    split; split; cbn [fh_size fh_protection_length fh_ssrc fh_seq_num_base fh_packet_mask_offset fh_packet_mask_size];
      try (lia || done).
    + unfold d. rewrite app_assoc, drop_app_length'; [ done |]. rewrite !length_app, length_replicate.
      change (length (flexfec_pre media_ssrc base s)) with 18%nat. lia.
    + apply low_six.
    + intros i Hi. do 8 (destruct i as [| i ]; [ (lia || reflexivity) |]). lia.
    + by replace (Z.to_nat (18 + Z.of_nat (sent_size mask))) with (18 + sent_size mask)%nat by lia.
    + intros g Hg. unfold read_mask_bit, bit_at. cbn [fh_packet_mask_offset].
      assert (Hg8 : 0 <= g / 8) by (apply Z.div_pos; lia). unfold d. rewrite drop_app_length' by done.
      rewrite lookup_total_app_l.
      2:{ rewrite length_app, length_replicate. apply Nat2Z.inj_lt. rewrite Z2Nat.id by done.
          apply Z.div_lt_upper_bound; lia. }
      destruct (Z.ltb_spec g (8 * Z.of_nat (length mask))) as [Hin | Hout]; cbn [andb].
      * rewrite lookup_total_app_l; [ done |]. apply Nat2Z.inj_lt. rewrite Z2Nat.id by done.
        apply Z.div_lt_upper_bound; lia.
      * assert (Z.of_nat (length mask) <= g / 8) by (apply Z.div_le_lower_bound; lia).
        rewrite lookup_total_app_r by lia. rewrite lookup_total_replicate_2; [ apply Z.bits_0 |].
        assert (g / 8 < Z.of_nat (sent_size mask)) by (apply Z.div_lt_upper_bound; lia). lia.
  - intros mask base n data wire _. apply Flexfec_FinalizeFecHeader_buffer.
Qed.

End Flexfec03.
