(* ===== verification/FlexfecFinalHeader.v ===== *)
(** * FlexFEC headers, RFC 8627

    [modules/rtp_rtcp/source/flexfec_header_reader_writer.cc]: the header of the
    final FlexFEC standard, for any number of protected streams. Each stream has
    a sequence number and a mask with two K bits woven into it. The sources of
    the streams stand in the RTP header; the reader expects them in
    [protected_streams], which the vendored decoder does not fill, so this format
    is not an instance of the interface [FecHeaderReader]. *)
From S2P Require Import Prelude.
From S2P Require Import MaskTable.
From S2P Require Import RtpFecCodec.
From S2P Require Import RtpFecAlgebra.
From S2P Require Import FlexfecHeader.
From stdpp Require Import base list list_numbers numbers option tactics.
From Stdlib Require Import ZArith Lia.

#[local] Open Scope Z_scope.

Module FlexfecFinal.
Import Flexfec03.

Definition kFlexfecPacketMaskSizes : list Z := [2; 6; 14].
Definition kBaseHeaderSize : Z := 8.
Definition kStreamSpecificHeaderSize : Z := 2.
Definition kHeaderSizes : list Z :=
  map (fun n => kBaseHeaderSize + kStreamSpecificHeaderSize + n) kFlexfecPacketMaskSizes.

(** A member of [ReceivedFecPacket::protected_streams] as the reader leaves it.
    The vendored header that declares it is not in the tree; these are the
    members the code uses. *)
Record ReadStream : Type := mkReadStream {
  rs_ssrc : Z;
  rs_seq_num_base : Z;
  rs_packet_mask_offset : Z;
  rs_packet_mask_size : Z
}.

(** [FecHeaderWriter::ProtectedStream]; the source is not written. *)
Record ProtectedStream : Type := mkProtected {
  seq_num_base : Z;
  packet_mask : list Z
}.

Section Final.
Context `{CheckMode}.

Definition FlexfecHeaderSize (packet_mask_size : Z) : outcome Z :=
  RTC_DCHECK (packet_mask_size <=? kFlexfecPacketMaskSizes !!! 2%nat);;
  if packet_mask_size <=? kFlexfecPacketMaskSizes !!! 0%nat then Ok (kHeaderSizes !!! 0%nat)
  else if packet_mask_size <=? kFlexfecPacketMaskSizes !!! 1%nat then Ok (kHeaderSizes !!! 1%nat)
  else Ok (kHeaderSizes !!! 2%nat).

(** The mask of one stream in the loop of [ReadFecHeader]: the K bits are read
    and shifted out. *)
Definition read_stream_mask (data : list Z) (byte_index : Z) : outcome (option (Z * list Z)) :=
  let size := Z.of_nat (length data) in
  if size <? byte_index + kFlexfecPacketMaskSizes !!! 0%nat then Ok None
  else
    k_bit0 ← test_at data byte_index 0x80;
    mask_part0 ← read_be16 data byte_index;
    data ← write_be16 data byte_index (u16 (Z.shiftl mask_part0 1));
    let byte_index := byte_index + 2 in
    if negb k_bit0 then Ok (Some (kFlexfecPacketMaskSizes !!! 0%nat, data))
    else if size <? byte_index + 4 then Ok None
    else
      k_bit1 ← test_at data byte_index 0x80;
      b ← get data byte_index;
      let bit15 := Z.land (Z.shiftr b 6) 0x01 in
      data ← or_at data (byte_index - 1) bit15;
      mask_part1 ← read_be32 data byte_index;
      data ← write_be32 data byte_index (u32 (Z.shiftl mask_part1 2));
      let byte_index := byte_index + 4 in
      if negb k_bit1 then Ok (Some (kFlexfecPacketMaskSizes !!! 1%nat, data))
      else if size <? byte_index + 8 then Ok None
      else
        b ← get data byte_index;
        let tail_bits := Z.land (Z.shiftr b 6) 0x03 in
        data ← or_at data (byte_index - 1) tail_bits;
        mask_part2 ← read_be64 data byte_index;
        data ← write_be64 data byte_index (u64 (Z.shiftl mask_part2 2));
        Ok (Some (kFlexfecPacketMaskSizes !!! 2%nat, data)).

(** The loop over the protected streams. *)
Fixpoint read_streams (protected_streams : list Z) (data : list Z) (byte_index : Z)
    : outcome (option (list ReadStream * Z * list Z)) :=
  match protected_streams with
  | [] => Ok (Some ([], byte_index, data))
  | ssrc :: protected_streams =>
      if Z.of_nat (length data) <? byte_index + kStreamSpecificHeaderSize then Ok None
      else
        seq_num_base ← read_be16 data byte_index;
        let packet_mask_offset := byte_index + kStreamSpecificHeaderSize in
        mask ← read_stream_mask data packet_mask_offset;
        match mask with
        | None => Ok None
        | Some (packet_mask_size, data) =>
            rest ← read_streams protected_streams data (packet_mask_offset + packet_mask_size);
            match rest with
            | None => Ok None
            | Some (streams, byte_index, data) =>
                Ok (Some (mkReadStream ssrc seq_num_base packet_mask_offset packet_mask_size :: streams, byte_index, data))
            end
        end
  end.

(** [FlexfecHeaderReader::ReadFecHeader]: the streams, [fec_header_size],
    [protection_length] and the bytes as they are left; [None] means the packet
    is refused. *)
Definition ReadFecHeader (protected_streams : list Z) (data : list Z) : outcome (option (list ReadStream * Z * Z * list Z)) :=
  match protected_streams with
  | [] => Ok None
  | _ =>
      if Z.of_nat (length data) <=? kBaseHeaderSize + kStreamSpecificHeaderSize then Ok None
      else
        r_bit ← test_at data 0 0x80;
        if (r_bit : bool) then Ok None
        else
          f_bit ← test_at data 0 0x40;
          if (f_bit : bool) then Ok None
          else
            r ← read_streams protected_streams data 8;
            match r with
            | None => Ok None
            | Some (streams, fec_header_size, data) =>
                Ok (Some (streams, fec_header_size, u64 (Z.of_nat (length data) - fec_header_size), data))
            end
  end.

Definition MinPacketMaskSize (packet_mask : list Z) (packet_mask_size : Z) : outcome Z :=
  if packet_mask_size =? kUlpfecPacketMaskSizeLBitClear then
    bit15 ← test_at packet_mask 1 0x01;
    Ok (if (bit15 : bool) then kFlexfecPacketMaskSizes !!! 1%nat else kFlexfecPacketMaskSizes !!! 0%nat)
  else if packet_mask_size =? kUlpfecPacketMaskSizeLBitSet then
    bits46_47 ← test_at packet_mask 5 0x03;
    Ok (if (bits46_47 : bool) then kFlexfecPacketMaskSizes !!! 2%nat else kFlexfecPacketMaskSizes !!! 1%nat)
  else RTC_DCHECK false;; Ok (kFlexfecPacketMaskSizes !!! 2%nat).

(** The mask of one stream in the loop of [FinalizeFecHeader]; [write_at] is the
    index it has reached. *)
Definition write_stream_mask (packet_mask data : list Z) (write_at : Z) : outcome (list Z * Z) :=
  let packet_mask_size := Z.of_nat (length packet_mask) in
  if packet_mask_size =? kUlpfecPacketMaskSizeLBitSet then
    tmp_mask_part0 ← read_be16 packet_mask 0;
    tmp_mask_part1 ← read_be32 packet_mask 2;
    data ← write_be16 data write_at (Z.shiftr tmp_mask_part0 1);
    data ← or_at data write_at 0x80;
    let write_at := write_at + 2 in
    data ← write_be32 data write_at (Z.shiftr tmp_mask_part1 2);
    bit15 ← test_at packet_mask 1 0x01;
    data ← (if (bit15 : bool) then or_at data write_at 0x40 else Ok data);
    bit46 ← test_at packet_mask 5 0x02;
    bit47 ← test_at packet_mask 5 0x01;
    if negb bit46 && negb bit47 then Ok (data, write_at + 4)
    else
      data ← or_at data write_at 0x80;
      let write_at := write_at + 4 in
      data ← memset data write_at 0 8;
      data ← (if (bit46 : bool) then or_at data write_at 0x80 else Ok data);
      data ← (if (bit47 : bool) then or_at data write_at 0x40 else Ok data);
      Ok (data, write_at + 8)
  else if packet_mask_size =? kUlpfecPacketMaskSizeLBitClear then
    tmp_mask_part0 ← read_be16 packet_mask 0;
    data ← write_be16 data write_at (Z.shiftr tmp_mask_part0 1);
    bit15 ← test_at packet_mask 1 0x01;
    if negb bit15 then Ok (data, write_at + 2)
    else
      data ← or_at data write_at 0x80;
      let write_at := write_at + 2 in
      data ← memset data write_at 0 4;
      data ← or_at data write_at 0x40;
      Ok (data, write_at + 4)
  else RTC_DCHECK false;; Ok (data, write_at).

Fixpoint write_streams (protected_streams : list ProtectedStream) (data : list Z) (write_at : Z) : outcome (list Z) :=
  match protected_streams with
  | [] => Ok data
  | protected_stream :: protected_streams =>
      data ← write_be16 data write_at (seq_num_base protected_stream);
      '(data, write_at) ← write_stream_mask (packet_mask protected_stream) data (write_at + kStreamSpecificHeaderSize);
      write_streams protected_streams data write_at
  end.

Definition FinalizeFecHeader (protected_streams : list ProtectedStream) (data : list Z) : outcome (list Z) :=
  b0 ← get data 0; data ← put data 0 (Z.land b0 0x7f);
  b0 ← get data 0; data ← put data 0 (Z.land b0 0xbf);
  write_streams protected_streams data 8.

End Final.

(** ** Working behind a prefix *)

(** An operation at [length pre + i] of [pre ++ l] is the operation at [i] of
    [l]. *)
Definition behind (pre : list Z) (r : outcome (list Z)) : outcome (list Z) := d ← r; Ok (pre ++ d).

Section Behind.
Context (pre : list Z).
Let n := Z.of_nat (length pre).

Lemma get_behind l i : 0 <= i -> get (pre ++ l) (n + i) = get l i.
Proof.
  intros Hi. unfold get, n. rewrite !(proj2 (Z.leb_le _ _)) by lia.
  rewrite lookup_app_r by lia. by replace (Z.to_nat (Z.of_nat (length pre) + i) - length pre)%nat with (Z.to_nat i) by lia.
Qed.

Lemma put_behind l i v : 0 <= i -> put (pre ++ l) (n + i) v = behind pre (put l i v).
Proof.
  intros Hi. unfold put, behind, n. rewrite !(proj2 (Z.leb_le _ _)), length_app by lia. cbn [andb].
  destruct (Z.ltb_spec i (Z.of_nat (length l))) as [Hl | Hl].
  - rewrite (proj2 (Z.ltb_lt _ _)), bind_Ok, insert_app_r_alt by lia. do 3 f_equal. lia.
  - by rewrite (proj2 (Z.ltb_ge _ _)) by lia.
Qed.

Lemma or_at_behind l i v : 0 <= i -> or_at (pre ++ l) (n + i) v = behind pre (or_at l i v).
Proof. intros Hi. unfold or_at. rewrite get_behind by done. destruct (get l i); [ by rewrite !bind_Ok, put_behind | done ]. Qed.

Lemma test_at_behind l i v : 0 <= i -> test_at (pre ++ l) (n + i) v = test_at l i v.
Proof. intros Hi. unfold test_at. by rewrite get_behind. Qed.

Lemma read_be16_behind l i : 0 <= i -> read_be16 (pre ++ l) (n + i) = read_be16 l i.
Proof. intros Hi. unfold read_be16. by rewrite <- Z.add_assoc, !get_behind by lia. Qed.

Lemma read_be32_behind l i : 0 <= i -> read_be32 (pre ++ l) (n + i) = read_be32 l i.
Proof. intros Hi. unfold read_be32. by rewrite <- Z.add_assoc, !read_be16_behind by lia. Qed.

Lemma read_be64_behind l i : 0 <= i -> read_be64 (pre ++ l) (n + i) = read_be64 l i.
Proof. intros Hi. unfold read_be64. by rewrite <- Z.add_assoc, !read_be32_behind by lia. Qed.

Lemma write_be16_behind l i x : 0 <= i -> write_be16 (pre ++ l) (n + i) x = behind pre (write_be16 l i x).
Proof.
  intros Hi. unfold write_be16. rewrite put_behind by done. destruct (put l i _) as [d |]; [| done ].
  unfold behind at 1. by rewrite !bind_Ok, <- Z.add_assoc, put_behind by lia.
Qed.

Lemma write_be32_behind l i x : 0 <= i -> write_be32 (pre ++ l) (n + i) x = behind pre (write_be32 l i x).
Proof.
  intros Hi. unfold write_be32. rewrite <- !Z.add_assoc, put_behind by done. destruct (put l i _) as [d1 |]; [| done ].
  unfold behind at 1. rewrite !bind_Ok, put_behind by lia. destruct (put d1 _ _) as [d2 |]; [| done ].
  unfold behind at 1. rewrite !bind_Ok, put_behind by lia. destruct (put d2 _ _) as [d3 |]; [| done ].
  unfold behind at 1. by rewrite !bind_Ok, put_behind by lia.
Qed.

Lemma write_be64_behind l i x : 0 <= i -> write_be64 (pre ++ l) (n + i) x = behind pre (write_be64 l i x).
Proof.
  intros Hi. unfold write_be64. rewrite <- !Z.add_assoc, write_be32_behind by done.
  destruct (write_be32 l i _) as [d1 |]; [| done ]. unfold behind at 1. by rewrite !bind_Ok, write_be32_behind by lia.
Qed.

Lemma memset_behind l i v k : 0 <= i -> memset (pre ++ l) (n + i) v k = behind pre (memset l i v k).
Proof.
  intros Hi. unfold memset, behind, n. rewrite length_app.
  destruct (Z.leb_spec 0 k); [| done ]. rewrite !(proj2 (Z.leb_le 0 _)) by lia. cbn [andb].
  destruct (Z.leb_spec (i + k) (Z.of_nat (length l))).
  - rewrite (proj2 (Z.leb_le _ _)), bind_Ok by lia. f_equal. unfold blit.
    rewrite take_app_ge, drop_app_ge, <- app_assoc by (rewrite ?length_replicate; lia). do 4 f_equal; lia.
  - by rewrite (proj2 (Z.leb_gt _ _)) by lia.
Qed.

(** One operation on both sides. *)
Local Ltac both_sides :=
  first
    [ rewrite or_at_behind by lia | rewrite test_at_behind by lia | rewrite get_behind by lia
    | rewrite read_be16_behind by lia | rewrite read_be32_behind by lia | rewrite read_be64_behind by lia
    | rewrite write_be16_behind by lia | rewrite write_be32_behind by lia | rewrite write_be64_behind by lia
    | rewrite memset_behind by lia ];
  match goal with
  | |- context [behind pre ?r] => destruct r; [ unfold behind at 1; rewrite !bind_Ok | done ]
  | |- (mbind _ ?r) = _ => destruct r; [ rewrite !bind_Ok | done ]
  end.

(** Writing and reading the mask of a stream. *)
Lemma write_stream_mask_behind `{CheckMode} mask l i :
  0 <= i -> write_stream_mask mask (pre ++ l) (n + i) =
    ('(d, at') ← write_stream_mask mask l i; Ok (pre ++ d, n + at')).
Proof.
  intros Hi. unfold write_stream_mask. rewrite <- !Z.add_assoc.
  destruct (_ =? kUlpfecPacketMaskSizeLBitSet).
  - destruct (read_be16 mask 0); [ rewrite !bind_Ok | done ]. destruct (read_be32 mask 2); [ rewrite !bind_Ok | done ].
    do 3 both_sides.
    destruct (test_at mask 1 1) as [bit15 |]; [ rewrite !bind_Ok | done ].
    assert (Hif : forall (b : bool) d k v, 0 <= k -> (if b then or_at (pre ++ d) (n + k) v else Ok (pre ++ d)) = behind pre (if b then or_at d k v else Ok d)).
    { intros [] d k v Hk; [ by apply or_at_behind | done ]. }
    rewrite Hif by lia. destruct (if bit15 then _ else _) as [d |]; [ unfold behind at 1; rewrite !bind_Ok | done ].
    destruct (test_at mask 5 2) as [bit46 |]; [ rewrite !bind_Ok | done ].
    destruct (test_at mask 5 1) as [bit47 |]; [ rewrite !bind_Ok | done ].
    destruct (negb bit46 && negb bit47); [ by rewrite bind_Ok |]. do 2 both_sides.
    rewrite Hif by lia. destruct (if bit46 then _ else _) as [d1 |]; [ unfold behind at 1; rewrite !bind_Ok | done ].
    rewrite Hif by lia. destruct (if bit47 then _ else _) as [d2 |]; [ unfold behind at 1; by rewrite !bind_Ok | done ].
  - destruct (_ =? kUlpfecPacketMaskSizeLBitClear); [| by unfold RTC_DCHECK; case_match ].
    destruct (read_be16 mask 0); [ rewrite !bind_Ok | done ]. both_sides.
    destruct (test_at mask 1 1) as [bit15 |]; [ rewrite !bind_Ok | done ].
    destruct (negb bit15); [ by rewrite bind_Ok |]. by do 3 both_sides.
Qed.

Lemma read_stream_mask_behind l i :
  0 <= i -> read_stream_mask (pre ++ l) (n + i) =
    match read_stream_mask l i with Ok (Some (k, d)) => Ok (Some (k, pre ++ d)) | r => r end.
Proof.
  intros Hi. unfold read_stream_mask. rewrite <- !Z.add_assoc, length_app.
  replace (Z.of_nat (length pre + length l)%nat) with (n + Z.of_nat (length l)) by (unfold n; lia).
  assert (Hlt : forall a b, (n + a <? n + b) = (a <? b)).
  { intros a b. destruct (Z.ltb_spec a b); [ rewrite (proj2 (Z.ltb_lt _ _)) by lia | rewrite (proj2 (Z.ltb_ge _ _)) by lia ]; done. }
  replace (n + (i + (2 + 4)) - 1) with (n + (i + 5)) by lia. replace (n + (i + 2) - 1) with (n + (i + 1)) by lia.
  replace (i + (2 + 4) - 1) with (i + 5) by lia. replace (i + 2 - 1) with (i + 1) by lia.
  rewrite !Hlt. destruct (_ <? _); [ done |]. do 3 both_sides. destruct (negb _); [ done |].
  destruct (_ <? _); [ done |]. do 5 both_sides. destruct (negb _); [ done |].
  destruct (_ <? _); [ done |]. by do 4 both_sides.
Qed.

End Behind.

(** ** The mask of a stream *)

Section Masks.
Context `{CheckMode}.

(** What is written over [w0], reading turns into the mask. *)
Definition mask_comes_back (mask : list Z) (k : nat) : Prop :=
  forall w0, length w0 = k ->
  exists w, write_stream_mask mask w0 0 = Ok (w, Z.of_nat k) /\ length w = k /\
    read_stream_mask w 0 = Ok (Some (Z.of_nat k, mask ++ replicate (k - length mask) 0)).

Lemma final_two_even a b :
  0 <= a < 256 -> 0 <= b < 256 -> Z.odd b = false -> mask_comes_back [a; b] 2.
Proof.
  intros Ha Hb Hodd w0 Hw0. destruct w0 as [| y0 [| y1 [| ]]]; try discriminate Hw0. unfold write_stream_mask.
  change (Z.of_nat (length [a; b])) with 2.
  change (2 =? kUlpfecPacketMaskSizeLBitSet) with false. change (2 =? kUlpfecPacketMaskSizeLBitClear) with true.
  cbn [app replicate]. exec. rewrite low_bit, Hodd. cbn [negb]. cbn iota.
  destruct (part0_half a b Ha Hb) as [Hx H2]. rewrite Hodd in H2. set (x := Z.shiftr (a * 256 + b) 1) in *. clearbody x.
  destruct (part0_bytes x Hx) as (Hh & Hl & Hv).
  eexists [_; _]. split; [ reflexivity |]. split; [ done |].
  unfold read_stream_mask. cbn [app]. rewrite (proj2 (Z.ltb_ge _ _)) by (cbn; lia). exec. rewrite test_80_clear by lia.
  cbn [negb]. cbn iota.
  replace (u8 (x / 256) * 256 + u8 x) with (x + 0 * 2 ^ 15) by lia. rewrite part0_back, H2 by lia.
  cbn [Z.b2z]. rewrite Z.sub_0_r. destruct (be16_bytes a b Ha Hb) as [-> ->]. reflexivity.
Qed.

Lemma final_two_odd a b :
  0 <= a < 256 -> 0 <= b < 256 -> Z.odd b = true -> mask_comes_back [a; b] 6.
Proof.
  intros Ha Hb Hodd w0 Hw0. destruct w0 as [| y0 [| y1 [| y2 [| y3 [| y4 [| y5 [| ]]]]]]]; try discriminate Hw0.
  unfold write_stream_mask. change (Z.of_nat (length [a; b])) with 2.
  change (2 =? kUlpfecPacketMaskSizeLBitSet) with false. change (2 =? kUlpfecPacketMaskSizeLBitClear) with true.
  cbn [app replicate]. exec. rewrite low_bit, Hodd. cbn [negb]. cbn iota. exec.
  destruct (part0_half a b Ha Hb) as [Hx H2]. rewrite Hodd in H2. set (x := Z.shiftr (a * 256 + b) 1) in *. clearbody x.
  destruct (part0_bytes x Hx) as (Hh & Hl & Hv). rewrite or_80 by lia.
  eexists [_; _; _; _; _; _]. split; [ reflexivity |]. split; [ done |].
  unfold read_stream_mask. cbn [app]. rewrite (proj2 (Z.ltb_ge _ _)) by (cbn; lia). exec. rewrite test_80 by lia.
  cbn [negb]. cbn iota. rewrite (proj2 (Z.ltb_ge _ _)) by (cbn; lia). exec.
  change (negb (negb (Z.land (Z.lor 0 64) 128 =? 0))) with true. cbn iota.
  replace ((u8 (x / 256) + 128) * 256 + u8 x) with (x + 1 * 2 ^ 15) by lia. rewrite part0_back, H2 by lia. cbn [Z.b2z].
  assert (b <> 0) by (intros ->; discriminate Hodd).
  rewrite <- Z.add_sub_assoc. destruct (be16_bytes a (b - 1)) as [-> ->]; [ lia | lia |].
  change (Z.land _ 1) with 1. rewrite (lor_low 1), Z.sub_add; [ reflexivity | lia | | lia ].
  change (2 ^ 1) with 2. rewrite Zmod_odd, Z.odd_sub, Hodd. done.
Qed.

Lemma final_six_clear a b c d e f :
  0 <= a < 256 -> 0 <= b < 256 -> 0 <= c < 256 -> 0 <= d < 256 -> 0 <= e < 256 -> 0 <= f < 256 ->
  f mod 4 = 0 -> mask_comes_back [a; b; c; d; e; f] 6.
Proof.
  intros Ha Hb Hc Hd He Hf H4 w0 Hw0. pose proof (two_low_bits f Hf) as Hlow. rewrite H4 in Hlow.
  destruct w0 as [| y0 [| y1 [| y2 [| y3 [| y4 [| y5 [| ]]]]]]]; try discriminate Hw0. unfold write_stream_mask.
  change (Z.of_nat (length [a; b; c; d; e; f])) with 6. change (6 =? kUlpfecPacketMaskSizeLBitSet) with true.
  cbn [app replicate]. exec. revert Hlow.
  destruct (negb (Z.land f 2 =? 0)), (negb (Z.land f 1 =? 0)); try discriminate. intros _. rewrite low_bit.
  destruct (part0_sent a b Ha Hb) as (Hh & Hl & Hx & Hv & Hb1 & Hb0). set (x := Z.shiftr (a * 256 + b) 1) in *. clearbody x.
  destruct (part1_sent c d e f Hc Hd He Hf) as (Hqh & Hq & Hqv & H3 & H2 & H1 & H0).
  set (q := Z.shiftr _ 2) in *. clearbody q. rewrite H4, Z.sub_0_r in H0.
  pose proof (bit6 (u8 (q / 2 ^ 24)) (Z.odd b) 0 Hqh) as H6. destruct (low_byte b Hb) as [Hlo Hev].
  destruct (Z.odd b); cbn iota; exec; rewrite or_80, ?or_40 by lia;
    (eexists [_; _; _; _; _; _]; split; [ reflexivity |]; split; [ done |]);
    unfold read_stream_mask; cbn [app]; rewrite (proj2 (Z.ltb_ge _ _)) by (cbn; lia); exec; rewrite test_80 by lia;
    cbn [negb]; cbn iota; rewrite (proj2 (Z.ltb_ge _ _)) by (cbn; lia); exec.
  all: rewrite test_80_clear by lia; cbn [negb]; cbn iota.
  all: replace ((u8 (x / 256) + 128) * 256 + u8 x) with (x + 1 * 2 ^ 15) by lia; rewrite part0_back, Hb1, Hb0 by lia; cbn [Z.b2z] in *.
  all: rewrite ?Z.mul_1_r, ?Z.mul_0_r, ?Z.add_0_r in H6; rewrite H6, (lor_low 1) by lia.
  1: replace (((_ + 64) * 256 + _) * 2 ^ 16 + _) with (q + 1 * 2 ^ 30) by lia.
  2: replace ((_ * 256 + u8 (q / 2 ^ 16)) * 2 ^ 16 + _) with (q + 0 * 2 ^ 30) by lia.
  all: rewrite part1_back, H3, H2, H1, H0, Z.sub_add by lia; reflexivity.
Qed.

Lemma final_six_tail a b c d e f :
  0 <= a < 256 -> 0 <= b < 256 -> 0 <= c < 256 -> 0 <= d < 256 -> 0 <= e < 256 -> 0 <= f < 256 ->
  f mod 4 <> 0 -> mask_comes_back [a; b; c; d; e; f] 14.
Proof.
  intros Ha Hb Hc Hd He Hf H4 w0 Hw0. pose proof (two_low_bits f Hf) as Hlow.
  destruct w0 as [| y0 [| y1 [| y2 [| y3 [| y4 [| y5 [| y6 [| y7 [| y8 [| y9 [| y10 [| y11 [| y12 [| y13 [| ]]]]]]]]]]]]]]];
    try discriminate Hw0. unfold write_stream_mask.
  change (Z.of_nat (length [a; b; c; d; e; f])) with 6. change (6 =? kUlpfecPacketMaskSizeLBitSet) with true.
  cbn [app replicate]. exec. revert Hlow H4.
  generalize (negb (Z.land f 2 =? 0)) (negb (Z.land f 1 =? 0)). intros t1 t0 Hlow H4. rewrite low_bit.
  destruct (part0_sent a b Ha Hb) as (Hh & Hl & Hx & Hv & Hb1 & Hb0). set (x := Z.shiftr (a * 256 + b) 1) in *. clearbody x.
  destruct (part1_sent c d e f Hc Hd He Hf) as (Hqh & Hq & Hqv & H3 & H2 & H1 & H0).
  set (q := Z.shiftr _ 2) in *. clearbody q.
  pose proof (bit6 (u8 (q / 2 ^ 24)) (Z.odd b) 1 Hqh) as H6. destruct (low_byte b Hb) as [Hlo Hev].
  assert (Hmod : (f - f mod 4) mod 2 ^ 2 = 0).
  { change (2 ^ 2) with 4. rewrite Zminus_mod_idemp_r, Z.sub_diag. done. }
  rewrite Hlow in H0, Hmod.
  destruct t1, t0; [| | | done ]; destruct (Z.odd b); exec; cbn [negb andb]; cbn iota; rewrite ?or_40 by lia;
    rewrite !or_80 by lia;
    (eexists [_; _; _; _; _; _; _; _; _; _; _; _; _; _]; split; [ reflexivity |]; split; [ done |]);
    unfold read_stream_mask, read_be64, write_be64; cbn [app].
  all: rewrite (proj2 (Z.ltb_ge _ _)) by (cbn; lia); exec; rewrite test_80 by lia; cbn [negb]; cbn iota.
  all: rewrite (proj2 (Z.ltb_ge _ _)) by (cbn; lia); exec; rewrite test_80 by lia; cbn [negb]; cbn iota.
  all: rewrite (proj2 (Z.ltb_ge _ _)) by (cbn; lia); exec.
  all: replace ((u8 (x / 256) + 128) * 256 + u8 x) with (x + 1 * 2 ^ 15) by lia; rewrite part0_back, Hb1, Hb0 by lia; cbn [Z.b2z] in *.
  all: rewrite ?Z.mul_1_r, ?Z.mul_0_r, ?Z.add_0_r in H6; rewrite H6, (lor_low 1) by lia.
  all: first [ replace (((_ + 64 + 128) * 256 + _) * 2 ^ 16 + _) with (q + 3 * 2 ^ 30) by lia
             | replace (((_ + 128) * 256 + u8 (q / 2 ^ 16)) * 2 ^ 16 + _) with (q + 2 * 2 ^ 30) by lia ].
  all: rewrite part1_back, H3, H2, H1, H0, Z.sub_add by lia.
  all: repeat match goal with |- context [Z.land (Z.shiftr ?u 6) 3] =>
    let w := eval vm_compute in (Z.land (Z.shiftr u 6) 3) in change (Z.land (Z.shiftr u 6) 3) with w end.
  all: rewrite (lor_low 2), Z.sub_add by (lia || exact Hmod); reflexivity.
Qed.

End Masks.

(** ** Bytes that follow *)

(** An operation that succeeds on [l] does the same on [l ++ p]. *)
Section More.
Context (p : list Z).

Lemma get_more l i x : get l i = Ok x -> get (l ++ p) i = Ok x.
Proof.
  unfold get. destruct (0 <=? i); [| done ]. destruct (l !! Z.to_nat i) eqn:E; [| done ]. by rewrite (lookup_app_l_Some _ _ _ _ E).
Qed.

Lemma put_more l i v d : put l i v = Ok d -> put (l ++ p) i v = Ok (d ++ p).
Proof.
  unfold put. rewrite length_app. destruct (Z.leb_spec 0 i), (Z.ltb_spec i (Z.of_nat (length l))); try done.
  intros [= <-]. rewrite (proj2 (Z.ltb_lt _ _)) by lia. cbn [andb]. by rewrite insert_app_l by lia.
Qed.

Local Ltac split_binds :=
  repeat match goal with
  | E : (mbind _ _) = Ok _ |- _ => apply bind_Ok_inv in E as (? & ? & E)
  end.
Local Ltac use lem :=
  match goal with E : _ = Ok _ |- _ => rewrite (lem _ _ _ E), bind_Ok
                | E : _ = Ok _ |- _ => rewrite (lem _ _ _ _ E), bind_Ok
                | E : _ = Ok _ |- _ => rewrite (lem _ _ _ _ _ E), bind_Ok end.

Lemma or_at_more l i v d : or_at l i v = Ok d -> or_at (l ++ p) i v = Ok (d ++ p).
Proof. unfold or_at. intros H. split_binds. use get_more. by apply put_more. Qed.

Lemma test_at_more l i v b : test_at l i v = Ok b -> test_at (l ++ p) i v = Ok b.
Proof. unfold test_at. intros H. split_binds. by use get_more. Qed.

Lemma read_be16_more l i x : read_be16 l i = Ok x -> read_be16 (l ++ p) i = Ok x.
Proof. unfold read_be16. intros H. split_binds. by do 2 use get_more. Qed.

Lemma read_be32_more l i x : read_be32 l i = Ok x -> read_be32 (l ++ p) i = Ok x.
Proof. unfold read_be32. intros H. split_binds. by do 2 use read_be16_more. Qed.

Lemma read_be64_more l i x : read_be64 l i = Ok x -> read_be64 (l ++ p) i = Ok x.
Proof. unfold read_be64. intros H. split_binds. by do 2 use read_be32_more. Qed.

Lemma write_be16_more l i x d : write_be16 l i x = Ok d -> write_be16 (l ++ p) i x = Ok (d ++ p).
Proof. unfold write_be16. intros H. split_binds. use put_more. by apply put_more. Qed.

Lemma write_be32_more l i x d : write_be32 l i x = Ok d -> write_be32 (l ++ p) i x = Ok (d ++ p).
Proof. unfold write_be32. intros H. split_binds. do 3 use put_more. by apply put_more. Qed.

Lemma write_be64_more l i x d : write_be64 l i x = Ok d -> write_be64 (l ++ p) i x = Ok (d ++ p).
Proof. unfold write_be64. intros H. split_binds. use write_be32_more. by apply write_be32_more. Qed.

Lemma memset_more l i v k d : memset l i v k = Ok d -> memset (l ++ p) i v k = Ok (d ++ p).
Proof.
  unfold memset. rewrite length_app. destruct (Z.leb_spec 0 k), (Z.leb_spec 0 i), (Z.leb_spec (i + k) (Z.of_nat (length l))); try done.
  intros [= <-]. rewrite (proj2 (Z.leb_le _ _)) by lia. cbn [andb]. unfold blit. rewrite length_replicate.
  by rewrite take_app_le, drop_app_le, <- !app_assoc by lia.
Qed.

Local Ltac keep :=
  match goal with E : ?m = Ok _ |- context [?m] => rewrite E, bind_Ok end.
Local Ltac longer :=
  first [ use get_more | use test_at_more | use or_at_more | use read_be16_more | use read_be32_more | use read_be64_more
        | use write_be16_more | use write_be32_more | use write_be64_more | use memset_more | keep ].

Lemma write_stream_mask_more `{CheckMode} mask l i d at' :
  write_stream_mask mask l i = Ok (d, at') -> write_stream_mask mask (l ++ p) i = Ok (d ++ p, at').
Proof.
  unfold write_stream_mask.
  assert (Hif : forall (b : bool) l k v d, (if b then or_at l k v else Ok l) = Ok d -> (if b then or_at (l ++ p) k v else Ok (l ++ p)) = Ok (d ++ p)).
  { intros [] l0 k v d0; [ apply or_at_more | by intros [= <-] ]. }
  destruct (_ =? kUlpfecPacketMaskSizeLBitSet).
  - intros E. split_binds. do 5 longer. longer. use Hif. do 2 longer. destruct (negb _ && negb _); [ by simplify_eq |].
    split_binds. do 2 longer. do 2 use Hif. by simplify_eq.
  - destruct (_ =? kUlpfecPacketMaskSizeLBitClear); [| by unfold RTC_DCHECK; case_match; intros [= <- <-] ].
    intros E. split_binds. do 3 longer. destruct (negb _); [ by simplify_eq |].
    split_binds. do 3 longer. by simplify_eq.
Qed.

Lemma read_stream_mask_more l i k d :
  read_stream_mask l i = Ok (Some (k, d)) -> read_stream_mask (l ++ p) i = Ok (Some (k, d ++ p)).
Proof.
  unfold read_stream_mask. rewrite length_app.
  assert (Hge : forall x, (Z.of_nat (length l) <? x) = false -> (Z.of_nat (length l + length p) <? x) = false) by (intros x; rewrite !Z.ltb_ge; lia).
  destruct (_ <? i + _) eqn:E0; [ done |]. rewrite (Hge _ E0). intros E. split_binds. do 3 longer.
  destruct (negb _); [ by simplify_eq |]. destruct (_ <? i + 2 + 4) eqn:E1; [ done |]. rewrite (Hge _ E1).
  split_binds. do 5 longer. destruct (negb _); [ by simplify_eq |].
  destruct (_ <? i + 2 + 4 + 8) eqn:E2; [ done |]. rewrite (Hge _ E2). split_binds. do 4 longer. by simplify_eq.
Qed.

End More.

(** ** Headers of several streams *)

Lemma final_masks_come_back `{CheckMode} mask : mask_ok mask -> mask_comes_back mask (sent_size mask).
Proof.
  intros [[Hl | Hl] Hb]; unfold sent_size.
  - do 2 (destruct mask as [| ? mask ]; [ discriminate Hl |]). destruct mask; [| discriminate Hl ].
    rewrite decide_True by done. change (byte [z; z0] 1) with z0.
    apply Forall_cons_1 in Hb as [? Hb]. apply Forall_cons_1 in Hb as [? _].
    destruct (Z.odd z0) eqn:Ho; [ by apply final_two_odd | by apply final_two_even ].
  - do 6 (destruct mask as [| ? mask ]; [ discriminate Hl |]). destruct mask; [| discriminate Hl ].
    rewrite decide_False by done. change (byte [z; z0; z1; z2; z3; z4] 5) with z4.
    do 5 apply Forall_cons_1 in Hb as [? Hb]. apply Forall_cons_1 in Hb as [? _].
    case_decide; [ by apply final_six_clear | by apply final_six_tail ].
Qed.

Definition stream_ok (s : ProtectedStream) : Prop := 0 <= seq_num_base s < 2 ^ 16 /\ mask_ok (packet_mask s).

(** The part of a stream in the header, its size, its bytes when it has been
    read, and what was read. *)
Definition stream_size (s : ProtectedStream) : nat := (2 + sent_size (packet_mask s))%nat.
Definition streams_size (streams : list ProtectedStream) : nat := sum_list_with stream_size streams.
Definition base_bytes (s : ProtectedStream) : list Z := [u8 (seq_num_base s / 256); u8 (seq_num_base s)].
Definition unpacked (s : ProtectedStream) : list Z :=
  base_bytes s ++ packet_mask s ++ replicate (sent_size (packet_mask s) - length (packet_mask s)) 0.
Fixpoint read_as (ssrcs : list Z) (streams : list ProtectedStream) (at' : Z) : list ReadStream :=
  match ssrcs, streams with
  | ssrc :: ssrcs, s :: streams =>
      mkReadStream ssrc (seq_num_base s) (at' + 2) (Z.of_nat (sent_size (packet_mask s))) ::
      read_as ssrcs streams (at' + Z.of_nat (stream_size s))
  | _, _ => []
  end.

(** One stream behind [pre] and before [p]. *)
Lemma stream_comes_back `{CheckMode} s space :
  stream_ok s -> length space = stream_size s ->
  exists w, length w = sent_size (packet_mask s) /\ forall pre p,
    (d ← write_be16 (pre ++ space ++ p) (Z.of_nat (length pre)) (seq_num_base s);
     write_stream_mask (packet_mask s) d (Z.of_nat (length pre) + 2)) =
      Ok (pre ++ (base_bytes s ++ w) ++ p, Z.of_nat (length pre) + Z.of_nat (stream_size s)) /\
    read_be16 (pre ++ (base_bytes s ++ w) ++ p) (Z.of_nat (length pre)) = Ok (seq_num_base s) /\
    read_stream_mask (pre ++ (base_bytes s ++ w) ++ p) (Z.of_nat (length pre) + 2) =
      Ok (Some (Z.of_nat (sent_size (packet_mask s)), pre ++ unpacked s ++ p)).
Proof.
  intros [Hbase Hm] Hsp. unfold stream_size in *. destruct space as [| z0 [| z1 w0 ]]; try discriminate Hsp.
  cbn [length] in Hsp. destruct (final_masks_come_back (packet_mask s) Hm w0 ltac:(lia)) as (w & Hwr & Hlen & Hrd).
  exists w. split; [ done |]. intros pre p.
  assert (Hpre : Z.of_nat (length pre) + 2 = Z.of_nat (length (pre ++ base_bytes s)) + 0)
    by (rewrite length_app; cbn; lia).
  assert (Happ : forall x, pre ++ (base_bytes s ++ x) ++ p = (pre ++ base_bytes s) ++ x ++ p) by (intros x; by rewrite <- !app_assoc).
  rewrite Hpre. split_and!.
  - rewrite <- (Z.add_0_r (Z.of_nat (length pre))) at 1. rewrite write_be16_behind by lia.
    change ((z0 :: z1 :: w0) ++ p) with ([z0; z1] ++ (w0 ++ p)).
    rewrite (write_be16_more _ [z0; z1] 0 _ (base_bytes s)) by done. unfold behind. rewrite !bind_Ok.
    rewrite app_assoc, write_stream_mask_behind, (write_stream_mask_more _ _ _ _ _ _ Hwr), bind_Ok, Happ by lia.
    do 2 f_equal. rewrite length_app. cbn. lia.
  - rewrite <- (Z.add_0_r (Z.of_nat (length pre))). rewrite read_be16_behind, <- app_assoc by lia.
    rewrite (read_be16_more _ (base_bytes s) 0 (seq_num_base s)); [ done |].
    unfold base_bytes. rewrite read_be16_Ok by (cbn; lia). cbn. f_equal. by apply be16_value.
  - rewrite Happ, read_stream_mask_behind, (read_stream_mask_more _ _ _ _ _ Hrd) by lia. unfold unpacked. by rewrite <- !app_assoc.
Qed.

Lemma streams_come_back `{CheckMode} streams space :
  Forall stream_ok streams -> length space = streams_size streams ->
  exists ws, length ws = streams_size streams /\ forall p,
    (forall pre, write_streams streams (pre ++ space ++ p) (Z.of_nat (length pre)) = Ok (pre ++ ws ++ p)) /\
    (forall pre ssrcs, length ssrcs = length streams ->
      read_streams ssrcs (pre ++ ws ++ p) (Z.of_nat (length pre)) =
        Ok (Some (read_as ssrcs streams (Z.of_nat (length pre)), Z.of_nat (length pre) + Z.of_nat (streams_size streams),
                  pre ++ concat (map unpacked streams) ++ p))).
Proof.
  intros Hall. revert space. induction Hall as [| s streams Hs _ IH ]; intros space Hsp.
  - destruct space; [| discriminate Hsp ]. exists []. split; [ done |]. intros p. split; [ done |].
    intros pre [| ssrc ssrcs ] Hl; [| discriminate Hl ]. cbn. by rewrite Z.add_0_r.
  - change (streams_size (s :: streams)) with (stream_size s + streams_size streams)%nat in *.
    rewrite <- (take_drop (stream_size s) space) in Hsp |- *. set (sp1 := take _ space) in *. set (sp2 := drop _ space) in *.
    assert (H1 : length sp1 = stream_size s /\ length sp2 = streams_size streams).
    { unfold sp1, sp2 in *. rewrite take_drop in Hsp. rewrite length_take, length_drop. lia. }
    destruct H1 as [H1 H2]. destruct (stream_comes_back s sp1 Hs H1) as (w & Hw & Hone).
    destruct (IH sp2 H2) as (ws & Hws & Hrest). exists ((base_bytes s ++ w) ++ ws).
    assert (Hlen : forall pre x : list Z, length x = stream_size s -> Z.of_nat (length pre) + Z.of_nat (stream_size s) = Z.of_nat (length (pre ++ x)))
      by (intros pre x Hx; rewrite length_app; lia).
    assert (Hb : length (base_bytes s ++ w) = stream_size s) by (rewrite length_app, Hw; done).
    split; [ rewrite length_app; lia |]. intros p. split.
    + intros pre. cbn [write_streams]. change kStreamSpecificHeaderSize with 2.
      rewrite <- app_assoc. destruct (Hone pre (sp2 ++ p)) as (Hwr & _).
      destruct (write_be16 _ _ _) as [d |]; [ rewrite bind_Ok in Hwr | discriminate Hwr ]. rewrite bind_Ok, Hwr, bind_Ok.
      rewrite (app_assoc pre), (Hlen pre _ Hb), (proj1 (Hrest p)), <- !app_assoc. done.
    + intros pre [| ssrc ssrcs ] Hl; [ discriminate Hl |]. cbn [read_streams read_as map concat].
      change kStreamSpecificHeaderSize with 2. rewrite <- !(app_assoc _ ws p). destruct (Hone pre (ws ++ p)) as (_ & Hbase & Hmask).
      rewrite (proj2 (Z.ltb_ge _ _)) by (rewrite !length_app; cbn; lia). rewrite Hbase, bind_Ok, Hmask, bind_Ok.
      assert (Hu : length (unpacked s) = stream_size s).
      { destruct Hs as [_ Hm]. destruct (sent_size_cases _ Hm) as [Hle _]. unfold unpacked, stream_size.
        rewrite !length_app, length_replicate. cbn. lia. }
      rewrite app_assoc. replace (Z.of_nat (length pre) + 2 + _) with (Z.of_nat (length (pre ++ unpacked s)))
        by (rewrite <- (Hlen pre _ Hu); unfold stream_size; lia).
      rewrite (proj2 (Hrest p)) by (cbn in Hl; lia). rewrite bind_Ok, (Hlen pre _ Hu), <- !app_assoc.
      do 4 f_equal. rewrite <- (Hlen pre _ Hu). lia.
Qed.

(** What is known of a stream after reading. *)
Definition read_back `{CheckMode} (d : list Z) (s : ProtectedStream) (r : ReadStream) : Prop :=
  rs_seq_num_base r = seq_num_base s /\
  MinPacketMaskSize (packet_mask s) (Z.of_nat (length (packet_mask s))) = Ok (rs_packet_mask_size r) /\
  FlexfecHeaderSize (rs_packet_mask_size r) = Ok (10 + rs_packet_mask_size r) /\
  exists padding, Forall (eq 0) padding /\
    slice d (rs_packet_mask_offset r) (rs_packet_mask_size r) = Ok (packet_mask s ++ padding).

Lemma MinPacketMaskSize_Ok `{CheckMode} mask :
  mask_ok mask -> MinPacketMaskSize mask (Z.of_nat (length mask)) = Ok (Z.of_nat (sent_size mask)).
Proof.
  intros Hm. rewrite <- (app_nil_r mask) at 1. exact (Flexfec_MinPacketMaskSize_Ok mask [] Hm).
Qed.

Lemma header_size_one `{CheckMode} mask :
  mask_ok mask -> FlexfecHeaderSize (Z.of_nat (sent_size mask)) = Ok (10 + Z.of_nat (sent_size mask)).
Proof.
  intros Hm. destruct (sent_size_cases mask Hm) as [_ [-> | [-> | ->]]]; unfold FlexfecHeaderSize; by rewrite RTC_DCHECK_Ok.
Qed.

Lemma length_unpacked s : stream_ok s -> length (unpacked s) = stream_size s.
Proof.
  intros [_ Hm]. destruct (sent_size_cases _ Hm) as [Hle _]. unfold unpacked, stream_size.
  rewrite !length_app, length_replicate. cbn. lia.
Qed.

Lemma streams_read_back `{CheckMode} ssrcs streams pre p :
  Forall stream_ok streams -> length ssrcs = length streams ->
  Forall2 (read_back (pre ++ concat (map unpacked streams) ++ p)) streams (read_as ssrcs streams (Z.of_nat (length pre))) /\
  map rs_ssrc (read_as ssrcs streams (Z.of_nat (length pre))) = ssrcs.
Proof.
  intros Hall. revert ssrcs pre. induction Hall as [| s streams Hs _ IH ]; intros [| ssrc ssrcs ] pre Hl; try discriminate Hl;
    [ by split; constructor |].
  cbn [map concat read_as]. pose proof (length_unpacked s Hs) as Hu.
  replace (Z.of_nat (length pre) + Z.of_nat (stream_size s)) with (Z.of_nat (length (pre ++ unpacked s)))
    by (rewrite length_app; lia).
  destruct (IH ssrcs (pre ++ unpacked s)) as [IH2 IHs]; [ by injection Hl |]. rewrite <- !app_assoc in IH2.
  rewrite <- app_assoc. split; [| cbn [map rs_ssrc]; by rewrite IHs ]. constructor; [| done ].
  destruct Hs as [_ Hm]. destruct (sent_size_cases _ Hm) as [Hle _].
  split_and!; [ done | by apply MinPacketMaskSize_Ok | by apply header_size_one |]. exists (replicate (sent_size (packet_mask s) - length (packet_mask s)) 0).
  split; [ by apply Forall_replicate |]. unfold rs_packet_mask_offset, rs_packet_mask_size, unpacked.
  rewrite slice_Ok by (rewrite ?length_app, ?length_replicate; cbn; lia). f_equal.
  replace (Z.to_nat (Z.of_nat (length pre) + 2)) with (length (pre ++ base_bytes s)) by (rewrite length_app; cbn; lia).
  rewrite <- !app_assoc, (app_assoc pre), drop_app_length, app_assoc, Nat2Z.id.
  apply take_app_length'. rewrite length_app, length_replicate. lia.
Qed.

Lemma length_all_unpacked streams : Forall stream_ok streams -> length (concat (map unpacked streams)) = streams_size streams.
Proof.
  induction 1 as [| s streams Hs _ IH ]; [ done |]. cbn [map concat]. by rewrite length_app, IH, length_unpacked.
Qed.

Lemma streams_size_least streams : Forall stream_ok streams -> streams <> [] -> (4 <= streams_size streams)%nat.
Proof.
  intros Hall Hne. destruct Hall as [| s streams [_ Hm] _ ]; [ done |]. destruct (sent_size_cases _ Hm) as [_ Hk].
  cbn. unfold stream_size. lia.
Qed.

(** The bits the writer clears let the reader go on to the streams. *)
Lemma header_accepted ssrcs b0 hd w p :
  length hd = 7%nat -> ssrcs <> [] -> (4 <= length w)%nat ->
  let wire := (Z.land (Z.land b0 0x7f) 0xbf :: hd) ++ w ++ p in
  ReadFecHeader ssrcs wire =
    (r ← read_streams ssrcs wire 8;
     match r with
     | None => Ok None
     | Some (streams, fec_header_size, data) =>
         Ok (Some (streams, fec_header_size, u64 (Z.of_nat (length data) - fec_header_size), data))
     end).
Proof.
  intros Hhd Hne Hw wire. unfold ReadFecHeader. destruct ssrcs as [| ssrc ssrcs ]; [ done |].
  assert (Hl : (12 <= length wire)%nat) by (unfold wire; rewrite !length_app; cbn; lia).
  rewrite (proj2 (Z.leb_gt _ _)) by (change (kBaseHeaderSize + kStreamSpecificHeaderSize) with 10; lia).
  destruct (flags_clear b0) as [Hr Hf].
  change (Z.land (Z.land b0 0x7f) 0xbf) with (byte wire (Z.to_nat 0)) in Hr, Hf.
  by rewrite !test_at_Ok, Hr, Hf, !bind_Ok by lia.
Qed.

(** ** Any bytes *)

Local Ltac in_data := rewrite ?length_insert; lia.

Lemma read_stream_mask_safe l i :
  0 <= i -> exists r, read_stream_mask l i = Ok r /\
    forall k d, r = Some (k, d) -> length d = length l /\ 2 <= k /\ i + k <= Z.of_nat (length l).
Proof.
  intros Hi. unfold read_stream_mask, read_be64, write_be64.
  change (kFlexfecPacketMaskSizes !!! 0%nat) with 2. change (kFlexfecPacketMaskSizes !!! 1%nat) with 6.
  change (kFlexfecPacketMaskSizes !!! 2%nat) with 14.
  destruct (Z.ltb_spec (Z.of_nat (length l)) (i + 2)) as [| H0]; [ by exists None |].
  rewrite test_at_Ok, bind_Ok, read_be16_Ok, bind_Ok, write_be16_Ok, bind_Ok by in_data.
  destruct (negb _); [ eexists; split; [ done |]; intros k d [= <- <-]; rewrite !length_insert; lia |].
  destruct (Z.ltb_spec (Z.of_nat (length l)) (i + 2 + 4)) as [| H1]; [ by exists None |].
  rewrite test_at_Ok, bind_Ok, get_byte, bind_Ok, or_at_Ok, bind_Ok, read_be32_Ok, bind_Ok, write_be32_Ok, bind_Ok by in_data.
  destruct (negb _); [ eexists; split; [ done |]; intros k d [= <- <-]; rewrite !length_insert; lia |].
  destruct (Z.ltb_spec (Z.of_nat (length l)) (i + 2 + 4 + 8)) as [| H2]; [ by exists None |].
  rewrite get_byte, bind_Ok, or_at_Ok, bind_Ok, !read_be32_Ok, !bind_Ok, write_be32_Ok, bind_Ok, write_be32_Ok, bind_Ok by in_data.
  eexists. split; [ done |]. intros k d [= <- <-]. rewrite !length_insert. lia.
Qed.

(** A mask lies in the header, behind the part that all headers have. *)
Definition mask_inside (fec_header_size : Z) (r : ReadStream) : Prop :=
  10 <= rs_packet_mask_offset r /\ 2 <= rs_packet_mask_size r /\
  rs_packet_mask_offset r + rs_packet_mask_size r <= fec_header_size.

Lemma read_streams_safe ssrcs l i :
  8 <= i <= Z.of_nat (length l) -> exists r, read_streams ssrcs l i = Ok r /\
    forall rs e d, r = Some (rs, e, d) ->
      length d = length l /\ i <= e <= Z.of_nat (length l) /\ Forall (mask_inside e) rs /\ map rs_ssrc rs = ssrcs.
Proof.
  revert l i. induction ssrcs as [| ssrc ssrcs IH ]; intros l i Hi; cbn [read_streams].
  - eexists. split; [ done |]. intros rs e d [= <- <- <-]. split_and!; (done || lia).
  - change kStreamSpecificHeaderSize with 2.
    destruct (Z.ltb_spec (Z.of_nat (length l)) (i + 2)) as [| H2]; [ by exists None |].
    rewrite read_be16_Ok, bind_Ok by lia.
    destruct (read_stream_mask_safe l (i + 2) ltac:(lia)) as (r & -> & Hr). rewrite bind_Ok.
    destruct r as [[k l1] |]; [| by exists None ]. destruct (Hr k l1 eq_refl) as (Hl1 & Hk & Hik).
    destruct (IH l1 (i + 2 + k) ltac:(lia)) as (r & -> & Hrest). rewrite bind_Ok.
    destruct r as [[[rs e] l2] |]; [| by exists None ]. destruct (Hrest rs e l2 eq_refl) as (Hl2 & He & Hall & Hss).
    eexists. split; [ done |]. intros rs' e' d [= <- <- <-]. split_and!; [ lia.. | | cbn; by rewrite Hss ].
    constructor; [| done ]. unfold mask_inside. cbn. lia.
Qed.

(** ** Theorems *)

(** C27. FlexFEC headers of the final standard come back, for any number of
    protected streams and whatever was in the packet: what [FinalizeFecHeader]
    writes [ReadFecHeader] accepts, it finds the sequence number and the mask of
    every stream, the mask with zeros behind it and of the size
    [MinPacketMaskSize] announces (for one stream [FecHeaderSize] reserves what
    is needed), the header ends where the last mask ends, and the rest of the
    packet, seven bytes of the header included, is as it was. *)
Theorem final_header_roundtrip (mode : CheckMode) streams ssrcs data :
  streams <> [] -> Forall stream_ok streams -> length ssrcs = length streams ->
  (8 + streams_size streams <= length data)%nat -> Z.of_nat (length data) < 2 ^ 64 ->
  let header_size := (8 + streams_size streams)%nat in
  exists wire rs d,
    FinalizeFecHeader streams data = Ok wire /\ length wire = length data /\
    ReadFecHeader ssrcs wire = Ok (Some (rs, Z.of_nat header_size, Z.of_nat (length data - header_size), d)) /\
    map rs_ssrc rs = ssrcs /\ Forall2 (read_back d) streams rs /\
    drop header_size d = drop header_size data /\ take 7 (drop 1 d) = take 7 (drop 1 data).
Proof.
  intros Hne Hall Hl Hlen Hmax header_size.
  destruct data as [| b0 data ]; [ cbn in Hlen; lia |].
  set (p := drop header_size (b0 :: data)). set (hd := take 7 data). set (space := take (streams_size streams) (drop 7 data)).
  cbn [length] in *. unfold header_size in *.
  assert (Hdata : data = hd ++ space ++ p).
  { unfold hd, space, p. cbn [drop Nat.add]. rewrite <- (take_drop 7 data) at 1. f_equal.
    rewrite <- (take_drop (streams_size streams) (drop 7 data)) at 1. by rewrite drop_drop. }
  assert (Hhd : length hd = 7%nat) by (unfold hd; rewrite length_take; lia).
  assert (Hsp : length space = streams_size streams) by (unfold space; rewrite length_take, length_drop; lia).
  destruct (streams_come_back streams space Hall Hsp) as (ws & Hws & Hback). destruct (Hback p) as [Hwr Hrd].
  set (c0 := Z.land (Z.land b0 0x7f) 0xbf).
  destruct (streams_read_back ssrcs streams (c0 :: hd) p Hall Hl) as [Hrb Hss].
  exists ((c0 :: hd) ++ ws ++ p), (read_as ssrcs streams 8), ((c0 :: hd) ++ concat (map unpacked streams) ++ p).
  assert (H8 : Z.of_nat (length (c0 :: hd)) = 8) by (cbn; lia). rewrite H8 in *.
  pose proof (length_all_unpacked streams Hall) as Hu.
  split_and!; [| | | done | done | |].
  - unfold FinalizeFecHeader. rewrite get_byte, bind_Ok, put_Ok, bind_Ok, get_byte, bind_Ok, put_Ok, bind_Ok by (rewrite ?length_insert; cbn; lia).
    cbn [Z.to_nat byte lookup list_lookup default from_option id insert list_insert]. fold c0. rewrite Hdata.
    specialize (Hwr (c0 :: hd)). rewrite H8 in Hwr. exact Hwr.
  - rewrite Hdata. cbn. rewrite !length_app. lia.
  - unfold c0. rewrite header_accepted; [| lia | by destruct streams, ssrcs | rewrite Hws; by apply streams_size_least ].
    fold c0. specialize (Hrd (c0 :: hd) ssrcs Hl). rewrite H8 in Hrd. rewrite Hrd, bind_Ok.
    assert (Hld : length data = (7 + streams_size streams + length p)%nat) by (rewrite Hdata, !length_app; lia).
    rewrite !length_app, Hu. cbn [length]. rewrite u64_id by lia. do 4 f_equal; [ f_equal |]; lia.
  - rewrite app_assoc. apply drop_app_length'. rewrite length_app, Hu. cbn. lia.
  - change (take 7 (hd ++ concat (map unpacked streams) ++ p) = hd). by apply take_app_length'.
Qed.

(** C28. The reader of final FlexFEC headers survives any input: whatever bytes
    arrive and however many streams they are said to protect, it stays inside
    them, and when it accepts them, all masks lie in the header, the header lies
    in the packet, and the rest is the protected part. *)
Theorem final_reader_survives ssrcs data :
  Z.of_nat (length data) < 2 ^ 64 ->
  exists r, ReadFecHeader ssrcs data = Ok r /\
    forall rs fec_header_size protection_length d, r = Some (rs, fec_header_size, protection_length, d) ->
      length d = length data /\ map rs_ssrc rs = ssrcs /\ Forall (mask_inside fec_header_size) rs /\
      8 <= fec_header_size <= Z.of_nat (length data) /\ protection_length = Z.of_nat (length data) - fec_header_size.
Proof.
  intros Hmax. unfold ReadFecHeader. destruct ssrcs as [| ssrc ssrcs ]; [ by exists None |].
  change (kBaseHeaderSize + kStreamSpecificHeaderSize) with 10.
  destruct (Z.leb_spec (Z.of_nat (length data)) 10) as [| Hl]; [ by exists None |].
  rewrite !test_at_Ok, !bind_Ok by lia.
  destruct (negb (Z.land _ 128 =? 0)); [ by exists None |]. destruct (negb (Z.land _ 64 =? 0)); [ by exists None |].
  destruct (read_streams_safe (ssrc :: ssrcs) data 8 ltac:(lia)) as (r & -> & Hr). rewrite bind_Ok.
  destruct r as [[[rs e] d] |]; [| by exists None ]. destruct (Hr rs e d eq_refl) as (Hd & He & Hall & Hss).
  eexists. split; [ done |]. intros rs' e' pl d' [= <- <- <- <-]. split_and!; try done; try lia.
  rewrite u64_id, Hd by lia. done.
Qed.

(** Two streams; the first mask needs its bit 15, the second its bits 46 and 47. *)
Definition demo_streams : list ProtectedStream :=
  [mkProtected 65535 [0x80; 0x01]; mkProtected 7 [0xff; 0xff; 0x12; 0x34; 0x56; 0x7b]].
Definition demo_fec_packet : list Z := replicate 40 0xff.

Lemma demo_streams_ok : Forall stream_ok demo_streams.
Proof.
  repeat (constructor; [ split; [ cbn; lia |]; split; [ cbn; lia | repeat (constructor; [ lia |]); constructor ] |]).
  constructor.
Qed.

Lemma final_header_roundtrip_witness :
  exists wire rs d,
    @FinalizeFecHeader true demo_streams demo_fec_packet = Ok wire /\ length wire = 40%nat /\
    ReadFecHeader [7; 8] wire = Ok (Some (rs, 32, 8, d)) /\
    map rs_ssrc rs = [7; 8] /\ Forall2 (@read_back true d) demo_streams rs /\
    drop 32 d = drop 32 demo_fec_packet /\ take 7 (drop 1 d) = take 7 (drop 1 demo_fec_packet).
Proof.
  apply (final_header_roundtrip true demo_streams [7; 8] demo_fec_packet); [ discriminate | exact demo_streams_ok | reflexivity | apply Nat.leb_le; vm_compute; reflexivity | reflexivity ].
Defined.

Lemma final_reader_survives_witness :
  exists r, ReadFecHeader [7] (replicate 12 0x3f) = Ok r /\
    forall rs fec_header_size protection_length d, r = Some (rs, fec_header_size, protection_length, d) ->
      length d = 12%nat /\ map rs_ssrc rs = [7] /\ Forall (mask_inside fec_header_size) rs /\
      8 <= fec_header_size <= 12 /\ protection_length = 12 - fec_header_size.
Proof. apply (final_reader_survives [7] (replicate 12 0x3f)). reflexivity. Defined.

End FlexfecFinal.
