(* ===== verification/RtpFecDecoder.v ===== *)
(** * The FEC decoder: the vendored original

    The receiving half of [ForwardErrorCorrection] in
    [modules/rtp_rtcp/source/forward_error_correction.cc], over any
    [FecHeaderReader]: media and FEC packets come in one at a time
    ([DecodeFec]), each FEC packet keeps the list of the packets it protects,
    and recovery runs over the stored FEC packets until none of them misses
    exactly one packet ([AttemptRecovery]).

    Lists own their elements, and once [ReadFecHeader] has rearranged the packet
    it is called for, packet data is not written any more, so a
    [scoped_refptr<Packet>] is the bytes it points to; a null pointer is [None]. [std::list::sort] is a stable sort; [list_sort] is one, and any
    other gives the same list where the comparison is an order (that is, while
    the sequence numbers span less than half the number space). *)
From S2P Require Import Prelude.
From S2P Require Import SeqNum.
From S2P Require Import RtpFecCodec.
From stdpp Require Import base list list_numbers numbers option tactics.
From Stdlib Require Import ZArith Lia.

#[local] Open Scope Z_scope.

Definition kOldSequenceThreshold : Z := 0x3fff.

(** ** Packets *)

Record ReceivedPacket : Type := mkReceived {
  rp_ssrc : Z;
  rp_seq_num : Z;
  rp_is_fec : bool;
  rp_pkt : list Z
}.

Record RecoveredPacket : Type := mkRecovered {
  was_recovered : bool;
  returned : bool;
  rc_ssrc : Z;
  rc_seq_num : Z;
  rc_pkt : list Z
}.

Record ReceivedFecPacket : Type := mkReceivedFec {
  rf_ssrc : Z;
  rf_seq_num : Z;
  rf_header : FecHeader;
  rf_pkt : list Z;
  protected_packets : list ProtectedPacket
}.

Definition set_protected (ps : list ProtectedPacket) (f : ReceivedFecPacket) : ReceivedFecPacket :=
  mkReceivedFec (rf_ssrc f) (rf_seq_num f) (rf_header f) (rf_pkt f) ps.
Definition set_pkt (pkt : list Z) (p : ProtectedPacket) : ProtectedPacket :=
  mkProtected (pp_ssrc p) (pp_seq_num p) (Some pkt).

(** The decoder's share of [class ForwardErrorCorrection]. *)
Record FecDecoder : Type := mkDecoder {
  ssrc_ : Z;
  protected_media_ssrc_ : Z;
  received_fec_packets_ : list ReceivedFecPacket
}.

Definition set_fec_packets (l : list ReceivedFecPacket) (d : FecDecoder) : FecDecoder :=
  mkDecoder (ssrc_ d) (protected_media_ssrc_ d) l.

Section Decoder.
Context `{CheckMode} `{FecHeaderReader}.

(** ** Order *)

(** [SortablePacket::LessThan] on the SSRCs and sequence numbers of two packets. *)
Definition LessThan (first second : Z * Z) : outcome bool :=
  RTC_DCHECK (first.1 =? second.1);;
  Ok (IsNewerSequenceNumber second.2 first.2).

Definition pp_key (p : ProtectedPacket) : Z * Z := (pp_ssrc p, pp_seq_num p).
Definition rc_key (r : RecoveredPacket) : Z * Z := (rc_ssrc r, rc_seq_num r).
Definition rf_key (f : ReceivedFecPacket) : Z * Z := (rf_ssrc f, rf_seq_num f).

Fixpoint sort_insert {A} (less : A -> A -> bool) (x : A) (l : list A) : list A :=
  match l with
  | [] => [x]
  | y :: l => if less y x then y :: sort_insert less x l else x :: y :: l
  end.

(** [std::list::sort(LessThan())]. A sort compares every element with its
    neighbour in the result, so the check in the comparison passes throughout
    when all SSRCs are equal and only then. *)
Definition list_sort {A} (key : A -> Z * Z) (l : list A) : outcome (list A) :=
  RTC_DCHECK (forallb (fun x => forallb (fun y => (key x).1 =? (key y).1) l) l);;
  Ok (foldr (sort_insert (fun x y => IsNewerSequenceNumber (key y).2 (key x).2)) [] l).

(** [std::lower_bound]: [first] and [len] delimit the part still searched. Each
    turn at least halves it, so that [length l] turns are enough. *)
Fixpoint lower_bound_loop {A} (less : A -> outcome bool) (l : list A) (fuel first len : nat) : outcome nat :=
  match fuel with
  | O => Ok first
  | S fuel =>
      if decide (len = 0%nat) then Ok first
      else
        let half := Nat.div2 len in
        let middle := (first + half)%nat in
        x ← get l (Z.of_nat middle);
        b ← less x;
        if (b : bool) then lower_bound_loop less l fuel (S middle) (len - half - 1)
        else lower_bound_loop less l fuel first half
  end.
Definition lower_bound {A} (less : A -> outcome bool) (l : list A) : outcome nat :=
  lower_bound_loop less l (length l) 0 (length l).

(** ** Storing packets *)

Definition ResetState (this : FecDecoder) : FecDecoder * list RecoveredPacket :=
  (set_fec_packets [] this, []).

(** One turn of [UpdateCoveringFecPackets]. *)
Definition update_covering (packet : RecoveredPacket) (fec_packet : ReceivedFecPacket)
    : outcome ReceivedFecPacket :=
  let ps := protected_packets fec_packet in
  protected_it ← lower_bound (fun p => LessThan (pp_key p) (rc_key packet)) ps;
  match ps !! protected_it with
  | Some p =>
      if pp_seq_num p =? rc_seq_num packet
      then Ok (set_protected (<[protected_it := set_pkt (rc_pkt packet) p]> ps) fec_packet)
      else Ok fec_packet
  | None => Ok fec_packet
  end.

Fixpoint UpdateCoveringFecPackets (packet : RecoveredPacket) (fec_packets : list ReceivedFecPacket)
    : outcome (list ReceivedFecPacket) :=
  match fec_packets with
  | [] => Ok []
  | f :: fec_packets =>
      f ← update_covering packet f; l ← UpdateCoveringFecPackets packet fec_packets; Ok (f :: l)
  end.

(** The loops that search for a duplicate: is one of the packets [received]? *)
Fixpoint find_duplicate {A} (key : A -> Z * Z) (received : Z * Z) (l : list A) : outcome bool :=
  match l with
  | [] => Ok false
  | x :: l =>
      RTC_DCHECK ((key x).1 =? received.1);;
      if (key x).2 =? received.2 then Ok true else find_duplicate key received l
  end.

Definition InsertMediaPacket (this : FecDecoder) (recovered_packets : list RecoveredPacket)
    (received_packet : ReceivedPacket) : outcome (FecDecoder * list RecoveredPacket) :=
  RTC_DCHECK (rp_ssrc received_packet =? protected_media_ssrc_ this);;
  duplicate ← find_duplicate rc_key (rp_ssrc received_packet, rp_seq_num received_packet) recovered_packets;
  if (duplicate : bool) then Ok (this, recovered_packets)
  else
    let recovered_packet :=
      mkRecovered false true (rp_ssrc received_packet) (rp_seq_num received_packet) (rp_pkt received_packet) in
    recovered_packets ← list_sort rc_key (recovered_packets ++ [recovered_packet]);
    fecs ← UpdateCoveringFecPackets recovered_packet (received_fec_packets_ this);
    Ok (set_fec_packets fecs this, recovered_packets).

(** The merge loop of [AssignRecoveredPackets] over the two sorted lists. *)
Fixpoint AssignRecoveredPackets (ps : list ProtectedPacket) : list RecoveredPacket -> outcome (list ProtectedPacket) :=
  fix assign (rs : list RecoveredPacket) : outcome (list ProtectedPacket) :=
    match ps, rs with
    | [], _ => Ok []
    | _, [] => Ok ps
    | p :: ps', r :: rs' =>
        p_less ← LessThan (pp_key p) (rc_key r);
        if (p_less : bool) then l ← AssignRecoveredPackets ps' rs; Ok (p :: l)
        else
          r_less ← LessThan (rc_key r) (pp_key p);
          if (r_less : bool) then assign rs'
          else l ← AssignRecoveredPackets ps' rs'; Ok (set_pkt (rc_pkt r) p :: l)
    end.

(** The protected packets of one byte of the mask, and of all of them. *)
Definition mask_byte_packets (ssrc seq_num_base byte_idx packet_mask : Z) : list ProtectedPacket :=
  omap (fun bit_idx =>
    if negb (Z.land packet_mask (Z.shiftl 1 (7 - bit_idx)) =? 0)
    then Some (mkProtected ssrc (u16 (seq_num_base + Z.shiftl byte_idx 3 + bit_idx)) None) else None)
    (seqZ 0 8).
Definition parse_mask (ssrc : Z) (h : FecHeader) (data : list Z) : outcome (list ProtectedPacket) :=
  for_loop 0 (Z.to_nat (fh_packet_mask_size h)) (fun byte_idx ps =>
    packet_mask ← get data (fh_packet_mask_offset h + byte_idx);
    Ok (ps ++ mask_byte_packets ssrc (fh_seq_num_base h) byte_idx packet_mask)) [].

Definition InsertFecPacket (this : FecDecoder) (recovered_packets : list RecoveredPacket)
    (received_packet : ReceivedPacket) : outcome FecDecoder :=
  RTC_DCHECK (rp_ssrc received_packet =? ssrc_ this);;
  duplicate ← find_duplicate rf_key (rp_ssrc received_packet, rp_seq_num received_packet)
                (received_fec_packets_ this);
  if (duplicate : bool) then Ok this
  else
    ret ← ReadFecHeader (rp_ssrc received_packet) (rp_pkt received_packet);
    match ret with
    | None => Ok this
    | Some (h, data) =>
        if negb (fh_ssrc h =? protected_media_ssrc_ this) then Ok this
        else if Z.of_nat (length data) <? fh_packet_mask_offset h + fh_packet_mask_size h then Ok this
        else
          protected ← parse_mask (protected_media_ssrc_ this) h data;
          match protected with
          | [] => Ok this
          | _ =>
              protected ← AssignRecoveredPackets protected recovered_packets;
              let fec_packet :=
                mkReceivedFec (rp_ssrc received_packet) (rp_seq_num received_packet) h data protected in
              fecs ← list_sort rf_key (received_fec_packets_ this ++ [fec_packet]);
              let fecs := if reader_MaxFecPackets <? Z.of_nat (length fecs) then tail fecs else fecs in
              RTC_DCHECK (Z.of_nat (length fecs) <=? reader_MaxFecPackets);;
              Ok (set_fec_packets fecs this)
          end
    end.

(** The loop of [DiscardOldRecoveredPackets]; the check that follows it is with
    the two callers. *)
Fixpoint DiscardOldRecoveredPackets (recovered_packets : list RecoveredPacket) : list RecoveredPacket :=
  match recovered_packets with
  | [] => []
  | _ :: rest =>
      if reader_MaxMediaPackets <? Z.of_nat (length recovered_packets)
      then DiscardOldRecoveredPackets rest else recovered_packets
  end.

(** The loop of [InsertPacket] that drops old FEC packets from the front. *)
Fixpoint erase_old (seq_num : Z) (fec_packets : list ReceivedFecPacket) : list ReceivedFecPacket :=
  match fec_packets with
  | [] => []
  | f :: rest =>
      if kOldSequenceThreshold <? MinDiff seq_num (rf_seq_num f) then erase_old seq_num rest else fec_packets
  end.

Definition InsertPacket (this : FecDecoder) (received_packet : ReceivedPacket)
    (recovered_packets : list RecoveredPacket) : outcome (FecDecoder * list RecoveredPacket) :=
  let this :=
    match received_fec_packets_ this with
    | front :: _ =>
        if rp_ssrc received_packet =? rf_ssrc front
        then set_fec_packets (erase_old (rp_seq_num received_packet) (received_fec_packets_ this)) this
        else this
    | [] => this
    end in
  '(this, recovered_packets) ←
    (if rp_is_fec received_packet
     then this ← InsertFecPacket this recovered_packets received_packet; Ok (this, recovered_packets)
     else InsertMediaPacket this recovered_packets received_packet);
  let recovered_packets := DiscardOldRecoveredPackets recovered_packets in
  RTC_DCHECK (Z.of_nat (length recovered_packets) <=? reader_MaxMediaPackets);;
  Ok (this, recovered_packets).

(** ** Recovery *)

(** At most 2: more than one missing packet cannot be recovered. *)
Fixpoint NumCoveredPacketsMissing (ps : list ProtectedPacket) (packets_missing : Z) : Z :=
  match ps with
  | [] => packets_missing
  | p :: ps =>
      match pp_pkt p with
      | Some _ => NumCoveredPacketsMissing ps packets_missing
      | None => if 1 <? packets_missing + 1 then packets_missing + 1
                else NumCoveredPacketsMissing ps (packets_missing + 1)
      end
  end.

Definition IsOldFecPacket (fec_packet : ReceivedFecPacket) (recovered_packets : list RecoveredPacket)
    : outcome bool :=
  match list.last recovered_packets, list.last (protected_packets fec_packet) with
  | None, _ => Ok false
  | Some _, None => Fail OutOfBounds
  | Some back, Some last_protected =>
      Ok (kOldSequenceThreshold <? MinDiff (rc_seq_num back) (pp_seq_num last_protected))
  end.

(** [AttemptRecovery]. The iterator stands between [passed] and [rest]; a
    recovery takes one FEC packet away and starts over, so that their number is
    enough [fuel]. *)
Fixpoint attempt_recovery (fuel : nat) : list ReceivedFecPacket -> list ReceivedFecPacket ->
    list RecoveredPacket -> Z -> outcome (list ReceivedFecPacket * list RecoveredPacket * Z) :=
  fix pass (passed rest : list ReceivedFecPacket) (recovered : list RecoveredPacket) (num_recovered_packets : Z)
      {struct rest} :=
    match rest with
    | [] => Ok (passed, recovered, num_recovered_packets)
    | f :: rest' =>
        let packets_missing := NumCoveredPacketsMissing (protected_packets f) 0 in
        if packets_missing =? 1 then
          result ← RecoverPacket (rf_header f) (rf_pkt f) (protected_packets f);
          match result with
          | None => pass passed rest' recovered num_recovered_packets
          | Some (pkt, seq_num, ssrc) =>
              let recovered_packet := mkRecovered true false ssrc seq_num pkt in
              recovered ← list_sort rc_key (recovered ++ [recovered_packet]);
              passed ← UpdateCoveringFecPackets recovered_packet passed;
              _ ← update_covering recovered_packet f;
              rest' ← UpdateCoveringFecPackets recovered_packet rest';
              let recovered := DiscardOldRecoveredPackets recovered in
              RTC_DCHECK (Z.of_nat (length recovered) <=? reader_MaxMediaPackets);;
              match fuel with
              | O => Ok (passed ++ rest', recovered, num_recovered_packets + 1)
              | S fuel => attempt_recovery fuel [] (passed ++ rest') recovered (num_recovered_packets + 1)
              end
          end
        else
          old ← (if packets_missing =? 0 then Ok true else IsOldFecPacket f recovered);
          if (old : bool) then pass passed rest' recovered num_recovered_packets
          else pass (passed ++ [f]) rest' recovered num_recovered_packets
    end.

Definition AttemptRecovery (this : FecDecoder) (recovered_packets : list RecoveredPacket)
    : outcome (FecDecoder * list RecoveredPacket * Z) :=
  '(fecs, recovered_packets, n) ←
    attempt_recovery (length (received_fec_packets_ this)) [] (received_fec_packets_ this) recovered_packets 0;
  Ok (set_fec_packets fecs this, recovered_packets, n).

(** [DecodeFec]: the decoder, the caller's list and [num_recovered_packets]. *)
Definition DecodeFec (this : FecDecoder) (received_packet : ReceivedPacket)
    (recovered_packets : list RecoveredPacket) : outcome (FecDecoder * list RecoveredPacket * Z) :=
  let '(this, recovered_packets) :=
    if Z.of_nat (length recovered_packets) =? reader_MaxMediaPackets then
      match list.last recovered_packets with
      | Some back_recovered_packet =>
          if rp_ssrc received_packet =? rc_ssrc back_recovered_packet then
            let seq_num_diff := MinDiff (rp_seq_num received_packet) (rc_seq_num back_recovered_packet) in
            if reader_MaxMediaPackets <? seq_num_diff then ResetState this else (this, recovered_packets)
          else (this, recovered_packets)
      | None => (this, recovered_packets)
      end
    else (this, recovered_packets) in
  '(this, recovered_packets) ← InsertPacket this received_packet recovered_packets;
  AttemptRecovery this recovered_packets.

End Decoder.
