(* ===== verification/RtpFecSound.v ===== *)
(** * The decoder never invents a packet

    A stream of RTP packets is sent, FEC packets over it are sent, and a
    receiver feeds whatever arrives to [DecodeFec], in any order, with losses
    and duplicates. This file shows that no check fails and no access leaves
    its array, that every packet in the decoder's list is a packet of the
    stream, byte for byte, and that [AttemptRecovery] is the peeling of the
    stored FEC packets, step by step, until none of them misses fewer than two
    packets. *)
From S2P Require Import Prelude.
From S2P Require Import Ascending.
From S2P Require Import SeqNum.
From S2P Require Import RtpFecCodec.
From S2P Require Import RtpFecAlgebra.
From S2P Require Import RtpFecDecoder.
From stdpp Require Import base list list_numbers numbers option tactics relations.
From Stdlib Require Import ZArith Lia Sorted.

#[local] Open Scope Z_scope.

(** ** Searching and sorting *)

Lemma sort_insert_perm {A} (less : A -> A -> bool) x l : sort_insert less x l ≡ₚ x :: l.
Proof.
  induction l as [| y l IH ]; [ done |]. cbn [sort_insert]. destruct (less y x); [| done ].
  rewrite IH. apply Permutation_swap.
Qed.

Lemma sorted_perm {A} (less : A -> A -> bool) l : foldr (sort_insert less) [] l ≡ₚ l.
Proof. induction l as [| x l IH ]; [ done |]. cbn [foldr]. by rewrite sort_insert_perm, IH. Qed.

Lemma list_sort_Ok `{CheckMode} {A} (key : A -> Z * Z) ssrc l :
  Forall (fun x => (key x).1 = ssrc) l -> exists l', list_sort key l = Ok l' /\ l' ≡ₚ l.
Proof.
  intros Hl. unfold list_sort. eexists. rewrite RTC_DCHECK_Ok, bind_Ok; [ split; [ done | apply sorted_perm ] |].
  apply forallb_forall. intros x Hx. apply forallb_forall. intros y Hy. apply Z.eqb_eq.
  rewrite list.Forall_forall in Hl. by rewrite !Hl by (by apply list_elem_of_In).
Qed.

Lemma find_duplicate_Ok `{CheckMode} {A} (key : A -> Z * Z) k l :
  Forall (fun x => (key x).1 = k.1) l ->
  find_duplicate key k l = Ok (bool_decide (k.2 ∈ map (fun x => (key x).2) l)).
Proof.
  induction 1 as [| x l Hx Hl IH ]; [ done |]. cbn [find_duplicate map]. rewrite RTC_DCHECK_Ok, bind_Ok by lia.
  destruct (Z.eqb_spec (key x).2 k.2) as [He | Hne].
  - rewrite bool_decide_true; [ done |]. rewrite He. apply list_elem_of_here.
  - rewrite IH. f_equal. apply bool_decide_ext. rewrite elem_of_cons. split; [ by right |]. intros [? | ?]; congruence.
Qed.

(** [lower_bound] stays inside the list, and finds the boundary if there is one. *)
Lemma lower_bound_loop_Ok {A} (less : A -> outcome bool) (f : A -> bool) l : forall fuel first len,
  (forall x, x ∈ l -> less x = Ok (f x)) -> (len <= fuel)%nat -> (first + len <= length l)%nat ->
  exists i, lower_bound_loop less l fuel first len = Ok i /\
    forall k, (first <= k <= first + len)%nat -> (forall j x, l !! j = Some x -> f x = bool_decide (j < k)%nat) -> i = k.
Proof.
  induction fuel as [| fuel IH ]; intros first len Hf Hfuel Hlen; cbn [lower_bound_loop].
  { exists first. split; [ done |]. intros k Hk _. lia. }
  destruct (decide (len = 0%nat)) as [-> | Hne].
  { exists first. split; [ done |]. intros k Hk _. lia. }
  assert (Hhalf : (Nat.div2 len < len)%nat) by (apply Nat.lt_div2; lia).
  set (half := Nat.div2 len) in *. destruct (lookup_lt_is_Some_2 l (first + half)) as [x Hx]; [ lia |].
  rewrite (get_Ok l (Z.of_nat (first + half)) x) by (rewrite ?Nat2Z.id; (done || lia)). rewrite bind_Ok.
  rewrite Hf, bind_Ok by (by eapply list_elem_of_lookup_2). destruct (f x) eqn:Efx.
  - destruct (IH (S (first + half)) (len - half - 1)%nat Hf) as (i & -> & Hi); [ lia | lia |].
    exists i. split; [ done |]. intros k Hk Hpart. apply Hi; [| done ].
    pose proof (Hpart _ _ Hx) as Hb. rewrite Efx in Hb. symmetry in Hb. apply bool_decide_eq_true in Hb. lia.
  - destruct (IH first half Hf) as (i & -> & Hi); [ lia | lia |].
    exists i. split; [ done |]. intros k Hk Hpart. apply Hi; [| done ].
    pose proof (Hpart _ _ Hx) as Hb. rewrite Efx in Hb. symmetry in Hb. apply bool_decide_eq_false in Hb. lia.
Qed.

Lemma lower_bound_Ok {A} (less : A -> outcome bool) (f : A -> bool) l :
  (forall x, x ∈ l -> less x = Ok (f x)) ->
  exists i, lower_bound less l = Ok i /\
    forall k, (k <= length l)%nat -> (forall j x, l !! j = Some x -> f x = bool_decide (j < k)%nat) -> i = k.
Proof.
  intros Hf. destruct (lower_bound_loop_Ok less f l (length l) 0 (length l) Hf) as (i & Hi & Hk); [ lia | lia |].
  exists i. split; [ done |]. intros k Hle. apply Hk. lia.
Qed.

Lemma LessThan_Ok `{CheckMode} a b : a.1 = b.1 -> LessThan a b = Ok (IsNewerSequenceNumber b.2 a.2).
Proof. intros Hab. unfold LessThan. by rewrite RTC_DCHECK_Ok by lia. Qed.

(** ** What a FEC packet protects *)

(** The sequence numbers of [s] lie at the increasing distances [gs] from
    [base], all within half the number space. *)
Definition spread (base : Z) (gs : list Z) (s : list (list Z)) : Prop :=
  map seq_of s = map (fun g => u16 (base + g)) gs /\ StronglySorted Z.lt gs /\ Forall (fun g => 0 <= g < 2 ^ 15) gs.

(** Offsets and order. *)
Lemma ahead_by_offset base g : 0 <= g < 2 ^ 16 -> ahead_by 16 (u16 (base + g)) (u16 base) = g.
Proof.
  intros Hg. unfold ahead_by, u16. rewrite <- Zminus_mod. replace (base + g - base) with g by lia. by apply Z.mod_small.
Qed.

Lemma newer_offsets base g g' :
  0 <= g < 2 ^ 15 -> 0 <= g' < 2 ^ 15 ->
  IsNewerSequenceNumber (u16 (base + g)) (u16 (base + g')) = (g' <? g).
Proof.
  intros Hg Hg'. unfold IsNewerSequenceNumber.
  pose proof (u16_range (base + g)). pose proof (u16_range (base + g')). pose proof (u16_range base).
  rewrite (IsNewer_offsets 16 _ _ (u16 base)) by (rewrite ?ahead_by_offset; lia).
  by rewrite !ahead_by_offset by lia.
Qed.

Lemma newer_total a b :
  0 <= a < 2 ^ 16 -> 0 <= b < 2 ^ 16 ->
  IsNewerSequenceNumber a b = false -> IsNewerSequenceNumber b a = false -> a = b.
Proof.
  intros Ha Hb H1 H2. destruct (Z.eq_dec a b) as [| Hne]; [ done |]. exfalso. revert H1 H2.
  unfold IsNewerSequenceNumber. rewrite !IsNewer_spec by lia.
  rewrite (ahead_by_cases 16 a b), (ahead_by_cases 16 b a) by lia.
  destruct (Z.leb_spec a b), (Z.leb_spec b a); try lia;
    repeat match goal with |- context [?x =? ?y] => destruct (Z.eqb_spec x y) end;
    repeat match goal with |- context [?x <? ?y] => destruct (Z.ltb_spec x y) end; cbn; (lia || done).
Qed.

(** What is known of a protected packet: it is missing, or it is there. *)
Definition status (p : ProtectedPacket) (m : list Z) : Prop := p = missing m \/ p = arrived m.

Lemma status_key p m : status p m -> pp_ssrc p = ssrc_of m /\ pp_seq_num p = seq_of m.
Proof. by intros [-> | ->]. Qed.

(** Storing a packet in the list of a FEC packet. *)
Definition mark (seq : Z) (pkt : list Z) (ps : list ProtectedPacket) : list ProtectedPacket :=
  map (fun p => if pp_seq_num p =? seq then set_pkt pkt p else p) ps.

Lemma mark_id seq pkt ps : Forall (fun p => pp_seq_num p <> seq) ps -> mark seq pkt ps = ps.
Proof.
  induction 1 as [| p ps Hp _ IH ]; [ done |]. cbn [mark map]. fold (mark seq pkt ps).
  by rewrite IH, (proj2 (Z.eqb_neq _ _)).
Qed.

Lemma mark_insert seq pkt ps i p :
  NoDup (map pp_seq_num ps) -> ps !! i = Some p -> pp_seq_num p = seq ->
  mark seq pkt ps = <[i := set_pkt pkt p]> ps.
Proof.
  revert i. induction ps as [| q ps IH ]; intros i Hnd Hi Hseq; [ done |].
  cbn [map] in Hnd. apply NoDup_cons in Hnd as [Hq Hnd]. cbn [mark map]. fold (mark seq pkt ps).
  destruct i as [| i ].
  - injection Hi as ->. rewrite Hseq, Z.eqb_refl, mark_id; [ done |]. apply list.Forall_forall. intros q Hin He.
    apply Hq. rewrite Hseq, <- He. apply list_elem_of_fmap. by exists q.
  - cbn in Hi. rewrite (proj2 (Z.eqb_neq _ _)); [ by rewrite (IH i) |].
    intros He. apply Hq. rewrite He, <- Hseq. apply list_elem_of_fmap. exists p. split; [ done |].
    by eapply list_elem_of_lookup_2.
Qed.

(** Counting what is missing. *)
Definition nmissing (ps : list ProtectedPacket) : nat := length (filter (fun p => pp_pkt p = None) ps).

Lemma NumCovered_count ps k :
  0 <= k <= 1 -> NumCoveredPacketsMissing ps k = Z.min 2 (k + Z.of_nat (nmissing ps)).
Proof.
  revert k. induction ps as [| p ps IH ]; intros k Hk; [ cbn; lia |]. cbn [NumCoveredPacketsMissing].
  unfold nmissing. rewrite filter_cons. destruct (pp_pkt p) as [pkt |].
  - rewrite decide_False by done. apply IH. done.
  - rewrite decide_True by done. cbn [length]. destruct (Z.ltb_spec 1 (k + 1)); [ lia |].
    rewrite IH by lia. unfold nmissing. lia.
Qed.

Lemma nmissing_0 ps s : Forall2 status ps s -> nmissing ps = 0%nat -> ps = map arrived s.
Proof.
  induction 1 as [| p m ps s Hp _ IH ]; [ done |]. unfold nmissing in *. rewrite filter_cons.
  destruct Hp as [-> | ->]; cbn [pp_pkt missing arrived].
  - rewrite decide_True by done. done.
  - rewrite decide_False by done. intros H0. by rewrite (IH H0).
Qed.

Lemma nmissing_1 ps s :
  Forall2 status ps s -> nmissing ps = 1%nat ->
  exists s1 m s2, s = s1 ++ m :: s2 /\ ps = map arrived s1 ++ missing m :: map arrived s2.
Proof.
  induction 1 as [| p m ps s Hp Hs IH ]; [ done |]. unfold nmissing in *. rewrite filter_cons.
  destruct Hp as [-> | ->]; cbn [pp_pkt missing arrived].
  - rewrite decide_True by done. intros [= H0]. exists [], m, s. split; [ done |].
    by rewrite (nmissing_0 ps s Hs H0).
  - rewrite decide_False by done. intros H1. destruct (IH H1) as (s1 & m' & s2 & -> & ->).
    by exists (m :: s1), m', s2.
Qed.

Lemma spread_nodup base gs s : spread base gs s -> NoDup (map seq_of s).
Proof.
  intros (-> & Hsort & Hr). induction Hsort as [| g gs _ IH Hg ]; [ constructor |].
  apply Forall_cons_1 in Hr as [Hg0 Hr]. cbn [map]. apply NoDup_cons. split; [| by apply IH ].
  intros (g' & He & Hin)%list_elem_of_fmap. rewrite list.Forall_forall in Hr, Hg.
  specialize (Hr g' Hin). specialize (Hg g' Hin). cbn beta in *.
  pose proof (ahead_by_offset base g ltac:(lia)) as H1. rewrite He, ahead_by_offset in H1; lia.
Qed.

(** The lists of a FEC packet are ordered as [lower_bound] needs it. *)
Lemma spread_partition base gs s k m :
  spread base gs s -> s !! k = Some m ->
  forall j m', s !! j = Some m' -> IsNewerSequenceNumber (seq_of m) (seq_of m') = bool_decide (j < k)%nat.
Proof.
  intros (Hmap & Hsort & Hr) Hk j m' Hj.
  assert (Hg : exists g, gs !! k = Some g /\ seq_of m = u16 (base + g)).
  { pose proof (f_equal (.!! k) Hmap) as He. cbn beta in He. rewrite !list_lookup_fmap, Hk in He.
    destruct (gs !! k) as [g |]; [| done ]. exists g. split; [ done |]. by injection He. }
  assert (Hg' : exists g, gs !! j = Some g /\ seq_of m' = u16 (base + g)).
  { pose proof (f_equal (.!! j) Hmap) as He. cbn beta in He. rewrite !list_lookup_fmap, Hj in He.
    destruct (gs !! j) as [g |]; [| done ]. exists g. split; [ done |]. by injection He. }
  destruct Hg as (g & Hgk & ->), Hg' as (g' & Hgj & ->).
  rewrite newer_offsets by (eapply (Forall_lookup_1 (fun g => 0 <= g < 2 ^ 15)); done).
  by apply (sorted_lookup gs).
Qed.

(** ** Reading a mask *)

Definition protected_at (media_ssrc base g : Z) : ProtectedPacket := mkProtected media_ssrc (u16 (base + g)) None.

(** The bits set among the first [n] bytes of a mask. *)
Definition set_bits (bit : Z -> bool) (n : Z) : list Z := filter (fun g => bit g = true) (seqZ 0 (8 * n)).

Lemma filter_ext_in {A} (P Q : A -> bool) (l : list A) :
  (forall x, x ∈ l -> P x = Q x) -> filter (fun x => P x = true) l = filter (fun x => Q x = true) l.
Proof.
  induction l as [| x l IH ]; intros He; [ done |]. rewrite !filter_cons, IH by (intros; apply He; by right).
  rewrite (He x) by apply list_elem_of_here. done.
Qed.

Lemma omap_filter {A B} (P : A -> bool) (F : A -> B) (l : list A) :
  omap (fun x => if P x then Some (F x) else None) l = map F (filter (fun x => P x = true) l).
Proof.
  induction l as [| x l IH ]; [ done |]. cbn [omap list_omap]. rewrite filter_cons.
  destruct (P x); [ rewrite decide_True by done | rewrite decide_False by done ]; cbn [map]; by rewrite <- IH.
Qed.

Lemma filter_map_bool {A B} (P : B -> bool) (F : A -> B) (l : list A) :
  filter (fun y => P y = true) (map F l) = map F (filter (fun x => P (F x) = true) l).
Proof.
  induction l as [| x l IH ]; [ done |]. cbn [map]. rewrite !filter_cons, IH. by case_decide.
Qed.

Lemma mask_byte_bits media_ssrc base data off i :
  0 <= i -> 0 <= off -> off + i < Z.of_nat (length data) ->
  mask_byte_packets media_ssrc base i (byte data (Z.to_nat (off + i))) =
    map (protected_at media_ssrc base)
      (filter (fun g => bit_at (drop (Z.to_nat off) data) g = true) (seqZ (8 * i) 8)).
Proof.
  intros Hi Ho Hlen. unfold mask_byte_packets.
  rewrite (omap_filter (fun b => negb (Z.land (byte data (Z.to_nat (off + i))) (Z.shiftl 1 (7 - b)) =? 0))
    (fun b => mkProtected media_ssrc (u16 (base + Z.shiftl i 3 + b)) None)).
  replace (seqZ (8 * i) 8) with (map (Z.add (8 * i)) (seqZ 0 8)) by (etransitivity; [ apply (fmap_add_seqZ (8 * i)) | f_equal; lia ]).
  rewrite filter_map_bool, map_map.
  replace (filter _ (seqZ 0 8)) with (filter (fun b => bit_at (drop (Z.to_nat off) data) (8 * i + b) = true) (seqZ 0 8)).
  - apply map_ext. intros b. unfold protected_at. rewrite Z.shiftl_mul_pow2 by lia. do 2 f_equal. lia.
  - apply (filter_ext_in (fun b => bit_at (drop (Z.to_nat off) data) (8 * i + b))
      (fun b => negb (Z.land (byte data (Z.to_nat (off + i))) (Z.shiftl 1 (7 - b)) =? 0))).
    intros b Hb%elem_of_seqZ. rewrite mask_test by lia. unfold bit_at.
    rewrite (Z.mul_comm 8), Z.div_add_l, (Z.div_small b), Z.add_0_r by lia.
    rewrite (Z.add_comm (i * 8)), Z.mod_add, (Z.mod_small b) by lia. f_equal.
    rewrite list_lookup_total_alt, lookup_drop. unfold byte.
    replace (Z.to_nat off + Z.to_nat i)%nat with (Z.to_nat (off + i)) by lia.
    by destruct (lookup_lt_is_Some_2 data (Z.to_nat (off + i)) ltac:(lia)) as [x ->].
Qed.

Lemma parse_mask_Ok h d media_ssrc base mask :
  announces h d media_ssrc base mask ->
  parse_mask media_ssrc h d =
    Ok (map (protected_at media_ssrc base) (set_bits (bit_at mask) (Z.of_nat (length mask)))).
Proof.
  intros [_ Hb Hoff Hsz Hin Hbits]. unfold parse_mask, set_bits.
  destruct (for_loop_rule (fun i ps => ps = map (protected_at media_ssrc base)
      (filter (fun g => bit_at (drop (Z.to_nat (fh_packet_mask_offset h)) d) g = true) (seqZ 0 (8 * i))))
    (fun byte_idx ps => packet_mask ← get d (fh_packet_mask_offset h + byte_idx);
      Ok (ps ++ mask_byte_packets media_ssrc (fh_seq_num_base h) byte_idx packet_mask))
    (Z.to_nat (fh_packet_mask_size h)) 0 []) as (ps & -> & ->); [ done | |].
  - intros i ps Hi ->. rewrite get_byte, bind_Ok, Hb, mask_byte_bits by lia. eexists. split; [ done |].
    rewrite <- map_app, <- filter_app. do 2 f_equal. replace (8 * (i + 1)) with (8 * i + 8) by lia.
    rewrite seqZ_app by lia. by rewrite Z.add_0_l.
  - f_equal. f_equal. rewrite Z.add_0_l, Z2Nat.id by lia.
    rewrite (filter_ext_in _ (fun g => (g <? 8 * Z.of_nat (length mask)) && bit_at mask g)).
    2:{ intros g Hg%elem_of_seqZ. apply Hbits. lia. }
    replace (8 * fh_packet_mask_size h) with (8 * Z.of_nat (length mask) + (8 * fh_packet_mask_size h - 8 * Z.of_nat (length mask))) by lia.
    rewrite seqZ_app, filter_app by lia. rewrite Z.add_0_l.
    rewrite (filter_ext_in _ (bit_at mask)).
    2:{ intros g Hg%elem_of_seqZ. by rewrite (proj2 (Z.ltb_lt _ _)) by lia. }
    rewrite (filter_ext_in _ (fun _ => false) (seqZ (8 * _) _)).
    2:{ intros g Hg%elem_of_seqZ. by rewrite (proj2 (Z.ltb_ge _ _)) by lia. }
    rewrite <- (app_nil_r (filter (fun g => bit_at mask g = true) _)) at 2. f_equal.
    induction (seqZ _ _) as [| x l IH ]; [ done |]. rewrite filter_cons, decide_False by done. exact IH.
Qed.

(** ** The invariant *)

Section Stream.
Context `{CheckMode} `{FecHeaderReader} (ssrc media_ssrc : Z) (sent : list Z -> Prop).

(** The media stream: RTP packets of one source, told apart by their sequence
    numbers. *)
Definition stream_ok : Prop :=
  (forall m, sent m -> rtp_ok m /\ ssrc_of m = media_ssrc) /\
  (forall m m', sent m -> sent m' -> seq_of m = seq_of m' -> m = m').

(** A FEC packet over packets of the stream. *)
Record over (h : FecHeader) (d : list Z) (s : list (list Z)) : Prop := {
  over_carries : carries h d s;
  over_sent : Forall sent s;
  over_some : s <> [];
  over_spread : exists base gs, spread base gs s
}.

(** Received as a media packet, received as a FEC packet. *)
Definition genuine_media (r : ReceivedPacket) : Prop :=
  sent (rp_pkt r) /\ rp_seq_num r = seq_of (rp_pkt r) /\ rp_ssrc r = media_ssrc.
Definition genuine_fec (r : ReceivedPacket) (s : list (list Z)) : Prop :=
  rp_ssrc r = ssrc /\ exists h d base mask,
    ReadFecHeader ssrc (rp_pkt r) = Ok (Some (h, d)) /\ over h d s /\
    announces h d media_ssrc base mask /\
    map seq_of s = map (fun g => u16 (base + g)) (set_bits (bit_at mask) (Z.of_nat (length mask))).
Definition genuine (r : ReceivedPacket) : Prop :=
  if rp_is_fec r then exists s, genuine_fec r s else genuine_media r.

Definition fec_ok (f : ReceivedFecPacket) (s : list (list Z)) : Prop :=
  over (rf_header f) (rf_pkt f) s /\ rf_ssrc f = ssrc /\ Forall2 status (protected_packets f) s.
Definition rc_ok (r : RecoveredPacket) : Prop :=
  sent (rc_pkt r) /\ rc_seq_num r = seq_of (rc_pkt r) /\ rc_ssrc r = media_ssrc.

Record decoder_ok (this : FecDecoder) (recovered : list RecoveredPacket) : Prop := {
  ok_ssrc : ssrc_ this = ssrc /\ protected_media_ssrc_ this = media_ssrc;
  ok_fecs : Forall (fun f => exists s, fec_ok f s) (received_fec_packets_ this);
  ok_recovered : Forall rc_ok recovered;
  ok_capacity : Z.of_nat (length (received_fec_packets_ this)) <= reader_MaxFecPackets
}.

Hypothesis Hstream : stream_ok.

Lemma over_rtp h d s : over h d s -> Forall rtp_ok s.
Proof. intros Ho. eapply list.Forall_impl; [ exact (over_sent _ _ _ Ho) |]. intros m Hm. by apply Hstream. Qed.

Lemma over_ssrc h d s m : over h d s -> m ∈ s -> ssrc_of m = media_ssrc.
Proof. intros Ho Hm. pose proof (over_sent _ _ _ Ho) as Hs. rewrite list.Forall_forall in Hs. by apply Hstream, Hs. Qed.

Lemma status_lookup ps s k p :
  Forall2 status ps s -> ps !! k = Some p -> exists m, s !! k = Some m /\ status p m.
Proof. intros Hst Hp. eapply Forall2_lookup_l; done. Qed.

Lemma status_seqs ps s : Forall2 status ps s -> map pp_seq_num ps = map seq_of s.
Proof. induction 1 as [| p m ps s Hp _ IH ]; [ done |]. cbn [map]. by rewrite IH, (proj2 (status_key p m Hp)). Qed.

(** Marking a packet of the stream keeps the statuses. *)
Lemma mark_status h d s ps r :
  over h d s -> rc_ok r -> Forall2 status ps s -> Forall2 status (mark (rc_seq_num r) (rc_pkt r) ps) s.
Proof.
  intros Ho (Hsent & Hseq & _) Hst. pose proof (over_sent _ _ _ Ho) as Hs. clear Ho.
  induction Hst as [| p m ps s Hp _ IH ]; [ constructor |]. apply Forall_cons_1 in Hs as [Hm Hs].
  cbn [mark map]. constructor; [| by apply IH ]. destruct (status_key p m Hp) as [Hk1 Hk2].
  destruct (Z.eqb_spec (pp_seq_num p) (rc_seq_num r)) as [He | _]; [| done ].
  assert (m = rc_pkt r) as -> by (apply Hstream; congruence).
  right. unfold set_pkt, arrived. by rewrite Hk1, Hk2.
Qed.

Lemma update_covering_Ok f s r :
  fec_ok f s -> rc_ok r ->
  update_covering r f = Ok (set_protected (mark (rc_seq_num r) (rc_pkt r) (protected_packets f)) f).
Proof.
  intros (Ho & _ & Hst) (Hsent & Hseq & Hssrc). unfold update_covering. set (ps := protected_packets f) in *.
  destruct (lower_bound_Ok (fun p => LessThan (pp_key p) (rc_key r))
    (fun p => IsNewerSequenceNumber (rc_seq_num r) (pp_seq_num p)) ps) as (i & -> & Hi).
  { intros p (k & Hk)%list_elem_of_lookup. destruct (status_lookup ps s k p Hst Hk) as (m & Hm & Hp).
    apply LessThan_Ok. cbn. rewrite Hssrc, (proj1 (status_key p m Hp)). eapply over_ssrc; [ exact Ho |].
    by eapply list_elem_of_lookup_2. }
  rewrite bind_Ok. destruct (over_spread _ _ _ Ho) as (base & gs & Hspread).
  assert (Hnd : NoDup (map pp_seq_num ps)) by (rewrite (status_seqs ps s Hst); by eapply spread_nodup).
  destruct (decide (rc_seq_num r ∈ map pp_seq_num ps)) as [Hin | Hout].
  - apply list_elem_of_fmap in Hin as (p & Hp & (k & Hk)%list_elem_of_lookup).
    destruct (status_lookup ps s k p Hst Hk) as (m & Hm & Hpm).
    assert (i = k) as ->.
    { apply Hi; [ apply lookup_lt_Some in Hk; lia |]. intros j q Hj.
      destruct (status_lookup ps s j q Hst Hj) as (m' & Hm' & Hq).
      rewrite Hp, (proj2 (status_key p m Hpm)), (proj2 (status_key q m' Hq)). by eapply spread_partition. }
    rewrite Hk, <- Hp, Z.eqb_refl. by rewrite (mark_insert _ _ ps k p).
  - rewrite mark_id.
    + destruct (ps !! i) as [p |] eqn:Ep; [| by destruct f ].
      rewrite (proj2 (Z.eqb_neq _ _)); [ by destruct f |]. intros He. apply Hout. rewrite <- He.
      apply list_elem_of_fmap. exists p. split; [ done |]. by eapply list_elem_of_lookup_2.
    + apply list.Forall_forall. intros p Hp He. apply Hout. rewrite <- He. apply list_elem_of_fmap. by exists p.
Qed.

Lemma update_all_Ok fs r :
  Forall (fun f => exists s, fec_ok f s) fs -> rc_ok r ->
  UpdateCoveringFecPackets r fs =
    Ok (map (fun f => set_protected (mark (rc_seq_num r) (rc_pkt r) (protected_packets f)) f) fs).
Proof.
  intros Hfs Hr. induction Hfs as [| f fs (s & Hf) _ IH ]; [ done |]. cbn [UpdateCoveringFecPackets map].
  by rewrite (update_covering_Ok f s r Hf Hr), bind_Ok, IH.
Qed.

Lemma fec_ok_mark f s r :
  fec_ok f s -> rc_ok r -> fec_ok (set_protected (mark (rc_seq_num r) (rc_pkt r) (protected_packets f)) f) s.
Proof. intros (Ho & Hs & Hst) Hr. split; [ done |]. split; [ done |]. cbn. by eapply mark_status. Qed.

(** ** Peeling *)

Definition marked (r : RecoveredPacket) (f : ReceivedFecPacket) : ReceivedFecPacket :=
  set_protected (mark (rc_seq_num r) (rc_pkt r) (protected_packets f)) f.

(** A FEC packet that no longer helps is dropped: everything it protects is
    there, or it misses at least two packets and is old. *)
Inductive drop_step : list ReceivedFecPacket * list RecoveredPacket ->
    list ReceivedFecPacket * list RecoveredPacket -> Prop :=
| drop_complete a f b rec :
    nmissing (protected_packets f) = 0%nat -> drop_step (a ++ f :: b, rec) (a ++ b, rec)
| drop_old a f b rec :
    (1 < nmissing (protected_packets f))%nat -> IsOldFecPacket f rec = Ok true ->
    drop_step (a ++ f :: b, rec) (a ++ b, rec).

(** A FEC packet that misses one packet is used up: the packet joins the list
    and counts as there for all others. *)
Inductive use_step : list ReceivedFecPacket * list RecoveredPacket ->
    list ReceivedFecPacket * list RecoveredPacket -> Prop :=
| use_one a f b rec s1 m s2 rec' :
    let r := mkRecovered true false media_ssrc (seq_of m) m in
    protected_packets f = map arrived s1 ++ missing m :: map arrived s2 -> sent m ->
    list_sort rc_key (rec ++ [r]) = Ok rec' ->
    use_step (a ++ f :: b, rec) (map (marked r) (a ++ b), DiscardOldRecoveredPackets rec').

Inductive peels : Z -> list ReceivedFecPacket * list RecoveredPacket ->
    list ReceivedFecPacket * list RecoveredPacket -> Prop :=
| peels_end st : peels 0 st st
| peels_drop n st st' st'' : drop_step st st' -> peels n st' st'' -> peels n st st''
| peels_use n st st' st'' : use_step st st' -> peels n st' st'' -> peels (n + 1) st st''.

(** Nothing to be done with this FEC packet: it misses two packets or more, and
    is not old. *)
Definition settled (rec : list RecoveredPacket) (f : ReceivedFecPacket) : Prop :=
  (1 < nmissing (protected_packets f))%nat /\ IsOldFecPacket f rec = Ok false.

Definition lists_ok (fs : list ReceivedFecPacket) (rec : list RecoveredPacket) : Prop :=
  Forall (fun f => exists s, fec_ok f s) fs /\ Forall rc_ok rec.

Lemma Discard_incl l : exists l1, l = l1 ++ DiscardOldRecoveredPackets l.
Proof.
  induction l as [| x l (l1 & IH) ]; [ by exists [] |]. cbn [DiscardOldRecoveredPackets].
  destruct (_ <? _); [| by exists [] ]. exists (x :: l1). cbn. by rewrite <- IH.
Qed.

Lemma Discard_length l :
  0 <= reader_MaxMediaPackets -> Z.of_nat (length (DiscardOldRecoveredPackets l)) <= reader_MaxMediaPackets.
Proof.
  intros Hmax. induction l as [| x l IH ]; [ cbn; lia |]. cbn [DiscardOldRecoveredPackets].
  destruct (Z.ltb_spec reader_MaxMediaPackets (Z.of_nat (length (x :: l)))); [ exact IH | done ].
Qed.

Lemma Discard_Forall (P : RecoveredPacket -> Prop) l : Forall P l -> Forall P (DiscardOldRecoveredPackets l).
Proof. intros Hl. destruct (Discard_incl l) as (l1 & He). rewrite He in Hl. by apply Forall_app in Hl as [_ Hl]. Qed.

Lemma attempt_nil fuel passed rec n : attempt_recovery fuel passed [] rec n = Ok (passed, rec, n).
Proof. by destruct fuel. Qed.

Lemma IsOld_Ok f s rec : fec_ok f s -> exists b, IsOldFecPacket f rec = Ok b.
Proof.
  intros (Ho & _ & Hst). unfold IsOldFecPacket. destruct (list.last rec); [| by eexists ].
  destruct (list.last (protected_packets f)) eqn:El; [ by eexists |].
  exfalso. apply (over_some _ _ _ Ho). apply last_None in El. rewrite El in Hst. by inversion Hst.
Qed.

(** Recovery of the one missing packet succeeds and returns that packet. *)
Lemma RecoverPacket_ok f s :
  fec_ok f s -> nmissing (protected_packets f) = 1%nat ->
  exists s1 m s2, protected_packets f = map arrived s1 ++ missing m :: map arrived s2 /\ sent m /\
    RecoverPacket (rf_header f) (rf_pkt f) (protected_packets f) = Ok (Some (m, seq_of m, media_ssrc)).
Proof.
  intros (Ho & _ & Hst) H1. destruct (nmissing_1 _ _ Hst H1) as (s1 & m & s2 & -> & Hps).
  exists s1, m, s2. pose proof (over_sent _ _ _ Ho) as Hs. apply Forall_app in Hs as [_ Hs].
  apply Forall_cons_1 in Hs as [Hm _]. split; [ done |]. split; [ done |].
  rewrite Hps, (RecoverPacket_carries _ _ s1 m s2); [| apply Ho | by eapply over_rtp ].
  by rewrite (proj2 (proj1 Hstream m Hm)).
Qed.

Hypothesis Hmax : 0 <= reader_MaxMediaPackets.

Lemma new_ok m : sent m -> rc_ok (mkRecovered true false media_ssrc (seq_of m) m).
Proof. done. Qed.

Lemma rc_sort_Ok rec r : Forall rc_ok rec -> rc_ok r ->
  exists rec', list_sort rc_key (rec ++ [r]) = Ok rec' /\ rec' ≡ₚ rec ++ [r] /\ Forall rc_ok rec'.
Proof.
  intros Hrec Hr. assert (Hall : Forall rc_ok (rec ++ [r])) by (apply Forall_app; split; [ done | by constructor ]).
  destruct (list_sort_Ok rc_key media_ssrc (rec ++ [r])) as (rec' & Hs & Hp).
  { eapply list.Forall_impl; [ exact Hall |]. intros x (_ & _ & Hx). exact Hx. }
  exists rec'. split; [ done |]. split; [ done |]. by rewrite Hp.
Qed.

Lemma marked_ok fs r : Forall (fun f => exists s, fec_ok f s) fs -> rc_ok r ->
  Forall (fun f => exists s, fec_ok f s) (map (marked r) fs).
Proof.
  intros Hfs Hr. apply Forall_fmap. eapply list.Forall_impl; [ exact Hfs |]. intros f (s & Hf). exists s.
  by apply fec_ok_mark.
Qed.

(** One turn that uses a FEC packet, up to the restart. *)
Lemma use_turn passed f rest rec s :
  lists_ok (passed ++ f :: rest) rec -> fec_ok f s -> nmissing (protected_packets f) = 1%nat ->
  exists r rec', use_step (passed ++ f :: rest, rec) (map (marked r) (passed ++ rest), DiscardOldRecoveredPackets rec') /\
    lists_ok (map (marked r) (passed ++ rest)) (DiscardOldRecoveredPackets rec') /\
    forall fuel n, attempt_recovery fuel passed (f :: rest) rec n =
      match fuel with
      | O => Ok (map (marked r) (passed ++ rest), DiscardOldRecoveredPackets rec', n + 1)
      | S fuel => attempt_recovery fuel [] (map (marked r) (passed ++ rest)) (DiscardOldRecoveredPackets rec') (n + 1)
      end.
Proof.
  intros [Hfs Hrec] Hf H1. destruct (RecoverPacket_ok f s Hf H1) as (s1 & m & s2 & Hps & Hm & HR).
  pose proof (new_ok m Hm) as Hr. set (r := mkRecovered true false media_ssrc (seq_of m) m) in *.
  destruct (rc_sort_Ok rec r Hrec Hr) as (rec' & Hsort & _ & Hrec').
  apply Forall_app in Hfs as [Hpassed Hfs]. apply Forall_cons_1 in Hfs as [_ Hrest].
  assert (Hall : Forall (fun f => exists s, fec_ok f s) (passed ++ rest)) by (by apply Forall_app).
  exists r, rec'. split; [ by eapply use_one |]. split; [ split; [ by apply marked_ok | by apply Discard_Forall ] |].
  intros fuel n. pose proof (NumCovered_count (protected_packets f) 0 ltac:(lia)) as Hnum. rewrite H1 in Hnum.
  assert (HD : RTC_DCHECK (Z.of_nat (length (DiscardOldRecoveredPackets rec')) <=? reader_MaxMediaPackets) = Ok tt)
    by (apply RTC_DCHECK_Ok, Z.leb_le, Discard_length, Hmax).
  destruct fuel; cbn [attempt_recovery]; rewrite Hnum;
    change (Z.min 2 (0 + Z.of_nat 1) =? 1) with true; cbn iota; rewrite HR, bind_Ok; fold r; cbn zeta;
    rewrite Hsort, bind_Ok, !update_all_Ok, bind_Ok by done; rewrite (update_covering_Ok f s r Hf Hr), !bind_Ok, HD, bind_Ok;
    by rewrite map_app.
Qed.

(** The turns that do not use a FEC packet. *)
Lemma other_turn fuel passed f rest rec n s :
  fec_ok f s -> nmissing (protected_packets f) <> 1%nat ->
  (drop_step (passed ++ f :: rest, rec) (passed ++ rest, rec) /\
   attempt_recovery fuel passed (f :: rest) rec n = attempt_recovery fuel passed rest rec n) \/
  (settled rec f /\
   attempt_recovery fuel passed (f :: rest) rec n = attempt_recovery fuel (passed ++ [f]) rest rec n).
Proof.
  intros Hf H1. pose proof (NumCovered_count (protected_packets f) 0 ltac:(lia)) as Hnum.
  destruct (IsOld_Ok f s rec Hf) as (old & Hold).
  assert (Hcases : nmissing (protected_packets f) = 0%nat \/ (1 < nmissing (protected_packets f))%nat) by lia.
  destruct Hcases as [Hz | H2].
  - left. split; [ by apply drop_complete |].
    destruct fuel; cbn [attempt_recovery]; rewrite Hnum, Hz; reflexivity.
  - assert (He : Z.min 2 (0 + Z.of_nat (nmissing (protected_packets f))) = 2) by lia. rewrite He in Hnum.
    destruct old; [ left; split; [ by apply drop_old |] | right; split; [ done |] ];
      destruct fuel; cbn [attempt_recovery]; rewrite Hnum; change (2 =? 1) with false; change (2 =? 0) with false;
      cbn iota zeta; rewrite Hold; reflexivity.
Qed.

(** [AttemptRecovery] peels the stored FEC packets until all are settled. *)
Lemma attempt_recovery_peels fuel : forall rest passed rec n,
  (length passed + length rest <= fuel)%nat -> lists_ok (passed ++ rest) rec -> Forall (settled rec) passed ->
  exists fs' rec' k, attempt_recovery fuel passed rest rec n = Ok (fs', rec', n + k) /\
    peels k (passed ++ rest, rec) (fs', rec') /\ Forall (settled rec') fs' /\ lists_ok fs' rec'.
Proof.
  induction fuel as [| fuel IHfuel ].
  { intros [| f rest ] [| p passed ] rec n Hlen Hok Hset; cbn in Hlen; try lia.
    exists [], rec, 0. rewrite attempt_nil, Z.add_0_r. split_and!; [ done | constructor | constructor | done.. ]. }
  induction rest as [| f rest IH ]; intros passed rec n Hlen Hok Hset.
  { exists passed, rec, 0. rewrite attempt_nil, Z.add_0_r. rewrite app_nil_r in *. by split_and!; [ | constructor | | ]. }
  assert (Hf : exists s, fec_ok f s).
  { destruct Hok as [Hfs _]. apply Forall_app in Hfs as [_ Hfs]. by apply Forall_inv in Hfs. }
  destruct Hf as (s & Hf). destruct (decide (nmissing (protected_packets f) = 1%nat)) as [H1 | H1].
  - destruct (use_turn passed f rest rec s Hok Hf H1) as (r & rec' & Huse & Hok' & ->).
    destruct (IHfuel (map (marked r) (passed ++ rest)) [] (DiscardOldRecoveredPackets rec') (n + 1))
      as (fs' & rec'' & k & -> & Hp & Hset' & Hok''); [| done | constructor |].
    { cbn [length] in *. rewrite length_map, length_app. lia. }
    exists fs', rec'', (k + 1). split; [ do 2 f_equal; lia |]. split_and!; [| done | done ]. by eapply peels_use.
  - destruct (other_turn (S fuel) passed f rest rec n s Hf H1) as [[Hd ->] | [Hs ->]].
    + destruct (IH passed rec n) as (fs' & rec' & k & -> & Hp & Hset' & Hok'); [ cbn in Hlen; lia | | done |].
      { destruct Hok as [Hfs Hrec]. split; [| done ]. apply Forall_app in Hfs as [? Hfs].
        apply Forall_cons_1 in Hfs as [_ ?]. by apply Forall_app. }
      exists fs', rec', k. split_and!; [ done | by eapply peels_drop | done.. ].
    + destruct (IH (passed ++ [f]) rec n) as (fs' & rec' & k & -> & Hp & Hset' & Hok').
      { rewrite length_app. cbn in *. lia. }
      { by rewrite <- app_assoc. }
      { apply Forall_app. split; [ done | by constructor ]. }
      exists fs', rec', k. rewrite <- app_assoc in Hp. by split_and!.
Qed.

(** ** Storing what arrives *)

Lemma assign_cons `{CheckMode} p ps r rs :
  AssignRecoveredPackets (p :: ps) (r :: rs) =
    p_less ← LessThan (pp_key p) (rc_key r);
    if (p_less : bool) then l ← AssignRecoveredPackets ps (r :: rs); Ok (p :: l)
    else
      r_less ← LessThan (rc_key r) (pp_key p);
      if (r_less : bool) then AssignRecoveredPackets (p :: ps) rs
      else l ← AssignRecoveredPackets ps rs; Ok (set_pkt (rc_pkt r) p :: l).
Proof. reflexivity. Qed.

Lemma assign_nil_r `{CheckMode} ps : AssignRecoveredPackets ps [] = Ok ps.
Proof. by destruct ps. Qed.

Lemma assign_status rs : forall ps s,
  Forall rc_ok rs -> Forall sent s -> Forall2 status ps s ->
  exists ps', AssignRecoveredPackets ps rs = Ok ps' /\ Forall2 status ps' s.
Proof.
  induction rs as [| r rs IHrs ]; [ intros ps s _ _ Hst; exists ps; by rewrite assign_nil_r |].
  induction ps as [| p ps IHps ]; intros s Hrs Hs Hst; [ by exists [] |].
  inversion Hst as [| ? m ? s' Hp Hst' ]; subst. apply Forall_cons_1 in Hs as [Hm Hs].
  pose proof (Forall_inv Hrs) as (Hr & Hseq & Hssrc). destruct (status_key p m Hp) as [Hk1 Hk2].
  destruct (proj1 Hstream m Hm) as [Hrtp Hms]. destruct (proj1 Hstream _ Hr) as [Hrtp' _].
  assert (Hkey : (pp_key p).1 = (rc_key r).1) by (cbn; congruence).
  rewrite assign_cons, !LessThan_Ok, !bind_Ok by done. cbn [fst snd pp_key rc_key].
  destruct (IsNewerSequenceNumber (rc_seq_num r) (pp_seq_num p)) eqn:E1.
  { destruct (IHps s' Hrs Hs Hst') as (l & -> & Hl). exists (p :: l). split; [ reflexivity | by constructor ]. }
  destruct (IsNewerSequenceNumber (pp_seq_num p) (rc_seq_num r)) eqn:E2.
  { apply IHrs; [ by apply Forall_inv_tail in Hrs | by constructor | done ]. }
  destruct (IHrs ps s' (Forall_inv_tail Hrs) Hs Hst') as (l & -> & Hl).
  exists (set_pkt (rc_pkt r) p :: l). split; [ done |]. constructor; [| done ].
  pose proof (seq_of_range m Hrtp). pose proof (seq_of_range _ Hrtp').
  assert (pp_seq_num p = rc_seq_num r) by (apply newer_total; [ rewrite Hk2; lia | rewrite Hseq; lia | done | done ]).
  assert (m = rc_pkt r) as -> by (apply Hstream; congruence).
  right. unfold set_pkt, arrived. by rewrite Hk1, Hk2.
Qed.

(** A packet that is there already changes nothing; a new one joins the list
    and is marked in the stored FEC packets. *)
Definition media_stored (this : FecDecoder) (rec : list RecoveredPacket) (r : ReceivedPacket)
    (this' : FecDecoder) (rec' : list RecoveredPacket) : Prop :=
  let r' := mkRecovered false true (rp_ssrc r) (rp_seq_num r) (rp_pkt r) in
  ((rp_seq_num r ∈ map rc_seq_num rec) /\ this' = this /\ rec' = rec) \/
  ((rp_seq_num r ∉ map rc_seq_num rec) /\ list_sort rc_key (rec ++ [r']) = Ok rec' /\
   received_fec_packets_ this' = map (marked r') (received_fec_packets_ this)).

Lemma InsertMediaPacket_Ok this rec r :
  decoder_ok this rec -> genuine_media r ->
  exists this' rec', InsertMediaPacket this rec r = Ok (this', rec') /\ decoder_ok this' rec' /\
    media_stored this rec r this' rec'.
Proof.
  intros [[Hs Hps] Hfs Hrec Hcap] (Hsent & Hseq & Hssrc). unfold InsertMediaPacket.
  rewrite RTC_DCHECK_Ok, bind_Ok by lia. rewrite find_duplicate_Ok, bind_Ok.
  2:{ eapply list.Forall_impl; [ exact Hrec |]. intros x (_ & _ & Hx). cbn. congruence. }
  case_bool_decide; [ exists this, rec; split_and!; [ done | by split | by left ] |].
  set (r' := mkRecovered false true (rp_ssrc r) (rp_seq_num r) (rp_pkt r)).
  assert (Hr' : rc_ok r') by (by split_and!).
  destruct (rc_sort_Ok rec r' Hrec Hr') as (rec' & Hsort & _ & Hrec').
  rewrite Hsort, bind_Ok, update_all_Ok, bind_Ok by done. do 2 eexists. split; [ reflexivity |]. split; [| by right ].
  split; cbn [ssrc_ protected_media_ssrc_ received_fec_packets_ set_fec_packets]; [ done | by apply marked_ok | done |].
  by rewrite length_map.
Qed.

(** The list a new FEC packet starts with. *)
Lemma parsed_missing h d s base mask :
  over h d s -> announces h d media_ssrc base mask ->
  map seq_of s = map (fun g => u16 (base + g)) (set_bits (bit_at mask) (Z.of_nat (length mask))) ->
  parse_mask media_ssrc h d = Ok (map missing s).
Proof.
  intros Ho Ha Hseq. rewrite (parse_mask_Ok h d media_ssrc base mask Ha). f_equal.
  pose proof (over_ssrc h d s) as Hssrc. specialize (fun m => Hssrc m Ho). revert Hseq.
  generalize (set_bits (bit_at mask) (Z.of_nat (length mask))). clear Ho Ha.
  induction s as [| m s IH ]; intros [| g gs ]; try discriminate; [ done |]. cbn [map]. intros [= Hm Hs].
  rewrite (IH (fun m' H' => Hssrc m' (list_elem_of_further m' m s H')) gs Hs). f_equal.
  unfold missing, protected_at. by rewrite Hm, Hssrc by apply list_elem_of_here.
Qed.

Lemma missing_status s : Forall2 status (map missing s) s.
Proof. induction s as [| m s IH ]; constructor; [ by left | done ]. Qed.

Lemma Forall_tail {A} (P : A -> Prop) l : Forall P l -> Forall P (tail l).
Proof. destruct 1; [ constructor | done ]. Qed.

(** A FEC packet that is there already changes nothing; a new one is stored
    with what is known of the packets it protects, and if there are too many,
    the first one goes. *)
Definition fec_stored (this : FecDecoder) (rec : list RecoveredPacket) (r : ReceivedPacket) (s : list (list Z))
    (this' : FecDecoder) : Prop :=
  ((rp_seq_num r ∈ map rf_seq_num (received_fec_packets_ this)) /\ this' = this) \/
  ((rp_seq_num r ∉ map rf_seq_num (received_fec_packets_ this)) /\
   exists h d ps fs, over h d s /\ AssignRecoveredPackets (map missing s) rec = Ok ps /\
     fs ≡ₚ received_fec_packets_ this ++ [mkReceivedFec ssrc (rp_seq_num r) h d ps] /\
     received_fec_packets_ this' = if reader_MaxFecPackets <? Z.of_nat (length fs) then tail fs else fs).

Lemma InsertFecPacket_Ok this rec r s :
  decoder_ok this rec -> genuine_fec r s ->
  exists this', InsertFecPacket this rec r = Ok this' /\ decoder_ok this' rec /\ fec_stored this rec r s this'.
Proof.
  intros Hok (Hssrc & h & d & base & mask & Hread & Ho & Ha & Hseq). pose proof Hok as [[Hs Hps] Hfs Hrec Hcap].
  unfold InsertFecPacket. rewrite RTC_DCHECK_Ok, bind_Ok by lia. rewrite find_duplicate_Ok, bind_Ok.
  2:{ eapply list.Forall_impl; [ exact Hfs |]. intros f (s' & _ & Hf & _). cbn. congruence. }
  case_bool_decide; [ exists this; split_and!; [ done | done | by left ] |]. rewrite Hssrc, Hread, bind_Ok, Hps, (announces_ssrc _ _ _ _ _ Ha), Z.eqb_refl.
  cbn [negb]. rewrite (proj2 (Z.ltb_ge _ _)) by apply Ha. rewrite (parsed_missing h d s base mask Ho Ha Hseq), bind_Ok.
  pose proof (over_some _ _ _ Ho) as Hne. destruct (assign_status rec (map missing s) s Hrec (over_sent _ _ _ Ho) (missing_status s))
    as (ps & Hps' & Hst). rewrite Hps', bind_Ok. destruct s as [| m s ]; [ done |]. cbn [map] in Hps' |- *.
  set (f := mkReceivedFec ssrc (rp_seq_num r) h d ps).
  destruct (list_sort_Ok rf_key ssrc (received_fec_packets_ this ++ [f])) as (fs & -> & Hp).
  { apply Forall_app. split; [| by repeat constructor ]. eapply list.Forall_impl; [ exact Hfs |].
    intros f' (s' & _ & Hf & _). exact Hf. }
  rewrite bind_Ok. assert (Hall : Forall (fun f => exists s, fec_ok f s) fs).
  { rewrite Hp. apply Forall_app. split; [ done |]. repeat constructor. by exists (m :: s). }
  assert (Hlen : length fs = S (length (received_fec_packets_ this))) by (rewrite Hp, length_app; cbn; lia).
  cbn zeta. set (fs' := if _ <? _ then tail fs else fs).
  assert (Hfs' : Forall (fun f => exists s, fec_ok f s) fs' /\ Z.of_nat (length fs') <= reader_MaxFecPackets).
  { unfold fs'. destruct (Z.ltb_spec reader_MaxFecPackets (Z.of_nat (length fs))); [| done ].
    split; [ by apply Forall_tail |]. destruct fs; cbn in *; lia. }
  rewrite RTC_DCHECK_Ok, bind_Ok by lia. eexists. split; [ done |].
  split; [ split; [ done | apply Hfs' | done | apply Hfs' ] | right ]. split; [ done |]. by exists h, d, ps, fs.
Qed.

Lemma erase_old_incl seq fs : exists l, fs = l ++ erase_old seq fs.
Proof.
  induction fs as [| f fs (l & IH) ]; [ by exists [] |]. cbn [erase_old]. destruct (_ <? _); [| by exists [] ].
  exists (f :: l). cbn. by rewrite <- IH.
Qed.

Lemma InsertPacket_Ok this rec r :
  decoder_ok this rec -> genuine r ->
  exists this' rec', InsertPacket this r rec = Ok (this', rec') /\ decoder_ok this' rec'.
Proof.
  intros Hok Hr. unfold InsertPacket. set (this1 := match received_fec_packets_ this with [] => _ | _ => _ end).
  assert (Hok1 : decoder_ok this1 rec).
  { unfold this1. destruct (received_fec_packets_ this) as [| f fs ] eqn:Ef; [ done |]. rewrite <- Ef.
    destruct (_ =? _); [| done ]. destruct Hok as [Hs Hfs Hrec Hcap].
    destruct (erase_old_incl (rp_seq_num r) (received_fec_packets_ this)) as (l & He).
    split; [ done | | done |]; cbn [received_fec_packets_ set_fec_packets].
    - rewrite He in Hfs. by apply Forall_app in Hfs as [_ Hfs].
    - rewrite He, length_app in Hcap. lia. }
  assert (Hins : exists this' rec', (if rp_is_fec r then this ← InsertFecPacket this1 rec r; Ok (this, rec)
      else InsertMediaPacket this1 rec r) = Ok (this', rec') /\ decoder_ok this' rec').
  { unfold genuine in Hr. destruct (rp_is_fec r).
    - destruct Hr as (s & Hr). destruct (InsertFecPacket_Ok this1 rec r s Hok1 Hr) as (this' & -> & Hok' & _).
      by exists this', rec.
    - destruct (InsertMediaPacket_Ok this1 rec r Hok1 Hr) as (this' & rec' & ? & ? & _). by exists this', rec'. }
  destruct Hins as (this' & rec' & -> & [Hs Hfs Hrec Hcap]). rewrite bind_Ok.
  rewrite RTC_DCHECK_Ok, bind_Ok by (apply Z.leb_le, Discard_length, Hmax).
  do 2 eexists. split; [ done |]. split; [ done | done | by apply Discard_Forall | done ].
Qed.

Lemma AttemptRecovery_Ok this rec :
  decoder_ok this rec ->
  exists this' rec' n, AttemptRecovery this rec = Ok (this', rec', n) /\
    peels n (received_fec_packets_ this, rec) (received_fec_packets_ this', rec') /\
    Forall (settled rec') (received_fec_packets_ this') /\ decoder_ok this' rec'.
Proof.
  intros [[Hs Hps] Hfs Hrec Hcap]. unfold AttemptRecovery.
  destruct (attempt_recovery_peels (length (received_fec_packets_ this)) (received_fec_packets_ this) [] rec 0)
    as (fs' & rec' & n & -> & Hp & Hset & Hfs' & Hrec'); [ done | done | constructor |].
  rewrite bind_Ok. do 3 eexists. split; [ reflexivity |]. split_and!; [ exact Hp | exact Hset |].
  split; [ done | done | done |]. cbn [received_fec_packets_ set_fec_packets].
  assert (Hlen : forall n st st', peels n st st' -> (length st'.1 <= length st.1)%nat).
  { induction 1 as [| ? ? ? ? Hd _ IH | ? ? ? ? Hu _ IH ]; [ done | |].
    - destruct Hd; cbn [fst] in *; rewrite ?length_app in *; cbn [length] in *; lia.
    - destruct Hu; cbn [fst] in *; rewrite ?length_map, ?length_app in *; cbn [length] in *; lia. }
  apply Hlen in Hp. cbn [fst app] in Hp. lia.
Qed.

(** The lists [DecodeFec] goes on with: its own, or empty ones after a gap. *)
Lemma DecodeFec_start this rec (r : ReceivedPacket) :
  exists this1 rec1, ((this1, rec1) = (this, rec) \/
      Z.of_nat (length rec) = reader_MaxMediaPackets /\ (this1, rec1) = ResetState this) /\
    DecodeFec this r rec = ('(this, rec) ← InsertPacket this1 r rec1; AttemptRecovery this rec).
Proof.
  unfold DecodeFec. destruct (Z.eqb_spec (Z.of_nat (length rec)) reader_MaxMediaPackets); [| exists this, rec; auto ].
  destruct (list.last rec) as [back |]; [| exists this, rec; auto ].
  destruct (rp_ssrc r =? rc_ssrc back); [| exists this, rec; auto ].
  destruct (reader_MaxMediaPackets <? _); [| exists this, rec; auto ].
  do 2 eexists. split; [ right; split; [ done | reflexivity ] | reflexivity ].
Qed.

Lemma DecodeFec_Ok this rec r :
  decoder_ok this rec -> genuine r ->
  exists this' rec' n, DecodeFec this r rec = Ok (this', rec', n) /\
    decoder_ok this' rec' /\ Forall (settled rec') (received_fec_packets_ this').
Proof.
  intros Hok Hr. destruct (DecodeFec_start this rec r) as (this1 & rec1 & Hst & ->).
  assert (Hok1 : decoder_ok this1 rec1).
  { destruct Hst as [[= -> ->] | [_ [= -> ->]]]; [ done |]. destruct Hok as [Hs _ _ Hcap].
    split; [ done | constructor | constructor | cbn; lia ]. }
  destruct (InsertPacket_Ok this1 rec1 r Hok1 Hr) as (this2 & rec2 & -> & Hok2). rewrite bind_Ok.
  destruct (AttemptRecovery_Ok this2 rec2 Hok2) as (this' & rec' & n & -> & _ & Hset & Hok').
  by exists this', rec', n.
Qed.

End Stream.

(** ** Theorems *)

(** The calls a receiver makes for the packets [rs], with the list it keeps. *)
Fixpoint decode_all `{CheckMode} `{FecHeaderReader} (this : FecDecoder) (rec : list RecoveredPacket)
    (rs : list ReceivedPacket) : outcome (FecDecoder * list RecoveredPacket) :=
  match rs with
  | [] => Ok (this, rec)
  | r :: rs => '(this, rec, _) ← DecodeFec this r rec; decode_all this rec rs
  end.


(** C20. [AttemptRecovery] refines peeling: it ends, for every decoder state
    reachable on a stream, without running out of turns; it is a sequence of
    steps that drop a FEC packet or use one to rebuild the packet it misses,
    the returned count is the number of packets rebuilt, and at the end no FEC
    packet is left that could be used. *)
Theorem AttemptRecovery_refines (mode : CheckMode) (reader : FecHeaderReader) ssrc media_ssrc sent this rec :
  stream_ok media_ssrc sent -> 0 <= reader_MaxMediaPackets -> decoder_ok ssrc media_ssrc sent this rec ->
  exists this' rec' n, AttemptRecovery this rec = Ok (this', rec', n) /\
    peels media_ssrc sent n (received_fec_packets_ this, rec) (received_fec_packets_ this', rec') /\
    Forall (settled rec') (received_fec_packets_ this').
Proof.
  intros Hstream Hmax Hok.
  destruct (AttemptRecovery_Ok ssrc media_ssrc sent Hstream Hmax this rec Hok) as (this' & rec' & n & HA & Hp & Hs & _).
  by exists this', rec', n.
Qed.
