(* ===== verification/RtpFecComplete.v ===== *)
(** * The decoder recovers everything that can be recovered

    A block of media packets and the FEC packets over it arrive in any order,
    with losses and duplicates. This file shows that what the decoder ends up
    with does not depend on the order: it is exactly what can be derived from
    the packets received by rebuilding, again and again, the one packet a FEC
    packet misses. *)
From S2P Require Import Prelude.
From S2P Require Import Ascending.
From S2P Require Import SeqNum.
From S2P Require Import RtpFecCodec.
From S2P Require Import RtpFecAlgebra.
From S2P Require Import RtpFecDecoder.
From S2P Require Import RtpFecSound.
From stdpp Require Import base list list_numbers numbers option tactics relations.
From Stdlib Require Import ZArith Lia Sorted.

#[local] Open Scope Z_scope.

(** ** Distances from a base *)

Definition off (base seq : Z) : Z := u16 (seq - base).

Lemma off_range base seq : 0 <= off base seq < 2 ^ 16.
Proof. apply u16_range. Qed.

Lemma off_seq base seq : 0 <= seq < 2 ^ 16 -> seq = u16 (base + off base seq).
Proof. intros Hs. unfold off, u16. Z.to_euclidean_division_equations. lia. Qed.

Lemma off_inj base a b : 0 <= a < 2 ^ 16 -> 0 <= b < 2 ^ 16 -> off base a = off base b -> a = b.
Proof. intros Ha Hb He. rewrite (off_seq base a), (off_seq base b), He by done. done. Qed.

Lemma newer_off base a b :
  0 <= a < 2 ^ 16 -> 0 <= b < 2 ^ 16 -> off base a < 2 ^ 15 -> off base b < 2 ^ 15 ->
  IsNewerSequenceNumber a b = (off base b <? off base a).
Proof.
  intros Ha Hb Ho Ho'. pose proof (off_range base a). pose proof (off_range base b).
  rewrite (off_seq base a), (off_seq base b) at 1 by done. apply newer_offsets; lia.
Qed.

Lemma MinDiff_off base a b :
  0 <= a < 2 ^ 16 -> 0 <= b < 2 ^ 16 -> MinDiff a b <= Z.abs (off base a - off base b).
Proof.
  intros Ha Hb. rewrite (off_seq base a), (off_seq base b) at 1 by done.
  pose proof (off_range base a). pose proof (off_range base b). set (x := off base a) in *. set (y := off base b) in *.
  unfold MinDiff. destruct (Z.le_gt_cases x y).
  - etransitivity; [ apply Z.le_min_l |]. unfold u16. rewrite <- Zminus_mod.
    replace (base + y - (base + x)) with (y - x) by lia. rewrite Z.mod_small; lia.
  - etransitivity; [ apply Z.le_min_r |]. unfold u16. rewrite <- Zminus_mod.
    replace (base + x - (base + y)) with (x - y) by lia. rewrite Z.mod_small; lia.
Qed.

(** ** Sorting *)

Lemma sort_insert_sorted {A} (less : A -> A -> bool) (key : A -> Z) x l :
  (forall y, y ∈ l -> less y x = (key y <? key x)) -> key x ∉ map key l ->
  StronglySorted Z.lt (map key l) -> StronglySorted Z.lt (map key (sort_insert less x l)).
Proof.
  induction l as [| y l IH ]; intros Hless Hx Hs; cbn [sort_insert map]; [ repeat constructor |].
  cbn [map] in Hx, Hs. apply not_elem_of_cons in Hx as [Hne Hx]. inversion Hs as [| ? ? Hs' Hy ]; subst.
  rewrite (Hless y) by apply list_elem_of_here. destruct (Z.ltb_spec (key y) (key x)) as [Hlt | Hge]; cbn [map].
  - constructor; [ apply IH; [ intros z Hz; apply Hless; by right | done | done ] |].
    rewrite sort_insert_perm. cbn [map]. by constructor.
  - constructor; [ by constructor |]. constructor; [ lia |]. eapply list.Forall_impl; [ exact Hy |]. cbn. lia.
Qed.

Lemma foldr_sorted {A} (less : A -> A -> bool) (key : A -> Z) l :
  (forall x y, x ∈ l -> y ∈ l -> less x y = (key x <? key y)) -> NoDup (map key l) ->
  StronglySorted Z.lt (map key (foldr (sort_insert less) [] l)).
Proof.
  induction l as [| x l IH ]; intros Hless Hnd; [ constructor |]. cbn [map] in Hnd. apply NoDup_cons in Hnd as [Hx Hnd].
  cbn [foldr]. apply sort_insert_sorted.
  - intros y Hy. rewrite sorted_perm in Hy. apply Hless; [ by right | apply list_elem_of_here ].
  - by rewrite sorted_perm.
  - apply IH; [| done ]. intros a b Ha Hb. apply Hless; by right.
Qed.

(** ** What the decoder knows of a set of packets *)

Definition view (have s : list (list Z)) : list ProtectedPacket :=
  map (fun m => if decide (m ∈ have) then arrived m else missing m) s.

Lemma view_ext have have' s : (forall m, m ∈ s -> m ∈ have <-> m ∈ have') -> view have s = view have' s.
Proof.
  intros He. apply map_ext_in. intros m Hm%list_elem_of_In. specialize (He m Hm).
  destruct (decide (m ∈ have)), (decide (m ∈ have')); tauto.
Qed.

Lemma view_status have s : Forall2 status (view have s) s.
Proof.
  induction s as [| m s IH ]; [ constructor |]. cbn [view map]. constructor; [| done ]. case_decide; [ by right | by left ].
Qed.

Lemma view_missing have s : nmissing (view have s) = length (filter (fun m => m ∉ have) s).
Proof.
  unfold nmissing. induction s as [| m s IH ]; [ done |]. cbn [view map]. rewrite !filter_cons. fold (view have s).
  destruct (decide (m ∈ have)) as [Hm | Hm].
  - rewrite decide_False by done. by rewrite decide_False by tauto.
  - rewrite decide_True by done. rewrite decide_True by done. cbn [length]. by rewrite IH.
Qed.

Lemma view_complete have s : nmissing (view have s) = 0%nat -> Forall (fun m => m ∈ have) s.
Proof.
  rewrite view_missing. intros H0. apply list.Forall_forall. intros m Hm. apply length_zero_iff_nil in H0.
  destruct (decide (m ∈ have)) as [| Hn]; [ done |].
  assert (Hf : m ∈ filter (fun m => m ∉ have) s) by (by apply list_elem_of_filter).
  rewrite H0 in Hf. by apply not_elem_of_nil in Hf.
Qed.

Section Block.
Context `{CheckMode} `{FecHeaderReader} (ssrc media_ssrc : Z) (sent : list Z -> Prop).
Hypothesis Hstream : stream_ok media_ssrc sent.

Lemma view_all have s s' : view have s = map arrived s' -> Forall (fun m => m ∈ have) s.
Proof.
  revert s'. induction s as [| x s IH ]; intros [| y s' ] He; try done. cbn [view map] in He.
  injection He as Hx Hrest. constructor; [| by eapply IH ]. by destruct (decide (x ∈ have)).
Qed.

Lemma view_one have s : forall s1 m s2,
  Forall sent s -> sent m -> view have s = map arrived s1 ++ missing m :: map arrived s2 ->
  (m ∈ s) /\ (m ∉ have) /\ forall m', m' ∈ s -> m' <> m -> m' ∈ have.
Proof.
  induction s as [| x s IH ]; intros [| y s1 ] m s2 Hs Hm He; try done; cbn [view map app] in He; injection He as Hx Hrest;
    apply Forall_cons_1 in Hs as [Hsx Hs].
  - destruct (decide (x ∈ have)) as [| Hout ]; [ done |].
    assert (x = m) as -> by (apply Hstream; [ done | done |]; unfold missing in Hx; by injection Hx).
    split_and!; [ apply list_elem_of_here | done |]. intros m' [-> | Hm']%elem_of_cons Hne; [ done |].
    exact (proj1 (list.Forall_forall _ _) (view_all _ _ _ Hrest) m' Hm').
  - destruct (decide (x ∈ have)) as [Hin |]; [| done ]. destruct (IH s1 m s2 Hs Hm Hrest) as (Hms & Hout & Hall).
    split_and!; [ by right | done |]. intros m' [-> | Hm']%elem_of_cons Hne; [ done | by apply Hall ].
Qed.

Lemma mark_view have s m :
  Forall sent s -> sent m -> mark (seq_of m) m (view have s) = view (m :: have) s.
Proof.
  intros Hs Hm. unfold mark, view. rewrite map_map. apply map_ext_in. intros m' Hm'%list_elem_of_In.
  pose proof (proj1 (list.Forall_forall _ _) Hs m' Hm') as Hsent. cbv beta.
  replace (pp_seq_num (if decide (m' ∈ have) then arrived m' else missing m')) with (seq_of m') by (by case_decide).
  destruct (Z.eqb_spec (seq_of m') (seq_of m)) as [He | Hne].
  - assert (m' = m) as -> by (by apply Hstream). rewrite (decide_True (P := m ∈ m :: have)) by apply list_elem_of_here.
    by case_decide.
  - assert (Hne' : m' <> m) by congruence. destruct (decide (m' ∈ have)) as [Hin | Hout].
    + by rewrite decide_True by (by right).
    + by rewrite decide_False by (by rewrite elem_of_cons; intros [? | ?]).
Qed.

(** ** The window *)

Context (base W : Z).
Hypothesis Hwindow : forall m, sent m -> off base (seq_of m) < W.
Hypothesis Hnarrow : W <= 2 ^ 15.

Definition key (m : list Z) : Z := off base (seq_of m).

Lemma sent_range m : sent m -> 0 <= seq_of m < 2 ^ 16.
Proof. intros Hm. by apply seq_of_range, Hstream. Qed.

Lemma key_inj m m' : sent m -> sent m' -> key m = key m' -> m = m'.
Proof.
  intros Hm Hm' He. apply Hstream; [ done | done |]. by apply (off_inj base); [ apply sent_range.. |].
Qed.

Lemma newer_key m m' : sent m -> sent m' -> IsNewerSequenceNumber (seq_of m) (seq_of m') = (key m' <? key m).
Proof.
  intros Hm Hm'. pose proof (Hwindow m Hm). pose proof (Hwindow m' Hm').
  apply newer_off; first [ by apply sent_range | lia ].
Qed.

(** The sets FEC packets protect are in the order of the window. *)
Definition ascending (s : list (list Z)) : Prop := StronglySorted Z.lt (map key s).

(** [AssignRecoveredPackets] finds all that is there. *)
Lemma assign_view rs : forall s,
  Forall (rc_ok media_ssrc sent) rs -> ascending (map rc_pkt rs) -> Forall sent s -> ascending s ->
  AssignRecoveredPackets (map missing s) rs = Ok (view (map rc_pkt rs) s).
Proof.
  induction rs as [| r rs IHrs ].
  { intros s _ _ _ _. by rewrite assign_nil_r. }
  induction s as [| m s IHs ]; intros Hrs Hars Hs Has; [ done |].
  pose proof Hrs as Hrs0. apply Forall_cons_1 in Hrs as [(Hr & Hseq & Hssrc) Hrs].
  pose proof Hs as Hs0. apply Forall_cons_1 in Hs as [Hm Hs].
  destruct (proj1 Hstream m Hm) as [_ Hms]. unfold ascending in Hars, Has. cbn [map] in Hars, Has.
  pose proof Hars as Hars0. pose proof Has as Has0.
  apply StronglySorted_inv in Hars as [Hars' Hrlt]. apply StronglySorted_inv in Has as [Has' Hmlt].
  cbn [map]. rewrite assign_cons, !LessThan_Ok, !bind_Ok by (cbn; congruence). cbn [fst snd pp_key rc_key missing pp_seq_num].
  rewrite Hseq, !newer_key by done.
  assert (Hbelow : forall m' l, Forall (Z.lt (key m')) (map key l) -> m' ∉ l).
  { intros m' l Hl Hin. apply (list_elem_of_fmap_2 key) in Hin. pose proof (proj1 (list.Forall_forall _ _) Hl _ Hin). lia. }
  assert (Hbelow' : forall m' m'' l, key m' < key m'' -> Forall (Z.lt (key m'')) (map key l) -> m' ∉ m'' :: l).
  { intros m' m'' l Hlt Hl. apply Hbelow. cbn [map]. constructor; [ done |]. eapply list.Forall_impl; [ exact Hl |]. cbn. lia. }
  destruct (Z.ltb_spec (key m) (key (rc_pkt r))) as [Hlt | Hge].
  { rewrite IHs, bind_Ok by done. unfold view. cbn [map]. rewrite (decide_False (P := m ∈ _)); [ done |]. by apply Hbelow'. }
  destruct (Z.ltb_spec (key (rc_pkt r)) (key m)) as [Hlt' | Hge'].
  { change (missing m :: map missing s) with (map missing (m :: s)). rewrite IHrs by done. f_equal. apply view_ext.
    intros m' Hm'. rewrite elem_of_cons. split; [ by right |]. intros [-> |]; [| done ]. by destruct (Hbelow' _ _ _ Hlt' Hmlt). }
  assert (m = rc_pkt r) as -> by (apply key_inj; [ done | done | lia ]).
  rewrite IHrs, bind_Ok by done. unfold view. cbn [map]. rewrite (decide_True (P := rc_pkt r ∈ _)) by apply list_elem_of_here.
  f_equal. f_equal. apply view_ext. intros m' Hm'. rewrite elem_of_cons. split; [ by right |]. intros [-> |]; [| done ].
  by destruct (Hbelow _ _ Hmlt).
Qed.

Lemma over_ascending h d s : over sent h d s -> ascending s.
Proof.
  intros Ho. destruct (over_spread _ _ _ _ Ho) as (b & gs & Hspread). pose proof (over_sent _ _ _ _ Ho) as Hs.
  apply sorted_intro. intros j k x y Hjk Hx Hy. rewrite list_lookup_fmap in Hx, Hy.
  destruct (s !! j) as [m |] eqn:Ej; [| done ]. destruct (s !! k) as [m' |] eqn:Ek; [| done ]. injection Hx as <-. injection Hy as <-.
  pose proof (spread_partition b gs s k m' Hspread Ek j m Ej) as Hb. rewrite bool_decide_true in Hb by done.
  rewrite newer_key in Hb by (eapply (Forall_lookup_1 _ _ _ _ Hs); done). lia.
Qed.

Lemma insert_sorted rec r rec' :
  Forall (rc_ok media_ssrc sent) rec -> rc_ok media_ssrc sent r -> ascending (map rc_pkt rec) -> rc_pkt r ∉ map rc_pkt rec ->
  list_sort rc_key (rec ++ [r]) = Ok rec' -> rec' ≡ₚ rec ++ [r] /\ ascending (map rc_pkt rec').
Proof.
  intros Hrec Hr Has Hnew Hsort.
  assert (Hall : Forall (rc_ok media_ssrc sent) (rec ++ [r])) by (apply Forall_app; split; [ done | by constructor ]).
  unfold list_sort in Hsort. apply bind_Ok_inv in Hsort as ([] & _ & [= <-]). split; [ apply sorted_perm |].
  unfold ascending. rewrite map_map. apply foldr_sorted.
  - intros x y Hx Hy. destruct (proj1 (list.Forall_forall _ _) Hall x Hx) as (Hsx & Hqx & _).
    destruct (proj1 (list.Forall_forall _ _) Hall y Hy) as (Hsy & Hqy & _). cbn [rc_key snd]. rewrite Hqx, Hqy. by apply newer_key.
  - rewrite <- (map_map rc_pkt key), map_app, map_app. apply NoDup_app. split_and!; [ by apply sorted_nodup | | apply NoDup_singleton ].
    intros k Hk Hk'. apply list_elem_of_singleton in Hk' as ->. apply list_elem_of_fmap in Hk as (m & He & Hm).
    apply Hnew. apply list_elem_of_fmap in Hm as (x & -> & Hx).
    destruct (proj1 (list.Forall_forall _ _) Hrec x Hx) as (Hsx & _ & _).
    rewrite (key_inj (rc_pkt r) (rc_pkt x)) by (done || apply Hr). by apply list_elem_of_fmap_2.
Qed.

Hypothesis HW : 0 <= W <= reader_MaxMediaPackets.

Lemma window_length rec :
  Forall (rc_ok media_ssrc sent) rec -> ascending (map rc_pkt rec) -> Z.of_nat (length rec) <= W.
Proof.
  intros Hrec Has. replace (length rec) with (length (map key (map rc_pkt rec))) by (by rewrite !length_map).
  apply sorted_length; [ done | lia |]. apply Forall_map, Forall_map. eapply list.Forall_impl; [ exact Hrec |].
  intros r (Hr & _). cbn. split; [ apply off_range | by apply Hwindow ].
Qed.

Lemma Discard_none rec : Z.of_nat (length rec) <= reader_MaxMediaPackets -> DiscardOldRecoveredPackets rec = rec.
Proof. intros Hl. destruct rec; [ done |]. cbn [DiscardOldRecoveredPackets]. by rewrite (proj2 (Z.ltb_ge _ _)). Qed.

(** ** What can be derived, and what the decoder has derived *)

(** The packets FEC packet [seq] protects. *)
Context (cov : Z -> list (list Z)).

Inductive derivable (rs : list ReceivedPacket) : list Z -> Prop :=
| derive_received r : r ∈ rs -> rp_is_fec r = false -> derivable rs (rp_pkt r)
| derive_rebuilt r m :
    r ∈ rs -> rp_is_fec r = true -> m ∈ cov (rp_seq_num r) ->
    (forall m', m' ∈ cov (rp_seq_num r) -> m' <> m -> derivable rs m') -> derivable rs m.

Lemma derivable_mono rs rs' m : (forall r, r ∈ rs -> r ∈ rs') -> derivable rs m -> derivable rs' m.
Proof.
  intros Hsub. induction 1 as [ r Hr Hm | r m Hr Hf Hm _ IH ].
  - by apply derive_received; [ apply Hsub |].
  - by eapply derive_rebuilt; [ apply Hsub, Hr | ..].
Qed.

(** The stored FEC packets know of every packet in the list; FEC packets that
    are gone have nothing left to tell. *)
Record coherent (rs : list ReceivedPacket) (st : list ReceivedFecPacket * list RecoveredPacket) : Prop := {
  co_rec : Forall (rc_ok media_ssrc sent) st.2;
  co_sorted : ascending (map rc_pkt st.2);
  co_fecs : Forall (fun f =>
    fec_ok ssrc sent f (cov (rf_seq_num f)) /\
    protected_packets f = view (map rc_pkt st.2) (cov (rf_seq_num f)) /\
    exists r, r ∈ rs /\ rp_is_fec r = true /\ rp_seq_num r = rf_seq_num f) st.1;
  co_nodup : NoDup (map rf_seq_num st.1);
  co_media : forall r, r ∈ rs -> rp_is_fec r = false -> rp_pkt r ∈ map rc_pkt st.2;
  co_known : forall r, r ∈ rs -> rp_is_fec r = true ->
    rp_seq_num r ∈ map rf_seq_num st.1 \/ Forall (fun m => m ∈ map rc_pkt st.2) (cov (rp_seq_num r));
  co_derived : forall m, m ∈ map rc_pkt st.2 -> derivable rs m
}.

(** A FEC packet all of whose packets are there may go. *)
Lemma forget rs a f b rec :
  coherent rs (a ++ f :: b, rec) -> Forall (fun m => m ∈ map rc_pkt rec) (cov (rf_seq_num f)) -> coherent rs (a ++ b, rec).
Proof.
  intros [Hrec Hs Hfs Hnd Hmed Hkn Hder] Hall. cbn [fst snd] in *.
  split; cbn [fst snd]; try done.
  - apply Forall_app in Hfs as [Ha Hb]. apply Forall_cons_1 in Hb as [_ Hb]. by apply Forall_app.
  - rewrite map_app in Hnd |- *. cbn [map] in Hnd. rewrite <- Permutation_middle in Hnd. by apply NoDup_cons in Hnd as [_ ?].
  - intros r Hr Hf. destruct (Hkn r Hr Hf) as [Hin | Hc]; [| by right ].
    rewrite map_app in Hin |- *. cbn [map] in Hin. rewrite elem_of_app, elem_of_cons in Hin. rewrite elem_of_app.
    destruct Hin as [Hin | [He | Hin]]; [ by left; left | right; by rewrite He | by left; right ].
Qed.

(** A new packet joins the list. *)
Lemma learn rs rs' fecs rec r rec' :
  coherent rs (fecs, rec) -> (forall x, x ∈ rs -> x ∈ rs') ->
  (forall x, x ∈ rs' -> x ∈ rs \/ rp_is_fec x = false /\ rp_pkt x = rc_pkt r) ->
  rc_ok media_ssrc sent r -> rc_pkt r ∉ map rc_pkt rec -> derivable rs' (rc_pkt r) ->
  list_sort rc_key (rec ++ [r]) = Ok rec' -> coherent rs' (map (marked r) fecs, rec').
Proof.
  intros [Hrec Hs Hfs Hnd Hmed Hkn Hder] Hsub Hsub' Hr Hnew Hdr Hsort. cbn [fst snd] in *.
  destruct (insert_sorted rec r rec' Hrec Hr Hs Hnew Hsort) as [Hperm Hs'].
  assert (Hin : forall m, m ∈ map rc_pkt rec' <-> m ∈ rc_pkt r :: map rc_pkt rec).
  { intros m. rewrite Hperm, map_app, elem_of_app, elem_of_cons. cbn [map]. rewrite list_elem_of_singleton. tauto. }
  assert (Hseqs : map rf_seq_num (map (marked r) fecs) = map rf_seq_num fecs) by (by rewrite map_map).
  split; cbn [fst snd]; rewrite ?Hseqs; try done.
  - rewrite Hperm. apply Forall_app. split; [ done | by constructor ].
  - apply Forall_map. eapply list.Forall_impl; [ exact Hfs |]. intros f (Hf & Hv & x & Hx & Hxf & Hxs).
    change (rf_seq_num (marked r f)) with (rf_seq_num f). split; [ by apply (fec_ok_mark ssrc media_ssrc) |]. split.
    + cbn [marked protected_packets set_protected]. rewrite Hv. destruct Hr as (Hsent & Hseq & _). rewrite Hseq, mark_view; [| | done ].
      * apply view_ext. intros m _. by rewrite Hin.
      * destruct Hf as (Ho & _). exact (over_sent _ _ _ _ Ho).
    + exists x. split; [ by apply Hsub | done ].
  - intros x Hx Hxf. rewrite Hin. destruct (Hsub' x Hx) as [Hx' | [_ He]]; [ right; by apply Hmed |]. rewrite He. apply list_elem_of_here.
  - intros x Hx Hxf. destruct (Hsub' x Hx) as [Hx' | [Hc _]]; [| congruence ]. destruct (Hkn x Hx' Hxf) as [? | Hall]; [ by left |].
    right. eapply list.Forall_impl; [ exact Hall |]. intros m Hm. apply Hin. by right.
  - intros m. rewrite Hin, elem_of_cons. intros [-> | Hm]; [ done |]. eapply derivable_mono; [ exact Hsub | by apply Hder ].
Qed.

Hypothesis Hyoung : W <= kOldSequenceThreshold.

(** Inside the window no FEC packet is old. *)
Lemma never_old f s rec : Forall (rc_ok media_ssrc sent) rec -> fec_ok ssrc sent f s -> IsOldFecPacket f rec <> Ok true.
Proof.
  intros Hrec (Ho & _ & Hst). unfold IsOldFecPacket. destruct (list.last rec) as [back |] eqn:Eb; [| done ].
  destruct (list.last (protected_packets f)) as [p |] eqn:Ep; [| done ]. intros [= Hlt%Z.ltb_lt].
  apply last_Some_elem_of in Eb. destruct (proj1 (list.Forall_forall _ _) Hrec back Eb) as (Hback & Hseq & _).
  rewrite last_lookup in Ep. destruct (status_lookup _ _ _ _ Hst Ep) as (m & Hm & Hpm). apply list_elem_of_lookup_2 in Hm.
  pose proof (proj1 (list.Forall_forall _ _) (over_sent _ _ _ _ Ho) m Hm) as Hsent. rewrite Hseq, (proj2 (status_key p m Hpm)) in Hlt.
  pose proof (MinDiff_off base (seq_of (rc_pkt back)) (seq_of m) (sent_range _ Hback) (sent_range _ Hsent)).
  pose proof (Hwindow _ Hback). pose proof (Hwindow _ Hsent).
  pose proof (off_range base (seq_of (rc_pkt back))). pose proof (off_range base (seq_of m)). lia.
Qed.

Lemma use_coherent rs st st' : use_step media_ssrc sent st st' -> coherent rs st -> coherent rs st'.
Proof.
  intros [a f b rec s1 m s2 rec' r Hps Hm Hsort] Hco. pose proof Hco as [Hrec _ Hfs _ _ _ Hder]. cbn [fst snd] in *.
  apply Forall_app in Hfs as [_ Hfs]. apply Forall_cons_1 in Hfs as [(Hf & Hv & x & Hx & Hxf & Hxs) _].
  rewrite Hv in Hps. pose proof (over_sent _ _ _ _ (proj1 Hf)) as Hcov.
  destruct (view_one _ _ s1 m s2 Hcov Hm Hps) as (Hin & Hout & Hothers).
  assert (Hr : rc_ok media_ssrc sent r) by (by split_and!).
  assert (Hdm : derivable rs m).
  { eapply derive_rebuilt; [ exact Hx | exact Hxf | by rewrite Hxs |]. rewrite Hxs. intros m' Hm' Hne. by apply Hder, Hothers. }
  pose proof (learn rs rs _ rec r rec' Hco (fun x Hx => Hx) (fun x Hx => or_introl Hx) Hr Hout Hdm Hsort) as Hco'.
  pose proof Hco' as [Hrec' Hs' _ _ _ _ _]. cbn [fst snd] in Hrec', Hs'.
  rewrite Discard_none by (pose proof (window_length rec' Hrec' Hs'); lia).
  rewrite map_app in Hco'. cbn [map] in Hco'. rewrite map_app. eapply forget; [ exact Hco' |].
  destruct (insert_sorted rec r rec') as [Hperm _]; try done; [ apply Hco |].
  apply list.Forall_forall. intros m' Hm'. change (rf_seq_num (marked r f)) with (rf_seq_num f) in Hm'.
  rewrite Hperm, map_app, elem_of_app. destruct (decide (m' = m)) as [-> | Hne]; [ right; apply list_elem_of_here |].
  left. by apply Hothers.
Qed.

Lemma peels_coherent rs n st st' : peels media_ssrc sent n st st' -> coherent rs st -> coherent rs st'.
Proof.
  induction 1 as [| n st st1 st2 Hd _ IH | n st st1 st2 Hu _ IH ]; intros Hco; [ done | |].
  - apply IH. destruct Hd as [a f b rec Hz | a f b rec _ Hold].
    + eapply forget; [ exact Hco |]. destruct Hco as [_ _ Hfs _ _ _ _]. cbn [fst snd] in Hfs.
      apply Forall_app in Hfs as [_ Hfs]. apply Forall_cons_1 in Hfs as [(_ & Hv & _) _]. rewrite Hv in Hz. by apply view_complete.
    + exfalso. destruct Hco as [Hrec _ Hfs _ _ _ _]. cbn [fst snd] in Hrec, Hfs.
      apply Forall_app in Hfs as [_ Hfs]. apply Forall_cons_1 in Hfs as [(Hf & _) _]. by eapply never_old.
  - apply IH. by eapply use_coherent.
Qed.

(** When no FEC packet can be used any more, nothing more can be derived. *)
Lemma settled_closed rs fecs rec m :
  coherent rs (fecs, rec) -> Forall (settled rec) fecs -> derivable rs m -> m ∈ map rc_pkt rec.
Proof.
  intros [Hrec Hs Hfs Hnd Hmed Hkn Hder] Hset. cbn [fst snd] in *.
  induction 1 as [ r Hr Hf | r m Hr Hf Hm _ IH ]; [ by apply Hmed |].
  destruct (Hkn r Hr Hf) as [Hin | Hall]; [| exact (proj1 (list.Forall_forall _ _) Hall m Hm) ].
  apply list_elem_of_fmap in Hin as (f & He & Hfin). pose proof (proj1 (list.Forall_forall _ _) Hset f Hfin) as [H1 _].
  destruct (proj1 (list.Forall_forall _ _) Hfs f Hfin) as ((Ho & _) & Hv & _). rewrite Hv, view_missing, <- He in H1.
  destruct (decide (m ∈ map rc_pkt rec)) as [| Hout ]; [ done |]. exfalso.
  assert (Hndc : NoDup (filter (fun m => m ∉ map rc_pkt rec) (cov (rp_seq_num r)))).
  { apply NoDup_filter. rewrite He. apply over_ascending, sorted_nodup in Ho. by eapply NoDup_fmap_1. }
  assert (Honly : forall x, x ∈ filter (fun m => m ∉ map rc_pkt rec) (cov (rp_seq_num r)) -> x = m).
  { intros x [Hx Hxc]%list_elem_of_filter. destruct (decide (x = m)) as [| Hne ]; [ done |]. by destruct Hx; apply IH. }
  destruct (filter _ _) as [| x [| y l ]]; cbn [length] in H1; try lia.
  assert (x = y) as -> by (rewrite (Honly x), (Honly y); [ done | right; apply list_elem_of_here | apply list_elem_of_here ]).
  apply NoDup_cons in Hndc as [Hc _]. apply Hc, list_elem_of_here.
Qed.

(** ** Packets of the block *)

(** FEC packets are numbered from [fbase] on. If they share the numbers of the
    media stream they follow the block. *)
Context (fbase V : Z).
Hypothesis HV : 0 <= V <= reader_MaxFecPackets /\ V <= kOldSequenceThreshold.
Hypothesis Hshared : ssrc = media_ssrc ->
  fbase = u16 (base + W) /\ V <= reader_MaxMediaPackets /\ W + V <= kOldSequenceThreshold.

Definition of_block (r : ReceivedPacket) : Prop :=
  if rp_is_fec r
  then genuine_fec ssrc media_ssrc sent r (cov (rp_seq_num r)) /\ 0 <= rp_seq_num r < 2 ^ 16 /\ off fbase (rp_seq_num r) < V
  else genuine_media media_ssrc sent r.

Definition fec_number (seq : Z) : Prop := 0 <= seq < 2 ^ 16 /\ off fbase seq < V.

Lemma shared_off seq : ssrc = media_ssrc -> fec_number seq -> off base seq = W + off fbase seq.
Proof.
  intros Hsh [Hs Hv]. destruct (Hshared Hsh) as (Hf & _ & Hle). unfold kOldSequenceThreshold in Hle.
  pose proof (off_range fbase seq) as Hr. revert Hv Hr. rewrite Hf. unfold off, u16. intros Hv Hr.
  rewrite Zminus_mod_idemp_r in Hv, Hr |- *. rewrite <- (Z.mod_small (W + _) (2 ^ 16)) by lia.
  rewrite Zplus_mod_idemp_r. f_equal. lia.
Qed.

Lemma stored_numbers rs fecs rec :
  coherent rs (fecs, rec) -> Forall of_block rs -> Forall (fun f => rf_ssrc f = ssrc /\ fec_number (rf_seq_num f)) fecs.
Proof.
  intros [_ _ Hfs _ _ _ _] Hrs. eapply list.Forall_impl; [ exact Hfs |]. intros f (Hf & _ & r & Hr & Hfec & <-). cbn [fst] in *.
  split; [ apply Hf |]. pose proof (proj1 (list.Forall_forall _ _) Hrs r Hr) as Hb. unfold of_block in Hb. rewrite Hfec in Hb. apply Hb.
Qed.

Lemma few_fecs fecs :
  Forall (fun f => fec_number (rf_seq_num f)) fecs -> NoDup (map rf_seq_num fecs) -> Z.of_nat (length fecs) <= reader_MaxFecPackets.
Proof.
  intros Hn Hnd. set (offs := map (off fbase) (map rf_seq_num fecs)).
  assert (Hlen : length offs = length fecs) by (unfold offs; by rewrite !length_map).
  assert (Hnd' : NoDup offs).
  { apply NoDup_fmap_2_strong; [| done ]. intros x y (f & -> & Hf)%list_elem_of_fmap (f' & -> & Hf')%list_elem_of_fmap He.
    destruct (proj1 (list.Forall_forall _ _) Hn f Hf), (proj1 (list.Forall_forall _ _) Hn f' Hf'). by apply (off_inj fbase). }
  assert (Hin : incl offs (seqZ 0 V)).
  { intros x Hx. apply list_elem_of_In in Hx. apply list_elem_of_fmap in Hx as (q & -> & Hq).
    apply list_elem_of_fmap in Hq as (f & -> & Hf). destruct (proj1 (list.Forall_forall _ _) Hn f Hf).
    apply list_elem_of_In, elem_of_seqZ. pose proof (off_range fbase (rf_seq_num f)). lia. }
  apply NoDup_ListNoDup in Hnd'. pose proof (NoDup_incl_length Hnd' Hin) as Hle. rewrite length_seqZ in Hle. lia.
Qed.

Lemma erase_none seq fs : Forall (fun f => MinDiff seq (rf_seq_num f) <= kOldSequenceThreshold) fs -> erase_old seq fs = fs.
Proof. destruct 1 as [| f fs Hf _ ]; [ done |]. cbn [erase_old]. by rewrite (proj2 (Z.ltb_ge _ _)). Qed.

Lemma near_fecs rs fecs rec r :
  coherent rs (fecs, rec) -> Forall of_block rs -> of_block r -> rp_ssrc r = ssrc ->
  Forall (fun f => MinDiff (rp_seq_num r) (rf_seq_num f) <= kOldSequenceThreshold) fecs.
Proof.
  intros Hco Hrs Hr Hs. eapply list.Forall_impl; [ exact (stored_numbers rs fecs rec Hco Hrs) |]. intros f (_ & Hn & Hv). cbv beta.
  pose proof (off_range fbase (rf_seq_num f)). unfold of_block in Hr. destruct (rp_is_fec r).
  - destruct Hr as (_ & Hq & Hqv). pose proof (off_range fbase (rp_seq_num r)).
    pose proof (MinDiff_off fbase (rp_seq_num r) (rf_seq_num f) Hq Hn). lia.
  - destruct Hr as (Hsent & Hq & Hm). assert (Hsh : ssrc = media_ssrc) by congruence.
    destruct (Hshared Hsh) as (_ & _ & Hle). pose proof (sent_range _ Hsent) as Hqr. rewrite <- Hq in Hqr.
    pose proof (MinDiff_off base (rp_seq_num r) (rf_seq_num f) Hqr Hn) as Hd.
    rewrite (shared_off (rf_seq_num f) Hsh (conj Hn Hv)), Hq in Hd.
    pose proof (Hwindow _ Hsent). pose proof (off_range base (seq_of (rp_pkt r))). rewrite Hq. lia.
Qed.

(** A packet that tells nothing new. *)
Lemma known_again rs r fecs rec :
  coherent rs (fecs, rec) ->
  (if rp_is_fec r then rp_seq_num r ∈ map rf_seq_num fecs else rp_pkt r ∈ map rc_pkt rec) -> coherent (r :: rs) (fecs, rec).
Proof.
  intros [Hrec Hs Hfs Hnd Hmed Hkn Hder] Hin. cbn [fst snd] in *. split; cbn [fst snd]; try done.
  - eapply list.Forall_impl; [ exact Hfs |]. intros f (Hf & Hv & x & Hx & Hxf). split_and!; [ done | done |].
    exists x. split; [ by right | done ].
  - intros x [-> | Hx]%elem_of_cons Hxf; [ by rewrite Hxf in Hin | by apply Hmed ].
  - intros x [-> | Hx]%elem_of_cons Hxf; [ rewrite Hxf in Hin; by left | by apply Hkn ].
  - intros m Hm. eapply derivable_mono; [| by apply Hder ]. intros x Hx. by right.
Qed.

Lemma media_coherent this rec rs r this' rec' :
  coherent rs (received_fec_packets_ this, rec) -> rp_is_fec r = false -> genuine_media media_ssrc sent r ->
  media_stored this rec r this' rec' -> coherent (r :: rs) (received_fec_packets_ this', rec').
Proof.
  intros Hco Hr (Hsent & Hseq & Hssrc) Hst. pose proof (co_rec _ _ Hco) as Hrec. cbn [snd] in Hrec.
  assert (Hsame : forall x, x ∈ rec -> rc_seq_num x = rp_seq_num r -> rc_pkt x = rp_pkt r).
  { intros x Hx He. destruct (proj1 (list.Forall_forall _ _) Hrec x Hx) as (Hsx & Hqx & _). apply Hstream; congruence. }
  destruct Hst as [(Hin & -> & ->) | (Hout & Hsort & ->)].
  - apply known_again; [ done |]. rewrite Hr. apply list_elem_of_fmap in Hin as (x & He & Hx).
    rewrite <- (Hsame x) by done. by apply list_elem_of_fmap_2.
  - set (r' := mkRecovered false true (rp_ssrc r) (rp_seq_num r) (rp_pkt r)) in *. eapply learn; try done.
    + intros x Hx. by right.
    + intros x [-> | Hx]%elem_of_cons; [ by right | by left ].
    + intros (x & He & Hx)%list_elem_of_fmap. apply Hout. destruct (proj1 (list.Forall_forall _ _) Hrec x Hx) as (_ & Hqx & _).
      rewrite Hseq. change (rc_pkt r') with (rp_pkt r) in He. rewrite He, <- Hqx. by apply list_elem_of_fmap_2.
    + change (rc_pkt r') with (rp_pkt r). apply derive_received; [ apply list_elem_of_here | done ].
Qed.

Lemma fec_coherent this rec rs r this' :
  coherent rs (received_fec_packets_ this, rec) -> Forall of_block rs -> rp_is_fec r = true -> of_block r ->
  fec_stored ssrc sent this rec r (cov (rp_seq_num r)) this' -> coherent (r :: rs) (received_fec_packets_ this', rec).
Proof.
  intros Hco Hrs Hr Hb Hst. pose proof Hb as Hb'. unfold of_block in Hb'. rewrite Hr in Hb'. destruct Hb' as (_ & Hq & Hqv).
  destruct Hst as [(Hin & ->) | (Hout & h & d & ps & fs & Ho & Hps & Hperm & ->)].
  { apply known_again; [ done |]. by rewrite Hr. }
  pose proof (stored_numbers rs _ rec Hco Hrs) as Hnum. pose proof Hco as [Hrec Hs Hfs Hnd Hmed Hkn Hder]. cbn [fst snd] in *.
  rewrite (assign_view rec _ Hrec Hs (over_sent _ _ _ _ Ho) (over_ascending _ _ _ Ho)) in Hps. injection Hps as <-.
  set (f := mkReceivedFec ssrc (rp_seq_num r) h d (view (map rc_pkt rec) (cov (rp_seq_num r)))) in *.
  assert (Hnd' : NoDup (map rf_seq_num fs)).
  { rewrite Hperm, map_app. apply NoDup_app. split_and!; [ done | | apply NoDup_singleton ].
    intros q Hq1 Hq2. apply list_elem_of_singleton in Hq2 as ->. by apply Hout. }
  rewrite (proj2 (Z.ltb_ge _ _)).
  2:{ apply few_fecs; [| done ]. rewrite Hperm. apply Forall_app. split; [| by apply Forall_singleton ].
      eapply list.Forall_impl; [ exact Hnum |]. by intros x [_ Hx]. }
  split; cbn [fst snd]; try done.
  - rewrite Hperm. apply Forall_app. split.
    + eapply list.Forall_impl; [ exact Hfs |]. intros x (Hf & Hv & y & Hy & Hyf). split_and!; [ done | done |].
      exists y. split; [ by right | done ].
    + apply Forall_singleton. split; [| split; [ done | exists r; split; [ apply list_elem_of_here | done ] ] ].
      split; [ done |]. split; [ done | apply view_status ].
  - intros x [-> | Hx]%elem_of_cons Hxf; [ congruence | by apply Hmed ].
  - intros x [-> | Hx]%elem_of_cons Hxf; rewrite Hperm, map_app, elem_of_app; [ left; right; apply list_elem_of_here |].
    destruct (Hkn x Hx Hxf); [ by left; left | by right ].
  - intros m Hm. eapply derivable_mono; [| by apply Hder ]. intros x Hx. by right.
Qed.

Lemma of_block_genuine r : of_block r -> genuine ssrc media_ssrc sent r.
Proof. unfold of_block, genuine. destruct (rp_is_fec r); [| done ]. intros [Hg _]. by exists (cov (rp_seq_num r)). Qed.

Lemma InsertPacket_coherent this rec rs r :
  decoder_ok ssrc media_ssrc sent this rec -> coherent rs (received_fec_packets_ this, rec) ->
  Forall of_block rs -> of_block r ->
  exists this' rec', InsertPacket this r rec = Ok (this', rec') /\ decoder_ok ssrc media_ssrc sent this' rec' /\
    coherent (r :: rs) (received_fec_packets_ this', rec').
Proof.
  intros Hok Hco Hrs Hr. unfold InsertPacket. set (this1 := match received_fec_packets_ this with [] => _ | _ => _ end).
  assert (this1 = this) as ->.
  { unfold this1. pose proof (stored_numbers rs _ rec Hco Hrs) as Hnum. pose proof (near_fecs rs _ rec r Hco Hrs Hr) as Hnear.
    destruct (received_fec_packets_ this) as [| f fs ] eqn:Ef; [ done |]. apply Forall_cons_1 in Hnum as [[Hf _] _].
    destruct (Z.eqb_spec (rp_ssrc r) (rf_ssrc f)) as [He |]; [| done ]. rewrite erase_none by (apply Hnear; congruence).
    rewrite <- Ef. by destruct this. }
  assert (Hins : exists this' rec', (if rp_is_fec r then this ← InsertFecPacket this rec r; Ok (this, rec)
      else InsertMediaPacket this rec r) = Ok (this', rec') /\ decoder_ok ssrc media_ssrc sent this' rec' /\
      coherent (r :: rs) (received_fec_packets_ this', rec')).
  { pose proof Hr as Hb. unfold of_block in Hb. destruct (rp_is_fec r) eqn:Ef.
    - destruct (InsertFecPacket_Ok ssrc media_ssrc sent Hstream this rec r _ Hok (proj1 Hb)) as (this' & -> & Hok' & Hst).
      exists this', rec. split_and!; [ done | done |]. by eapply fec_coherent.
    - destruct (InsertMediaPacket_Ok ssrc media_ssrc sent Hstream this rec r Hok Hb) as (this' & rec' & -> & Hok' & Hst).
      exists this', rec'. split_and!; [ done | done |]. by eapply media_coherent. }
  destruct Hins as (this' & rec' & -> & Hok' & Hco'). rewrite bind_Ok.
  pose proof (window_length rec' (co_rec _ _ Hco') (co_sorted _ _ Hco')). rewrite Discard_none by lia.
  rewrite RTC_DCHECK_Ok, bind_Ok by lia. by exists this', rec'.
Qed.

(** In the window the list is never thrown away. *)
Lemma no_reset this rec rs r :
  coherent rs (received_fec_packets_ this, rec) -> of_block r ->
  DecodeFec this r rec = ('(this, rec) ← InsertPacket this r rec; AttemptRecovery this rec).
Proof.
  intros Hco Hr. unfold DecodeFec. destruct (Z.eqb_spec (Z.of_nat (length rec)) reader_MaxMediaPackets) as [Hfull |]; [| done ].
  destruct (list.last rec) as [back |] eqn:Eb; [| done ]. destruct (Z.eqb_spec (rp_ssrc r) (rc_ssrc back)) as [Hss |]; [| done ].
  pose proof (co_rec _ _ Hco) as Hrec. pose proof (co_sorted _ _ Hco) as Hs. cbn [snd] in Hrec, Hs.
  pose proof (window_length rec Hrec Hs) as Hlen. pose proof Eb as Hin. apply last_Some_elem_of in Hin.
  destruct (proj1 (list.Forall_forall _ _) Hrec back Hin) as (Hsent & Hseq & Hbs). pose proof (Hwindow _ Hsent) as Hbw.
  assert (Hlast : W - 1 <= key (rc_pkt back)).
  { rewrite last_lookup in Eb. destruct (lookup_lt_is_Some_2 rec 0) as [x Hx]; [ apply lookup_lt_Some in Eb; lia |].
    pose proof (sorted_apart _ 0 (Nat.pred (length rec)) (key (rc_pkt x)) (key (rc_pkt back)) Hs) as Hap.
    rewrite !list_lookup_fmap, Hx, Eb in Hap. specialize (Hap eq_refl eq_refl ltac:(lia)).
    pose proof (off_range base (seq_of (rc_pkt x))). unfold key in Hap at 2. lia. }
  rewrite (proj2 (Z.ltb_ge _ _)); [ done |].
  assert (Hback : 0 <= rc_seq_num back < 2 ^ 16) by (rewrite Hseq; by apply sent_range).
  assert (Hrq : 0 <= rp_seq_num r < 2 ^ 16 /\ off base (rp_seq_num r) < W + reader_MaxMediaPackets).
  { unfold of_block in Hr. destruct (rp_is_fec r).
    - destruct Hr as (Hg & Hq & Hv). split; [ done |]. assert (Hsh : ssrc = media_ssrc) by (destruct Hg; congruence).
      destruct (Hshared Hsh) as (_ & ? & _). rewrite shared_off by (done || by split). lia.
    - destruct Hr as (Hsr & -> & _). pose proof (Hwindow _ Hsr). split; [ by apply sent_range | lia ]. }
  destruct Hrq as [Hrq Hro]. pose proof (MinDiff_off base (rp_seq_num r) (rc_seq_num back) Hrq Hback) as Hd.
  pose proof (off_range base (rp_seq_num r)). rewrite Hseq in Hd |- *. unfold key in Hlast. lia.
Qed.

Lemma DecodeFec_coherent this rec rs r :
  decoder_ok ssrc media_ssrc sent this rec -> coherent rs (received_fec_packets_ this, rec) ->
  Forall of_block rs -> of_block r ->
  exists this' rec' n, DecodeFec this r rec = Ok (this', rec', n) /\ decoder_ok ssrc media_ssrc sent this' rec' /\
    coherent (r :: rs) (received_fec_packets_ this', rec') /\ Forall (settled rec') (received_fec_packets_ this').
Proof.
  intros Hok Hco Hrs Hr. rewrite (no_reset this rec rs r Hco Hr).
  destruct (InsertPacket_coherent this rec rs r Hok Hco Hrs Hr) as (this1 & rec1 & -> & Hok1 & Hco1). rewrite bind_Ok.
  destruct (AttemptRecovery_Ok ssrc media_ssrc sent Hstream (Z.le_trans _ _ _ (proj1 HW) (proj2 HW)) this1 rec1 Hok1)
    as (this' & rec' & n & -> & Hp & Hset & Hok'). exists this', rec', n. split_and!; [ done | done | | done ].
  by eapply peels_coherent.
Qed.

Lemma decode_all_coherent rs : forall this rec seen,
  decoder_ok ssrc media_ssrc sent this rec -> coherent seen (received_fec_packets_ this, rec) ->
  Forall (settled rec) (received_fec_packets_ this) -> Forall of_block seen -> Forall of_block rs ->
  exists this' rec', decode_all this rec rs = Ok (this', rec') /\
    coherent (rev rs ++ seen) (received_fec_packets_ this', rec') /\ Forall (settled rec') (received_fec_packets_ this').
Proof.
  induction rs as [| r rs IH ]; intros this rec seen Hok Hco Hset Hseen Hrs; [ by exists this, rec |].
  apply Forall_cons_1 in Hrs as [Hr Hrs]. cbn [decode_all rev].
  destruct (DecodeFec_coherent this rec seen r Hok Hco Hseen Hr) as (this1 & rec1 & n & -> & Hok1 & Hco1 & Hset1).
  rewrite bind_Ok. rewrite <- app_assoc. apply IH; try done. by constructor.
Qed.

End Block.

(** ** Theorems *)

(** The media packets of [sent] lie in a window of [W] sequence numbers from
    [base] on, those of the FEC packets in one of [V] from [fbase] on, both
    within the limits of the reader; where both share one source the FEC
    packets are numbered right after the media packets. *)
Record block_window `{FecHeaderReader} (ssrc media_ssrc : Z) (sent : list Z -> Prop) (base W fbase V : Z) : Prop := {
  bw_stream : stream_ok media_ssrc sent;
  bw_media : forall m, sent m -> off base (seq_of m) < W;
  bw_width : 0 <= W <= reader_MaxMediaPackets /\ W <= kOldSequenceThreshold;
  bw_fecs : 0 <= V <= reader_MaxFecPackets /\ V <= kOldSequenceThreshold;
  bw_shared : ssrc = media_ssrc -> fbase = u16 (base + W) /\ V <= reader_MaxMediaPackets /\ W + V <= kOldSequenceThreshold
}.

(** *** A decoder step by step *)

(** The decoder and the list of its caller after the packets [seen]. *)
Record tracks `{FecHeaderReader} (ssrc media_ssrc : Z) (sent : list Z -> Prop) (base fbase V : Z) (cov : Z -> list (list Z))
    (seen : list ReceivedPacket) (this : FecDecoder) (rec : list RecoveredPacket) : Prop := {
  tr_decoder : decoder_ok ssrc media_ssrc sent this rec;
  tr_coherent : coherent ssrc media_ssrc sent base cov seen (received_fec_packets_ this, rec);
  tr_settled : Forall (settled rec) (received_fec_packets_ this);
  tr_seen : Forall (of_block ssrc media_ssrc sent cov fbase V) seen
}.

Section Tracks.
Context `{CheckMode} `{FecHeaderReader} (ssrc media_ssrc : Z) (sent : list Z -> Prop) (base W fbase V : Z) (cov : Z -> list (list Z)).
Context (Hwin : block_window ssrc media_ssrc sent base W fbase V).

Lemma tracks_new : tracks ssrc media_ssrc sent base fbase V cov [] (mkDecoder ssrc media_ssrc []) [].
Proof.
  destruct Hwin as [_ _ _ HV _]. split; [ | | constructor | constructor ].
  - split; [ done | constructor | constructor | cbn; lia ].
  - split; cbn; try by constructor; intros ? ?%not_elem_of_nil. all: by intros ? ?%not_elem_of_nil.
Qed.

Lemma tracks_step seen this rec r :
  tracks ssrc media_ssrc sent base fbase V cov seen this rec -> of_block ssrc media_ssrc sent cov fbase V r ->
  exists this' rec' n, DecodeFec this r rec = Ok (this', rec', n) /\
    tracks ssrc media_ssrc sent base fbase V cov (r :: seen) this' rec'.
Proof.
  intros [Hok Hco _ Hseen] Hr. destruct Hwin as [Hstream Hmedia [HW Hold] HV Hshared].
  assert (Hnarrow : W <= 2 ^ 15) by (unfold kOldSequenceThreshold in Hold; lia).
  destruct (DecodeFec_coherent ssrc media_ssrc sent Hstream base W Hmedia Hnarrow HW cov Hold fbase V HV Hshared this rec seen r)
    as (this' & rec' & n & Hrun & Hok' & Hco' & Hset); try done.
  exists this', rec', n. split; [ done |]. split; try done. by constructor.
Qed.

(** The flags of the packets in the list are the caller's. *)
Lemma tracks_flags seen this rec rec' :
  Forall2 (fun x y => rc_pkt y = rc_pkt x /\ rc_key y = rc_key x) rec rec' ->
  tracks ssrc media_ssrc sent base fbase V cov seen this rec -> tracks ssrc media_ssrc sent base fbase V cov seen this rec'.
Proof.
  intros Hrec [[Hs Hf Hr Hc] [C1 C2 C3 C4 C5 C6 C7] Hset Hseen]. cbn [fst snd] in *.
  assert (Hm : map rc_pkt rec' = map rc_pkt rec) by (clear -Hrec; induction Hrec as [| ? ? ? ? [E _] _ IH ]; cbn; congruence).
  assert (Hok : Forall (rc_ok media_ssrc sent) rec').
  { clear -Hrec Hr. revert Hr. induction Hrec as [| x y l l' [E1 E2] _ IH ]; intros Hr; [ constructor |]. apply Forall_cons_1 in Hr as [Hx Hl].
    constructor; [| by apply IH ]. unfold rc_key in E2. injection E2 as E2 E3. unfold rc_ok in *. congruence. }
  split; [ by split | split; cbn [fst snd]; rewrite ?Hm; done | | done ].
  eapply list.Forall_impl; [ exact Hset |]. intros f [Hn Ho]. split; [ done |]. unfold IsOldFecPacket in *.
  assert (Hl : fmap rc_seq_num (list.last rec') = fmap rc_seq_num (list.last rec)).
  { rewrite <- !fmap_last. f_equal. clear -Hrec. change (map rc_seq_num rec' = map rc_seq_num rec).
    induction Hrec as [| ? ? ? ? [_ E] _ IH ]; [ done |]. injection E as _ E. cbn [map]. congruence. }
  destruct (list.last rec), (list.last rec'); try discriminate; [| done ]. injection Hl as Hl. by rewrite Hl.
Qed.

Lemma tracks_exact seen this rec m :
  tracks ssrc media_ssrc sent base fbase V cov seen this rec -> m ∈ map rc_pkt rec <-> derivable cov seen m.
Proof.
  intros [_ Hco Hset _]. destruct Hwin as [Hstream Hmedia [HW Hold] HV Hshared].
  assert (Hnarrow : W <= 2 ^ 15) by (unfold kOldSequenceThreshold in Hold; lia). split.
  - apply (co_derived _ _ _ _ _ _ _ Hco).
  - by eapply (settled_closed ssrc media_ssrc sent Hstream base W Hmedia Hnarrow).
Qed.

End Tracks.

Lemma decode_block `{CheckMode} `{FecHeaderReader} ssrc media_ssrc sent base W fbase V cov rs :
  block_window ssrc media_ssrc sent base W fbase V -> Forall (of_block ssrc media_ssrc sent cov fbase V) rs ->
  exists this' rec', decode_all (mkDecoder ssrc media_ssrc []) [] rs = Ok (this', rec') /\
    Forall (rc_ok media_ssrc sent) rec' /\ ascending base (map rc_pkt rec') /\
    forall m, m ∈ map rc_pkt rec' <-> derivable cov rs m.
Proof.
  intros [Hstream Hmedia [HW Hold] HV Hshared] Hrs.
  assert (Hnarrow : W <= 2 ^ 15) by (unfold kOldSequenceThreshold in Hold; lia).
  destruct (decode_all_coherent ssrc media_ssrc sent Hstream base W Hmedia Hnarrow HW cov Hold fbase V HV Hshared rs
    (mkDecoder ssrc media_ssrc []) [] []) as (this' & rec' & Hrun & Hco & Hset); try done; try by constructor.
  { split; [ done | constructor | constructor | cbn; lia ]. }
  { split; cbn; try by constructor; intros ? ?%not_elem_of_nil. all: by intros ? ?%not_elem_of_nil. }
  rewrite app_nil_r in Hco. exists this', rec'. split; [ done |].
  split; [ exact (co_rec _ _ _ _ _ _ _ Hco) |]. split; [ exact (co_sorted _ _ _ _ _ _ _ Hco) |]. intros m.
  assert (Hrev : forall r, r ∈ rev rs <-> r ∈ rs) by (intros r; by rewrite !list_elem_of_In, <- in_rev).
  split; intros Hm.
  - eapply derivable_mono; [ intros r; apply (proj1 (Hrev r)) |]. by apply (co_derived _ _ _ _ _ _ _ Hco).
  - eapply (settled_closed ssrc media_ssrc sent Hstream base W Hmedia Hnarrow); [ exact Hco | exact Hset |].
    eapply derivable_mono; [| exact Hm ]. intros r. apply (proj2 (Hrev r)).
Qed.

(** C18. Completeness of the decoder, for either header format: fed with media
    and FEC packets of one block in any order, with any losses and duplicates,
    it ends without a fault and its list holds exactly the packets that can be
    derived: those received, and those that are the only unknown one of a
    received FEC packet once all others it protects are known. *)
Theorem decoder_exact (mode : CheckMode) (reader : FecHeaderReader) ssrc media_ssrc sent base W fbase V cov rs :
  block_window ssrc media_ssrc sent base W fbase V -> Forall (of_block ssrc media_ssrc sent cov fbase V) rs ->
  exists this rec, decode_all (mkDecoder ssrc media_ssrc []) [] rs = Ok (this, rec) /\
    forall m, m ∈ map rc_pkt rec <-> derivable cov rs m.
Proof.
  intros Hw Hrs. destruct (decode_block _ _ _ _ _ _ _ _ _ Hw Hrs) as (this & rec & Hrun & _ & _ & Hm). by exists this, rec.
Qed.

Lemma same_packets media_ssrc sent base l l' :
  stream_ok media_ssrc sent -> Forall sent l -> Forall sent l' -> map (key base) l = map (key base) l' -> l = l'.
Proof.
  intros Hs Hl. revert l'. induction Hl as [| m l Hm _ IH ]; intros [| m' l' ] Hl' He; try discriminate; [ done |].
  apply Forall_cons_1 in Hl' as [Hm' Hl']. cbn [map] in He. injection He as Hk Hr.
  rewrite (IH l' Hl' Hr). f_equal. by apply (key_inj media_ssrc sent Hs base).
Qed.

(** The order of arrival and duplicates do not matter: two receivers that
    get the same packets of a block end with the same packets in the same
    order. *)
Theorem decoder_order_irrelevant (mode : CheckMode) (reader : FecHeaderReader) ssrc media_ssrc sent base W fbase V cov rs rs' :
  block_window ssrc media_ssrc sent base W fbase V -> Forall (of_block ssrc media_ssrc sent cov fbase V) rs ->
  (forall r, r ∈ rs <-> r ∈ rs') ->
  exists this rec this' rec',
    decode_all (mkDecoder ssrc media_ssrc []) [] rs = Ok (this, rec) /\
    decode_all (mkDecoder ssrc media_ssrc []) [] rs' = Ok (this', rec') /\ map rc_pkt rec = map rc_pkt rec'.
Proof.
  intros Hw Hrs Hsame.
  assert (Hrs' : Forall (of_block ssrc media_ssrc sent cov fbase V) rs').
  { apply list.Forall_forall. intros r Hr%Hsame. by apply (proj1 (list.Forall_forall _ _) Hrs). }
  destruct (decode_block _ _ _ _ _ _ _ _ _ Hw Hrs) as (this & rec & Hrun & Hok & Hasc & Hm).
  destruct (decode_block _ _ _ _ _ _ _ _ _ Hw Hrs') as (this' & rec' & Hrun' & Hok' & Hasc' & Hm').
  exists this, rec, this', rec'. split_and!; [ done | done |].
  assert (Hsent : forall l, Forall (rc_ok media_ssrc sent) l -> Forall sent (map rc_pkt l)).
  { intros l Hl. apply Forall_map. eapply list.Forall_impl; [ exact Hl |]. by intros r (Hr & _). }
  eapply (same_packets media_ssrc sent base); [ apply Hw | by apply Hsent.. |]. apply sorted_same; [ done | done |].
  intros k. rewrite !list_elem_of_fmap. split; intros (m & -> & Hin); exists m; (split; [ done |]).
  - apply Hm'. eapply derivable_mono; [| by apply Hm ]. intros r. apply Hsame.
  - apply Hm. eapply derivable_mono; [| by apply Hm' ]. intros r. apply Hsame.
Qed.
