(* ===== verification/RtpFecEncoder.v ===== *)
(** * The FEC encoder: the vendored original

    [EncodeFec] of [modules/rtp_rtcp/source/forward_error_correction.cc], over
    any [FecHeaderWriter]: the masks are chosen as in [UnequalProtection],
    widened by [InsertZerosInPacketMasks] where sequence numbers are missing,
    and every row makes one FEC packet. *)
From S2P Require Import Prelude.
From S2P Require Import MaskTable.
From S2P Require Import UnequalProtection.
From S2P Require Import RtpFecCodec.
From S2P Require Import RtpFecAlgebra.
From stdpp Require Import base list list_numbers numbers option tactics.
From Stdlib Require Import ZArith Lia.

#[local] Open Scope Z_scope.

(** The members the encoder uses: [packet_masks_], [tmp_packet_masks_],
    [packet_mask_size_]. *)
Record MaskBuffers : Type := mkBuffers {
  up_masks : list Z;
  up_tmp_masks : list Z;
  up_mask_size : Z
}.

Section Encoder.
Context `{CheckMode} `{FecHeaderWriter}.

Definition NumFecPackets (num_media_packets protection_factor : Z) : outcome Z :=
  let num_fec_packets := Z.shiftr (num_media_packets * protection_factor + Z.shiftl 1 7) 8 in
  let num_fec_packets :=
    if (0 <? protection_factor) && (num_fec_packets =? 0) then 1 else num_fec_packets in
  RTC_DCHECK (num_fec_packets <=? num_media_packets);;
  Ok num_fec_packets.

(** The loop of [InsertZerosInPacketMasks] over the packets after the first:
    both masks and [new_bit_index]. *)
Fixpoint insert_columns (media_packets : list (list Z)) (tmp_size old_size num_fec_packets : Z)
    (new_bit_index old_bit_index prev_seq_num : Z) (tmp old : list Z) : outcome (list Z * list Z * Z) :=
  match media_packets with
  | [] => Ok (tmp, old, new_bit_index)
  | media_packet :: rest =>
      if new_bit_index =? writer_MaxMediaPackets then Ok (tmp, old, new_bit_index)
      else
        seq_num ← ParseSequenceNumber media_packet;
        let num_zeros_to_insert := u16 (seq_num - prev_seq_num - 1) in
        tmp ← (if 0 <? num_zeros_to_insert
               then InsertZeroColumns num_zeros_to_insert tmp tmp_size num_fec_packets new_bit_index
               else Ok tmp);
        let new_bit_index := new_bit_index + num_zeros_to_insert in
        '(tmp, old) ← CopyColumn tmp tmp_size old old_size num_fec_packets new_bit_index old_bit_index;
        insert_columns rest tmp_size old_size num_fec_packets (new_bit_index + 1) (old_bit_index + 1) seq_num tmp old
  end.

(** [InsertZerosInPacketMasks]: the number of bits in a row, or -1. *)
Definition InsertZerosInPacketMasks (this : MaskBuffers) (media_packets : list (list Z)) (num_fec_packets : Z)
    : outcome (MaskBuffers * Z) :=
  let num_media_packets := Z.of_nat (length media_packets) in
  match media_packets, list.last media_packets with
  | first :: _ :: _, Some back =>
      last_seq_num ← ParseSequenceNumber back;
      first_seq_num ← ParseSequenceNumber first;
      let total_missing_seq_nums := u64 (u16 (last_seq_num - first_seq_num) - num_media_packets + 1) in
      if total_missing_seq_nums =? 0 then Ok (this, num_media_packets)
      else if writer_MaxMediaPackets <? u64 (total_missing_seq_nums + num_media_packets) then Ok (this, -1)
      else
        tmp_packet_mask_size ← PacketMaskSize (u64 (total_missing_seq_nums + num_media_packets));
        tmp ← memset (up_tmp_masks this) 0 0 (num_fec_packets * tmp_packet_mask_size);
        '(tmp, old) ← CopyColumn tmp tmp_packet_mask_size (up_masks this) (up_mask_size this) num_fec_packets 0 0;
        '(tmp, old, new_bit_index) ←
          insert_columns (tail media_packets) tmp_packet_mask_size (up_mask_size this) num_fec_packets 1 1
            first_seq_num tmp old;
        tmp ←
          (if negb (new_bit_index mod 8 =? 0) then
             for_loop 0 (Z.to_nat num_fec_packets) (fun row tmp =>
               let new_byte_index := row * tmp_packet_mask_size + new_bit_index / 8 in
               b ← get tmp new_byte_index;
               put tmp new_byte_index (u8 (Z.shiftl b (7 - new_bit_index mod 8)))) tmp
           else Ok tmp);
        masks ← memcpy old 0 tmp 0 (num_fec_packets * tmp_packet_mask_size);
        Ok (mkBuffers masks tmp (up_mask_size this), new_bit_index)
  | _, _ => Ok (this, num_media_packets)
  end.

(** [GenerateFecPayloads] and [FinalizeFecHeaders] for all rows. *)
Definition GenerateFecPayloads (this : MaskBuffers) (media_packets : list (list Z)) (num_fec_packets : Z)
    : outcome (list (list Z)) :=
  RTC_DCHECK (0 <? Z.of_nat (length media_packets));;
  for_loop 0 (Z.to_nat num_fec_packets) (fun i fec_packets =>
    fec_packet ← generate_fec_payload (up_masks this) (up_mask_size this) i media_packets;
    Ok (fec_packets ++ [fec_packet])) [].

Definition FinalizeFecHeaders (this : MaskBuffers) (fec_packets : list (list Z)) (num_fec_packets media_ssrc seq_num_base : Z)
    : outcome (list (list Z)) :=
  for_loop 0 (Z.to_nat num_fec_packets) (fun i fec_packets =>
    packet_mask ← slice (up_masks this) (i * up_mask_size this) (up_mask_size this);
    fec_packet ← get fec_packets i;
    fec_packet ← FinalizeFecHeader media_ssrc seq_num_base packet_mask fec_packet;
    put fec_packets i fec_packet) fec_packets.

(** [EncodeFec]: the result, what is appended to [fec_packets], and the buffers;
    empty packets are appended before the masks are known to fit. [garbage] is
    what the mask table's own buffer holds when it is made. *)
Definition EncodeFec_upstream (this : MaskBuffers) (media_packets : list (list Z)) (protection_factor num_important_packets : Z)
    (use_unequal_protection : bool) (fec_mask_type : FecMaskType) (garbage : list Z)
    : outcome (Z * list (list Z) * MaskBuffers) :=
  let num_media_packets := Z.of_nat (length media_packets) in
  RTC_DCHECK (0 <? num_media_packets);;
  RTC_DCHECK (0 <=? num_important_packets);;
  RTC_DCHECK (num_important_packets <=? num_media_packets);;
  if writer_MaxMediaPackets <? num_media_packets then Ok (-1, [], this)
  else if existsb (fun m => Z.of_nat (length m) <? kRtpHeaderSize) media_packets then Ok (-1, [], this)
  else
    num_fec_packets ← NumFecPackets num_media_packets protection_factor;
    if num_fec_packets =? 0 then Ok (0, [], this)
    else
      mask_table ← PacketMaskTable_new garbage fec_mask_type num_media_packets;
      packet_mask_size ← PacketMaskSize num_media_packets;
      masks ← memset (up_masks this) 0 0 (num_fec_packets * packet_mask_size);
      '(_, masks) ← GeneratePacketMasks_upstream num_media_packets num_fec_packets num_important_packets
                      use_unequal_protection mask_table masks;
      '(this, num_mask_bits) ←
        InsertZerosInPacketMasks (mkBuffers masks (up_tmp_masks this) packet_mask_size) media_packets num_fec_packets;
      if num_mask_bits <? 0 then Ok (-1, replicate (Z.to_nat num_fec_packets) [], this)
      else
        packet_mask_size ← PacketMaskSize num_mask_bits;
        let this := mkBuffers (up_masks this) (up_tmp_masks this) packet_mask_size in
        fec_packets ← GenerateFecPayloads this media_packets num_fec_packets;
        match media_packets with
        | [] => Fail OutOfBounds
        | front :: _ =>
            media_ssrc ← ParseSsrc front;
            seq_num_base ← ParseSequenceNumber front;
            fec_packets ← FinalizeFecHeaders this fec_packets num_fec_packets media_ssrc seq_num_base;
            Ok (0, fec_packets, this)
        end.

End Encoder.
