(* ===== verification/RtpFecColumns.v ===== *)
(** * Columns for missing sequence numbers

    [InsertZerosInPacketMasks] rebuilds the mask bit by bit with shifts; this
    file shows what it computes: column [j] of the old mask moves to the
    distance of packet [j] from the first one, all other columns are zero. *)
From S2P Require Import Prelude.
From S2P Require Import Ascending.
From S2P Require Import MaskTable.
From S2P Require Import UnequalProtection.
From S2P Require Import RtpFecCodec.
From S2P Require Import RtpFecAlgebra.
From S2P Require Import RtpFecEncoder.
From stdpp Require Import base list list_numbers numbers option tactics.
From Stdlib Require Import ZArith Lia Sorted.

#[local] Open Scope Z_scope.

(** ** One byte of every row *)

(** Byte [q] of row [i]. *)
Definition rb (m : list Z) (size i q : Z) : Z := byte m (Z.to_nat (i * size + q)).

Definition has_rows (m : list Z) (size r : Z) : Prop := r * size <= Z.of_nat (length m).

Lemma row_index size r i i' q q' :
  0 <= i < r -> 0 <= i' -> 0 <= q < size -> 0 <= q' < size ->
  i * size + q = i' * size + q' -> i = i' /\ q = q'.
Proof. intros. assert (i = i') by nia. subst. split; lia. Qed.

Lemma row_in_range m size r i q :
  has_rows m size r -> 0 <= i < r -> 0 <= q < size -> 0 <= i * size + q < Z.of_nat (length m).
Proof. unfold has_rows. intros. nia. Qed.

Lemma rb_put m size r i q i' q' v :
  has_rows m size r -> 0 <= i < r -> 0 <= i' < r -> 0 <= q < size -> 0 <= q' < size ->
  rb (<[Z.to_nat (i * size + q) := v]> m) size i' q' =
    if decide (i = i' /\ q = q') then v else rb m size i' q'.
Proof.
  intros Hm Hi Hi' Hq Hq'. pose proof (row_in_range m size r i q Hm Hi Hq).
  pose proof (row_in_range m size r i' q' Hm Hi' Hq'). unfold rb. rewrite byte_insert by lia.
  destruct (decide (i = i' /\ q = q')) as [[-> ->] | Hne]; [ by rewrite decide_True |].
  rewrite decide_False; [ done |]. intros He. apply Hne. apply (row_index size r i i' q q'); lia.
Qed.

(** Every row's byte [q] goes through [F]. *)
Lemma row_loop m size r q (F : Z -> Z) :
  0 <= r -> has_rows m size r -> 0 <= q < size ->
  exists m', for_loop 0 (Z.to_nat r) (fun row m =>
      b ← get m (row * size + q); put m (row * size + q) (F b)) m = Ok m' /\ length m' = length m /\
    forall i p, 0 <= i < r -> 0 <= p < size ->
      rb m' size i p = if decide (p = q) then F (rb m size i q) else rb m size i p.
Proof.
  intros Hr Hm Hq.
  destruct (for_loop_rule (fun k x => length x = length m /\ forall i p, 0 <= i < r -> 0 <= p < size ->
      rb x size i p = if decide (i < k /\ p = q) then F (rb m size i q) else rb m size i p)
    (fun row m => b ← get m (row * size + q); put m (row * size + q) (F b)) (Z.to_nat r) 0 m) as (m' & Hl & Hlen & Hrb).
  - split; [ done |]. intros i p Hi Hp. by rewrite decide_False by lia.
  - intros k x Hk [Hlx Hx]. assert (Hxr : has_rows x size r) by (unfold has_rows; by rewrite Hlx).
    pose proof (row_in_range x size r k q Hxr ltac:(lia) Hq). rewrite get_byte, bind_Ok, put_Ok by lia.
    eexists. split; [ done |]. rewrite length_insert. split; [ done |]. intros i p Hi Hp.
    rewrite (rb_put x size r) by (done || lia). fold (rb x size k q).
    assert (Hkq : rb x size k q = rb m size k q) by (rewrite Hx by lia; by rewrite decide_False by lia). rewrite Hkq.
    destruct (decide (k = i /\ q = p)) as [[-> ->] | Hne]; [ by rewrite decide_True by lia |].
    rewrite Hx by done. destruct (decide (i < k /\ p = q)); [ by rewrite decide_True by lia |].
    by rewrite decide_False by lia.
  - exists m'. split_and!; [ done | done |]. intros i p Hi Hp. rewrite Hrb by done.
    destruct (decide (p = q)); [ by rewrite decide_True by lia | by rewrite decide_False by lia ].
Qed.

(** [CopyColumn] on the bytes concerned. *)
Definition copied (c n o : Z) : Z :=
  let n := Z.lor n (Z.shiftr (Z.land o 0x80) 7) in
  if negb (c =? 7) then u8 (Z.shiftl n 1) else n.

Lemma CopyColumn_Ok new nsize old osize r n j :
  0 <= r -> has_rows new nsize r -> has_rows old osize r ->
  0 <= n < 8 * nsize -> 0 <= j < 8 * osize ->
  exists new' old', CopyColumn new nsize old osize r n j = Ok (new', old') /\
    length new' = length new /\ length old' = length old /\
    (forall i p, 0 <= i < r -> 0 <= p < nsize ->
       rb new' nsize i p = if decide (p = n / 8) then copied (n mod 8) (rb new nsize i p) (rb old osize i (j / 8))
                           else rb new nsize i p) /\
    (forall i p, 0 <= i < r -> 0 <= p < osize ->
       rb old' osize i p = if decide (p = j / 8) then u8 (Z.shiftl (rb old osize i p) 1) else rb old osize i p).
Proof.
  intros Hr Hnew Hold Hn Hj. unfold CopyColumn. rewrite require_Ok, bind_Ok by lia.
  rewrite !Z.quot_div_nonneg, Z.rem_mod_nonneg by lia.
  assert (Hq : 0 <= n / 8 < nsize) by (split; [ apply Z.div_pos | apply Z.div_lt_upper_bound ]; lia).
  assert (Hp : 0 <= j / 8 < osize) by (split; [ apply Z.div_pos | apply Z.div_lt_upper_bound ]; lia).
  set (q := n / 8) in *. set (p := j / 8) in *.
  match goal with |- context [for_loop 0 _ ?body _] =>
    destruct (for_loop_rule (fun k '(x, y) => length x = length new /\ length y = length old /\
      (forall i p', 0 <= i < r -> 0 <= p' < nsize ->
         rb x nsize i p' = if decide (i < k /\ p' = q) then copied (n mod 8) (rb new nsize i p') (rb old osize i p)
                           else rb new nsize i p') /\
      (forall i p', 0 <= i < r -> 0 <= p' < osize ->
         rb y osize i p' = if decide (i < k /\ p' = p) then u8 (Z.shiftl (rb old osize i p') 1) else rb old osize i p'))
      body (Z.to_nat r) 0 (new, old)) as ([new' old'] & Hl & Hln & Hlo & Hrn & Hro) end.
  - split_and!; [ done | done | |]; intros i p' Hi Hp'; by rewrite decide_False by lia.
  - intros k [x y] Hk (Hlx & Hly & Hx & Hy). assert (Hxr : has_rows x nsize r) by (unfold has_rows; by rewrite Hlx).
    assert (Hyr : has_rows y osize r) by (unfold has_rows; by rewrite Hly).
    pose proof (row_in_range x nsize r k q Hxr ltac:(lia) Hq). pose proof (row_in_range y osize r k p Hyr ltac:(lia) Hp).
    rewrite !get_byte by lia. rewrite !bind_Ok, !put_Ok by lia. rewrite !bind_Ok. eexists. split; [ reflexivity |].
    cbn beta iota. rewrite !length_insert. fold (rb x nsize k q) (rb y osize k p).
    assert (Hxk : rb x nsize k q = rb new nsize k q) by (rewrite Hx by lia; by rewrite decide_False by lia).
    assert (Hyk : rb y osize k p = rb old osize k p) by (rewrite Hy by lia; by rewrite decide_False by lia).
    rewrite Hxk, Hyk. split_and!; [ done | done | |]; intros i p' Hi Hp'; rewrite (rb_put _ _ r) by (done || lia).
    + destruct (decide (k = i /\ q = p')) as [[-> <-] | Hne]; [ by rewrite decide_True by lia |].
      rewrite Hx by done. destruct (decide (i < k /\ p' = q)); [ by rewrite decide_True by lia |].
      by rewrite decide_False by lia.
    + destruct (decide (k = i /\ p = p')) as [[-> <-] | Hne]; [ by rewrite decide_True by lia |].
      rewrite Hy by done. destruct (decide (i < k /\ p' = p)); [ by rewrite decide_True by lia |].
      by rewrite decide_False by lia.
  - exists new', old'. split_and!; [ done | done | done | |]; intros i p' Hi Hp'; [ rewrite Hrn by done | rewrite Hro by done ].
    all: case_decide; [ by rewrite decide_True by lia | by rewrite decide_False by lia ].
Qed.

(** ** A mask under construction *)

(** Rows of which [n] bits have been written, bit [p] of row [i] being
    [tb i p]: full bytes hold their bits, the byte being filled holds those it
    has one place above the bottom, the others are zero. *)
Definition placed (n : Z) (tb : Z -> Z -> bool) (m : list Z) (size r : Z) : Prop :=
  forall i q, 0 <= i < r -> 0 <= q < size ->
    0 <= rb m size i q < 256 /\
    forall t, 0 <= t < 8 -> Z.testbit (rb m size i q) t =
      if q <? n / 8 then tb i (8 * q + 7 - t)
      else (q =? n / 8) && (1 <=? t) && (t <=? n mod 8) && tb i (8 * q + n mod 8 - t).

(** Nothing has been written past [n]. *)
Definition none_past (n : Z) (tb : Z -> Z -> bool) : Prop := forall i p, n <= p -> tb i p = false.

Lemma shl_bit b s t : 0 <= s -> 0 <= t < 8 -> Z.testbit (u8 (Z.shiftl b s)) t = (s <=? t) && Z.testbit b (t - s).
Proof.
  intros Hs Ht. rewrite u8_testbit by done. destruct (Z.leb_spec s t); cbn [andb].
  - by rewrite Z.shiftl_spec by lia.
  - by rewrite Z.shiftl_spec_low by lia.
Qed.

Lemma top_bit o t : 0 <= t -> Z.testbit (Z.shiftr (Z.land o 0x80) 7) t = (t =? 0) && Z.testbit o 7.
Proof.
  intros Ht. rewrite Z.shiftr_spec, Z.land_spec by lia. destruct (Z.eqb_spec t 0) as [-> |]; cbn [andb].
  - change (Z.testbit 0x80 (0 + 7)) with true. by rewrite andb_true_r.
  - rewrite (Z.bits_above_log2 0x80) by (cbn; lia). apply andb_false_r.
Qed.

Lemma copied_range c n o : 0 <= n < 256 -> 0 <= o < 256 -> 0 <= copied c n o < 256.
Proof.
  intros Hn Ho. unfold copied. destruct (negb (c =? 7)); [ apply u8_range |].
  assert (Hx : Z.shiftr (Z.land o 0x80) 7 = 0 \/ Z.shiftr (Z.land o 0x80) 7 = 1).
  { assert (Hb : (Z.shiftr (Z.land o 0x80) 7 =? 0) || (Z.shiftr (Z.land o 0x80) 7 =? 1) = true); [| lia ].
    apply (all_between_spec 0 255 (fun o => (Z.shiftr (Z.land o 0x80) 7 =? 0) || (Z.shiftr (Z.land o 0x80) 7 =? 1)));
      [ by vm_compute | lia ]. }
  destruct Hx as [-> | ->]; [ by rewrite Z.lor_0_r |]. apply is_u8_spec.
  apply (all_between_spec 0 255 (fun n => is_u8 (Z.lor n 1))); [ by vm_compute | lia ].
Qed.

Lemma copied_bit c n o t :
  0 <= t < 8 ->
  Z.testbit (copied c n o) t =
    if negb (c =? 7) then (1 <=? t) && (Z.testbit n (t - 1) || (t =? 1) && Z.testbit o 7)
    else Z.testbit n t || (t =? 0) && Z.testbit o 7.
Proof.
  intros Ht. unfold copied. destruct (negb (c =? 7)).
  - rewrite shl_bit by lia. destruct (Z.leb_spec 1 t); cbn [andb]; [| done ]. rewrite Z.lor_spec, top_bit by lia.
    by replace (t - 1 =? 0) with (t =? 1) by lia.
  - by rewrite Z.lor_spec, top_bit by lia.
Qed.

Lemma next_place n :
  0 <= n ->
  (n mod 8 < 7 /\ (n + 1) / 8 = n / 8 /\ (n + 1) mod 8 = n mod 8 + 1) \/
  (n mod 8 = 7 /\ (n + 1) / 8 = n / 8 + 1 /\ (n + 1) mod 8 = 0).
Proof. intros Hn. Z.to_euclidean_division_equations. lia. Qed.

Lemma later_place n k :
  0 <= n -> 0 < k ->
  (n mod 8 + k <= 7 /\ (n + k) / 8 = n / 8 /\ (n + k) mod 8 = n mod 8 + k) \/
  (7 < n mod 8 + k /\ n / 8 < (n + k) / 8).
Proof. intros Hn Hk. Z.to_euclidean_division_equations. lia. Qed.

Lemma placed_copy n tb m m' size r (ob : Z -> Z) :
  0 <= n -> placed n tb m size r -> none_past n tb -> (forall i, 0 <= i < r -> 0 <= ob i < 256) ->
  (forall i p, 0 <= i < r -> 0 <= p < size ->
     rb m' size i p = if decide (p = n / 8) then copied (n mod 8) (rb m size i p) (ob i) else rb m size i p) ->
  let tb' := fun i p => if p =? n then Z.testbit (ob i) 7 else tb i p in
  placed (n + 1) tb' m' size r /\ none_past (n + 1) tb'.
Proof.
  intros Hn Hpl Hpast Hob Hm' tb'. pose proof (Z.div_mod n 8 ltac:(lia)) as Hdm.
  pose proof (Z.mod_pos_bound n 8 ltac:(lia)) as Hmod. split.
  2:{ intros i p Hp. unfold tb'. rewrite (proj2 (Z.eqb_neq p n)) by lia. apply Hpast. lia. }
  intros i q Hi Hq. destruct (Hpl i q Hi Hq) as [Hrange Hbits]. rewrite Hm' by done.
  pose proof (next_place n Hn) as Hnext. set (b := n / 8) in *. set (c := n mod 8) in *.
  destruct (decide (q = b)) as [-> | Hne].
  - split; [ apply copied_range; [ done | by apply Hob ] |]. intros t Ht. rewrite copied_bit by done.
    unfold tb'.
    destruct Hnext as [(Hc & -> & ->) | (Hc & -> & ->)].
    + rewrite (proj2 (Z.eqb_neq c 7)), Z.ltb_irrefl, Z.eqb_refl by lia. cbn [negb andb].
      destruct (Z.leb_spec 1 t) as [H1 | H1]; cbn [andb]; [| done ]. rewrite Hbits, Z.ltb_irrefl, Z.eqb_refl by lia. cbn [andb].
      destruct (Z.eqb_spec t 1) as [-> | Ht1].
      * cbn [andb orb Z.leb Z.sub Z.compare]. replace (8 * b + (c + 1) - 1 =? n) with true by lia.
        rewrite (proj2 (Z.leb_le 1 (c + 1))) by lia. done.
      * rewrite (proj2 (Z.leb_le 1 (t - 1))) by lia. cbn [andb]. rewrite orb_false_r.
        replace (8 * b + (c + 1) - t =? n) with false by lia.
        replace (t <=? c + 1) with (t - 1 <=? c) by lia. by replace (8 * b + (c + 1) - t) with (8 * b + c - (t - 1)) by lia.
    + rewrite (proj2 (Z.eqb_eq c 7) Hc). cbn [negb].
      rewrite Hbits, Z.ltb_irrefl, (proj2 (Z.ltb_lt b (b + 1))), Z.eqb_refl by lia. cbn [andb].
      rewrite Hc. destruct (Z.eqb_spec t 0) as [-> | Ht0].
      * cbn [andb orb Z.leb Z.compare]. by replace (8 * b + 7 - 0 =? n) with true by lia.
      * rewrite (proj2 (Z.leb_le 1 t)), (proj2 (Z.leb_le t 7)) by lia. cbn [andb]. rewrite orb_false_r.
        by replace (8 * b + 7 - t =? n) with false by lia.
  - split; [ done |]. intros t Ht. rewrite Hbits by done. unfold tb'.
    destruct Hnext as [(Hc & -> & ->) | (Hc & -> & ->)].
    + destruct (Z.ltb_spec q b); [ by replace (8 * q + 7 - t =? n) with false by lia |].
      by rewrite (proj2 (Z.eqb_neq q b)).
    + destruct (Z.ltb_spec q b).
      * rewrite (proj2 (Z.ltb_lt q (b + 1))) by lia. by replace (8 * q + 7 - t =? n) with false by lia.
      * rewrite (proj2 (Z.ltb_ge q (b + 1))), (proj2 (Z.eqb_neq q b)) by lia. cbn [andb].
        destruct (Z.leb_spec 1 t), (Z.leb_spec t 0); try lia; by rewrite ?andb_false_r.
Qed.

Lemma placed_zeros n k tb m m' size r :
  0 <= n -> 0 < k -> placed n tb m size r -> none_past n tb ->
  (forall i p, 0 <= i < r -> 0 <= p < size ->
     rb m' size i p = if decide (p = n / 8) then u8 (Z.shiftl (rb m size i (n / 8)) (Z.min k (7 - n mod 8)))
                      else rb m size i p) ->
  placed (n + k) tb m' size r /\ none_past (n + k) tb.
Proof.
  intros Hn Hk Hpl Hpast Hm'. pose proof (Z.div_mod n 8 ltac:(lia)) as Hdm.
  pose proof (Z.mod_pos_bound n 8 ltac:(lia)) as Hmod. split; [| intros i p Hp; apply Hpast; lia ].
  intros i q Hi Hq. destruct (Hpl i q Hi Hq) as [Hrange Hbits]. rewrite Hm' by done.
  pose proof (later_place n k Hn Hk) as Hnext. set (b := n / 8) in *. set (c := n mod 8) in *.
  destruct (decide (q = b)) as [-> | Hne].
  - split; [ apply u8_range |]. intros t Ht. rewrite shl_bit by lia.
    destruct Hnext as [(Hc & -> & ->) | (Hc & Hlt)].
    + rewrite Z.min_l, Z.ltb_irrefl, Z.eqb_refl by lia. cbn [andb]. destruct (Z.leb_spec k t); cbn [andb].
      * rewrite Hbits, Z.ltb_irrefl, Z.eqb_refl by lia. cbn [andb].
        replace (8 * b + (c + k) - t) with (8 * b + c - (t - k)) by lia. replace (t <=? c + k) with (t - k <=? c) by lia.
        rewrite (proj2 (Z.leb_le 1 t)) by lia. destruct (Z.leb_spec 1 (t - k)); cbn [andb]; [ done |].
        rewrite (Hpast i) by lia. by rewrite andb_false_r.
      * rewrite (Hpast i) by lia. by rewrite andb_false_r.
    + rewrite Z.min_r, (proj2 (Z.ltb_lt b _)) by lia. destruct (Z.leb_spec (7 - c) t); cbn [andb].
      * rewrite Hbits, Z.ltb_irrefl, Z.eqb_refl by lia. cbn [andb]. rewrite (proj2 (Z.leb_le (t - (7 - c)) c)) by lia.
        replace (8 * b + c - (t - (7 - c))) with (8 * b + 7 - t) by lia.
        destruct (Z.leb_spec 1 (t - (7 - c))); cbn [andb]; [ done |]. by rewrite (Hpast i) by lia.
      * by rewrite (Hpast i) by lia.
  - split; [ done |]. intros t Ht. rewrite Hbits by done.
    destruct Hnext as [(Hc & -> & ->) | (Hc & Hlt)].
    + destruct (q <? b); [ done |]. by rewrite (proj2 (Z.eqb_neq q b)).
    + destruct (Z.ltb_spec q b); [ by rewrite (proj2 (Z.ltb_lt q _)) by lia |].
      rewrite (proj2 (Z.eqb_neq q b)) by done. cbn [andb]. destruct (_ <? _); [ by rewrite (Hpast i) by lia |].
      destruct (Z.leb_spec t ((n + k) mod 8)); [ rewrite (Hpast i) by lia |]; by rewrite ?andb_false_r.
Qed.

(** The closing shift. *)
Lemma placed_final n tb m m' size r :
  0 <= n -> placed n tb m size r -> none_past n tb ->
  (forall i p, 0 <= i < r -> 0 <= p < size ->
     rb m' size i p = if decide (p = n / 8) then u8 (Z.shiftl (rb m size i (n / 8)) (7 - n mod 8)) else rb m size i p) ->
  forall i q t, 0 <= i < r -> 0 <= q < size -> 0 <= t < 8 -> Z.testbit (rb m' size i q) t = tb i (8 * q + 7 - t).
Proof.
  intros Hn Hpl Hpast Hm' i q t Hi Hq Ht. pose proof (Z.div_mod n 8 ltac:(lia)) as Hdm.
  pose proof (Z.mod_pos_bound n 8 ltac:(lia)) as Hmod. destruct (Hpl i q Hi Hq) as [Hrange Hbits]. rewrite Hm' by done.
  set (b := n / 8) in *. set (c := n mod 8) in *. destruct (decide (q = b)) as [-> | Hne].
  - rewrite shl_bit by lia. destruct (Z.leb_spec (7 - c) t); cbn [andb].
    + rewrite Hbits, Z.ltb_irrefl, Z.eqb_refl by lia. cbn [andb]. rewrite (proj2 (Z.leb_le (t - (7 - c)) c)) by lia.
      replace (8 * b + c - (t - (7 - c))) with (8 * b + 7 - t) by lia.
      destruct (Z.leb_spec 1 (t - (7 - c))); cbn [andb]; [ done |]. by rewrite (Hpast i) by lia.
    + by rewrite (Hpast i) by lia.
  - rewrite Hbits by done. destruct (Z.ltb_spec q b); [ done |]. rewrite (proj2 (Z.eqb_neq q b)) by done. cbn [andb].
    by rewrite (Hpast i) by lia.
Qed.

(** ** The old mask *)

(** Its first [j] columns have been shifted out. *)
Definition consumed (j : Z) (old0 old : list Z) (size r : Z) : Prop :=
  length old = length old0 /\
  forall i, 0 <= i < r ->
    (forall q, 0 <= q < size -> 0 <= rb old size i q < 256) /\
    (forall k, j <= k < 8 * size ->
       Z.testbit (rb old size i (k / 8)) (7 - k mod 8 + (if k / 8 =? j / 8 then j mod 8 else 0)) = mask_bit old0 size i k).

Lemma mask_bit_rb m size i k :
  0 <= i -> 0 <= k < 8 * size -> i * size + size <= Z.of_nat (length m) ->
  mask_bit m size i k = Z.testbit (rb m size i (k / 8)) (7 - k mod 8).
Proof.
  intros Hi Hk Hl. unfold mask_bit, rb, byte. f_equal. rewrite list_lookup_total_alt.
  assert (0 <= k / 8 < size) by (split; [ apply Z.div_pos | apply Z.div_lt_upper_bound ]; lia).
  by destruct (lookup_lt_is_Some_2 m (Z.to_nat (i * size + k / 8)) ltac:(nia)) as [x ->].
Qed.

Lemma consumed_start old size r :
  0 <= size -> has_rows old size r -> Forall (fun b => 0 <= b < 256) old -> consumed 0 old old size r.
Proof.
  intros Hs Hrows Hb. split; [ done |]. intros i Hi. split.
  - intros q Hq. pose proof (row_in_range old size r i q Hrows Hi Hq). unfold rb, byte.
    destruct (lookup_lt_is_Some_2 old (Z.to_nat (i * size + q)) ltac:(lia)) as [x Hx]. rewrite Hx. cbn.
    by eapply (Forall_lookup_1 (fun b => 0 <= b < 256)).
  - intros k Hk. unfold has_rows in Hrows. assert ((i + 1) * size <= r * size) by nia.
    rewrite mask_bit_rb by lia.
    change (0 mod 8) with 0. destruct (_ =? _); by rewrite Z.add_0_r.
Qed.

Lemma consumed_next j old0 old old' size r :
  0 <= j -> consumed j old0 old size r -> length old' = length old ->
  (forall i p, 0 <= i < r -> 0 <= p < size ->
     rb old' size i p = if decide (p = j / 8) then u8 (Z.shiftl (rb old size i p) 1) else rb old size i p) ->
  consumed (j + 1) old0 old' size r.
Proof.
  intros Hj [Hl Hc] Hl' Hold'. split; [ congruence |]. intros i Hi. destruct (Hc i Hi) as [Hrange Hbits]. split.
  - intros q Hq. rewrite Hold' by done. destruct (decide _); [ apply u8_range | by apply Hrange ].
  - intros k Hk. assert (Hk8 : 0 <= k / 8 < size) by (split; [ apply Z.div_pos | apply Z.div_lt_upper_bound ]; lia).
    rewrite Hold' by done. rewrite <- Hbits by lia. pose proof (Z.mod_pos_bound k 8 ltac:(lia)).
    pose proof (Z.div_mod k 8 ltac:(lia)). pose proof (Z.div_mod j 8 ltac:(lia)).
    pose proof (Z.mod_pos_bound j 8 ltac:(lia)). destruct (next_place j Hj) as [(Hc7 & -> & ->) | (Hc7 & -> & ->)].
    + destruct (decide (k / 8 = j / 8)) as [He | Hne].
      * rewrite He, !Z.eqb_refl. rewrite shl_bit by lia. rewrite (proj2 (Z.leb_le _ _)) by lia. cbn [andb].
        f_equal. lia.
      * by rewrite !(proj2 (Z.eqb_neq _ _) Hne).
    + rewrite decide_False, (proj2 (Z.eqb_neq (k / 8) (j / 8))) by lia. destruct (_ =? _); f_equal; lia.
Qed.

Lemma consumed_column j old0 old size r i :
  0 <= j < 8 * size -> consumed j old0 old size r -> 0 <= i < r ->
  Z.testbit (rb old size i (j / 8)) 7 = mask_bit old0 size i j.
Proof.
  intros Hj [_ Hc] Hi. destruct (Hc i Hi) as [_ Hbits]. rewrite <- (Hbits j) by lia. rewrite Z.eqb_refl. f_equal. lia.
Qed.

(** ** All columns *)

(** Column [k] of the old mask has moved to place [gs !! k], and nothing else is
    set. *)
Definition moved (old : list Z) (osize r : Z) (gs : list Z) (tb : Z -> Z -> bool) : Prop :=
  (forall i k g, 0 <= i < r -> gs !! k = Some g -> tb i g = mask_bit old osize i (Z.of_nat k)) /\
  (forall i p, 0 <= i < r -> p ∉ gs -> tb i p = false).

Lemma moved_snoc old osize r gs g tb (x : Z -> bool) :
  moved old osize r gs tb -> g ∉ gs -> (forall i, 0 <= i < r -> x i = mask_bit old osize i (Z.of_nat (length gs))) ->
  moved old osize r (gs ++ [g]) (fun i p => if p =? g then x i else tb i p).
Proof.
  intros [H1 H2] Hg Hx. split.
  - intros i k g' Hi Hk. apply lookup_app_Some in Hk as [Hk | [Hle Hk]].
    + rewrite (proj2 (Z.eqb_neq g' g)); [ by apply H1 |]. intros ->. apply Hg. by eapply list_elem_of_lookup_2.
    + destruct (k - length gs)%nat as [| n ] eqn:Ek; [| done ]. injection Hk as <-. rewrite Z.eqb_refl, Hx by done.
      do 2 f_equal. lia.
  - intros i p Hi Hp. rewrite not_elem_of_app, list_elem_of_singleton in Hp. destruct Hp as [Hp Hne].
    rewrite (proj2 (Z.eqb_neq p g)) by done. by apply H2.
Qed.

(** One column: the zeros before it, then the column. *)
Lemma one_column n z k tb gs tmp old old0 nsize osize r :
  0 <= r -> 0 <= n -> 0 <= z -> n + z < 8 * nsize -> 0 <= k < 8 * osize -> k = Z.of_nat (length gs) -> Forall (fun g => g < n) gs ->
  has_rows tmp nsize r -> has_rows old0 osize r ->
  placed n tb tmp nsize r -> none_past n tb -> consumed k old0 old osize r -> moved old0 osize r gs tb ->
  exists tmp' old' tb',
    (tmp ← (if 0 <? z then InsertZeroColumns z tmp nsize r n else Ok tmp);
     CopyColumn tmp nsize old osize r (n + z) k) = Ok (tmp', old') /\
    length tmp' = length tmp /\ placed (n + z + 1) tb' tmp' nsize r /\ none_past (n + z + 1) tb' /\
    consumed (k + 1) old0 old' osize r /\ moved old0 osize r (gs ++ [n + z]) tb'.
Proof.
  intros Hr Hn Hz Hin Hk Hlen Hgs Htr Hor Hpl Hpast Hcon Hmov.
  assert (H1 : exists tmp1, (if 0 <? z then InsertZeroColumns z tmp nsize r n else Ok tmp) = Ok tmp1 /\
    length tmp1 = length tmp /\ placed (n + z) tb tmp1 nsize r /\ none_past (n + z) tb).
  { destruct (Z.ltb_spec 0 z) as [Hpos | Hz0].
    - unfold InsertZeroColumns. rewrite Z.quot_div_nonneg, Z.rem_mod_nonneg by lia.
      assert (Hq : 0 <= n / 8 < nsize) by (split; [ apply Z.div_pos | apply Z.div_lt_upper_bound ]; lia).
      destruct (row_loop tmp nsize r (n / 8) (fun b => u8 (Z.shiftl b (Z.min z (7 - n mod 8)))) Hr Htr Hq)
        as (tmp1 & Hloop & Hl1 & Hrb). exists tmp1. split; [ exact Hloop |]. split; [ done |].
      by apply (placed_zeros n z tb tmp tmp1).
    - exists tmp. replace z with 0 by lia. by rewrite Z.add_0_r. }
  destruct H1 as (tmp1 & -> & Hl1 & Hpl1 & Hpast1). rewrite bind_Ok.
  assert (Hold : has_rows old osize r) by (unfold has_rows; destruct Hcon as [-> _]; done).
  destruct (CopyColumn_Ok tmp1 nsize old osize r (n + z) k) as (tmp' & old' & -> & Hl' & Hlo & Hrn & Hro); try (done || lia).
  { unfold has_rows. by rewrite Hl1. }
  assert (Hk8 : 0 <= k / 8 < osize) by (split; [ apply Z.div_pos | apply Z.div_lt_upper_bound ]; lia).
  destruct (placed_copy (n + z) tb tmp1 tmp' nsize r (fun i => rb old osize i (k / 8))) as [Hpl' Hpast']; try (done || lia).
  { intros i Hi. destruct Hcon as [_ Hc]. apply (Hc i Hi). done. }
  do 3 eexists. split; [ done |]. split; [ congruence |]. split; [ exact Hpl' |]. split; [ exact Hpast' |].
  split; [ by eapply consumed_next; try (done || lia) |]. apply moved_snoc; [ done | |].
  - intros Hg. rewrite list.Forall_forall in Hgs. specialize (Hgs _ Hg). cbn in Hgs. lia.
  - intros i Hi. rewrite <- Hlen. by eapply consumed_column.
Qed.

Section Columns.
Context `{FecHeaderWriter}.

Lemma gap_zeros seq prev :
  0 <= seq < 2 ^ 16 -> 0 <= prev < 2 ^ 16 -> 0 < u16 (seq - prev) -> u16 (seq - prev - 1) = u16 (seq - prev) - 1.
Proof. intros Hs Hp Hd. unfold u16 in *. Z.to_euclidean_division_equations. lia. Qed.

Lemma insert_columns_Ok old0 nsize osize r rest : forall n k prev tb gs tmp old,
  0 <= r -> 0 < n -> 0 <= prev < 2 ^ 16 -> k = Z.of_nat (length gs) -> k + Z.of_nat (length rest) <= 8 * osize ->
  Forall rtp_ok rest -> Forall (fun g => g < n) gs ->
  StronglySorted Z.lt ((n - 1) :: positions (n - 1) prev rest) ->
  Forall (fun g => g < 8 * nsize /\ g < writer_MaxMediaPackets) (positions (n - 1) prev rest) ->
  has_rows tmp nsize r -> has_rows old0 osize r ->
  placed n tb tmp nsize r -> none_past n tb -> consumed k old0 old osize r -> moved old0 osize r gs tb ->
  exists tmp' old' n' tb', insert_columns rest nsize osize r n k prev tmp old = Ok (tmp', old', n') /\
    length tmp' = length tmp /\ length old' = length old0 /\ placed n' tb' tmp' nsize r /\ none_past n' tb' /\
    moved old0 osize r (gs ++ positions (n - 1) prev rest) tb' /\
    n' = default (n - 1) (list.last (positions (n - 1) prev rest)) + 1.
Proof.
  induction rest as [| m rest IH ]; intros n k prev tb gs tmp old Hr Hn Hprev Hk Hroom Hok Hgs Hsort Hmax Htr Hor Hpl Hpast Hcon Hmov.
  { exists tmp, old, n, tb. cbn. rewrite app_nil_r. split_and!; try done; [ apply Hcon | lia ]. }
  apply Forall_cons_1 in Hok as [Hm Hok]. pose proof (seq_of_range m Hm) as Hseq.
  cbn [positions] in *. set (g := n - 1 + u16 (seq_of m - prev)) in *.
  apply Forall_cons_1 in Hmax as [[Hg8 Hgm] Hmax]. inversion Hsort as [| ? ? Hsort' Hlt ]; subst.
  apply Forall_cons_1 in Hlt as [Hlt Hlt'].
  assert (Hgap : 0 < u16 (seq_of m - prev)) by (unfold g in Hlt; lia).
  cbn [insert_columns]. rewrite (proj2 (Z.eqb_neq n _)) by (unfold g in *; lia).
  rewrite ParseSequenceNumber_Ok, bind_Ok by done. cbn zeta. rewrite (gap_zeros _ _ Hseq Hprev Hgap).
  cbn [length] in Hroom.
  destruct (one_column n (u16 (seq_of m - prev) - 1) (Z.of_nat (length gs)) tb gs tmp old old0 nsize osize r)
    as (tmp1 & old1 & tb1 & Hstep & Hl1 & Hpl1 & Hpast1 & Hcon1 & Hmov1); try (done || lia).
  replace (n + (u16 (seq_of m - prev) - 1)) with g in * by (unfold g; lia).
  assert (Hgs1 : Forall (fun g' => g' < g + 1) (gs ++ [g])).
  { apply Forall_app_2; [ eapply list.Forall_impl; [ exact Hgs |] ; cbn; unfold g in *; lia | repeat constructor; lia ]. }
  destruct (IH (g + 1) (Z.of_nat (length gs) + 1) (seq_of m) tb1 (gs ++ [g]) tmp1 old1)
    as (tmp' & old' & n' & tb' & Hrun & Hl' & Hlo & Hpl' & Hpast' & Hmov' & Hn'); try (done || lia).
  { rewrite length_app. cbn. lia. }
  { by rewrite Z.add_simpl_r. }
  { by rewrite Z.add_simpl_r. }
  { unfold has_rows. by rewrite Hl1. }
  rewrite Z.add_simpl_r in *. exists tmp', old', n', tb'.
  split; [ rewrite <- Hrun |].
  - revert Hstep. generalize (if 0 <? u16 (seq_of m - prev) - 1
      then InsertZeroColumns (u16 (seq_of m - prev) - 1) tmp nsize r n else Ok tmp).
    intros [tmp0 |]; [| done ]; intros Hstep. cbn in Hstep |- *. by rewrite Hstep.
  - split; [ congruence |]. split; [ done |]. split; [ done |]. split; [ done |].
    split; [ by rewrite <- app_assoc in Hmov' |]. rewrite Hn'. f_equal.
    rewrite last_cons. by destruct (list.last _).
Qed.

(** The first column and the loop: the mask with its last byte still open. *)
Lemma first_columns_Ok m0 rest nsize osize r tmp old :
  0 < r -> 0 < osize -> 0 < nsize -> Forall rtp_ok (m0 :: rest) -> Z.of_nat (length (m0 :: rest)) <= 8 * osize ->
  StronglySorted Z.lt (positions 0 (seq_of m0) (m0 :: rest)) ->
  Forall (fun g => g < 8 * nsize /\ g < writer_MaxMediaPackets) (positions 0 (seq_of m0) (m0 :: rest)) ->
  has_rows tmp nsize r -> has_rows old osize r -> Forall (fun b => 0 <= b < 256) old ->
  (forall i q, 0 <= i < r -> 0 <= q < nsize -> rb tmp nsize i q = 0) ->
  exists tmp' old' n' tb',
    ('(tmp, old) ← CopyColumn tmp nsize old osize r 0 0;
     insert_columns rest nsize osize r 1 1 (seq_of m0) tmp old) = Ok (tmp', old', n') /\
    length tmp' = length tmp /\ length old' = length old /\ placed n' tb' tmp' nsize r /\ none_past n' tb' /\
    moved old osize r (positions 0 (seq_of m0) (m0 :: rest)) tb' /\
    n' = default 0 (list.last (positions 0 (seq_of m0) (m0 :: rest))) + 1.
Proof.
  intros Hr Ho Hn Hok Hlen Hsort Hmax Htr Hor Hb Hzero. cbn [length] in Hlen.
  apply Forall_cons_1 in Hok as [Hm0 Hok].
  assert (Hpos : positions 0 (seq_of m0) (m0 :: rest) = 0 :: positions 0 (seq_of m0) rest)
    by (cbn [positions]; by rewrite Z.sub_diag).
  rewrite Hpos in *. apply Forall_cons_1 in Hmax as [_ Hmax].
  assert (Hpl0 : placed 0 (fun _ _ => false) tmp nsize r).
  { intros i q Hi Hq. rewrite Hzero by done. split; [ lia |]. intros t Ht. rewrite Z.testbit_0_l.
    destruct (_ <? _); [ done |]. by rewrite andb_false_r. }
  destruct (one_column 0 0 0 (fun _ _ => false) [] tmp old old nsize osize r)
    as (tmp1 & old1 & tb1 & Hstep & Hl1 & Hpl1 & Hpast1 & Hcon1 & Hmov1); try (done || lia); try by constructor.
  { by apply consumed_start; try lia. }
  rewrite Z.ltb_irrefl, bind_Ok in Hstep. change (0 + 0) with 0 in *. change (0 + 1) with 1 in *.
  rewrite Hstep, bind_Ok. cbn [app] in Hmov1.
  destruct (insert_columns_Ok old nsize osize r rest 1 1 (seq_of m0) tb1 [0] tmp1 old1)
    as (tmp' & old' & n' & tb' & Hrun & Hl' & Hlo & Hpl' & Hpast' & Hmov' & Hn'); try (done || lia).
  { by apply seq_of_range. }
  { by repeat constructor. }
  { unfold has_rows. by rewrite Hl1. }
  change (1 - 1) with 0 in *. exists tmp', old', n', tb'. cbv beta iota. rewrite Hrun.
  split_and!; try done; [ congruence |]. rewrite Hn', last_cons. by destruct (list.last _).
Qed.

End Columns.

(** ** Blocks *)

(** Sequence numbers ascend, each counted from the one before it, and the last
    is less than a whole turn ahead of the first. *)
Definition offsets (media : list (list Z)) : list Z :=
  match media with [] => [] | m0 :: _ => positions 0 (seq_of m0) media end.

Definition in_order (media : list (list Z)) : Prop :=
  StronglySorted Z.lt (offsets media) /\ Forall (fun g => g < 2 ^ 16) (offsets media).

(** The sequence numbers the block spans. *)
Definition width (media : list (list Z)) : Z := default 0 (list.last (offsets media)) + 1.

Lemma length_positions g prev media : length (positions g prev media) = length media.
Proof. revert g prev. induction media as [| m media IH ]; intros g prev; cbn; [ done | by rewrite IH ]. Qed.

Lemma positions_nonneg g prev media : 0 <= g -> Forall (fun p => 0 <= p) (positions g prev media).
Proof.
  revert g prev. induction media as [| m media IH ]; intros g prev Hg; cbn; constructor.
  - pose proof (u16_range (seq_of m - prev)). lia.
  - apply IH. pose proof (u16_range (seq_of m - prev)). lia.
Qed.

Lemma length_offsets media : length (offsets media) = length media.
Proof. destruct media; [ done | apply length_positions ]. Qed.

Lemma offsets_nonneg media : Forall (fun p => 0 <= p) (offsets media).
Proof. destruct media; [ constructor | by apply positions_nonneg ]. Qed.

Lemma offsets_cons m0 rest : offsets (m0 :: rest) = 0 :: positions 0 (seq_of m0) rest.
Proof. unfold offsets. cbn [positions]. by rewrite Z.sub_diag. Qed.

Lemma last_position g prev media p : list.last (positions g prev media) = Some p ->
  exists m, list.last media = Some m /\ (p - g) mod 2 ^ 16 = (seq_of m - prev) mod 2 ^ 16.
Proof.
  revert g prev. induction media as [| m media IH ]; intros g prev Hp; [ done |]. cbn [positions] in Hp.
  rewrite last_cons in Hp. rewrite last_cons. destruct (list.last (positions _ _ media)) as [p' |] eqn:E.
  - injection Hp as <-. destruct (IH _ _ E) as (m' & -> & Hm'). exists m'. split; [ done |].
    unfold u16 in Hm'. revert Hm'. Z.to_euclidean_division_equations. lia.
  - injection Hp as <-. apply last_None in E. destruct media; [| done ]. exists m. split; [ done |].
    unfold u16. rewrite Z.add_simpl_l. by rewrite Z.mod_mod by lia.
Qed.

Lemma span_is_width m0 rest back :
  in_order (m0 :: rest) -> list.last (m0 :: rest) = Some back -> u16 (seq_of back - seq_of m0) = width (m0 :: rest) - 1.
Proof.
  intros [_ Hlt] Hback. unfold width. rewrite Z.add_simpl_r.
  pose proof (length_offsets (m0 :: rest)) as Hlen.
  destruct (list.last (offsets (m0 :: rest))) as [p |] eqn:Ep; [| apply last_None in Ep; by rewrite Ep in Hlen ].
  change (default 0 (Some p)) with p. destruct (last_position _ _ _ _ Ep) as (m & Hm & Hmod).
  rewrite Hback in Hm. injection Hm as <-. unfold u16. rewrite <- Hmod, Z.sub_0_r. apply Z.mod_small.
  apply last_Some_elem_of in Ep.
  pose proof (proj1 (list.Forall_forall _ _) (offsets_nonneg (m0 :: rest)) _ Ep) as Hp0.
  pose proof (proj1 (list.Forall_forall _ _) Hlt _ Ep) as Hp1. cbv beta in Hp0, Hp1. lia.
Qed.

Lemma last_offset media p : list.last (offsets media) = Some p -> offsets media !! (length media - 1)%nat = Some p.
Proof. rewrite last_lookup, length_offsets. by replace (Nat.pred (length media)) with (length media - 1)%nat by lia. Qed.

Lemma offset_below media k g : in_order media -> offsets media !! k = Some g -> Z.of_nat k <= g < width media.
Proof.
  intros [Hs _] Hk. pose proof (lookup_lt_Some _ _ _ Hk) as Hlt. rewrite length_offsets in Hlt.
  destruct media as [| m0 rest ]; [ done |]. split.
  - assert (H0 : offsets (m0 :: rest) !! 0%nat = Some 0) by (by rewrite offsets_cons).
    pose proof (sorted_apart _ _ _ _ _ Hs H0 Hk). lia.
  - unfold width. destruct (list.last (offsets (m0 :: rest))) as [p |] eqn:Ep.
    + apply last_offset in Ep. change (default 0 (Some p)) with p. pose proof (sorted_apart _ _ _ _ _ Hs Hk Ep ltac:(lia)). lia.
    + apply last_None in Ep. by rewrite Ep in Hk.
Qed.

Lemma width_at_least media : in_order media -> media <> [] -> Z.of_nat (length media) <= width media.
Proof.
  intros Hin Hne. destruct (lookup_lt_is_Some_2 (offsets media) (length media - 1)) as [g Hg].
  { rewrite length_offsets. destruct media; cbn; [ done | lia ]. }
  pose proof (offset_below _ _ _ Hin Hg). lia.
Qed.

(** Without gaps every packet is in its own place. *)
Lemma no_gaps media k g :
  in_order media -> width media = Z.of_nat (length media) -> offsets media !! k = Some g -> g = Z.of_nat k.
Proof.
  intros Hin Hw Hk. pose proof (offset_below _ _ _ Hin Hk) as Hb. pose proof (lookup_lt_Some _ _ _ Hk) as Hlt.
  rewrite length_offsets in Hlt. destruct (lookup_lt_is_Some_2 (offsets media) (length media - 1)) as [p Hp].
  { rewrite length_offsets. lia. }
  pose proof (sorted_apart _ _ _ _ _ (proj1 Hin) Hk Hp ltac:(lia)). pose proof (offset_below _ _ _ Hin Hp). lia.
Qed.

(** ** The widened mask *)

(** Column [k] of the old mask stands where packet [k] is counted from the
    first one, and no other bit is set. *)
Definition widened (old masks : list Z) (osize nsize r : Z) (gs : list Z) : Prop :=
  (forall i k g, 0 <= i < r -> gs !! k = Some g -> mask_bit masks nsize i g = mask_bit old osize i (Z.of_nat k)) /\
  (forall i p, 0 <= i < r -> 0 <= p < 8 * nsize -> p ∉ gs -> mask_bit masks nsize i p = false) /\
  (forall i q, 0 <= i < r -> 0 <= q < nsize -> 0 <= rb masks nsize i q < 256).

Lemma rb_blit new old size r i q :
  0 <= size -> has_rows new size r -> has_rows old size r -> 0 <= i < r -> 0 <= q < size ->
  rb (blit 0 (take (Z.to_nat (r * size)) new) old) size i q = rb new size i q.
Proof.
  intros Hs Hn Ho Hi Hq. unfold has_rows in *. assert (i * size + q < r * size) by nia. assert (0 <= i * size) by nia.
  unfold rb, byte. rewrite lookup_blit by (rewrite length_take; lia). rewrite length_take.
  destruct (decide _) as [Hin | Hin]; [| lia ]. rewrite lookup_take_lt by lia. do 2 f_equal. lia.
Qed.

(** The closing shift and the copy back. *)
Lemma close_Ok n tb tmp old nsize r :
  0 <= n -> 0 <= r -> 0 < nsize -> n / 8 < nsize \/ n mod 8 = 0 ->
  has_rows tmp nsize r -> has_rows old nsize r -> placed n tb tmp nsize r -> none_past n tb ->
  exists tmp' masks,
    (tmp ← (if negb (n mod 8 =? 0) then
              for_loop 0 (Z.to_nat r) (fun row tmp =>
                let new_byte_index := row * nsize + n / 8 in
                b ← get tmp new_byte_index;
                put tmp new_byte_index (u8 (Z.shiftl b (7 - n mod 8)))) tmp
            else Ok tmp);
     masks ← memcpy old 0 tmp 0 (r * nsize);
     Ok (masks, tmp)) = Ok (masks, tmp') /\
    length tmp' = length tmp /\ length masks = length old /\
    (forall i q t, 0 <= i < r -> 0 <= q < nsize -> 0 <= t < 8 -> Z.testbit (rb masks nsize i q) t = tb i (8 * q + 7 - t)) /\
    (forall i q, 0 <= i < r -> 0 <= q < nsize -> 0 <= rb masks nsize i q < 256).
Proof.
  intros Hn Hr Hs Hin Htr Hor Hpl Hpast.
  assert (Hshift : exists tmp', (if negb (n mod 8 =? 0) then
      for_loop 0 (Z.to_nat r) (fun row tmp =>
        let new_byte_index := row * nsize + n / 8 in
        b ← get tmp new_byte_index;
        put tmp new_byte_index (u8 (Z.shiftl b (7 - n mod 8)))) tmp
    else Ok tmp) = Ok tmp' /\ length tmp' = length tmp /\
    (forall i q t, 0 <= i < r -> 0 <= q < nsize -> 0 <= t < 8 -> Z.testbit (rb tmp' nsize i q) t = tb i (8 * q + 7 - t)) /\
    (forall i q, 0 <= i < r -> 0 <= q < nsize -> 0 <= rb tmp' nsize i q < 256)).
  { destruct (Z.eqb_spec (n mod 8) 0) as [Hm | Hm]; cbn [negb].
    - exists tmp. split_and!; try done; [| intros i q Hi Hq; by apply Hpl ].
      intros i q t Hi Hq Ht. destruct (Hpl i q Hi Hq) as [_ Hb]. rewrite Hb by done. rewrite Hm.
      destruct (Z.ltb_spec q (n / 8)); [ done |]. rewrite (Hpast i (8 * q + 7 - t)).
      + destruct (Z.leb_spec 1 t), (Z.leb_spec t 0); try lia; by rewrite ?andb_false_r.
      + pose proof (Z.div_mod n 8). lia.
    - destruct Hin as [Hin |]; [| done ].
      destruct (row_loop tmp nsize r (n / 8) (fun b => u8 (Z.shiftl b (7 - n mod 8))) Hr Htr) as (tmp' & Hloop & Hl & Hrb).
      { split; [ apply Z.div_pos |]; lia. }
      exists tmp'. split_and!; [ exact Hloop | done | by apply (placed_final n tb tmp tmp') |].
      intros i q Hi Hq. rewrite Hrb by done. destruct (decide _); [ apply u8_range | by apply Hpl ]. }
  destruct Hshift as (tmp' & -> & Hl & Hbits & Hrange). rewrite bind_Ok. unfold has_rows in *. assert (0 <= r * nsize) by nia.
  rewrite memcpy_Ok, bind_Ok by lia. do 2 eexists. split; [ reflexivity |]. cbn [Z.to_nat]. rewrite drop_0.
  change (Z.to_nat 0) with 0%nat. rewrite length_blit by (rewrite length_take; lia). split_and!; try done.
  - intros i q t Hi Hq Ht. rewrite rb_blit by (unfold has_rows; lia). by apply Hbits.
  - intros i q Hi Hq. rewrite rb_blit by (unfold has_rows; lia). by apply Hrange.
Qed.

Lemma rb_cleared tmp nsize r i q :
  0 <= nsize -> has_rows tmp nsize r -> 0 <= i < r -> 0 <= q < nsize ->
  rb (blit 0 (replicate (Z.to_nat (r * nsize)) 0) tmp) nsize i q = 0.
Proof.
  intros Hs Hrows Hi Hq. unfold has_rows in Hrows. assert (0 <= i * nsize + q < r * nsize) by nia.
  unfold rb, byte. rewrite lookup_blit by (rewrite length_replicate; lia). rewrite length_replicate.
  rewrite decide_True by lia. by rewrite lookup_replicate_2 by lia.
Qed.

Section Widening.
Context `{CheckMode} `{FecHeaderWriter}.

(** What the buffers of the encoder hold between the choice of the masks and
    their widening: [r] rows for the block, with room for the widest mask. *)
Record masks_ready (this : MaskBuffers) (media : list (list Z)) (r : Z) : Prop := {
  ready_size : up_mask_size this = row_bytes (Z.of_nat (length media));
  ready_room : has_rows (up_masks this) 6 r;
  ready_tmp : has_rows (up_tmp_masks this) 6 r;
  ready_bytes : Forall (fun b => 0 <= b < 256) (up_masks this);
  ready_past : forall i p, 0 <= i < r -> Z.of_nat (length media) <= p < 8 * up_mask_size this ->
    mask_bit (up_masks this) (up_mask_size this) i p = false
}.

Lemma has_rows_le m size r : 0 <= size <= 6 -> 0 <= r -> has_rows m 6 r -> has_rows m size r.
Proof. unfold has_rows. intros. nia. Qed.

Lemma widened_intro old masks osize nsize r gs tb :
  0 < nsize -> has_rows masks nsize r -> Forall (fun g => 0 <= g < 8 * nsize) gs -> moved old osize r gs tb ->
  (forall i q t, 0 <= i < r -> 0 <= q < nsize -> 0 <= t < 8 -> Z.testbit (rb masks nsize i q) t = tb i (8 * q + 7 - t)) ->
  (forall i q, 0 <= i < r -> 0 <= q < nsize -> 0 <= rb masks nsize i q < 256) ->
  widened old masks osize nsize r gs.
Proof.
  intros Hs Hrows Hgs [Hcol Hno] Hbits Hrange.
  assert (Hp : forall i p, 0 <= i < r -> 0 <= p < 8 * nsize -> mask_bit masks nsize i p = tb i p).
  { intros i p Hi Hp. unfold has_rows in Hrows. assert ((i + 1) * nsize <= r * nsize) by nia.
    rewrite mask_bit_rb by lia. pose proof (Z.mod_pos_bound p 8 ltac:(lia)). pose proof (Z.div_mod p 8 ltac:(lia)).
    rewrite Hbits by (done || lia). f_equal. lia. }
  split_and!; [ | | done ].
  - intros i k g Hi Hk. rewrite Hp; [ by apply Hcol | done |].
    by apply (Forall_lookup_1 (fun g => 0 <= g < 8 * nsize) gs k).
  - intros i p Hi Hb Hnot. rewrite Hp by done. by apply Hno.
Qed.

(** [InsertZerosInPacketMasks] from the call of [memset] on. *)
Lemma rebuild_Ok m0 rest this r nsize :
  let media := m0 :: rest in
  0 < r -> Forall rtp_ok media -> in_order media -> masks_ready this media r -> 0 < nsize <= 6 ->
  width media <= 8 * nsize -> width media <= writer_MaxMediaPackets -> width media <= 48 ->
  exists this',
    (tmp ← memset (up_tmp_masks this) 0 0 (r * nsize);
     '(tmp, old) ← CopyColumn tmp nsize (up_masks this) (up_mask_size this) r 0 0;
     '(tmp, old, new_bit_index) ← insert_columns rest nsize (up_mask_size this) r 1 1 (seq_of m0) tmp old;
     tmp ←
       (if negb (new_bit_index mod 8 =? 0) then
          for_loop 0 (Z.to_nat r) (fun row tmp =>
            let new_byte_index := row * nsize + new_bit_index / 8 in
            b ← get tmp new_byte_index;
            put tmp new_byte_index (u8 (Z.shiftl b (7 - new_bit_index mod 8)))) tmp
        else Ok tmp);
     masks ← memcpy old 0 tmp 0 (r * nsize);
     Ok (mkBuffers masks tmp (up_mask_size this), new_bit_index)) = Ok (this', width media) /\
    length (up_masks this') = length (up_masks this) /\
    widened (up_masks this) (up_masks this') (up_mask_size this) nsize r (offsets media).
Proof.
  intros media Hr Hok Hin [Hsize Hroom Htmp Hbytes _] Hns Hfit Hmax H48.
  pose proof (row_bytes_pos (Z.of_nat (length media))) as Hob. pose proof (width_at_least media Hin ltac:(done)) as Hw.
  pose proof (row_bytes_enough (Z.of_nat (length media)) ltac:(lia)) as Hwo. rewrite <- Hsize in Hob, Hwo.
  assert (Hrows : has_rows (up_tmp_masks this) nsize r) by (apply has_rows_le; (done || lia)).
  assert (Hrn : 0 <= r * nsize) by nia. unfold has_rows in Hrows. rewrite memset_Ok, bind_Ok by lia.
  change (Z.to_nat 0) with 0%nat. set (tmp := blit 0 _ _).
  assert (Htl : length tmp = length (up_tmp_masks this)) by (apply length_blit; rewrite length_replicate; lia).
  destruct (first_columns_Ok m0 rest nsize (up_mask_size this) r tmp (up_masks this))
    as (tmp1 & old1 & n1 & tb & Hrun & Hl1 & Hlo1 & Hpl & Hpast & Hmov & Hn1); try (done || lia).
  { apply Hin. }
  { apply Forall_lookup_2. intros k g Hk. pose proof (offset_below media k g Hin Hk). lia. }
  { unfold has_rows. by rewrite Htl. }
  { apply has_rows_le; (done || lia). }
  { intros i q Hi Hq. apply rb_cleared; (done || lia). }
  fold media (offsets media) (width media) in Hn1, Hmov. subst n1.
  destruct (close_Ok (width media) tb tmp1 old1 nsize r) as (tmp2 & masks & Hclose & Hl2 & Hlm & Hbits & Hrange);
    try (done || lia).
  { destruct (Z.eq_dec (width media) (8 * nsize)) as [-> |]; [ right; by rewrite Z.mul_comm, Z.mod_mul |].
    left. apply Z.div_lt_upper_bound; lia. }
  { unfold has_rows. by rewrite Hl1, Htl. }
  { unfold has_rows. rewrite Hlo1. apply has_rows_le; (done || lia). }
  exists (mkBuffers masks tmp2 (up_mask_size this)). split; [| split; [ cbn; congruence |] ].
  - revert Hrun. destruct (CopyColumn _ _ _ _ _ _ _) as [[tmp0 old0] |]; [| done ]. rewrite !bind_Ok.
    cbv beta iota. intros ->. rewrite bind_Ok. cbv beta iota.
    revert Hclose. destruct (if negb _ then _ else _) as [tmp3 |]; [| done ]. rewrite !bind_Ok.
    destruct (memcpy _ _ _ _ _) as [masks' |]; [| done ]. rewrite !bind_Ok. intros Hclose. by simplify_eq.
  - apply (widened_intro _ _ _ _ _ _ tb); try (done || lia).
    + unfold has_rows. cbn [up_masks]. rewrite Hlm, Hlo1. apply has_rows_le; (done || lia).
    + apply Forall_lookup_2. intros k g Hk. pose proof (offset_below media k g Hin Hk). lia.
Qed.

(** The sizes of a block of two packets or more, by its width. *)
Lemma block_sizes m0 m1 rest this r :
  let media := m0 :: m1 :: rest in
  Forall rtp_ok media -> in_order media ->
  InsertZerosInPacketMasks this media r =
    if width media =? Z.of_nat (length media) then Ok (this, Z.of_nat (length media))
    else if writer_MaxMediaPackets <? width media then Ok (this, -1)
    else
      nsize ← PacketMaskSize (width media);
      tmp ← memset (up_tmp_masks this) 0 0 (r * nsize);
      '(tmp, old) ← CopyColumn tmp nsize (up_masks this) (up_mask_size this) r 0 0;
      '(tmp, old, new_bit_index) ← insert_columns (m1 :: rest) nsize (up_mask_size this) r 1 1 (seq_of m0) tmp old;
      tmp ←
        (if negb (new_bit_index mod 8 =? 0) then
           for_loop 0 (Z.to_nat r) (fun row tmp =>
             let new_byte_index := row * nsize + new_bit_index / 8 in
             b ← get tmp new_byte_index;
             put tmp new_byte_index (u8 (Z.shiftl b (7 - new_bit_index mod 8)))) tmp
         else Ok tmp);
      masks ← memcpy old 0 tmp 0 (r * nsize);
      Ok (mkBuffers masks tmp (up_mask_size this), new_bit_index).
Proof.
  intros media Hok Hin. pose proof (width_at_least media Hin ltac:(done)) as Hw.
  destruct (list.last media) as [back |] eqn:Eback; [| by apply last_None in Eback ].
  assert (Hbok : rtp_ok back) by (apply last_Some_elem_of in Eback; by eapply (proj1 (list.Forall_forall _ _) Hok)).
  assert (Hm0 : rtp_ok m0) by (by apply Forall_inv in Hok).
  pose proof (span_is_width m0 (m1 :: rest) back Hin Eback) as Hspan. fold media in Hspan.
  pose proof (u16_range (seq_of back - seq_of m0)) as Hu.
  unfold InsertZerosInPacketMasks. unfold media at 1 2 3. fold media. rewrite Eback. cbv beta iota zeta.
  rewrite !ParseSequenceNumber_Ok, !bind_Ok by done. rewrite Hspan in Hu |- *.
  replace (width media - 1 - Z.of_nat (length media) + 1) with (width media - Z.of_nat (length media)) by lia.
  rewrite !(u64_id (width media - _)), Z.sub_add, !u64_id by lia.
  by destruct (Z.eqb_spec (width media - Z.of_nat (length media)) 0), (Z.eqb_spec (width media) (Z.of_nat (length media))); try lia.
Qed.

Lemma widen_gaps m0 m1 rest this r :
  let media := m0 :: m1 :: rest in
  0 < r -> Forall rtp_ok media -> in_order media -> masks_ready this media r ->
  Z.of_nat (length media) <> width media -> width media <= writer_MaxMediaPackets -> width media <= 48 ->
  exists this', InsertZerosInPacketMasks this media r = Ok (this', width media) /\
    length (up_masks this') = length (up_masks this) /\
    widened (up_masks this) (up_masks this') (up_mask_size this) (row_bytes (width media)) r (offsets media).
Proof.
  intros media Hr Hok Hin Hready Hne Hmax H48.
  pose proof (width_at_least media Hin ltac:(done)) as Hw. pose proof (row_bytes_pos (width media)) as Hnb.
  pose proof (row_bytes_enough (width media) H48) as Hwn.
  unfold media at 1. rewrite block_sizes by done. fold media. rewrite (proj2 (Z.eqb_neq _ _)), (proj2 (Z.ltb_ge _ _)) by lia.
  rewrite PacketMaskSize_Ok, bind_Ok by lia.
  by apply (rebuild_Ok m0 (m1 :: rest)); try lia.
Qed.

(** Without gaps nothing changes. *)
Lemma widen_unchanged media this r :
  media <> [] -> Forall rtp_ok media -> in_order media -> Z.of_nat (length media) = width media ->
  InsertZerosInPacketMasks this media r = Ok (this, width media).
Proof.
  intros Hne Hok Hin Hw. destruct media as [| m0 [| m1 rest ]]; [ done | by rewrite <- Hw |].
  rewrite block_sizes by done. by rewrite (proj2 (Z.eqb_eq _ _)), Hw by done.
Qed.

Lemma widened_same masks size r media :
  in_order media -> Z.of_nat (length media) = width media -> 0 < size -> has_rows masks size r ->
  Forall (fun b => 0 <= b < 256) masks ->
  (forall i p, 0 <= i < r -> Z.of_nat (length media) <= p < 8 * size -> mask_bit masks size i p = false) ->
  widened masks masks size size r (offsets media).
Proof.
  intros Hin Hw Hs Hrows Hb Hpast. split_and!.
  - intros i k g Hi Hk. by rewrite (no_gaps media k g).
  - intros i p Hi Hp Hnot. apply Hpast; [ done |].
    destruct (Z.le_gt_cases (Z.of_nat (length media)) p); [ lia |]. destruct Hnot.
    destruct (lookup_lt_is_Some_2 (offsets media) (Z.to_nat p)) as [g Hg]; [ rewrite length_offsets; lia |].
    rewrite <- (Z2Nat.id p), <- (no_gaps media (Z.to_nat p) g) by (done || lia). by eapply list_elem_of_lookup_2.
  - intros i q Hi Hq. pose proof (row_in_range masks size r i q Hrows Hi Hq). unfold rb, byte.
    destruct (masks !! _) as [b |] eqn:E; cbn; [| lia ]. by apply (Forall_lookup_1 _ _ _ _ Hb E).
Qed.

Lemma widen_Ok media this r :
  0 < r -> media <> [] -> Forall rtp_ok media -> in_order media -> masks_ready this media r ->
  Z.of_nat (length media) <= writer_MaxMediaPackets <= 48 ->
  if width media <=? writer_MaxMediaPackets
  then exists this', InsertZerosInPacketMasks this media r = Ok (this', width media) /\
    length (up_masks this') = length (up_masks this) /\
    widened (up_masks this) (up_masks this') (up_mask_size this) (row_bytes (width media)) r (offsets media)
  else InsertZerosInPacketMasks this media r = Ok (this, -1).
Proof.
  intros Hr Hne Hok Hin Hready Hmax. destruct (Z.eq_dec (Z.of_nat (length media)) (width media)) as [Hw | Hw].
  - rewrite (proj2 (Z.leb_le _ _)) by lia. exists this. rewrite widen_unchanged by done.
    destruct Hready as [Hsize Hroom Htmp Hbytes Hpast]. pose proof (row_bytes_pos (Z.of_nat (length media))).
    rewrite <- Hw, <- Hsize. split_and!; [ done | done |].
    apply widened_same; try (done || lia). apply has_rows_le; (done || lia).
  - destruct media as [| m0 [| m1 rest ]]; [ done | |].
    { unfold width in Hw. rewrite offsets_cons in Hw. by cbn in Hw. }
    destruct (Z.leb_spec (width (m0 :: m1 :: rest)) writer_MaxMediaPackets) as [Hle | Hgt].
    + apply widen_gaps; (done || lia).
    + rewrite block_sizes by done. by rewrite (proj2 (Z.eqb_neq _ _)), (proj2 (Z.ltb_lt _ _)) by lia.
Qed.

End Widening.

(** ** Theorems *)

(** C23. For a block of RTP packets with ascending sequence numbers
    [InsertZerosInPacketMasks] refuses exactly the blocks that span more
    sequence numbers than the header format covers; otherwise it returns the
    span, and the masks it leaves have the column of every packet at that
    packet's distance from the first, and zeros at the missing numbers. *)
Theorem InsertZeros_places_columns (mode : CheckMode) (writer : FecHeaderWriter) this media r :
  0 < r -> media <> [] -> Forall rtp_ok media -> in_order media -> masks_ready this media r ->
  Z.of_nat (length media) <= writer_MaxMediaPackets <= 48 ->
  if width media <=? writer_MaxMediaPackets
  then exists this', InsertZerosInPacketMasks this media r = Ok (this', width media) /\
    length (up_masks this') = length (up_masks this) /\
    widened (up_masks this) (up_masks this') (up_mask_size this) (row_bytes (width media)) r (offsets media)
  else InsertZerosInPacketMasks this media r = Ok (this, -1).
Proof. intros. by apply widen_Ok. Qed.
