(* ===== verification/RtpFecBuffers.v ===== *)
(** * The arrays of the vendored encoder

    [packet_masks_], [tmp_packet_masks_] and the mask table's own buffer are
    arrays of bytes that a long-lived encoder uses for one block after the
    other. Whatever [EncodeFec] is given and however it ends, they keep their
    lengths and hold bytes. *)
From S2P Require Import Prelude.
From S2P Require Import TablesBursty.
From S2P Require Import TablesRandom.
From S2P Require Import MaskTable.
From S2P Require Import UnequalProtection.
From S2P Require Import RtpFecCodec.
From S2P Require Import RtpFecAlgebra.
From S2P Require Import UlpfecHeader.
From S2P Require Import RtpFecEncoder.
From S2P Require Import RtpFecColumns.
From stdpp Require Import base list list_numbers numbers option tactics.
From Stdlib Require Import ZArith Lia.

#[local] Open Scope Z_scope.

Create HintDb buffers.
#[local] Hint Resolve put_buffer get_bytes memcpy_buffer memset_buffer slice_bytes u8_range : buffers.

(** ** The mask tables *)

Lemma mask_byte_range k r row col : 0 <= mask_byte k r row col < 256.
Proof.
  unfold mask_byte, mask_term.
  repeat match goal with |- context [if ?b then _ else _] => destruct b end; vm_compute; split; congruence.
Qed.

Lemma static_tables : forallb is_u8 kPacketMaskBurstyTbl && forallb is_u8 kPacketMaskRandomTbl = true.
Proof. vm_compute. reflexivity. Qed.

Lemma bytes_check l : forallb is_u8 l = true -> bytes_ok l.
Proof.
  rewrite forallb_forall. intros Hb. apply list.Forall_forall. intros b Hin. apply is_u8_spec, Hb. by apply list_elem_of_In.
Qed.

Definition table_bytes (n : nat) (mt : PacketMaskTable) : Prop :=
  bytes_ok (table_ mt) /\ buffer n (fec_packet_mask_ mt).

Section Tables.
Context `{CheckMode}.

Lemma PacketMaskTable_new_bytes n garbage ty k mt :
  buffer n garbage -> PacketMaskTable_new garbage ty k = Ok mt -> table_bytes n mt.
Proof.
  intros Hg Hrun. pose proof static_tables as Ht. apply andb_true_iff in Ht as [Hb%bytes_check Hr%bytes_check].
  unfold PacketMaskTable_new, PickTable in Hrun. inv_binds. injection Hrun as <-. split; [| done ]. cbn [table_].
  destruct (bool_decide _) in *; inv_binds; repeat (case_match; inv_binds); by simplify_eq.
Qed.

Lemma LookUp_bytes n mt k r mt' v : table_bytes n mt -> LookUp mt k r = Ok (mt', v) -> table_bytes n mt' /\ bytes_ok v.
Proof.
  intros [Ht Hb] Hrun. unfold LookUp in Hrun. inv_binds. destruct (k <=? 12); inv_binds.
  - injection Hrun as <- <-. split; [ done |]. unfold LookUpInFecTable in *. inv_binds.
    eauto with buffers.
  - injection Hrun as <- <-. match goal with Hl : for_loop _ _ _ _ = Ok ?b |- _ => assert (Hb' : buffer n b) end.
    { eapply (for_loop_inv (buffer n)); [ exact Hb | | eassumption ]. intros row b b' Hb1.
      apply (for_loop_inv (buffer n)); [ done |]. intros col b2 b3 Hb2 Hput.
      eapply put_buffer; [ exact Hb2 | apply mask_byte_range | exact Hput ]. }
    split; [ by split |]. destruct Hb'. eauto with buffers.
Qed.

Lemma FitSubMask_buffer n nb sb rows sub pm base out :
  bytes_ok sub -> buffer n pm -> FitSubMask nb sb rows sub pm base = Ok out -> buffer n out.
Proof.
  intros Hs Hp. unfold FitSubMask. destruct (nb =? sb); [ by apply memcpy_buffer |].
  apply (for_loop_inv (buffer n)); [ done |]. intros i pm1 pm2 Hp1.
  apply (for_loop_inv (buffer n)); [ done |]. intros j pm3 pm4 Hp3 Hput. inv_binds. eauto with buffers.
Qed.

#[local] Hint Resolve FitSubMask_buffer : buffers.

(** Both steps of the unequal masks: a sub-mask is looked up and copied. *)
Lemma sub_mask_buffer n g mt masks k r nb sb rows base mt' masks' :
  table_bytes g mt -> buffer n masks ->
  ('(mt, sub) ← LookUp mt k r; masks ← FitSubMask nb sb rows sub masks base; Ok (mt, masks)) = Ok (mt', masks') ->
  table_bytes g mt' /\ buffer n masks'.
Proof.
  intros Ht Hm Hrun. inv_binds. injection Hrun as <- <-.
  match goal with HL : LookUp _ _ _ = Ok _ |- _ => destruct (LookUp_bytes _ _ _ _ _ _ Ht HL) end. eauto with buffers.
Qed.

Lemma GeneratePacketMasks_buffer n g k r imp uep mt masks mt' masks' :
  table_bytes g mt -> buffer n masks -> GeneratePacketMasks_upstream k r imp uep mt masks = Ok (mt', masks') ->
  table_bytes g mt' /\ buffer n masks'.
Proof.
  intros Ht Hm Hrun. unfold GeneratePacketMasks_upstream in Hrun. inv_binds.
  destruct (negb uep || (imp =? 0)).
  { inv_binds. injection Hrun as <- <-.
    match goal with HL : LookUp _ _ _ = Ok _ |- _ => destruct (LookUp_bytes _ _ _ _ _ _ Ht HL) end. eauto with buffers. }
  unfold UnequalProtectionMask in Hrun. apply bind_Ok_inv in Hrun as ([mt1 pm1] & Hfirst & Hrest). cbv beta iota zeta in Hfirst, Hrest.
  assert (Hmid : table_bytes g mt1 /\ buffer n pm1).
  { destruct (0 <? SetProtectionAllocation k r imp); [| by simplify_eq ]. unfold ImportantPacketProtection in Hfirst.
    apply bind_Ok_inv in Hfirst as (sb & _ & Hfirst). by eapply sub_mask_buffer in Hfirst. }
  destruct Hmid. destruct (0 <? r - SetProtectionAllocation k r imp); [| by simplify_eq ]. unfold RemainingPacketProtection in Hrest.
  by eapply sub_mask_buffer in Hrest.
Qed.

(** ** Widening *)

Lemma CopyColumn_buffer n n' new nsize old osize r nb ob new' old' :
  buffer n new -> buffer n' old -> CopyColumn new nsize old osize r nb ob = Ok (new', old') ->
  buffer n new' /\ buffer n' old'.
Proof.
  intros Hn Ho Hrun. unfold CopyColumn in Hrun. inv_binds. revert Hrun.
  apply (for_loop_inv (fun '(a, b) => buffer n a /\ buffer n' b)); [ done |].
  intros i [a b] [a' b'] [Ha Hb] Hbody. inv_binds. injection Hbody as <- <-. split.
  - eapply put_buffer; [ exact Ha | | eassumption ].
    apply (copied_range (Z.rem nb 8)); eapply get_bytes; [ apply Ha | | apply Hb |]; eassumption.
  - eapply put_buffer; [ exact Hb | apply u8_range | eassumption ].
Qed.

Lemma shift_loop_buffer n nsize r nb m m' (g : Z -> Z) :
  buffer n m ->
  for_loop 0 r (fun row m => b ← get m (row * nsize + nb); put m (row * nsize + nb) (u8 (g b))) m = Ok m' -> buffer n m'.
Proof.
  intros Hm. apply (for_loop_inv (buffer n)); [ done |]. intros i m1 m2 Hm1 Hrun. inv_binds.
  eapply put_buffer; [ exact Hm1 | apply u8_range | exact Hrun ].
Qed.

Context `{FecHeaderWriter}.

Lemma insert_columns_buffer n n' nsize osize r media : forall nb ob prev tmp old tmp' old' nb',
  buffer n tmp -> buffer n' old -> insert_columns media nsize osize r nb ob prev tmp old = Ok (tmp', old', nb') ->
  buffer n tmp' /\ buffer n' old'.
Proof.
  induction media as [| m media IH ]; intros nb ob prev tmp old tmp' old' nb' Ht Ho Hrun; cbn [insert_columns] in Hrun.
  { by simplify_eq. }
  destruct (nb =? writer_MaxMediaPackets); [ by simplify_eq |].
  apply bind_Ok_inv in Hrun as (seq & _ & Hrun). cbv zeta in Hrun.
  apply bind_Ok_inv in Hrun as (tmp1 & Hzero & Hrun). apply bind_Ok_inv in Hrun as ([tmp2 old2] & Hcopy & Hrun).
  assert (Ht1 : buffer n tmp1).
  { revert Hzero. destruct (0 <? _); intros Hzero; [| by simplify_eq ]. by eapply shift_loop_buffer in Hzero. }
  destruct (CopyColumn_buffer _ _ _ _ _ _ _ _ _ _ _ Ht1 Ho Hcopy). by eapply IH in Hrun.
Qed.

(** The arrays. [packet_masks_] is declared with 48 rows of 6 bytes; the
    declaration of [tmp_packet_masks_] is gone with the original header file, it
    is taken to be the same. *)
Definition buffers_ok (this : MaskBuffers) : Prop := buffer 288 (up_masks this) /\ buffer 288 (up_tmp_masks this).

Lemma InsertZeros_buffers this media r this' bits :
  buffers_ok this -> InsertZerosInPacketMasks this media r = Ok (this', bits) -> buffers_ok this'.
Proof.
  intros [Hm Ht] Hrun. unfold InsertZerosInPacketMasks in Hrun.
  destruct media as [| m0 [| m1 rest ]]; [ by simplify_eq.. |].
  revert Hrun. destruct (list.last _) as [back |]; intros Hrun; [| by simplify_eq ].
  apply bind_Ok_inv in Hrun as (last_seq & _ & Hrun). apply bind_Ok_inv in Hrun as (first_seq & _ & Hrun).
  cbv zeta in Hrun. revert Hrun. destruct (_ =? 0); [ by intros ?; simplify_eq |].
  destruct (_ <? _); [ by intros ?; simplify_eq |]. intros Hrun.
  apply bind_Ok_inv in Hrun as (nsize & _ & Hrun). apply bind_Ok_inv in Hrun as (tmp0 & Hset & Hrun).
  apply bind_Ok_inv in Hrun as ([tmp1 old1] & Hcopy & Hrun).
  apply bind_Ok_inv in Hrun as ([[tmp2 old2] nb] & Hcols & Hrun). cbv beta iota in Hrun.
  apply bind_Ok_inv in Hrun as (tmp3 & Hshift & Hrun). apply bind_Ok_inv in Hrun as (masks & Hcpy & Hrun).
  assert (Ht0 : buffer 288 tmp0) by (by eapply memset_buffer in Hset).
  destruct (CopyColumn_buffer _ _ _ _ _ _ _ _ _ _ _ Ht0 Hm Hcopy) as [Ht1 Ho1].
  destruct (insert_columns_buffer _ _ _ _ _ _ _ _ _ _ _ _ _ _ Ht1 Ho1 Hcols) as [Ht2 Ho2].
  assert (Ht3 : buffer 288 tmp3) by (revert Hshift; destruct (negb _); intros Hshift; [ by eapply shift_loop_buffer in Hshift | by simplify_eq ]).
  simplify_eq. split; [| done ]. eapply memcpy_buffer; [ exact Ho2 | apply Ht3 | exact Hcpy ].
Qed.

End Tables.

(** On every path of [EncodeFec]. *)
Lemma EncodeFec_buffers `{CheckMode} `{FecHeaderWriter} this media pf imp uep ty garbage ret fecs this' :
  buffers_ok this -> buffer 288 garbage ->
  EncodeFec_upstream this media pf imp uep ty garbage = Ok (ret, fecs, this') ->
  buffers_ok this' /\ (ret = 0 \/ ret = -1 /\ Forall (fun fec => fec = []) fecs).
Proof.
  intros [Hm Ht] Hg Hrun. unfold EncodeFec_upstream in Hrun.
  do 3 (apply bind_Ok_inv in Hrun as (? & _ & Hrun)).
  destruct (_ <? _); [ simplify_eq; split; [ done | right; by split; [| constructor ] ] |].
  destruct (existsb _ media); [ simplify_eq; split; [ done | right; by split; [| constructor ] ] |].
  apply bind_Ok_inv in Hrun as (r & _ & Hrun). destruct (r =? 0); [ simplify_eq; by split; [| left ] |].
  apply bind_Ok_inv in Hrun as (mt & Hnew & Hrun). apply bind_Ok_inv in Hrun as (size & _ & Hrun).
  apply bind_Ok_inv in Hrun as (masks0 & Hset & Hrun). apply bind_Ok_inv in Hrun as ([mt' masks] & Hgen & Hrun).
  apply bind_Ok_inv in Hrun as ([this1 bits] & Hins & Hrun). cbv beta iota in Hrun.
  assert (Hm0 : buffer 288 masks0) by (by eapply memset_buffer in Hset).
  destruct (GeneratePacketMasks_buffer _ _ _ _ _ _ _ _ _ _ (PacketMaskTable_new_bytes _ _ _ _ _ Hg Hnew) Hm0 Hgen) as [_ Hm1].
  assert (Hb1 : buffers_ok this1) by (eapply InsertZeros_buffers; [| exact Hins ]; by split).
  destruct (bits <? 0); [ simplify_eq; split; [ done | right; split; [ done | by apply Forall_replicate ] ] |].
  apply bind_Ok_inv in Hrun as (size' & _ & Hrun). apply bind_Ok_inv in Hrun as (payloads & _ & Hrun).
  destruct media as [| front rest ]; [ done |]. do 3 (apply bind_Ok_inv in Hrun as (? & _ & Hrun)).
  simplify_eq. split; [ apply Hb1 | by left ].
Qed.

(** ** Theorems *)


