(* ===== verification/RtpFecBlocks.v ===== *)
(** * What the vendored encoder sends

    [EncodeFec] of the vendored original, from end to end: the masks it chooses
    (equal or unequal protection), widened over missing sequence numbers, make
    FEC packets whose header names, and whose payload sums up, exactly the
    media packets the mask tables promise; the reader of the other side
    understands every one of them. *)
From S2P Require Import Prelude.
From S2P Require Import Ascending.
From S2P Require Import MaskTable.
From S2P Require Import UnequalProtection.
From S2P Require Import RtpFecCodec.
From S2P Require Import RtpFecAlgebra.
From S2P Require Import RtpFecDecoder.
From S2P Require Import RtpFecSound.
From S2P Require Import RtpFecEncoder.
From S2P Require Import RtpFecColumns.
From S2P Require Import RtpFecBuffers.
From stdpp Require Import base list list_numbers numbers option tactics sorting.
From Stdlib Require Import ZArith Lia Sorted.

#[local] Open Scope Z_scope.

(** ** The masks of a block *)

(** Does FEC packet [i] of [r] protect media packet [j] of [k]? *)
Definition protects (ty : FecMaskType) (uep : bool) (k r imp i j : Z) : bool :=
  if negb uep || (imp =? 0) then mask_bit (mask_of ty k r) (row_bytes k) i j else uep_bit ty k r imp i j.

Lemma protects_covers ty uep k r imp :
  1 <= r <= k -> k <= 48 -> 0 <= imp <= k ->
  (forall j, 0 <= j < k -> exists i, 0 <= i < r /\ protects ty uep k r imp i j = true) /\
  (forall i, 0 <= i < r -> exists j, 0 <= j < k /\ protects ty uep k r imp i j = true) /\
  (forall i j, 0 <= i < r -> k <= j < 8 * row_bytes k -> protects ty uep k r imp i j = false).
Proof.
  intros Hr Hk Hi. unfold protects. destruct (negb uep || (imp =? 0)) eqn:E; [ by apply mask_of_covering |].
  apply orb_false_iff in E as [_ E]. apply Z.eqb_neq in E.
  destruct (SetProtectionAllocation_range k r imp ltac:(lia) ltac:(lia)) as [Ht Ht2].
  destruct (uep_covers ty k r imp Hr Hk ltac:(lia)) as [Hall _]. set (t := SetProtectionAllocation k r imp) in *.
  destruct (mask_of_covering ty k (r - t) ltac:(lia) Hk) as (_ & Hrow & Hpast). split_and!.
  - intros j Hj. destruct (Hall j Hj) as (i & Hi' & Hb). exists i. split; [ lia | done ].
  - intros i Hi'. unfold uep_bit. fold t. destruct (Z.ltb_spec i t).
    + destruct (mask_of_covering (base_type ty k) imp t ltac:(lia) ltac:(lia)) as (_ & Hrow' & _).
      destruct (Hrow' i ltac:(lia)) as (j & Hj & Hb). exists j. split; [ lia |].
      by rewrite (proj2 (Z.ltb_lt _ _)) by lia.
    + destruct (Hrow (i - t) ltac:(lia)) as (j & Hj & Hb). by exists j.
  - intros i j Hi' Hj. unfold uep_bit. fold t. destruct (Z.ltb_spec i t).
    + by rewrite (proj2 (Z.ltb_ge _ _)) by lia.
    + apply Hpast; lia.
Qed.

Lemma upstream_masks_Ok `{CheckMode} ty uep k r imp garbage masks :
  1 <= r <= k -> k <= 48 -> 0 <= imp <= k -> buffer 288 garbage -> buffer 288 masks -> zero_rows masks (row_bytes k) r ->
  exists mt masks',
    GeneratePacketMasks_upstream k r imp uep (mkPacketMaskTable (table_of ty k) garbage) masks = Ok (mt, masks') /\
    buffer 288 masks' /\
    forall i j, 0 <= i < r -> 0 <= j < 8 * row_bytes k -> mask_bit masks' (row_bytes k) i j = protects ty uep k r imp i j.
Proof.
  intros Hr Hk Hi Hg Hm Hz. pose proof (row_bytes_pos k) as Hrb. pose proof (mask_fits k r Hr Hk) as Hrk.
  pose proof Hg as [Hgl _]. pose proof Hm as [Hml _]. unfold kFECPacketMaskMaxSize in Hrk.
  enough (exists mt masks', GeneratePacketMasks_upstream k r imp uep (mkPacketMaskTable (table_of ty k) garbage) masks
      = Ok (mt, masks') /\
    forall i j, 0 <= i < r -> 0 <= j < 8 * row_bytes k -> mask_bit masks' (row_bytes k) i j = protects ty uep k r imp i j)
    as (mt & masks' & Hrun & Hbits).
  { exists mt, masks'. split_and!; [ done | | done ]. eapply GeneratePacketMasks_buffer; [| exact Hm | exact Hrun ].
    eapply (PacketMaskTable_new_bytes 288 garbage ty k); [ done |]. unfold PacketMaskTable_new. by rewrite PickTable_Ok by lia. }
  unfold GeneratePacketMasks_upstream, protects. dcheck. rewrite u64_id, PacketMaskSize_Ok, bind_Ok by lia.
  destruct (negb uep || (imp =? 0)) eqn:E.
  - destruct (LookUp_Ok ty k r garbage Hr Hk Hgl) as (buf & _ & HL). rewrite HL, bind_Ok. cbv beta iota.
    pose proof (length_mask_of ty k r Hr Hk) as Hlen. assert (0 <= r * row_bytes k) by nia.
    rewrite memcpy_Ok, bind_Ok by lia. change (Z.to_nat 0) with 0%nat. rewrite drop_0, take_ge by lia.
    do 2 eexists. split; [ reflexivity |]. intros i j Hij Hj. apply mask_bit_blit; try lia.
    assert ((i + 1) * row_bytes k <= r * row_bytes k) by nia. lia.
  - apply orb_false_iff in E as [_ E]. apply Z.eqb_neq in E.
    destruct (UnequalProtectionMask_Ok ty k r imp garbage masks) as (b' & out & HU & _ & Hbits); try (done || lia).
    by do 2 eexists.
Qed.

(** ** The packets of a row *)

(** The elements of [l] at the numbers [f] holds for, counted from [k]. *)
Fixpoint picked {A} (f : Z -> bool) (k : Z) (l : list A) : list A :=
  match l with
  | [] => []
  | x :: l => if f k then x :: picked f (k + 1) l else picked f (k + 1) l
  end.

Lemma elem_of_picked {A} f k (l : list A) x :
  x ∈ picked f k l <-> exists j, l !! j = Some x /\ f (k + Z.of_nat j) = true.
Proof.
  revert k. induction l as [| y l IH ]; intros k; cbn [picked].
  { split; [ by intros ?%not_elem_of_nil | by intros (j & Hj & _) ]. }
  transitivity (x = y /\ f k = true \/ x ∈ picked f (k + 1) l).
  { destruct (f k); [ rewrite elem_of_cons |]; split.
    - by intros [-> | ?]; [ left | right ].
    - by intros [[-> _] | ?]; [ left | right ].
    - by right.
    - by intros [[_ ?] | ?]. }
  rewrite IH. split.
  - intros [[-> Hf] | (j & Hj & Hf)]; [ exists 0%nat; by rewrite Z.add_0_r |].
    exists (S j). split; [ done |]. by replace (k + Z.of_nat (S j)) with (k + 1 + Z.of_nat j) by lia.
  - intros ([| j ] & Hj & Hf); cbn in Hj; [ left; injection Hj as ->; by rewrite Z.add_0_r in Hf |].
    right. exists j. split; [ done |]. by replace (k + 1 + Z.of_nat j) with (k + Z.of_nat (S j)) by lia.
Qed.

Lemma picked_map {A B} (g : A -> B) f k l : picked f k (map g l) = map g (picked f k l).
Proof.
  revert k. induction l as [| x l IH ]; intros k; cbn [picked map]; [ done |]. destruct (f k); cbn [map]; by rewrite IH.
Qed.

Lemma picked_Forall {A} (P : A -> Prop) f k l : Forall P l -> Forall P (picked f k l).
Proof.
  intros Hl. apply list.Forall_forall. intros x (j & Hj & _)%elem_of_picked. exact (Forall_lookup_1 _ _ _ _ Hl Hj).
Qed.

Lemma picked_sorted (f : Z -> bool) k l : StronglySorted Z.lt l -> StronglySorted Z.lt (picked f k l).
Proof.
  intros Hs. revert k. induction Hs as [| x l _ IH Hx ]; intros k; cbn [picked]; [ constructor |].
  destruct (f k); [| apply IH ]. constructor; [ apply IH | by apply picked_Forall ].
Qed.

Lemma chosen_picked row f ps : forall media k,
  length ps = length media -> (forall j g, ps !! j = Some g -> bit_at row g = f (k + Z.of_nat j)) ->
  chosen row ps media = picked f k media.
Proof.
  induction ps as [| g ps IH ]; intros [| m media ] k Hlen Hf; try done.
  unfold chosen in *. cbn [zip zip_with omap list_omap picked]. rewrite (Hf 0%nat g eq_refl), Z.add_0_r.
  rewrite (IH media (k + 1)) by (first [ by injection Hlen | intros j g' Hj; rewrite (Hf (S j) g' Hj); f_equal; lia ]).
  by destruct (f k).
Qed.

(** The sequence numbers of a block, by their distance from the first. *)
Lemma positions_seqs base media : forall g prev,
  0 <= base < 2 ^ 16 -> Forall rtp_ok media -> prev = u16 (base + g) ->
  map seq_of media = map (fun g => u16 (base + g)) (positions g prev media).
Proof.
  induction media as [| m media IH ]; intros g prev Hb Hok Hp; [ done |].
  apply Forall_cons_1 in Hok as [Hm Hok]. cbn [map positions]. pose proof (seq_of_range m Hm).
  assert (Hs : seq_of m = u16 (base + (g + u16 (seq_of m - prev)))).
  { subst prev. unfold u16. Z.to_euclidean_division_equations. lia. }
  rewrite <- (IH _ (seq_of m)) by done. by rewrite <- Hs.
Qed.

Lemma offsets_seqs m0 rest :
  Forall rtp_ok (m0 :: rest) -> map seq_of (m0 :: rest) = map (fun g => u16 (seq_of m0 + g)) (offsets (m0 :: rest)).
Proof.
  intros Hok. pose proof (seq_of_range m0 (Forall_inv Hok)). unfold offsets. apply positions_seqs; [ done | done |].
  rewrite Z.add_0_r. symmetry. by apply u16_id.
Qed.

Lemma set_bits_picked bit n f gs :
  StronglySorted Z.lt gs -> Forall (fun g => 0 <= g < 8 * n) gs ->
  (forall j g, gs !! j = Some g -> bit g = f (Z.of_nat j)) -> (forall p, 0 <= p < 8 * n -> p ∉ gs -> bit p = false) ->
  set_bits bit n = picked f 0 gs.
Proof.
  intros Hs Hr Hin Hout. apply sorted_same; [ apply sorted_filter, sorted_seqZ | by apply picked_sorted |].
  intros p. unfold set_bits. rewrite list_elem_of_filter, elem_of_seqZ, elem_of_picked. split.
  - intros [Hb Hp]. destruct (decide (p ∈ gs)) as [Hgs | Hgs]; [| by rewrite Hout in Hb by (done || lia) ].
    apply list_elem_of_lookup_1 in Hgs as (j & Hj). exists j. by rewrite Z.add_0_l, <- (Hin j p Hj).
  - intros (j & Hj & Hf). rewrite (Hin j p Hj). split; [ done |].
    pose proof (Forall_lookup_1 _ _ _ _ Hr Hj) as Hp. cbv beta in Hp. lia.
Qed.

Lemma mask_bit_row masks n i g :
  0 <= i -> 0 <= n -> 0 <= g < 8 * n -> bit_at (row_of masks n i) g = mask_bit masks n i g.
Proof.
  intros Hi Hn Hg. rewrite <- bit_at_row by done. unfold bit_at, mask_bit.
  rewrite (Z.mul_comm 8), Z.div_add_l, (Z.add_comm (_ * 8)), Z.mod_add by lia. done.
Qed.

(** A row of a widened mask. *)
Lemma widened_row old masks osize nsize r media i :
  nsize = 2 \/ nsize = 6 -> has_rows masks nsize r -> in_order media -> media <> [] -> width media <= 8 * nsize ->
  widened old masks osize nsize r (offsets media) -> 0 <= i < r ->
  let row := row_of masks nsize i in
  let f := mask_bit old osize i in
  mask_ok row /\ Z.of_nat (length row) = nsize /\ selected row media = picked f 0 media /\
  set_bits (bit_at row) nsize = picked f 0 (offsets media).
Proof.
  intros Hn Hrows Hin Hne Hw (Hcol & Hno & Hrange) Hi row f.
  assert (Hn0 : 0 < nsize) by (destruct Hn; lia). unfold has_rows in Hrows.
  assert (Hfit : i * nsize + nsize <= Z.of_nat (length masks)) by nia. assert (0 <= i * nsize) by nia.
  assert (Hlen : Z.of_nat (length row) = nsize) by (unfold row, row_of; rewrite length_take, length_drop; lia).
  assert (Hgs : Forall (fun g => 0 <= g < 8 * nsize) (offsets media)).
  { apply Forall_lookup_2. intros k g Hk. pose proof (offset_below media k g Hin Hk). lia. }
  assert (Hbit : forall j g, offsets media !! j = Some g -> bit_at row g = f (Z.of_nat j)).
  { intros j g Hj. unfold row. rewrite mask_bit_row; [ by apply Hcol | lia | lia |]. exact (Forall_lookup_1 _ _ _ _ Hgs Hj). }
  split_and!.
  - split; [ destruct Hn; lia |]. apply Forall_lookup_2. intros q b Hq. pose proof (lookup_lt_Some _ _ _ Hq) as Hlt.
    specialize (Hrange i (Z.of_nat q) Hi ltac:(lia)). unfold rb, byte in Hrange. unfold row, row_of in Hq.
    rewrite lookup_take_lt, lookup_drop in Hq by lia.
    replace (Z.to_nat (i * nsize) + q)%nat with (Z.to_nat (i * nsize + Z.of_nat q)) in Hq by lia. by rewrite Hq in Hrange.
  - done.
  - destruct media as [| m0 rest ]; [ done |]. cbn [selected]. apply chosen_picked; [ apply length_positions |].
    intros j g Hj. by apply Hbit.
  - apply set_bits_picked; [ apply Hin | done | done |]. intros p Hp Hnot. unfold row.
    rewrite mask_bit_row by lia. by apply Hno.
Qed.

Lemma picked_ext {A} f f' (l : list A) : forall k,
  (forall j, k <= j < k + Z.of_nat (length l) -> f j = f' j) -> picked f k l = picked f' k l.
Proof.
  induction l as [| x l IH ]; intros k He; [ done |]. cbn [picked length] in *.
  rewrite (He k), (IH (k + 1)) by (first [ lia | intros; apply He; lia ]). done.
Qed.

(** ** The FEC packets of a block *)

Section Encode.
Context `{CheckMode} `{FecHeaderWriter} `{FecHeaderReader} (ssrc media_ssrc : Z).
Context `{!FecHeaderLaws ssrc media_ssrc}.

(** The wire packet of a row. *)
Definition wire_of (base : Z) (row : list Z) (media : list (list Z)) (wire : list Z) : Prop :=
  exists h, header_size row h /\ FinalizeFecHeader media_ssrc base row (assemble h (selected row media)) = Ok wire.

Lemma GenerateFecPayloads_Ok this m0 rest r :
  let media := m0 :: rest in let n := up_mask_size this in
  0 <= r -> n = 2 \/ n = 6 -> has_rows (up_masks this) n r -> Forall rtp_ok media -> Forall (fits 32) media ->
  Forall (fun g => 0 <= g < 8 * n) (offsets media) ->
  (forall i, 0 <= i < r -> mask_ok (row_of (up_masks this) n i) /\ selected (row_of (up_masks this) n i) media <> []) ->
  exists payloads, GenerateFecPayloads this media r = Ok payloads /\ Z.of_nat (length payloads) = r /\
    forall i, 0 <= i < r -> exists h, header_size (row_of (up_masks this) n i) h /\ (12 <= h <= 32)%nat /\
      payloads !! Z.to_nat i = Some (assemble h (selected (row_of (up_masks this) n i) media)).
Proof.
  intros media n Hr Hn Hrows Hok Hfit Hgs Hrow. unfold GenerateFecPayloads.
  rewrite RTC_DCHECK_Ok, bind_Ok by (apply Z.ltb_lt; unfold media; cbn [length]; lia). fold n.
  destruct (for_loop_rule (fun k payloads => Z.of_nat (length payloads) = k /\
      forall i, 0 <= i < k -> exists h, header_size (row_of (up_masks this) n i) h /\ (12 <= h <= 32)%nat /\
        payloads !! Z.to_nat i = Some (assemble h (selected (row_of (up_masks this) n i) media)))
    (fun i fec_packets => fec_packet ← generate_fec_payload (up_masks this) n i media; Ok (fec_packets ++ [fec_packet]))
    (Z.to_nat r) 0 []) as (payloads & Hrun & Hl & Hall).
  - split; [ done |]. lia.
  - intros i ps Hi [Hl Hall]. rewrite Z2Nat.id in Hi by lia. destruct (Hrow i ltac:(lia)) as [Hmask Hsel].
    destruct (law_header_size (row_of (up_masks this) n i) Hmask) as (h & Hh & Hh32).
    unfold has_rows in Hrows. assert (i * n + n <= r * n) by (destruct Hn; nia).
    pose proof (generate_fec_payload_Ok (up_masks this) n i h m0 rest) as Hgen. cbv zeta in Hgen. fold media in Hgen.
    rewrite Hgen, bind_Ok by (first [ done | lia | eapply list.Forall_impl; [ exact Hfit | unfold fits; lia ] ]).
    eexists. split; [ reflexivity |]. rewrite length_app. cbn [length]. split; [ lia |]. intros j Hj.
    destruct (Z.eq_dec j i) as [-> | Hne].
    + exists h. split_and!; try done; try lia. rewrite lookup_app_r by lia. by replace (Z.to_nat i - length ps)%nat with 0%nat by lia.
    + destruct (Hall j ltac:(lia)) as (h' & ? & ? & ?). exists h'. split_and!; try (done || lia).
      rewrite lookup_app_l by lia. done.
  - rewrite Z.add_0_l, Z2Nat.id in Hl, Hall by lia. by exists payloads.
Qed.

Lemma FinalizeFecHeaders_Ok this payloads r base media :
  let n := up_mask_size this in
  0 <= r -> 0 < n -> has_rows (up_masks this) n r -> Z.of_nat (length payloads) = r ->
  (forall i, 0 <= i < r -> exists payload wire, payloads !! Z.to_nat i = Some payload /\
     FinalizeFecHeader media_ssrc base (row_of (up_masks this) n i) payload = Ok wire /\
     wire_of base (row_of (up_masks this) n i) media wire) ->
  exists wires, FinalizeFecHeaders this payloads r media_ssrc base = Ok wires /\ Z.of_nat (length wires) = r /\
    forall i, 0 <= i < r -> exists wire, wires !! Z.to_nat i = Some wire /\
      wire_of base (row_of (up_masks this) n i) media wire.
Proof.
  intros n Hr Hn Hrows Hlen Hall. unfold FinalizeFecHeaders. fold n. unfold has_rows in Hrows.
  destruct (for_loop_rule (fun k wires => Z.of_nat (length wires) = r /\
      forall i, 0 <= i < r -> if i <? k then exists wire, wires !! Z.to_nat i = Some wire /\
          wire_of base (row_of (up_masks this) n i) media wire
        else wires !! Z.to_nat i = payloads !! Z.to_nat i)
    (fun i fec_packets => packet_mask ← slice (up_masks this) (i * n) n; fec_packet ← get fec_packets i;
       fec_packet ← FinalizeFecHeader media_ssrc base packet_mask fec_packet; put fec_packets i fec_packet)
    (Z.to_nat r) 0 payloads) as (wires & Hrun & Hl & Hw).
  - split; [ done |]. intros i Hi. by rewrite (proj2 (Z.ltb_ge _ _)) by lia.
  - intros i wires Hi [Hl Hw]. rewrite Z2Nat.id in Hi by lia. destruct (Hall i ltac:(lia)) as (p & w & Hp & Hfin & Hwire).
    assert (i * n + n <= r * n /\ 0 <= i * n) as [? ?] by nia.
    assert (Hslice : slice (up_masks this) (i * n) n = Ok (row_of (up_masks this) n i)).
    { unfold slice, row_of. by rewrite !(proj2 (Z.leb_le _ _)) by lia. }
    specialize (Hw i ltac:(lia)) as Hwi. rewrite (proj2 (Z.ltb_ge _ _)) in Hwi by lia.
    rewrite Hslice, bind_Ok, (get_Ok wires i p), bind_Ok, Hfin, bind_Ok, put_Ok by (congruence || lia).
    eexists. split; [ reflexivity |]. rewrite length_insert. split; [ done |]. intros j Hj.
    destruct (Z.eq_dec j i) as [-> | Hne].
    + rewrite (proj2 (Z.ltb_lt _ _)) by lia. exists w. split; [| done ]. by rewrite list_lookup_insert_eq by lia.
    + rewrite list_lookup_insert_ne by lia. specialize (Hw j Hj).
      destruct (Z.ltb_spec j i), (Z.ltb_spec j (i + 1)); (done || lia).
  - rewrite Z.add_0_l, Z2Nat.id in Hw by lia. exists wires. split_and!; [ done | done |]. intros i Hi.
    specialize (Hw i Hi). by rewrite (proj2 (Z.ltb_lt _ _)) in Hw by lia.
Qed.

(** The number of FEC packets: [num_media_packets * protection_factor / 256],
    rounded, at least one if anything is to be protected. *)
Definition fec_count (n pf : Z) : Z := if pf =? 0 then 0 else Z.max 1 ((n * pf + 128) / 256).

Lemma NumFecPackets_Ok n pf :
  1 <= n -> 0 <= pf < 256 -> NumFecPackets n pf = Ok (fec_count n pf) /\ 0 <= fec_count n pf <= n /\
    (fec_count n pf = 0 <-> pf = 0).
Proof.
  intros Hn Hpf. unfold NumFecPackets, fec_count. rewrite Z.shiftr_div_pow2 by lia.
  change (2 ^ 8) with 256. change (Z.shiftl 1 7) with 128.
  assert (Hle : 0 <= (n * pf + 128) / 256 <= n) by (split; [ apply Z.div_pos | apply Z.lt_succ_r, Z.div_lt_upper_bound ]; nia).
  destruct (Z.eqb_spec pf 0) as [-> | Hne].
  - rewrite Z.ltb_irrefl, Z.mul_0_r. cbn [andb]. change ((0 + 128) / 256) with 0. rewrite RTC_DCHECK_Ok by lia.
    split_and!; (done || lia).
  - rewrite (proj2 (Z.ltb_lt _ _)) by lia. cbn [andb]. cbv zeta.
    destruct (Z.eqb_spec ((n * pf + 128) / 256) 0) as [He |]; (rewrite RTC_DCHECK_Ok by (apply Z.leb_le; lia)); rewrite bind_Ok, ?He.
    + split_and!; [ done | lia.. ].
    + rewrite Z.max_r by lia. split_and!; [ done | lia.. ].
Qed.

Lemma ParseSsrc_Ok m : rtp_ok m -> ParseSsrc m = Ok (ssrc_of m).
Proof.
  intros Hm. pose proof (rtp_byte m 8 Hm). pose proof (rtp_byte m 9 Hm). pose proof (rtp_byte m 10 Hm).
  pose proof (rtp_byte m 11 Hm). pose proof Hm as (Hl & _).
  unfold ParseSsrc. rewrite !get_byte by lia. rewrite !bind_Ok, !Z.shiftl_mul_pow2 by lia.
  fold (ssrc_of m). f_equal. apply u32_id. unfold ssrc_of. lia.
Qed.

(** What a block has to satisfy, and what the encoder gets with it. *)
Record block_ok (media : list (list Z)) (pf imp : Z) : Prop := {
  block_some : media <> [];
  block_rtp : Forall rtp_ok media;
  block_fits : Forall (fits 32) media;
  block_order : in_order media;
  block_size : Z.of_nat (length media) <= writer_MaxMediaPackets <= 48;
  block_factor : 0 <= pf < 256;
  block_important : 0 <= imp <= Z.of_nat (length media)
}.

(** FEC packet [i] of the block, as it goes out. *)
Definition block_fec (media : list (list Z)) (f : Z -> bool) (wire : list Z) : Prop :=
  exists row, mask_ok row /\ wire_of (default 0 (seq_of <$> head media)) row media wire /\
    selected row media = picked f 0 media /\ set_bits (bit_at row) (Z.of_nat (length row)) = picked f 0 (offsets media).

(** From the widened masks on. *)
Lemma send_rows this m0 rest r (f : Z -> Z -> bool) :
  let media := m0 :: rest in let n := up_mask_size this in
  0 <= r -> n = 2 \/ n = 6 -> has_rows (up_masks this) n r -> Forall rtp_ok media -> Forall (fits 32) media ->
  ssrc_of m0 = media_ssrc -> in_order media -> width media <= 8 * n ->
  (forall i, 0 <= i < r -> picked (f i) 0 media <> [] /\ let row := row_of (up_masks this) n i in
     mask_ok row /\ Z.of_nat (length row) = n /\ selected row media = picked (f i) 0 media /\
     set_bits (bit_at row) n = picked (f i) 0 (offsets media)) ->
  exists wires,
    (fec_packets ← GenerateFecPayloads this media r;
     media_ssrc ← ParseSsrc m0;
     seq_num_base ← ParseSequenceNumber m0;
     fec_packets ← FinalizeFecHeaders this fec_packets r media_ssrc seq_num_base;
     Ok (0, fec_packets, this)) = Ok (0, wires, this) /\
    Z.of_nat (length wires) = r /\
    forall i, 0 <= i < r -> exists wire, wires !! Z.to_nat i = Some wire /\ block_fec media (f i) wire.
Proof.
  intros media n Hr Hn Hrows Hok Hfit Hssrc Hin Hw Hrow.
  assert (Hm0 : rtp_ok m0) by (by apply Forall_inv in Hok). pose proof (seq_of_range m0 Hm0) as Hbase.
  destruct (GenerateFecPayloads_Ok this m0 rest r) as (payloads & Hgen & Hlen & Hpay); try done.
  { apply Forall_lookup_2. intros k g Hk. pose proof (offset_below media k g Hin Hk). fold n. lia. }
  { intros i Hi. destruct (Hrow i Hi) as (Hne & Hmask & _ & Hsel & _). fold n media. cbv zeta in Hsel. by rewrite Hsel. }
  fold media n in Hgen, Hpay. rewrite Hgen, bind_Ok, ParseSsrc_Ok, bind_Ok, ParseSequenceNumber_Ok, bind_Ok, Hssrc by done.
  destruct (FinalizeFecHeaders_Ok this payloads r (seq_of m0) media) as (wires & Hfin & Hlw & Hwire); try done.
  { fold n. destruct Hn; lia. }
  { intros i Hi. destruct (Hpay i Hi) as (h & Hh & Hh32 & Hp). destruct (Hrow i Hi) as (Hne & Hmask & _ & Hsel & _).
    destruct (law_read_back (row_of (up_masks this) n i) h (seq_of m0) (selected (row_of (up_masks this) n i) media))
      as (wire & hd & d & Hwire & _); try done.
    - by rewrite Hsel.
    - rewrite Hsel. by apply picked_Forall.
    - rewrite Hsel. apply picked_Forall. eapply list.Forall_impl; [ exact Hfit | unfold fits; lia ].
    - exists (assemble h (selected (row_of (up_masks this) n i) media)), wire. split_and!; [ done | done |]. by exists h. }
  rewrite Hfin, bind_Ok. exists wires. split_and!; [ done | done |]. intros i Hi. destruct (Hwire i Hi) as (wire & Hi' & Hof).
  exists wire. split; [ done |]. exists (row_of (up_masks this) n i).
  destruct (Hrow i Hi) as (_ & Hmask & Hl & Hsel & Hset). fold n in Hof. split_and!; try done. by rewrite Hl.
Qed.

Lemma zero_rows_cleared masks size r :
  0 < size -> 0 <= r -> has_rows masks size r -> zero_rows (blit 0 (replicate (Z.to_nat (r * size)) 0) masks) size r.
Proof.
  intros Hs Hr Hrows i j Hi Hj. unfold has_rows in Hrows. assert (i * size + size <= r * size) by nia.
  rewrite mask_bit_rb by (rewrite ?length_blit; rewrite ?length_replicate; lia).
  assert (0 <= j / 8 < size) by (split; [ apply Z.div_pos | apply Z.div_lt_upper_bound ]; lia).
  rewrite rb_cleared by (done || lia). apply Z.testbit_0_l.
Qed.

Lemma size_two_or_six k : row_bytes k = 2 \/ row_bytes k = 6.
Proof. unfold row_bytes. destruct (16 <? k); auto. Qed.

Lemma picked_some {A} f (l : list A) : (exists j, 0 <= j < Z.of_nat (length l) /\ f j = true) -> picked f 0 l <> [].
Proof.
  intros (j & Hj & Hf) Hnil. destruct (lookup_lt_is_Some_2 l (Z.to_nat j)) as [x Hx]; [ lia |].
  assert (Hin : x ∈ picked f 0 l); [| rewrite Hnil in Hin; by apply not_elem_of_nil in Hin ].
  apply elem_of_picked. exists (Z.to_nat j). split; [ done |]. by rewrite Z.add_0_l, Z2Nat.id by lia.
Qed.

Lemma none_short media : Forall rtp_ok media -> existsb (fun m => Z.of_nat (length m) <? kRtpHeaderSize) media = false.
Proof.
  intros Hok. apply not_true_iff_false. rewrite existsb_exists. intros (m & Hm & Hlt). apply list_elem_of_In in Hm.
  pose proof (proj1 (list.Forall_forall _ _) Hok m Hm) as (Hl & _). apply Z.ltb_lt in Hlt. unfold kRtpHeaderSize in Hlt. lia.
Qed.

(** Nothing is asked for. *)
Lemma EncodeFec_no_rate this media imp uep ty garbage :
  block_ok media 0 imp -> EncodeFec_upstream this media 0 imp uep ty garbage = Ok (0, [], this).
Proof.
  intros [Hne Hok Hfit Hin Hsize Hpf Himp]. unfold EncodeFec_upstream. cbv zeta.
  assert (1 <= Z.of_nat (length media)) by (destruct media; [ done | cbn [length]; lia ]).
  dcheck. rewrite (proj2 (Z.ltb_ge _ _)), none_short by (done || lia).
  destruct (NumFecPackets_Ok (Z.of_nat (length media)) 0) as (-> & _); [ lia.. |]. done.
Qed.

(** The checks and the choice of the masks. *)
Lemma EncodeFec_masks this media pf imp uep ty garbage :
  let k := Z.of_nat (length media) in let r := fec_count k pf in
  block_ok media pf imp -> buffers_ok this -> buffer 288 garbage -> pf <> 0 ->
  exists masks, let this1 := mkBuffers masks (up_tmp_masks this) (row_bytes k) in
    masks_ready this1 media r /\
    (forall i j, 0 <= i < r -> 0 <= j < 8 * row_bytes k -> mask_bit masks (row_bytes k) i j = protects ty uep k r imp i j) /\
    EncodeFec_upstream this media pf imp uep ty garbage =
      '(this, num_mask_bits) ← InsertZerosInPacketMasks this1 media r;
      if num_mask_bits <? 0 then Ok (-1, replicate (Z.to_nat r) [], this)
      else
        packet_mask_size ← PacketMaskSize num_mask_bits;
        let this := mkBuffers (up_masks this) (up_tmp_masks this) packet_mask_size in
        fec_packets ← GenerateFecPayloads this media r;
        match media with
        | [] => Fail OutOfBounds
        | front :: _ =>
            media_ssrc ← ParseSsrc front;
            seq_num_base ← ParseSequenceNumber front;
            fec_packets ← FinalizeFecHeaders this fec_packets r media_ssrc seq_num_base;
            Ok (0, fec_packets, this)
        end.
Proof.
  intros k r [Hne Hok Hfit Hin Hsize Hpf Himp] [Hm Ht] Hg Hpf0. fold k in Hsize, Himp.
  assert (Hk : 1 <= k) by (unfold k; destruct media; [ done | cbn [length]; lia ]).
  destruct (NumFecPackets_Ok k pf Hk Hpf) as (Hnum & Hr & Hr0). fold r in Hnum, Hr, Hr0.
  assert (Hr1 : 1 <= r) by lia. pose proof (row_bytes_pos k) as Hrb. pose proof (mask_fits k r ltac:(lia) ltac:(lia)) as Hmf.
  unfold kFECPacketMaskMaxSize in Hmf. pose proof Hm as [Hml _]. pose proof Ht as [Htl _]. assert (0 <= r * row_bytes k) by nia.
  assert (Hset : memset (up_masks this) 0 0 (r * row_bytes k) =
    Ok (blit 0 (replicate (Z.to_nat (r * row_bytes k)) 0) (up_masks this))) by (apply memset_Ok; lia).
  destruct (upstream_masks_Ok ty uep k r imp garbage (blit 0 (replicate (Z.to_nat (r * row_bytes k)) 0) (up_masks this)))
    as (mt & masks & Hgen & Hbuf & Hbits); try (done || lia).
  { eapply memset_buffer; [ exact Hm | | exact Hset ]. lia. }
  { apply zero_rows_cleared; try lia. unfold has_rows. lia. }
  exists masks. cbv zeta. split_and!; [ | done |].
  - destruct Hbuf as [Hbl Hbb]. split; cbn [up_masks up_tmp_masks up_mask_size]; fold k; try done.
    + unfold has_rows. lia.
    + unfold has_rows. lia.
    + intros i p Hi Hp. rewrite Hbits by lia.
      destruct (protects_covers ty uep k r imp ltac:(lia) ltac:(lia) Himp) as (_ & _ & Hpast). by apply Hpast.
  - unfold EncodeFec_upstream. fold k. cbv zeta. dcheck. rewrite (proj2 (Z.ltb_ge _ _)) by lia.
    rewrite none_short, Hnum, bind_Ok by done.
    rewrite (proj2 (Z.eqb_neq r 0)) by lia.
    unfold PacketMaskTable_new. rewrite PickTable_Ok, !bind_Ok by lia. rewrite PacketMaskSize_Ok, bind_Ok by lia.
    by rewrite Hset, bind_Ok, Hgen, bind_Ok.
Qed.

(** A refused block, and all others. *)
Lemma EncodeFec_sends this media pf imp uep ty garbage :
  let k := Z.of_nat (length media) in let r := fec_count k pf in
  block_ok media pf imp -> Forall (fun m => ssrc_of m = media_ssrc) media -> buffers_ok this -> buffer 288 garbage -> pf <> 0 ->
  if width media <=? writer_MaxMediaPackets
  then exists fecs this', EncodeFec_upstream this media pf imp uep ty garbage = Ok (0, fecs, this') /\
    Z.of_nat (length fecs) = r /\
    forall i, 0 <= i < r -> exists wire, fecs !! Z.to_nat i = Some wire /\
      block_fec media (protects ty uep k r imp i) wire
  else exists this', EncodeFec_upstream this media pf imp uep ty garbage = Ok (-1, replicate (Z.to_nat r) [], this').
Proof.
  intros k r Hblock Hssrc Hbuf Hg Hpf0.
  destruct (EncodeFec_masks this media pf imp uep ty garbage Hblock Hbuf Hg Hpf0) as (masks & Hready & Hbits & ->).
  fold k in Hbits, Hready |- *. fold r in Hbits, Hready |- *. destruct Hblock as [Hne Hok Hfit Hin Hsize Hpf Himp].
  fold k in Hsize, Himp. assert (Hk : 1 <= k) by (unfold k; destruct media; [ done | cbn [length]; lia ]).
  destruct (NumFecPackets_Ok k pf Hk Hpf) as (_ & Hr & Hr0). fold r in Hr, Hr0. pose proof (row_bytes_enough k ltac:(lia)) as Hkb.
  set (this1 := mkBuffers masks (up_tmp_masks this) (row_bytes k)) in *.
  pose proof (widen_Ok media this1 r ltac:(lia) Hne Hok Hin Hready Hsize) as Hwiden.
  destruct (Z.leb_spec (width media) writer_MaxMediaPackets) as [Hle | Hgt].
  2:{ rewrite Hwiden, bind_Ok. by exists this1. }
  destruct Hwiden as (this2 & Hrun & Hlen & Hw). pose proof (width_at_least media Hin Hne) as Hkw. fold k in Hkw.
  rewrite Hrun, bind_Ok, (proj2 (Z.ltb_ge _ _)), PacketMaskSize_Ok, bind_Ok by lia. cbv zeta.
  set (this3 := mkBuffers (up_masks this2) (up_tmp_masks this2) (row_bytes (width media))).
  pose proof (row_bytes_enough (width media) ltac:(lia)) as Hwb. pose proof (row_bytes_pos (width media)) as Hwp.
  assert (Hrows : has_rows (up_masks this3) (row_bytes (width media)) r).
  { apply has_rows_le; [ lia | lia |]. unfold has_rows. cbn [this3 up_masks]. rewrite Hlen. apply Hready. }
  assert (Hrow : forall i, 0 <= i < r -> let f := protects ty uep k r imp in
    picked (f i) 0 media <> [] /\ let row := row_of (up_masks this3) (row_bytes (width media)) i in
    mask_ok row /\ Z.of_nat (length row) = row_bytes (width media) /\ selected row media = picked (f i) 0 media /\
    set_bits (bit_at row) (row_bytes (width media)) = picked (f i) 0 (offsets media)).
  { intros i Hi f. destruct (protects_covers ty uep k r imp ltac:(lia) ltac:(lia) Himp) as (_ & Hsome & _).
    split; [ by apply picked_some, Hsome |].
    destruct (widened_row masks (up_masks this3) (row_bytes k) (row_bytes (width media)) r media i)
      as (Hmask & Hl & Hsel & Hset); try (done || apply size_two_or_six).
    rewrite (picked_ext _ (f i)) in Hsel by (intros j Hj; apply Hbits; lia).
    rewrite (picked_ext _ (f i)) in Hset by (intros j Hj; rewrite length_offsets in Hj; apply Hbits; lia). done. }
  destruct media as [| m0 rest ]; [ done |].
  destruct (send_rows this3 m0 rest r (protects ty uep k r imp)) as (wires & Hsend & Hlw & Hall); try (done || lia).
  { apply size_two_or_six. }
  { by apply Forall_inv in Hssrc. }
  exists wires, this3. by rewrite Hsend.
Qed.

(** It is made of bytes, and longer than the packets it protects by at most its
    header. *)
Lemma block_fec_buffer media f wire n :
  Forall rtp_ok media -> Forall (fun m => (length m <= n)%nat) media -> picked f 0 media <> [] -> block_fec media f wire ->
  bytes_ok wire /\ (12 <= length wire <= n + 20)%nat.
Proof.
  intros Hok Hn Hsome (row & Hmask & (h & Hh & Hfin) & Hsel & _). rewrite Hsel in Hfin.
  destruct (law_header_size row Hmask) as (h' & Hh' & Hle). rewrite (header_size_unique row h' h Hh' Hh) in Hle.
  destruct (assemble_buffer h n (picked f 0 media)) as (k & Hk & Hkl); [ lia | done | by apply picked_Forall.. |].
  destruct (law_bytes row _ k _ wire Hmask Hk Hfin) as [Hl Hb]. split; [ done |].
  assert (12 <= n)%nat; [| lia ]. destruct media as [| m media ]; [ done |].
  apply Forall_inv in Hok as (Hm & _). apply Forall_inv in Hn. lia.
Qed.

(** ... and it has one. *)
Lemma block_fec_header media f wire :
  Forall rtp_ok media -> picked f 0 media <> [] -> block_fec media f wire ->
  exists row h, mask_ok row /\ header_size row h /\ (h <= length wire)%nat.
Proof.
  intros Hok Hsome (row & Hmask & (h & Hh & Hfin) & Hsel & _). rewrite Hsel in Hfin. exists row, h. split_and!; [ done | done |].
  destruct (law_header_size row Hmask) as (h' & Hh' & Hle). rewrite (header_size_unique row h' h Hh' Hh) in Hle.
  destruct (assemble_buffer h 1488 (picked f 0 media)) as (k & Hk & Hkl); [ lia | done | by apply picked_Forall | |].
  { apply picked_Forall. eapply list.Forall_impl; [ exact Hok |]. intros m (Hm & _). lia. }
  destruct (law_bytes row _ k _ wire Hmask Hk Hfin) as [Hl _]. lia.
Qed.

(** What goes out is understood on the other side, whatever its own number. *)
Lemma block_fec_genuine (sent : list Z -> Prop) media pf imp f wire seq :
  stream_ok media_ssrc sent -> block_ok media pf imp -> width media <= 48 -> Forall sent media ->
  picked f 0 media <> [] -> block_fec media f wire ->
  genuine_fec ssrc media_ssrc sent (mkReceived ssrc seq true wire) (picked f 0 media).
Proof.
  intros Hstream [Hne Hok Hfit Hin Hsize _ _] Hw Hsent Hsome (row & Hmask & (h & Hh & Hfin) & Hsel & Hset).
  destruct media as [| m0 rest ]; [ done |]. change (default 0 (seq_of <$> head (m0 :: rest))) with (seq_of m0) in Hfin.
  pose proof (seq_of_range m0 (Forall_inv Hok)) as Hbase.
  destruct (law_header_size row Hmask) as (h' & Hh' & Hle). rewrite (header_size_unique row h' h Hh' Hh) in Hle.
  destruct (law_read_back row h (seq_of m0) (selected row (m0 :: rest))) as (w & hd & d & Hw' & Hread & Hcar & Hann); try done.
  { by rewrite Hsel. }
  { rewrite Hsel. by apply picked_Forall. }
  { rewrite Hsel. apply picked_Forall. eapply list.Forall_impl; [ exact Hfit | unfold fits; lia ]. }
  assert (w = wire) as -> by congruence. rewrite Hsel in Hcar.
  assert (Hseqs : map seq_of (picked f 0 (m0 :: rest)) = map (fun g => u16 (seq_of m0 + g)) (picked f 0 (offsets (m0 :: rest)))).
  { rewrite <- !picked_map. by rewrite offsets_seqs. }
  split; [ done |]. exists hd, d, (seq_of m0), row. split_and!; [ done | | done | by rewrite Hset ].
  split; [ done | by apply picked_Forall | done |]. exists (seq_of m0), (picked f 0 (offsets (m0 :: rest))).
  split; [ done |]. split; [ apply picked_sorted, Hin |]. apply picked_Forall, Forall_lookup_2. intros k g Hk.
  pose proof (offset_below _ _ _ Hin Hk). lia.
Qed.

Lemma encoded_block (sent : list Z -> Prop) this media pf imp uep ty garbage :
  let k := Z.of_nat (length media) in let r := fec_count k pf in
  stream_ok media_ssrc sent -> Forall sent media -> block_ok media pf imp -> pf <> 0 -> buffers_ok this -> buffer 288 garbage ->
  if width media <=? writer_MaxMediaPackets
  then exists fecs this', EncodeFec_upstream this media pf imp uep ty garbage = Ok (0, fecs, this') /\
    Z.of_nat (length fecs) = r /\
    (forall i wire seq, 0 <= i < r -> fecs !! Z.to_nat i = Some wire ->
       genuine_fec ssrc media_ssrc sent (mkReceived ssrc seq true wire) (picked (protects ty uep k r imp i) 0 media)) /\
    (forall m, m ∈ media -> exists i, 0 <= i < r /\ m ∈ picked (protects ty uep k r imp i) 0 media)
  else exists this', EncodeFec_upstream this media pf imp uep ty garbage = Ok (-1, replicate (Z.to_nat r) [], this').
Proof.
  intros k r Hstream Hsent Hblock Hpf Hbuf Hg. pose proof Hblock as [Hne _ _ _ Hsize Hpf' Himp].
  assert (Hssrc : Forall (fun m => ssrc_of m = media_ssrc) media).
  { eapply list.Forall_impl; [ exact Hsent |]. intros m Hm. by apply Hstream. }
  assert (Hk : 1 <= k) by (unfold k; destruct media; [ done | cbn [length]; lia ]). fold k in Hsize, Himp.
  destruct (NumFecPackets_Ok k pf Hk Hpf') as (_ & Hr & Hr0). fold r in Hr, Hr0.
  destruct (protects_covers ty uep k r imp ltac:(lia) ltac:(lia) Himp) as (Hcov & Hrow & _).
  pose proof (EncodeFec_sends this media pf imp uep ty garbage Hblock Hssrc Hbuf Hg Hpf) as Henc. fold k r in Henc.
  destruct (Z.leb_spec (width media) writer_MaxMediaPackets) as [Hle |]; [| done ].
  destruct Henc as (fecs & this' & Hrun & Hlen & Hall). exists fecs, this'. split_and!; [ done | done | |].
  - intros i wire seq Hi Hwire. destruct (Hall i Hi) as (w & Hw & Hfec). rewrite Hwire in Hw. injection Hw as <-.
    eapply block_fec_genuine; try done; [ lia |]. by apply picked_some, Hrow.
  - intros m (j & Hj)%list_elem_of_lookup_1. pose proof (lookup_lt_Some _ _ _ Hj). destruct (Hcov (Z.of_nat j)) as (i & Hi & Hb); [ lia |].
    exists i. split; [ done |]. apply elem_of_picked. by exists j.
Qed.

End Encode.

(** ** Theorems *)

