(* ===== verification/RtpFecEndToEnd.v ===== *)
(** * From the encoder to the decoder

    One block through the vendored FEC: [EncodeFec] on one side, a channel that
    loses, repeats and reorders packets, [DecodeFec] for whatever arrives on
    the other. Both header formats are covered by their contract
    [FecHeaderLaws]; the witnesses run a block with gaps through ULPFEC and one
    through FlexFEC. *)
From S2P Require Import Prelude.
From S2P Require Import Ascending.
From S2P Require Import MaskTable.
From S2P Require Import UnequalProtection.
From S2P Require Import RtpFecCodec.
From S2P Require Import RtpFecAlgebra.
From S2P Require Import UlpfecHeader.
From S2P Require Import FlexfecHeader.
From S2P Require Import RtpFecDecoder.
From S2P Require Import RtpFecSound.
From S2P Require Import RtpFecComplete.
From S2P Require Import RtpFecEncoder.
From S2P Require Import RtpFecColumns.
From S2P Require Import RtpFecBuffers.
From S2P Require Import RtpFecBlocks.
From stdpp Require Import base list list_numbers numbers option tactics.
From Stdlib Require Import ZArith Lia Sorted.

#[local] Open Scope Z_scope.

Section Session.
Context `{CheckMode} `{FecHeaderWriter} `{FecHeaderReader} (ssrc media_ssrc : Z).
Context (media : list (list Z)) (pf imp fbase : Z) (uep : bool) (ty : FecMaskType).

(** The first number of the block, the number of FEC packets, and what FEC
    packet number [seq] protects. *)
Definition block_base : Z := default 0 (seq_of <$> head media).
Definition block_fecs : Z := fec_count (Z.of_nat (length media)) pf.
Definition block_cov (seq : Z) : list (list Z) :=
  picked (protects ty uep (Z.of_nat (length media)) block_fecs imp (off fbase seq)) 0 media.

(** A block the encoder accepts, within the limits of the receiver. Where media
    and FEC packets share one source, FEC packets are numbered after them. *)
Record session_ok : Prop := {
  se_block : block_ok media pf imp;
  se_source : Forall (fun m => ssrc_of m = media_ssrc) media;
  se_width : width media <= writer_MaxMediaPackets;
  se_factor : pf <> 0;
  se_reader : 48 <= reader_MaxMediaPackets /\ 48 <= reader_MaxFecPackets;
  se_shared : ssrc = media_ssrc -> fbase = u16 (block_base + width media)
}.

(** What the channel can deliver. *)
Definition delivered (fecs : list (list Z)) (r : ReceivedPacket) : Prop :=
  if rp_is_fec r
  then exists i wire, fecs !! i = Some wire /\ r = mkReceived ssrc (u16 (fbase + Z.of_nat i)) true wire
  else exists m, m ∈ media /\ r = mkReceived media_ssrc (seq_of m) false m.

Lemma offsets_key m0 rest :
  media = m0 :: rest -> Forall rtp_ok media -> in_order media -> map (key block_base) media = offsets media.
Proof.
  intros Em Hok [_ Hlt]. assert (Hb : block_base = seq_of m0) by (unfold block_base; by rewrite Em).
  rewrite Hb. unfold key. rewrite <- (map_map seq_of (off (seq_of m0))).
  assert (Hs : map seq_of media = map (fun g => u16 (seq_of m0 + g)) (offsets media)) by (rewrite Em in *; by apply offsets_seqs).
  rewrite Hs, map_map. etransitivity; [| apply map_id ]. apply map_ext_in. intros g Hg%list_elem_of_In.
  pose proof (proj1 (list.Forall_forall _ _) Hlt g Hg). pose proof (proj1 (list.Forall_forall _ _) (offsets_nonneg media) g Hg).
  cbv beta in *. unfold off, u16. rewrite Zminus_mod_idemp_l, Z.add_simpl_l. apply Z.mod_small. lia.
Qed.

Hypothesis Hses : session_ok.

Lemma session_window : block_window ssrc media_ssrc (fun m => m ∈ media) block_base (width media) fbase block_fecs.
Proof.
  destruct Hses as [[Hne Hok Hfit Hin Hsize Hpf Himp] Hsrc Hw Hpf0 Hreader Hshared].
  destruct media as [| m0 rest ] eqn:Em; [ done |]. rewrite <- Em in *.
  assert (Hk : 1 <= Z.of_nat (length media)) by (rewrite Em; cbn [length]; lia).
  destruct (NumFecPackets_Ok (Z.of_nat (length media)) pf Hk Hpf) as (_ & Hr & _). fold block_fecs in Hr.
  pose proof (offsets_key m0 rest Em Hok Hin) as Hkey. pose proof (width_at_least media Hin Hne) as Hwl.
  assert (Hkeys : forall m, m ∈ media -> exists k, media !! k = Some m /\ offsets media !! k = Some (key block_base m)).
  { intros m (k & Hm)%list_elem_of_lookup_1. exists k. split; [ done |]. by rewrite <- Hkey, list_lookup_fmap, Hm. }
  split.
  - split.
    + intros m Hm. split; [ exact (proj1 (list.Forall_forall _ _) Hok m Hm) | exact (proj1 (list.Forall_forall _ _) Hsrc m Hm) ].
    + intros m m' Hm Hm' He. destruct (Hkeys m Hm) as (k & Hk1 & Hk2), (Hkeys m' Hm') as (k' & Hk1' & Hk2').
      unfold key in Hk2, Hk2'. rewrite He in Hk2. assert (k = k') as -> by (by eapply NoDup_lookup; [ apply sorted_nodup, Hin | .. ]).
      congruence.
  - intros m Hm. destruct (Hkeys m Hm) as (k & _ & Hk2). exact (proj2 (offset_below media k _ Hin Hk2)).
  - unfold kOldSequenceThreshold. lia.
  - unfold kOldSequenceThreshold. lia.
  - intros Hsh. unfold kOldSequenceThreshold. split; [ by apply Hshared | lia ].
Qed.

Lemma fec_off i : 0 <= i < 2 ^ 16 -> off fbase (u16 (fbase + i)) = i.
Proof. intros Hi. unfold off, u16. rewrite Zminus_mod_idemp_l, Z.add_simpl_l. by apply Z.mod_small. Qed.

Context `{!FecHeaderLaws ssrc media_ssrc}.

(** What the encoder makes of the block, and that all of it belongs to it. *)
Lemma session_encoded this garbage :
  buffers_ok this -> buffer 288 garbage ->
  exists fecs this', EncodeFec_upstream this media pf imp uep ty garbage = Ok (0, fecs, this') /\
    Z.of_nat (length fecs) = block_fecs /\ block_fecs <= 48 /\
    (forall r, delivered fecs r -> of_block ssrc media_ssrc (fun m => m ∈ media) block_cov fbase block_fecs r) /\
    (forall m, m ∈ media -> exists i, 0 <= i < block_fecs /\ m ∈ block_cov (u16 (fbase + i))).
Proof.
  intros Hbuf Hg. pose proof (bw_stream _ _ _ _ _ _ _ session_window) as Hstream.
  destruct Hses as [Hblock Hsrc Hw Hpf0 Hreader Hshared]. pose proof Hblock as [Hne _ _ _ Hsize Hpf _].
  assert (Hk : 1 <= Z.of_nat (length media)) by (destruct media; [ done | cbn [length]; lia ]).
  destruct (NumFecPackets_Ok (Z.of_nat (length media)) pf Hk Hpf) as (_ & Hr & _). fold block_fecs in Hr.
  pose proof (encoded_block ssrc media_ssrc (fun m => m ∈ media) this media pf imp uep ty garbage Hstream) as Henc.
  cbv zeta in Henc. fold block_fecs in Henc. rewrite (proj2 (Z.leb_le _ _) Hw) in Henc.
  destruct Henc as (fecs & this' & Hrun & Hlen & Hgen & Hcov); try done; [ by apply list.Forall_forall |].
  exists fecs, this'. split_and!; [ done | done | lia | |].
  - intros r Hr'. unfold delivered, of_block in *. destruct (rp_is_fec r) eqn:Ef.
    + destruct Hr' as (i & wire & Hi & ->). pose proof (lookup_lt_Some _ _ _ Hi). cbn [rp_seq_num].
      assert (Hoff : off fbase (u16 (fbase + Z.of_nat i)) = Z.of_nat i) by (apply fec_off; lia).
      split_and!; [ | apply u16_range.. | by rewrite Hoff; lia ]. unfold block_cov. rewrite Hoff.
      apply Hgen; [ lia | by rewrite Nat2Z.id ].
    + destruct Hr' as (m & Hm & ->). by split_and!.
  - intros m Hm. destruct (Hcov m Hm) as (i & Hi & Hin). exists i. split; [ done |]. unfold block_cov. by rewrite fec_off by lia.
Qed.

(** How long the FEC packets are, if headers have at least [least] bytes and
    media packets at most [n]. *)
Lemma session_sizes this garbage ret fecs this' least n :
  buffers_ok this -> buffer 288 garbage -> EncodeFec_upstream this media pf imp uep ty garbage = Ok (ret, fecs, this') ->
  (forall row h, mask_ok row -> header_size row h -> (least <= h)%nat) -> Forall (fun m => (length m <= n)%nat) media ->
  Forall (fun f => bytes_ok f /\ (12 <= length f)%nat /\ (least <= length f <= n + 20)%nat) fecs.
Proof.
  intros Hbuf Hg Hrun Hleast Hn. destruct Hses as [Hblock Hsrc Hw Hpf0 _ _].
  pose proof (EncodeFec_sends ssrc media_ssrc this media pf imp uep ty garbage Hblock Hsrc Hbuf Hg Hpf0) as Henc.
  cbv zeta in Henc. rewrite (proj2 (Z.leb_le _ _) Hw) in Henc. destruct Henc as (fecs2 & this2 & Hrun2 & Hlen & Hall).
  assert (fecs2 = fecs) as -> by congruence. pose proof Hblock as [Hne Hrtp _ _ Hsize Hpf Himp].
  assert (Hk : 1 <= Z.of_nat (length media)) by (destruct media; [ done | cbn [length]; lia ]).
  destruct (NumFecPackets_Ok (Z.of_nat (length media)) pf Hk Hpf) as (_ & Hr & _).
  apply Forall_lookup_2. intros i f Hi. pose proof (lookup_lt_Some _ _ _ Hi).
  destruct (protects_covers ty uep (Z.of_nat (length media)) (fec_count (Z.of_nat (length media)) pf) imp ltac:(lia) ltac:(lia) ltac:(lia)) as (_ & Hsome & _).
  destruct (Hall (Z.of_nat i) ltac:(lia)) as (f' & Hf' & Hfec). rewrite Nat2Z.id in Hf'. assert (f' = f) as -> by congruence.
  assert (Hpick : picked (protects ty uep (Z.of_nat (length media)) (fec_count (Z.of_nat (length media)) pf) imp (Z.of_nat i)) 0 media <> [])
    by (apply picked_some, Hsome; lia).
  destruct (block_fec_buffer ssrc media_ssrc media _ f n Hrtp Hn Hpick Hfec) as [Hb Hl].
  destruct (block_fec_header ssrc media_ssrc media _ f Hrtp Hpick Hfec) as (row & h & Hrow & Hh & Hhl).
  pose proof (Hleast row h Hrow Hh). split_and!; [ done | lia.. ].
Qed.

End Session.

(** ** Theorems *)

(** C5. One block from end to end, for either header format, equal or unequal
    protection, any gaps in the sequence numbers: [EncodeFec] succeeds, and
    whichever of the media and FEC packets arrive, in whatever order and however
    often, [DecodeFec] ends without a fault and holds exactly the media packets
    that can be derived from what arrived by rebuilding, FEC packet by FEC
    packet, the one missing packet. *)
Theorem encode_decode_exact (mode : CheckMode) (writer : FecHeaderWriter) (reader : FecHeaderReader) ssrc media_ssrc
    media pf imp fbase uep ty this garbage :
  FecHeaderLaws ssrc media_ssrc -> session_ok ssrc media_ssrc media pf imp fbase -> buffers_ok this -> buffer 288 garbage ->
  exists fecs this', EncodeFec_upstream this media pf imp uep ty garbage = Ok (0, fecs, this') /\
    forall rs, Forall (delivered ssrc media_ssrc media fbase fecs) rs ->
      exists dec rec, decode_all (mkDecoder ssrc media_ssrc []) [] rs = Ok (dec, rec) /\
        forall m, m ∈ map rc_pkt rec <-> derivable (block_cov media pf imp fbase uep ty) rs m.
Proof.
  intros Hlaws Hses Hbuf Hg.
  destruct (session_encoded ssrc media_ssrc media pf imp fbase uep ty Hses this garbage Hbuf Hg)
    as (fecs & this' & Hrun & _ & _ & Hdel & _). exists fecs, this'. split; [ done |]. intros rs Hrs.
  destruct (decode_block ssrc media_ssrc _ _ _ _ _ (block_cov media pf imp fbase uep ty) rs
    (session_window ssrc media_ssrc media pf imp fbase Hses)) as (dec & rec & Hdec & _ & _ & Hm).
  { eapply list.Forall_impl; [ exact Hrs | exact Hdel ]. }
  by exists dec, rec.
Qed.

(** Any one lost packet comes back: every media packet of a block has a FEC
    packet such that, when that FEC packet and all other media packets arrive,
    in any order and with any duplicates, the decoder ends with the whole
    block. *)
Theorem single_loss_recovered (mode : CheckMode) (writer : FecHeaderWriter) (reader : FecHeaderReader) ssrc media_ssrc
    media pf imp fbase uep ty this garbage :
  FecHeaderLaws ssrc media_ssrc -> session_ok ssrc media_ssrc media pf imp fbase -> buffers_ok this -> buffer 288 garbage ->
  exists fecs this', EncodeFec_upstream this media pf imp uep ty garbage = Ok (0, fecs, this') /\
    forall lost, lost ∈ media -> exists i wire, fecs !! i = Some wire /\
      forall rs, Forall (delivered ssrc media_ssrc media fbase fecs) rs ->
        mkReceived ssrc (u16 (fbase + Z.of_nat i)) true wire ∈ rs ->
        (forall m, m ∈ media -> m <> lost -> mkReceived media_ssrc (seq_of m) false m ∈ rs) ->
        exists dec rec, decode_all (mkDecoder ssrc media_ssrc []) [] rs = Ok (dec, rec) /\
          forall m, m ∈ media -> m ∈ map rc_pkt rec.
Proof.
  intros Hlaws Hses Hbuf Hg.
  destruct (session_encoded ssrc media_ssrc media pf imp fbase uep ty Hses this garbage Hbuf Hg)
    as (fecs & this' & Hrun & Hlen & H48 & Hdel & Hcov). exists fecs, this'. split; [ done |]. intros lost Hlost.
  destruct (Hcov lost Hlost) as (i & Hi & Hin). destruct (lookup_lt_is_Some_2 fecs (Z.to_nat i)) as [wire Hwire]; [ lia |].
  exists (Z.to_nat i), wire. split; [ done |]. intros rs Hrs Hfec Hothers. rewrite Z2Nat.id in Hfec by lia.
  destruct (decode_block ssrc media_ssrc _ _ _ _ _ (block_cov media pf imp fbase uep ty) rs
    (session_window ssrc media_ssrc media pf imp fbase Hses)) as (dec & rec & Hdec & _ & _ & Hm).
  { eapply list.Forall_impl; [ exact Hrs | exact Hdel ]. }
  exists dec, rec. split; [ done |].
  assert (Hgot : forall m, m ∈ media -> m <> lost -> derivable (block_cov media pf imp fbase uep ty) rs m).
  { intros m Hm1 Hm2. exact (derive_received _ rs _ (Hothers m Hm1 Hm2) eq_refl). }
  intros m Hmm. apply Hm. destruct (decide (m = lost)) as [-> | Hne]; [| by apply Hgot ].
  eapply derive_rebuilt; [ exact Hfec | done | exact Hin |]. intros m' Hm' Hne. apply Hgot; [| done ].
  cbn [rp_seq_num] in Hm'. unfold block_cov in Hm'. apply elem_of_picked in Hm' as (j & Hj & _). by eapply list_elem_of_lookup_2.
Qed.

(** What the contract says of one format. *)
Lemma header_roundtrip `{FecHeaderWriter} `{FecHeaderReader} ssrc media_ssrc `{!FecHeaderLaws ssrc media_ssrc} base mask s :
  mask_ok mask -> 0 <= base < 2 ^ 16 -> s <> [] -> Forall rtp_ok s -> Forall (fits 32) s ->
  exists h wire hd d, header_size mask h /\ FinalizeFecHeader media_ssrc base mask (assemble h s) = Ok wire /\
    ReadFecHeader ssrc wire = Ok (Some (hd, d)) /\ carries hd d s /\ announces hd d media_ssrc base mask.
Proof.
  intros Hm Hb Hs Hok Hfit. destruct (law_header_size mask Hm) as (h & Hh & Hle).
  destruct (law_read_back mask h base s) as (wire & hd & d & Hw); try done.
  { eapply list.Forall_impl; [ exact Hfit | unfold fits; lia ]. }
  by exists h, wire, hd, d.
Qed.

(** C26. What a header writer completes its reader understands, in both formats
    and for every mask of 2 or 6 bytes: the reader accepts the packet, finds
    the base sequence number, the protected source (which ULPFEC does not send
    and takes to be its own) and exactly the bits of the mask, FlexFEC through
    the K bits it interleaves with them, and what it leaves of the packet still
    carries the sum of the protected packets. *)
Theorem fec_header_roundtrip (mode : CheckMode) ssrc media_ssrc base mask s :
  mask_ok mask -> 0 <= base < 2 ^ 16 -> 0 <= media_ssrc < 2 ^ 32 -> s <> [] -> Forall rtp_ok s -> Forall (fits 32) s ->
  (exists h wire hd d, @header_size UlpfecHeaderWriter mask h /\
     Ulpfec_FinalizeFecHeader media_ssrc base mask (assemble h s) = Ok wire /\
     Ulpfec_ReadFecHeader media_ssrc wire = Ok (Some (hd, d)) /\ carries hd d s /\ announces hd d media_ssrc base mask) /\
  (exists h wire hd d, @header_size Flexfec03.Flexfec03HeaderWriter mask h /\
     Flexfec03.Flexfec_FinalizeFecHeader media_ssrc base mask (assemble h s) = Ok wire /\
     Flexfec03.Flexfec_ReadFecHeader ssrc wire = Ok (Some (hd, d)) /\ carries hd d s /\ announces hd d media_ssrc base mask).
Proof.
  intros Hm Hb Hssrc Hs Hok Hfit. split.
  - exact (@header_roundtrip UlpfecHeaderWriter UlpfecHeaderReader media_ssrc media_ssrc (UlpfecLaws media_ssrc)
      base mask s Hm Hb Hs Hok Hfit).
  - exact (@header_roundtrip Flexfec03.Flexfec03HeaderWriter Flexfec03.Flexfec03HeaderReader ssrc media_ssrc
      (Flexfec03.FlexfecLaws ssrc media_ssrc Hssrc) base mask s Hm Hb Hs Hok Hfit).
Qed.

(** ** A block of three packets *)

(** Sequence numbers 65534, 65535 and 1: 0 is missing, and the numbers wrap. *)
Definition demo_packet (seq : Z) (payload : list Z) : list Z :=
  [0x80; 96; seq / 256; seq mod 256; 0; 0; 0; 1; 0; 0; 0; 7] ++ payload.
Definition demo_media : list (list Z) := [demo_packet 65534 [1; 2; 3]; demo_packet 65535 [4]; demo_packet 1 [5; 6]].
Definition demo_buffers : MaskBuffers := mkBuffers (replicate 288 0) (replicate 288 0) 2.
Definition demo_sent (m : list Z) : Prop := m ∈ demo_media.

Lemma demo_buffers_ok : buffers_ok demo_buffers.
Proof. split; (split; [ reflexivity | by apply bytes_check ]). Qed.
Lemma demo_garbage_ok : buffer 288 (replicate 288 7).
Proof. split; [ reflexivity | by apply bytes_check ]. Qed.

Lemma demo_rtp : Forall rtp_ok demo_media.
Proof. repeat (constructor; [ split; [ cbn; lia | split; [ by apply bytes_check | reflexivity ] ] |]). constructor. Qed.

Lemma demo_order : in_order demo_media.
Proof.
  assert (He : offsets demo_media = [0; 1; 3]) by (vm_compute; reflexivity). unfold in_order. rewrite He.
  split; repeat constructor; lia.
Qed.

Lemma demo_block `{FecHeaderWriter} : writer_MaxMediaPackets = 48 -> block_ok demo_media 200 0.
Proof.
  intros Hmax. split; [ done | exact demo_rtp | | exact demo_order | rewrite Hmax; cbn; lia | lia | cbn; lia ].
  repeat (constructor; [ unfold fits; cbn; lia |]). constructor.
Qed.

Lemma demo_session `{FecHeaderWriter} `{FecHeaderReader} ssrc :
  writer_MaxMediaPackets = 48 -> 48 <= reader_MaxMediaPackets -> 48 <= reader_MaxFecPackets ->
  session_ok ssrc 7 demo_media 200 0 2.
Proof.
  intros Hw Hm Hf. split; [ by apply demo_block | repeat constructor | rewrite Hw; vm_compute; discriminate | lia | done | reflexivity ].
Qed.

Lemma ulpfec_session : @session_ok (@UlpfecHeaderWriter true) (@UlpfecHeaderReader true) 7 7 demo_media 200 0 2.
Proof. by apply demo_session. Qed.
Lemma flexfec_session :
  @session_ok (@Flexfec03.Flexfec03HeaderWriter true) (@Flexfec03.Flexfec03HeaderReader true) 9 7 demo_media 200 0 2.
Proof. by apply demo_session. Qed.

(** What ULPFEC sends for it. *)
Definition demo_fecs : list (list Z) :=
  match @EncodeFec_upstream true (@UlpfecHeaderWriter true) demo_buffers demo_media 200 0 false kFecMaskRandom (replicate 288 7) with
  | Ok (_, fecs, _) => fecs
  | Fail _ => []
  end.

Lemma demo_delivered (r : ReceivedPacket) :
  delivered 7 7 demo_media 2 demo_fecs r ->
  @of_block (@UlpfecHeaderReader true) 7 7 demo_sent (block_cov demo_media 200 0 2 false kFecMaskRandom) 2
    (block_fecs demo_media 200) r.
Proof.
  destruct (@session_encoded true (@UlpfecHeaderWriter true) (@UlpfecHeaderReader true) 7 7 demo_media 200 0 2 false kFecMaskRandom
    ulpfec_session (@UlpfecLaws true 7) demo_buffers (replicate 288 7) demo_buffers_ok demo_garbage_ok) as (fecs & this' & Hrun & _ & _ & Hdel & _).
  unfold demo_fecs. rewrite Hrun. apply Hdel.
Qed.

(** The first packet is lost; the rest arrives late, twice and out of order. *)
Definition demo_arrivals : list ReceivedPacket :=
  [ mkReceived 7 3 true (demo_fecs !!! 1%nat);
    mkReceived 7 1 false (demo_packet 1 [5; 6]);
    mkReceived 7 2 true (demo_fecs !!! 0%nat);
    mkReceived 7 1 false (demo_packet 1 [5; 6]);
    mkReceived 7 65535 false (demo_packet 65535 [4]) ].

Lemma demo_arrive : Forall (delivered 7 7 demo_media 2 demo_fecs) demo_arrivals.
Proof.
  repeat constructor.
  - exists 1%nat, (demo_fecs !!! 1%nat). split; vm_compute; reflexivity.
  - exists (demo_packet 1 [5; 6]). split; [ do 2 right; left | vm_compute; reflexivity ].
  - exists 0%nat, (demo_fecs !!! 0%nat). split; vm_compute; reflexivity.
  - exists (demo_packet 1 [5; 6]). split; [ do 2 right; left | vm_compute; reflexivity ].
  - exists (demo_packet 65535 [4]). split; [ right; left | vm_compute; reflexivity ].
Qed.

(** ** Witnesses *)

Lemma demo_window :
  @block_window (@UlpfecHeaderReader true) 7 7 demo_sent (block_base demo_media) (width demo_media) 2 (block_fecs demo_media 200).
Proof.
  exact (@session_window true (@UlpfecHeaderWriter true) (@UlpfecHeaderReader true) 7 7 demo_media 200 0 2 ulpfec_session).
Qed.

Lemma demo_of_block :
  Forall (@of_block (@UlpfecHeaderReader true) 7 7 demo_sent (block_cov demo_media 200 0 2 false kFecMaskRandom) 2
    (block_fecs demo_media 200)) demo_arrivals.
Proof. eapply list.Forall_impl; [ exact demo_arrive | exact demo_delivered ]. Qed.

Lemma encode_decode_exact_witness :
  exists fecs this',
    @EncodeFec_upstream true (@Flexfec03.Flexfec03HeaderWriter true) demo_buffers demo_media 200 0 false kFecMaskBursty (replicate 288 7)
      = Ok (0, fecs, this') /\
    forall rs, Forall (delivered 9 7 demo_media 2 fecs) rs ->
      exists dec rec, @decode_all true (@Flexfec03.Flexfec03HeaderReader true) (mkDecoder 9 7 []) [] rs = Ok (dec, rec) /\
        forall m, m ∈ map rc_pkt rec <-> derivable (block_cov demo_media 200 0 2 false kFecMaskBursty) rs m.
Proof.
  apply (encode_decode_exact true (@Flexfec03.Flexfec03HeaderWriter true) (@Flexfec03.Flexfec03HeaderReader true) 9 7 demo_media 200 0 2);
    [ apply Flexfec03.FlexfecLaws; lia | exact flexfec_session | exact demo_buffers_ok | exact demo_garbage_ok ].
Defined.

Lemma single_loss_recovered_witness :
  exists fecs this',
    @EncodeFec_upstream true (@UlpfecHeaderWriter true) demo_buffers demo_media 200 2 true kFecMaskRandom (replicate 288 7)
      = Ok (0, fecs, this') /\
    forall lost, lost ∈ demo_media -> exists i wire, fecs !! i = Some wire /\
      forall rs, Forall (delivered 7 7 demo_media 2 fecs) rs ->
        mkReceived 7 (u16 (2 + Z.of_nat i)) true wire ∈ rs ->
        (forall m, m ∈ demo_media -> m <> lost -> mkReceived 7 (seq_of m) false m ∈ rs) ->
        exists dec rec, @decode_all true (@UlpfecHeaderReader true) (mkDecoder 7 7 []) [] rs = Ok (dec, rec) /\
          forall m, m ∈ demo_media -> m ∈ map rc_pkt rec.
Proof.
  apply (single_loss_recovered true (@UlpfecHeaderWriter true) (@UlpfecHeaderReader true) 7 7 demo_media 200 2 2);
    [ exact (@UlpfecLaws true 7) | | exact demo_buffers_ok | exact demo_garbage_ok ].
  destruct ulpfec_session as [[? ? ? ? ? ? _] ? ? ? ? ?]. by split.
Defined.


Lemma decoder_exact_witness :
  exists this rec, @decode_all true (@UlpfecHeaderReader true) (mkDecoder 7 7 []) [] demo_arrivals = Ok (this, rec) /\
    forall m, m ∈ map rc_pkt rec <-> derivable (block_cov demo_media 200 0 2 false kFecMaskRandom) demo_arrivals m.
Proof. apply (decoder_exact true (@UlpfecHeaderReader true) 7 7 demo_sent _ _ _ _ _ demo_arrivals demo_window demo_of_block). Defined.

Lemma decoder_order_irrelevant_witness :
  exists this rec this' rec',
    @decode_all true (@UlpfecHeaderReader true) (mkDecoder 7 7 []) [] demo_arrivals = Ok (this, rec) /\
    @decode_all true (@UlpfecHeaderReader true) (mkDecoder 7 7 []) [] (rev demo_arrivals) = Ok (this', rec') /\
    map rc_pkt rec = map rc_pkt rec'.
Proof.
  apply (decoder_order_irrelevant true (@UlpfecHeaderReader true) 7 7 demo_sent _ _ _ _ _ demo_arrivals (rev demo_arrivals)
    demo_window demo_of_block). intros r. by rewrite !list_elem_of_In, <- in_rev.
Defined.


(** Both FEC packets and one media packet are there: the first FEC packet gives
    the second media packet, and that one and the other FEC packet the third. *)
Definition demo_read (i : nat) : FecHeader * list Z :=
  match @ReadFecHeader (@UlpfecHeaderReader true) 7 (demo_fecs !!! i) with
  | Ok (Some hd) => hd
  | _ => (mkFecHeader 0 0 0 0 0 0, [])
  end.
Definition demo_stored (i : nat) : ReceivedFecPacket :=
  let seq := 2 + Z.of_nat i in
  mkReceivedFec 7 seq (demo_read i).1 (demo_read i).2
    (view [demo_packet 65535 [4]] (block_cov demo_media 200 0 2 false kFecMaskRandom seq)).

Lemma demo_stored_ok i : (i < 2)%nat ->
  exists s, fec_ok 7 demo_sent (demo_stored i) s.
Proof.
  intros Hi. exists (block_cov demo_media 200 0 2 false kFecMaskRandom (2 + Z.of_nat i)).
  destruct (lookup_lt_is_Some_2 demo_fecs i) as [wire Hw]; [ vm_compute; lia |].
  pose proof (demo_delivered (mkReceived 7 (u16 (2 + Z.of_nat i)) true wire)) as Hb. rewrite u16_id in Hb by lia.
  destruct Hb as ((_ & h & d & base & mask & Hread & Ho & _) & _).
  { exists i, wire. split; [ done |]. by rewrite u16_id by lia. }
  assert (Hr : demo_read i = (h, d)).
  { unfold demo_read. rewrite (list_lookup_total_correct _ _ _ Hw). cbn [rp_pkt] in Hread. by rewrite Hread. }
  unfold demo_stored. rewrite Hr. split; [ exact Ho |]. split; [ done | apply view_status ].
Qed.

Lemma AttemptRecovery_refines_witness :
  let this := mkDecoder 7 7 [demo_stored 0; demo_stored 1] in
  let rec := [mkRecovered false true 7 65535 (demo_packet 65535 [4])] in
  exists this' rec' n, @AttemptRecovery true (@UlpfecHeaderReader true) this rec = Ok (this', rec', n) /\
    @peels true (@UlpfecHeaderReader true) 7 demo_sent n (received_fec_packets_ this, rec) (received_fec_packets_ this', rec') /\
    Forall (settled rec') (received_fec_packets_ this').
Proof.
  apply (AttemptRecovery_refines true (@UlpfecHeaderReader true) 7 7 demo_sent).
  - apply demo_window.
  - vm_compute. discriminate.
  - split; [ done | | | vm_compute; discriminate ].
    + repeat constructor; apply demo_stored_ok; lia.
    + repeat constructor.
Defined.

Lemma InsertZeros_places_columns_witness :
  let this := mkBuffers ([0xe0; 0] ++ replicate 286 0) (replicate 288 0) 2 in
  exists this', @InsertZerosInPacketMasks true (@UlpfecHeaderWriter true) this demo_media 1 = Ok (this', width demo_media) /\
    length (up_masks this') = length (up_masks this) /\
    widened (up_masks this) (up_masks this') (up_mask_size this) (row_bytes (width demo_media)) 1 (offsets demo_media).
Proof.
  apply (InsertZeros_places_columns true (@UlpfecHeaderWriter true) _ demo_media 1);
    [ lia | done | exact demo_rtp | exact demo_order | | vm_compute; split; discriminate ].
  split; [ reflexivity | vm_compute; discriminate | vm_compute; discriminate | by apply bytes_check |].
  intros i p Hi Hp. assert (i = 0) as -> by lia. apply negb_true_iff.
  apply (all_between_spec 3 15 (fun p => negb (mask_bit ([0xe0; 0] ++ replicate 286 0) 2 0 p))); [ by vm_compute |].
  cbn in Hp. lia.
Defined.

Lemma fec_header_roundtrip_witness :
  (exists h wire hd d, @header_size (@UlpfecHeaderWriter true) [0x90; 0x01] h /\
     @Ulpfec_FinalizeFecHeader true 7 65534 [0x90; 0x01] (assemble h demo_media) = Ok wire /\
     @Ulpfec_ReadFecHeader true 7 wire = Ok (Some (hd, d)) /\ carries hd d demo_media /\ announces hd d 7 65534 [0x90; 0x01]) /\
  (exists h wire hd d, @header_size (@Flexfec03.Flexfec03HeaderWriter true) [0x90; 0x01] h /\
     @Flexfec03.Flexfec_FinalizeFecHeader true 7 65534 [0x90; 0x01] (assemble h demo_media) = Ok wire /\
     @Flexfec03.Flexfec_ReadFecHeader true 9 wire = Ok (Some (hd, d)) /\ carries hd d demo_media /\
     announces hd d 7 65534 [0x90; 0x01]).
Proof.
  apply (fec_header_roundtrip true 9 7 65534 [0x90; 0x01] demo_media); [ | lia | lia | done | exact demo_rtp |].
  - split; [ by left | by apply bytes_check ].
  - repeat (constructor; [ unfold fits; cbn; lia |]). constructor.
Defined.
