(* ===== verification/RtpFecSafe.v ===== *)
(** * The FEC decoder on arbitrary packets

    Nothing is assumed of what arrives but what the callers check: media packets
    have 12 to 1500 bytes, and the source identifiers are the expected ones.
    [DecodeFec] then never leaves its buffers and never trips over one of its
    own checks, whatever the FEC packets say. *)
From S2P Require Import Prelude.
From S2P Require Import SeqNum.
From S2P Require Import RtpFecCodec.
From S2P Require Import RtpFecAlgebra.
From S2P Require Import UlpfecHeader.
From S2P Require Import FlexfecHeader.
From S2P Require Import RtpFecDecoder.
From S2P Require Import RtpFecSound.
From stdpp Require Import base list list_numbers numbers option tactics.
From Stdlib Require Import ZArith Lia.

#[local] Open Scope Z_scope.

(** ** What a header reader promises *)

(** On any bytes it answers, and what it accepts has room for an RTP header. *)
Class ReaderSafe `{FecHeaderReader} : Prop := {
  read_safe : forall ssrc data, bytes_ok data -> exists r, ReadFecHeader ssrc data = Ok r /\
    forall h d, r = Some (h, d) -> bytes_ok d /\ (12 <= length d)%nat /\ 0 <= fh_size h /\ 0 <= fh_protection_length h /\
      0 <= fh_packet_mask_offset h /\ 0 <= fh_packet_mask_size h;
  tracked_nonneg : 0 <= reader_MaxMediaPackets /\ 1 <= reader_MaxFecPackets
}.

Lemma read_be16_range data i : bytes_ok data -> 0 <= i -> i + 2 <= Z.of_nat (length data) -> exists x, read_be16 data i = Ok x /\ 0 <= x < 2 ^ 16.
Proof.
  intros Hb Hi Hl. rewrite read_be16_Ok by lia. eexists. split; [ done |].
  assert (Hr : forall j, 0 <= byte data j < 256).
  { intros j. unfold byte. destruct (data !! j) as [b |] eqn:E; cbn; [ exact (Forall_lookup_1 _ _ _ _ Hb E) | lia ]. }
  pose proof (Hr (Z.to_nat i)). pose proof (Hr (Z.to_nat (i + 1))). lia.
Qed.

#[export] Instance UlpfecReaderSafe `{CheckMode} : @ReaderSafe UlpfecHeaderReader.
Proof.
  split; [| vm_compute; split; discriminate ]. intros ssrc data Hb. cbn [ReadFecHeader UlpfecHeaderReader]. unfold Ulpfec_ReadFecHeader.
  change kPacketMaskOffset with 12.
  destruct (Z.ltb_spec (Z.of_nat (length data)) 12) as [| Hl]; [ by exists None |].
  rewrite get_byte, bind_Ok by lia. cbv zeta.
  rewrite UlpfecHeaderSize_Ok, bind_Ok by (destruct (negb _); [ by right | by left ]).
  destruct (read_be16_range data 2 Hb) as (base & -> & Hbase); [ lia | lia |]. rewrite bind_Ok.
  destruct (read_be16_range data 10 Hb) as (len & -> & Hlen); [ lia | lia |]. rewrite bind_Ok.
  destruct (memcpy data 2 data 8 2) as [d |] eqn:E.
  2:{ rewrite memcpy_Ok in E by lia. discriminate. }
  apply (memcpy_buffer (length data)) in E as [El Eb]; [| by split | done ]. rewrite bind_Ok. eexists. split; [ done |].
  intros h d' [= <- <-]. cbn. split_and!; try done; try lia; destruct (negb _); vm_compute; discriminate.
Qed.

(** Accesses inside a buffer. *)
Lemma get_safe n d i : buffer n d -> 0 <= i < Z.of_nat n -> exists b, get d i = Ok b /\ 0 <= b < 256.
Proof.
  intros [Hl Hb] Hi. destruct (lookup_lt_is_Some_2 d (Z.to_nat i)) as [b E]; [ lia |]. exists b.
  split; [ apply get_Ok; [ done | lia ] | exact (Forall_lookup_1 _ _ _ _ Hb E) ].
Qed.
Lemma or_at_safe n d i v : buffer n d -> 0 <= i < Z.of_nat n -> 0 <= v < 256 -> exists d', Flexfec03.or_at d i v = Ok d' /\ buffer n d'.
Proof.
  intros Hd Hi Hv. destruct (Flexfec03.or_at d i v) as [d' |] eqn:E; [ exists d'; split; [ done | by eapply Flexfec03.or_at_buffer in E ] |].
  unfold Flexfec03.or_at in E. destruct (get_safe n d i Hd Hi) as (b & Eb & _). rewrite Eb, bind_Ok, put_Ok in E by (rewrite (proj1 Hd); lia). discriminate.
Qed.
Lemma test_at_safe n d i v : buffer n d -> 0 <= i < Z.of_nat n -> exists b, Flexfec03.test_at d i v = Ok b.
Proof. intros Hd Hi. unfold Flexfec03.test_at. destruct (get_safe n d i Hd Hi) as (b & -> & _). rewrite bind_Ok. by eexists. Qed.
Lemma read_be16_safe n d i : buffer n d -> 0 <= i -> i + 2 <= Z.of_nat n -> exists x, read_be16 d i = Ok x.
Proof. intros [Hl Hb] Hi Hn. destruct (read_be16_range d i Hb Hi) as (x & -> & _); [ lia |]. by eexists. Qed.
Lemma read_be32_safe n d i : buffer n d -> 0 <= i -> i + 4 <= Z.of_nat n -> exists x, read_be32 d i = Ok x.
Proof. intros [Hl Hb] Hi Hn. rewrite read_be32_Ok by lia. by eexists. Qed.
Lemma write_be16_safe n d i x : buffer n d -> 0 <= i -> i + 2 <= Z.of_nat n -> exists d', write_be16 d i x = Ok d' /\ buffer n d'.
Proof.
  intros Hd Hi Hn. destruct (write_be16 d i x) as [d' |] eqn:E; [ exists d'; split; [ done | by eapply write_be16_buffer in E ] |].
  rewrite write_be16_Ok in E by (rewrite ?(proj1 Hd); lia). discriminate.
Qed.
Lemma write_be32_safe n d i x : buffer n d -> 0 <= i -> i + 4 <= Z.of_nat n -> exists d', write_be32 d i x = Ok d' /\ buffer n d'.
Proof.
  intros Hd Hi Hn. destruct (write_be32 d i x) as [d' |] eqn:E; [ exists d'; split; [ done | by eapply write_be32_buffer in E ] |].
  rewrite write_be32_Ok in E by (rewrite ?(proj1 Hd); lia). discriminate.
Qed.

Lemma shift_bits b k m : 0 <= b < 256 -> 0 <= m < 256 -> 0 <= Z.land (Z.shiftr b k) m < 256.
Proof. intros Hb Hm. rewrite Z.land_comm. apply land_byte; [ done |]. apply Z.shiftr_nonneg. lia. Qed.

Lemma Flexfec_read_mask_safe n d :
  buffer n d -> 20 <= Z.of_nat n -> exists r, Flexfec03.read_mask d = Ok r /\
    forall k d', r = Some (k, d') -> buffer n d' /\ (k = 2 \/ k = 6 \/ k = 14) /\ 18 + k <= Z.of_nat n.
Proof.
  intros Hd Hn. unfold Flexfec03.read_mask. cbv zeta. change Flexfec03.kPacketMaskOffset with 18.
  change (Flexfec03.kHeaderSizes !!! 1%nat) with 24. change (Flexfec03.kHeaderSizes !!! 2%nat) with 32. rewrite (proj1 Hd).
  destruct (test_at_safe n d 18 128 Hd) as (k0 & ->); [ lia |]. rewrite bind_Ok.
  destruct (read_be16_safe n d 18 Hd) as (m0 & ->); [ lia | lia |]. rewrite bind_Ok.
  destruct (write_be16_safe n d 18 (u16 (Z.shiftl m0 1)) Hd) as (d1 & -> & Hd1); [ lia | lia |]. rewrite bind_Ok.
  destruct k0; [ eexists; split; [ done |]; intros k d' [= <- <-]; split_and!; [ done | by left | cbn; lia ] |].
  destruct (Z.ltb_spec (Z.of_nat n) 24); [ by exists None |]. change (18 + 2) with 20. change (18 + 1) with 19.
  destruct (test_at_safe n d1 20 128 Hd1) as (k1 & ->); [ lia |]. rewrite bind_Ok.
  destruct (get_safe n d1 20 Hd1) as (b2 & -> & Hb2); [ lia |]. rewrite bind_Ok.
  destruct (or_at_safe n d1 19 (Z.land (Z.shiftr b2 6) 1) Hd1) as (d2 & -> & Hd2); [ lia | apply shift_bits; lia |]. rewrite bind_Ok.
  destruct (read_be32_safe n d2 20 Hd2) as (m1 & ->); [ lia | lia |]. rewrite bind_Ok.
  destruct (write_be32_safe n d2 20 (u32 (Z.shiftl m1 2)) Hd2) as (d3 & -> & Hd3); [ lia | lia |]. rewrite bind_Ok.
  destruct k1; [ eexists; split; [ done |]; intros k d' [= <- <-]; split_and!; [ done | by right; left | cbn; lia ] |].
  destruct (Z.ltb_spec (Z.of_nat n) 32); [ by exists None |]. change (18 + 6) with 24. change (18 + 5) with 23.
  destruct (test_at_safe n d3 24 128 Hd3) as (k2 & ->); [ lia |]. rewrite bind_Ok. destruct (negb k2); [ by exists None |].
  destruct (get_safe n d3 24 Hd3) as (b6 & -> & Hb6); [ lia |]. rewrite bind_Ok.
  destruct (or_at_safe n d3 23 (Z.land (Z.shiftr b6 5) 3) Hd3) as (d4 & -> & Hd4); [ lia | apply shift_bits; lia |]. rewrite bind_Ok.
  unfold read_be64, write_be64. change (24 + 4) with 28.
  destruct (read_be32_safe n d4 24 Hd4) as (m2 & ->); [ lia | lia |]. rewrite bind_Ok.
  destruct (read_be32_safe n d4 28 Hd4) as (m3 & ->); [ lia | lia |]. rewrite !bind_Ok.
  match goal with |- context [write_be32 d4 24 ?x] => destruct (write_be32_safe n d4 24 x Hd4) as (d5 & -> & Hd5); [ lia | lia |] end. rewrite bind_Ok.
  match goal with |- context [write_be32 d5 28 ?x] => destruct (write_be32_safe n d5 28 x Hd5) as (d6 & -> & Hd6); [ lia | lia |] end. rewrite bind_Ok.
  eexists. split; [ done |]. intros k d' [= <- <-]. split_and!; [ done | by right; right | cbn; lia ].
Qed.

#[export] Instance FlexfecReaderSafe `{CheckMode} : @ReaderSafe Flexfec03.Flexfec03HeaderReader.
Proof.
  split; [| vm_compute; split; discriminate ]. intros ssrc data Hb. cbn [ReadFecHeader Flexfec03.Flexfec03HeaderReader].
  unfold Flexfec03.Flexfec_ReadFecHeader. cbv zeta. change (Flexfec03.kBaseHeaderSize + Flexfec03.kStreamSpecificHeaderSize) with 18.
  change (Flexfec03.kHeaderSizes !!! 0%nat) with 20.
  assert (Hd : buffer (length data) data) by done. destruct (Z.leb_spec (Z.of_nat (length data)) 18); [ by exists None |].
  destruct (test_at_safe _ data 0 128 Hd) as (b1 & ->); [ lia |]. rewrite bind_Ok. destruct b1; [ by exists None |].
  destruct (test_at_safe _ data 0 64 Hd) as (b2 & ->); [ lia |]. rewrite bind_Ok. destruct b2; [ by exists None |].
  destruct (get_safe _ data 8 Hd) as (cnt & -> & _); [ lia |]. rewrite bind_Ok. destruct (negb _); [ by exists None |].
  destruct (read_be32_safe _ data 12 Hd) as (ps & ->); [ lia | lia |]. rewrite bind_Ok.
  destruct (read_be16_safe _ data 16 Hd) as (base & ->); [ lia | lia |]. rewrite bind_Ok.
  destruct (Z.ltb_spec (Z.of_nat (length data)) 20); [ by exists None |].
  destruct (Flexfec_read_mask_safe _ data Hd) as (r & -> & Hr); [ lia |]. rewrite bind_Ok. destruct r as [[k d] |]; [| by exists None ].
  destruct (Hr k d eq_refl) as ([Hl Hdb] & Hk & Hsz).
  assert (Hsize : Flexfec03.FlexfecHeaderSize k = Ok (18 + k)) by (destruct Hk as [-> | [-> | ->]]; unfold Flexfec03.FlexfecHeaderSize; by rewrite RTC_DCHECK_Ok).
  rewrite Hsize, bind_Ok. eexists. split; [ done |]. intros h d' [= <- <-]. cbn.
  assert (forall x, 0 <= u64 x) by (intros; apply Z.mod_pos_bound; lia). split_and!; try done; try lia.
Qed.

(** ** Rebuilding a packet *)

(** What the callers guarantee of a media packet. *)
Definition media_ok (pkt : list Z) : Prop := bytes_ok pkt /\ (12 <= length pkt <= 1500)%nat.

Lemma XorHeaders_safe n m d :
  media_ok m -> buffer n d -> (12 <= n)%nat -> exists d', XorHeaders m d = Ok d' /\ buffer n d'.
Proof.
  intros [Hm Hl] [Hd Hb] Hn. assert (Hsplit : exists h rest, d = h ++ rest /\ length h = 8%nat).
  { exists (take 8 d), (drop 8 d). split; [ by rewrite take_drop | rewrite length_take; lia ]. }
  destruct Hsplit as (h & rest & -> & Hh). rewrite XorHeaders_Ok by lia. eexists. split; [ done |].
  apply Forall_app in Hb as [Hbh Hbr]. split.
  - rewrite length_app in *. rewrite length_pxor, length_hvec. lia.
  - apply Forall_app_2; [| done ]. apply pxor_bytes; [ done |].
    assert (Hr : forall j, 0 <= byte m j < 256).
    { intros j. unfold byte. destruct (m !! j) as [b |] eqn:E; cbn; [ exact (Forall_lookup_1 _ _ _ _ Hm E) | lia ]. }
    repeat (constructor; [ first [ apply Hr | apply u8_range ] |]). constructor.
Qed.

Lemma XorPayloads_safe `{CheckMode} n m d :
  media_ok m -> buffer n d -> (12 <= n)%nat ->
  exists d' n', XorPayloads_upstream m (u64 (Z.of_nat (length m) - kRtpHeaderSize)) kRtpHeaderSize d = Ok d' /\ buffer n' d' /\ (12 <= n')%nat.
Proof.
  intros [Hm Hl] [Hd Hb] Hn. rewrite u64_id by (unfold kRtpHeaderSize; lia).
  assert (Hsplit : exists h rest, d = h ++ rest /\ length h = 12%nat).
  { exists (take 12 d), (drop 12 d). split; [ by rewrite take_drop | rewrite length_take; lia ]. }
  destruct Hsplit as (h & rest & -> & Hh). change kRtpHeaderSize with (Z.of_nat 12) at 2. rewrite <- Hh, xor_payloads_grow by lia.
  apply Forall_app in Hb as [Hbh Hbr]. eexists _, _. split; [ done |]. split; [ split; [ reflexivity |] |].
  - apply Forall_app_2; [ done |]. apply pxor_bytes; [ done | by apply Forall_drop ].
  - rewrite length_app, Hh. lia.
Qed.

Definition protected_ok (ssrc : Z) (p : ProtectedPacket) : Prop := pp_ssrc p = ssrc /\ forall pkt, pp_pkt p = Some pkt -> media_ok pkt.

Lemma xor_received_safe `{CheckMode} ssrc ps : Forall (protected_ok ssrc) ps -> forall n d seq s,
  buffer n d -> (12 <= n)%nat ->
  exists d' n' seq' s', xor_received ps d seq s = Ok (d', seq', s') /\ buffer n' d' /\ (12 <= n')%nat /\
    (s = ssrc \/ (0 < nmissing ps)%nat -> s' = ssrc).
Proof.
  induction 1 as [| p ps [Hs Hp] _ IH ]; intros n d seq s Hd Hn; cbn [xor_received].
  { exists d, n, seq, s. split_and!; try done. unfold nmissing. cbn. intros [? | ?]; [ done | lia ]. }
  unfold nmissing. rewrite filter_cons. destruct (pp_pkt p) as [pkt |] eqn:E.
  - specialize (Hp pkt eq_refl). rewrite decide_False by done.
    destruct (XorHeaders_safe n pkt d Hp Hd Hn) as (d1 & -> & Hd1). rewrite bind_Ok.
    destruct (XorPayloads_safe n pkt d1 Hp Hd1 Hn) as (d2 & n2 & -> & Hd2 & Hn2). rewrite bind_Ok. exact (IH n2 d2 seq s Hd2 Hn2).
  - rewrite decide_True by done. destruct (IH n d (pp_seq_num p) (pp_ssrc p) Hd Hn) as (d' & n' & seq' & s' & Hrun & Hd' & Hn' & Hss).
    exists d', n', seq', s'. split_and!; try done. intros _. apply Hss. by left.
Qed.

Lemma grow_buffer n k d : buffer n d -> 0 <= k -> buffer (Nat.max n (Z.to_nat k)) (grow k d).
Proof.
  intros [Hl Hb] Hk. unfold grow. destruct (Z.ltb_spec (Z.of_nat (length d)) k).
  - split; [ rewrite length_app, length_replicate; lia |]. apply Forall_app_2; [ done | by apply Forall_replicate ].
  - split; [ lia | done ].
Qed.

Lemma Finish_safe n d seq s :
  buffer n d -> (12 <= n)%nat -> exists r, FinishPacketRecovery d seq s = Ok r /\ forall pkt, r = Some pkt -> media_ok pkt.
Proof.
  intros Hd Hn. pose proof Hd as [Hl Hb]. unfold FinishPacketRecovery.
  rewrite get_byte, bind_Ok, put_Ok, bind_Ok, get_byte, bind_Ok, put_Ok, bind_Ok by (rewrite ?length_insert; lia).
  set (d1 := <[Z.to_nat 0 := _]> _).
  assert (Hd1 : buffer n d1).
  { assert (Hr : forall l : list Z, bytes_ok l -> forall j, 0 <= byte l j < 256).
    { intros l Hlb j. unfold byte. destruct (l !! j) as [b |] eqn:E; cbn; [ exact (Forall_lookup_1 _ _ _ _ Hlb E) | lia ]. }
    assert (Hin : forall l x, buffer n l -> 0 <= x < 256 -> buffer n (<[Z.to_nat 0 := x]> l)).
    { intros l x [Hll Hlb] Hx. split; [ by rewrite length_insert | by apply Forall_insert ]. }
    assert (Hf : buffer n (<[Z.to_nat 0 := Z.lor (byte d (Z.to_nat 0)) 128]> d)) by (apply Hin; [ done | apply lor_byte; [ by apply Hr | lia ] ]).
    unfold d1. apply Hin; [ done | apply land_byte; [ apply Hr, Hf | lia ] ]. }
  destruct (read_be16_range d1 2) as (len & -> & Hlen); [ apply Hd1 | lia | rewrite (proj1 Hd1); lia |]. rewrite bind_Ok. cbv zeta.
  unfold IP_PACKET_SIZE, kRtpHeaderSize. destruct (Z.ltb_spec (1500 - 12) (len + 12)); [ by exists None |].
  pose proof (grow_buffer n (len + 12) d1 Hd1 ltac:(lia)) as [Hgl Hgb].
  set (d2 := take _ _). assert (Hd2 : buffer (Z.to_nat (len + 12)) d2).
  { split; [ unfold d2; rewrite length_take; lia | by apply Forall_take ]. }
  pose proof Hd2 as [Hl2 _]. destruct (write_be16 d2 2 seq) as [d3 |] eqn:E3; [| rewrite write_be16_Ok in E3 by lia; discriminate ].
  apply (write_be16_buffer _ _ _ _ _ Hd2) in E3 as Hd3. pose proof Hd3 as [Hl3 _]. rewrite bind_Ok.
  destruct (write_be32 d3 8 s) as [d4 |] eqn:E4; [| rewrite write_be32_Ok in E4 by lia; discriminate ].
  apply (write_be32_buffer _ _ _ _ _ Hd3) in E4 as [Hl4 Hb4]. rewrite bind_Ok. eexists. split; [ done |]. intros pkt [= <-].
  split; [ done | lia ].
Qed.

Lemma RecoverPacket_safe `{CheckMode} ssrc h d ps :
  bytes_ok d -> (12 <= length d)%nat -> 0 <= fh_size h -> 0 <= fh_protection_length h ->
  Forall (protected_ok ssrc) ps -> (0 < nmissing ps)%nat ->
  exists r, RecoverPacket h d ps = Ok r /\ forall pkt seq s, r = Some (pkt, seq, s) -> media_ok pkt /\ s = ssrc.
Proof.
  intros Hb Hl Hs Hp Hps Hmiss. unfold RecoverPacket, StartPacketRecovery.
  destruct (Z.ltb_spec (Z.of_nat (length d)) (fh_size h + fh_protection_length h)); [ by exists None |].
  destruct (_ <? _); [ by exists None |]. unfold kRtpHeaderSize. rewrite (slice_Ok d 0 12), bind_Ok by lia.
  rewrite (slice_Ok d (fh_size h) (fh_protection_length h)), !bind_Ok by lia. set (d0 := _ ++ _).
  assert (Hd0 : buffer (length d0) d0).
  { split; [ done |]. apply Forall_app_2; by apply Forall_take, Forall_drop. }
  assert (Hn : (12 <= length d0)%nat) by (unfold d0; rewrite length_app, length_take, length_drop; lia).
  destruct (xor_received_safe ssrc ps Hps _ d0 0 0 Hd0 Hn) as (d1 & n1 & seq & s & -> & Hd1 & Hn1 & Hss). rewrite bind_Ok.
  destruct (Finish_safe n1 d1 seq s Hd1 Hn1) as (r & -> & Hr). rewrite bind_Ok. destruct r as [pkt |]; [| by exists None ].
  eexists. split; [ done |]. intros pkt' seq' s' [= <- <- <-]. split; [ by apply Hr | apply Hss; by right ].
Qed.

(** ** The decoder *)

Section Safe.
Context `{CheckMode} `{FecHeaderReader} `{!ReaderSafe} (ssrc media_ssrc : Z).

Definition rc_sane (r : RecoveredPacket) : Prop := rc_ssrc r = media_ssrc /\ media_ok (rc_pkt r).

Record fec_sane (f : ReceivedFecPacket) : Prop := {
  fs_ssrc : rf_ssrc f = ssrc;
  fs_some : protected_packets f <> [];
  fs_protected : Forall (protected_ok media_ssrc) (protected_packets f);
  fs_bytes : bytes_ok (rf_pkt f) /\ (12 <= length (rf_pkt f))%nat;
  fs_header : 0 <= fh_size (rf_header f) /\ 0 <= fh_protection_length (rf_header f)
}.

Record decoder_sane (this : FecDecoder) (rec : list RecoveredPacket) : Prop := {
  ds_ssrc : ssrc_ this = ssrc /\ protected_media_ssrc_ this = media_ssrc;
  ds_fecs : Forall fec_sane (received_fec_packets_ this);
  ds_recovered : Forall rc_sane rec;
  ds_capacity : Z.of_nat (length (received_fec_packets_ this)) <= reader_MaxFecPackets
}.

(** What may be handed to [DecodeFec]. *)
Definition received_sane (r : ReceivedPacket) : Prop :=
  if rp_is_fec r then rp_ssrc r = ssrc /\ bytes_ok (rp_pkt r) else rp_ssrc r = media_ssrc /\ media_ok (rp_pkt r).

Lemma update_covering_safe r f : rc_sane r -> fec_sane f -> exists f', update_covering r f = Ok f' /\ fec_sane f'.
Proof.
  intros [Hr Hm] [Hs Hne Hp Hb Hh]. unfold update_covering. cbv zeta.
  destruct (lower_bound_Ok (fun p => LessThan (pp_key p) (rc_key r)) (fun p => IsNewerSequenceNumber (rc_seq_num r) (pp_seq_num p))
    (protected_packets f)) as (i & -> & _).
  { intros p Hin. destruct (proj1 (list.Forall_forall _ _) Hp p Hin) as [Ep _]. apply LessThan_Ok. cbn. congruence. }
  rewrite bind_Ok. destruct (protected_packets f !! i) as [p |] eqn:E; [| by eexists ]. destruct (_ =? _); [| by eexists ].
  eexists. split; [ done |]. destruct (Forall_lookup_1 _ _ _ _ Hp E) as [Ep _].
  split; cbn [set_protected rf_ssrc protected_packets rf_pkt rf_header]; try done.
  - intros E0. apply (f_equal length) in E0. rewrite length_insert in E0. by destruct (protected_packets f).
  - apply Forall_insert; [ done |]. split; [ done |]. by intros pkt [= <-].
Qed.

Lemma update_all_safe r fs : rc_sane r -> Forall fec_sane fs ->
  exists fs', UpdateCoveringFecPackets r fs = Ok fs' /\ Forall fec_sane fs' /\ length fs' = length fs.
Proof.
  intros Hr. induction 1 as [| f fs Hf _ (fs' & Hrun & Hall & Hl) ]; cbn [UpdateCoveringFecPackets]; [ by exists [] |].
  destruct (update_covering_safe r f Hr Hf) as (f' & -> & Hf'). rewrite bind_Ok, Hrun, bind_Ok. exists (f' :: fs').
  split_and!; [ done | by constructor | cbn; congruence ].
Qed.

Lemma assign_safe rs : Forall rc_sane rs -> forall ps, Forall (protected_ok media_ssrc) ps ->
  exists ps', AssignRecoveredPackets ps rs = Ok ps' /\ Forall (protected_ok media_ssrc) ps' /\ length ps' = length ps.
Proof.
  induction 1 as [| r rs [Hr Hm] _ IHrs ]; [ intros ps Hps; exists ps; by rewrite assign_nil_r |].
  induction 1 as [| p ps [Hp Hpk] Hps (ps' & E & Hall & Hl) ]; [ by exists [] |].
  assert (Hk : (pp_key p).1 = (rc_key r).1) by (cbn; congruence).
  rewrite assign_cons, !LessThan_Ok, bind_Ok by done. destruct (IsNewerSequenceNumber _ _).
  { rewrite E, bind_Ok. exists (p :: ps'). split_and!; [ done | by constructor | cbn; congruence ]. }
  rewrite bind_Ok. destruct (IsNewerSequenceNumber _ _); [ apply IHrs; by constructor |].
  destruct (IHrs ps Hps) as (ps2 & -> & Hall2 & Hl2). rewrite bind_Ok. eexists. split; [ done |]. split; [| cbn; congruence ].
  constructor; [| done ]. split; [ done |]. by intros pkt [= <-].
Qed.

Lemma parse_mask_safe h d :
  0 <= fh_packet_mask_offset h -> 0 <= fh_packet_mask_size h ->
  fh_packet_mask_offset h + fh_packet_mask_size h <= Z.of_nat (length d) ->
  exists ps, parse_mask media_ssrc h d = Ok ps /\ Forall (protected_ok media_ssrc) ps.
Proof.
  intros Ho Hs Hl. unfold parse_mask.
  destruct (for_loop_rule (fun _ ps => Forall (protected_ok media_ssrc) ps) (fun byte_idx ps =>
    packet_mask ← get d (fh_packet_mask_offset h + byte_idx);
    Ok (ps ++ mask_byte_packets media_ssrc (fh_seq_num_base h) byte_idx packet_mask)) (Z.to_nat (fh_packet_mask_size h)) 0 [])
    as (ps & Hrun & Hps); [ constructor | | by exists ps ].
  intros i ps Hi Hps. rewrite Z2Nat.id in Hi by lia. rewrite get_byte, bind_Ok by lia. eexists. split; [ done |].
  apply Forall_app_2; [ done |]. apply list.Forall_forall. intros p Hp. unfold mask_byte_packets in Hp.
  apply list_elem_of_omap in Hp as (b & _ & E). destruct (negb _); [| done ]. injection E as <-. by split.
Qed.

Lemma InsertFecPacket_safe this rec r :
  decoder_sane this rec -> received_sane r -> rp_is_fec r = true ->
  exists this', InsertFecPacket this rec r = Ok this' /\ decoder_sane this' rec.
Proof.
  intros Hok Hr Hf. pose proof Hok as [[Es Em] Hfecs Hrec Hcap]. unfold received_sane in Hr. rewrite Hf in Hr. destruct Hr as [Er Hb].
  unfold InsertFecPacket. rewrite RTC_DCHECK_Ok, bind_Ok by (apply Z.eqb_eq; congruence).
  rewrite find_duplicate_Ok, bind_Ok.
  2:{ eapply list.Forall_impl; [ exact Hfecs |]. intros f Hfs. cbn. rewrite (fs_ssrc _ Hfs). congruence. }
  destruct (bool_decide _); [ by exists this |]. destruct (read_safe (rp_ssrc r) (rp_pkt r) Hb) as (res & -> & Hres). rewrite bind_Ok.
  destruct res as [[h d] |]; [| by exists this ]. destruct (Hres h d eq_refl) as (Hdb & Hdl & Hs & Hp & Ho & Hms).
  destruct (negb _); [ by exists this |].
  destruct (Z.ltb_spec (Z.of_nat (length d)) (fh_packet_mask_offset h + fh_packet_mask_size h)); [ by exists this |].
  rewrite Em. destruct (parse_mask_safe h d Ho Hms ltac:(lia)) as (ps & -> & Hps). rewrite bind_Ok.
  destruct ps as [| p ps ]; [ by exists this |]. destruct (assign_safe rec Hrec _ Hps) as (ps' & -> & Hps' & Hl'). rewrite bind_Ok. cbv zeta.
  set (f := mkReceivedFec _ _ _ _ _). assert (Hfs : fec_sane f) by (split; try done; by destruct ps').
  assert (Hall : Forall fec_sane (received_fec_packets_ this ++ [f])) by (apply Forall_app_2; [ done | by apply Forall_singleton ]).
  destruct (list_sort_Ok rf_key ssrc (received_fec_packets_ this ++ [f])) as (fecs & -> & Hperm).
  { eapply list.Forall_impl; [ exact Hall |]. intros x Hx. exact (fs_ssrc _ Hx). }
  rewrite bind_Ok. assert (Hfs' : Forall fec_sane fecs) by (by rewrite Hperm).
  pose proof (Permutation_length Hperm) as Hlen. rewrite length_app in Hlen. cbn [length] in Hlen.
  destruct (Z.ltb_spec reader_MaxFecPackets (Z.of_nat (length fecs))) as [Hgt | Hle].
  - assert (Htl : Z.of_nat (length (tail fecs)) <= reader_MaxFecPackets) by (destruct fecs; cbn [length tail] in *; lia).
    rewrite RTC_DCHECK_Ok, bind_Ok by (by apply Z.leb_le). eexists. split; [ done |]. split; cbn [set_fec_packets ssrc_ protected_media_ssrc_ received_fec_packets_]; try done.
    by apply Forall_tail.
  - rewrite RTC_DCHECK_Ok, bind_Ok by (by apply Z.leb_le). eexists. split; [ done |]. by split.
Qed.

Lemma InsertMediaPacket_safe this rec r :
  decoder_sane this rec -> received_sane r -> rp_is_fec r = false ->
  exists this' rec', InsertMediaPacket this rec r = Ok (this', rec') /\ decoder_sane this' rec'.
Proof.
  intros Hok Hr Hf. pose proof Hok as [[Es Em] Hfecs Hrec Hcap]. unfold received_sane in Hr. rewrite Hf in Hr. destruct Hr as [Er Hm].
  unfold InsertMediaPacket. rewrite RTC_DCHECK_Ok, bind_Ok by (apply Z.eqb_eq; congruence). rewrite find_duplicate_Ok, bind_Ok.
  2:{ eapply list.Forall_impl; [ exact Hrec |]. intros x [Hx _]. cbn. congruence. }
  destruct (bool_decide _); [ by exists this, rec |]. cbv zeta. set (x := mkRecovered _ _ _ _ _). assert (Hx : rc_sane x) by (by split).
  assert (Hall : Forall rc_sane (rec ++ [x])) by (apply Forall_app_2; [ done | by apply Forall_singleton ]).
  destruct (list_sort_Ok rc_key media_ssrc (rec ++ [x])) as (rec' & -> & Hperm).
  { eapply list.Forall_impl; [ exact Hall |]. by intros y [Hy _]. }
  rewrite bind_Ok. destruct (update_all_safe x _ Hx Hfecs) as (fecs & -> & Hfecs' & Hl). rewrite bind_Ok.
  eexists _, _. split; [ done |]. split; cbn [set_fec_packets ssrc_ protected_media_ssrc_ received_fec_packets_]; try done; [ by rewrite Hperm | by rewrite Hl ].
Qed.

Lemma InsertPacket_safe this rec r :
  decoder_sane this rec -> received_sane r -> exists this' rec', InsertPacket this r rec = Ok (this', rec') /\ decoder_sane this' rec' /\
    Z.of_nat (length rec') <= reader_MaxMediaPackets.
Proof.
  intros Hok Hr. unfold InsertPacket. set (this1 := match received_fec_packets_ this with [] => _ | _ => _ end).
  assert (Hok1 : decoder_sane this1 rec).
  { unfold this1. destruct Hok as [Hs Hf Hrec Hcap]. destruct (received_fec_packets_ this) as [| f fs ] eqn:E; [ split; rewrite ?E; done |].
    destruct (_ =? _); [| split; rewrite ?E; done ]. destruct (erase_old_incl (rp_seq_num r) (f :: fs)) as (l & El).
    split; cbn [set_fec_packets ssrc_ protected_media_ssrc_ received_fec_packets_]; try done.
    - rewrite El in Hf. by apply Forall_app in Hf as [_ Hf].
    - apply (f_equal length) in El. rewrite length_app in El. lia. }
  cbv zeta. assert (Hins : exists this' rec', (if rp_is_fec r then this ← InsertFecPacket this1 rec r; Ok (this, rec)
      else InsertMediaPacket this1 rec r) = Ok (this', rec') /\ decoder_sane this' rec').
  { destruct (rp_is_fec r) eqn:Ef; [| by apply InsertMediaPacket_safe ].
    destruct (InsertFecPacket_safe this1 rec r Hok1 Hr Ef) as (this2 & -> & Hok2). rewrite bind_Ok. by exists this2, rec. }
  destruct Hins as (this2 & rec2 & -> & Hok2). rewrite bind_Ok.
  rewrite RTC_DCHECK_Ok, bind_Ok by (apply Z.leb_le, Discard_length, tracked_nonneg).
  eexists _, _. split; [ done |]. split; [| apply Discard_length, tracked_nonneg ].
  destruct Hok2 as [? ? Hrec2 ?]. split; try done. by apply Discard_Forall.
Qed.

Lemma IsOld_safe f rec : fec_sane f -> exists b, IsOldFecPacket f rec = Ok b.
Proof.
  intros Hf. unfold IsOldFecPacket. destruct (list.last rec); [| by eexists ].
  destruct (list.last (protected_packets f)) eqn:E; [ by eexists |]. apply last_None in E. by destruct (fs_some _ Hf).
Qed.

Lemma attempt_recovery_safe fuel : forall rest passed rec n,
  Forall fec_sane passed -> Forall fec_sane rest -> Forall rc_sane rec -> Z.of_nat (length rec) <= reader_MaxMediaPackets ->
  exists fecs' rec' n', attempt_recovery fuel passed rest rec n = Ok (fecs', rec', n') /\
    Forall fec_sane fecs' /\ (Forall rc_sane rec' /\ Z.of_nat (length rec') <= reader_MaxMediaPackets) /\ (length fecs' <= length passed + length rest)%nat.
Proof.
  induction fuel as [| fuel IHf ]; induction rest as [| f rest IH ]; intros passed rec n Hp Hr Hrec Hbnd;
    try (exists passed, rec, n; rewrite attempt_nil; split; [ done |]; split; [ done |]; split; [ done | cbn; lia ]).
  all: apply Forall_cons_1 in Hr as [Hf Hr].
  all: assert (Hskip : forall passed', Forall fec_sane passed' -> (length passed' <= length passed + 1)%nat ->
    exists fecs' rec' n', attempt_recovery _ passed' rest rec n = Ok (fecs', rec', n') /\ Forall fec_sane fecs' /\
      (Forall rc_sane rec' /\ Z.of_nat (length rec') <= reader_MaxMediaPackets) /\ (length fecs' <= length passed + length (f :: rest))%nat)
    by (intros passed' Hp' Hl; destruct (IH passed' rec n Hp' Hr Hrec Hbnd) as (fecs' & rec' & n' & E & K1 & K2 & K3);
        exists fecs', rec', n'; split; [ exact E |]; split; [ done |]; split; [ done | cbn [length]; lia ]).
  all: cbn [attempt_recovery]; pose proof (NumCovered_count (protected_packets f) 0 ltac:(lia)) as Hcount.
  all: destruct (Z.eqb_spec (NumCoveredPacketsMissing (protected_packets f) 0) 1) as [E1 | Hne].
  2,4: assert (Hold : exists b, (if NumCoveredPacketsMissing (protected_packets f) 0 =? 0 then Ok true else IsOldFecPacket f rec) = Ok b)
      by (destruct (_ =? 0); [ by eexists | by apply IsOld_safe ]);
    destruct Hold as (b & ->); rewrite bind_Ok; destruct b; apply Hskip;
    [ done | lia | apply Forall_app_2; [ done | by apply Forall_singleton ] | rewrite length_app; cbn; lia ].
  all: destruct Hf as [Fs Fn Fp [Fb Fl] [Fh Fh']];
    destruct (RecoverPacket_safe media_ssrc (rf_header f) (rf_pkt f) (protected_packets f) Fb Fl Fh Fh' Fp ltac:(lia)) as (res & -> & Hres);
    rewrite bind_Ok; destruct res as [[[pkt seq] s] |]; [| apply Hskip; [ done | lia ] ].
  all: destruct (Hres pkt seq s eq_refl) as [Hpk ->]; cbv zeta; set (x := mkRecovered true false media_ssrc seq pkt);
    assert (Hx : rc_sane x) by (by split);
    assert (Hall : Forall rc_sane (rec ++ [x])) by (apply Forall_app_2; [ done | by apply Forall_singleton ]);
    destruct (list_sort_Ok rc_key media_ssrc (rec ++ [x])) as (rec1 & -> & Hperm);
    [ eapply list.Forall_impl; [ exact Hall |]; by intros y [Hy _] |]; rewrite bind_Ok;
    assert (Hrec1 : Forall rc_sane (DiscardOldRecoveredPackets rec1)) by (apply Discard_Forall; by rewrite Hperm);
    destruct (update_all_safe x passed Hx Hp) as (passed1 & -> & Hp1 & Hl1); rewrite bind_Ok;
    destruct (update_covering_safe x f Hx (Build_fec_sane f Fs Fn Fp (conj Fb Fl) (conj Fh Fh'))) as (f1 & -> & _); rewrite bind_Ok;
    destruct (update_all_safe x rest Hx Hr) as (rest1 & -> & Hr1 & Hl2); rewrite bind_Ok;
    rewrite RTC_DCHECK_Ok, bind_Ok by (apply Z.leb_le, Discard_length, tracked_nonneg).
  - eexists _, _, _. split; [ done |]. split; [ by apply Forall_app_2 |]. split; [ split; [ done | apply Discard_length, tracked_nonneg ] |].
    rewrite length_app. cbn [length]. lia.
  - destruct (IHf (passed1 ++ rest1) [] (DiscardOldRecoveredPackets rec1) (n + 1)) as (fecs' & rec' & n' & E & H1' & H2' & H3');
      [ constructor | by apply Forall_app_2 | done | apply Discard_length, tracked_nonneg |].
    exists fecs', rec', n'. split; [ exact E |]. split; [ done |]. split; [ done |]. rewrite length_app in H3'. cbn [length] in *. lia.
Qed.

Lemma DecodeFec_safe this rec r :
  decoder_sane this rec -> received_sane r ->
  exists this' rec' n, DecodeFec this r rec = Ok (this', rec', n) /\ decoder_sane this' rec' /\ Z.of_nat (length rec') <= reader_MaxMediaPackets.
Proof.
  intros Hok Hr. unfold DecodeFec. set (start := if _ =? _ then _ else _).
  assert (Hst : decoder_sane start.1 start.2).
  { assert (Hreset : decoder_sane (ResetState this).1 (ResetState this).2).
    { destruct Hok as [Hs _ _ _]. split; cbn; try done; try constructor. pose proof (tracked_nonneg). lia. }
    unfold start. destruct (_ =? _); [| done ]. destruct (list.last rec); [| done ]. destruct (_ =? _); [| done ]. by destruct (_ <? _). }
  destruct start as [this0 rec0]. cbn [fst snd] in Hst.
  destruct (InsertPacket_safe this0 rec0 r Hst Hr) as (this1 & rec1 & -> & [K1 K2 K3 K4] & Hbnd). rewrite bind_Ok. unfold AttemptRecovery.
  destruct (attempt_recovery_safe (length (received_fec_packets_ this1)) (received_fec_packets_ this1) [] rec1 0) as (fecs & rec2 & n & -> & Hf & [Hrec Hbnd2] & Hl);
    [ constructor | done | done | done |].
  rewrite bind_Ok. eexists _, _, n. split; [ done |]. split; [| done ].
  split; cbn [set_fec_packets ssrc_ protected_media_ssrc_ received_fec_packets_]; try done. cbn [length] in Hl. lia.
Qed.

Lemma decode_all_safe rs : Forall received_sane rs -> forall this rec,
  decoder_sane this rec -> Z.of_nat (length rec) <= reader_MaxMediaPackets ->
  exists this' rec', decode_all this rec rs = Ok (this', rec') /\ decoder_sane this' rec' /\ Z.of_nat (length rec') <= reader_MaxMediaPackets.
Proof.
  induction 1 as [| r rs Hr _ IH ]; intros this rec Hok Hbnd; cbn [decode_all]; [ by exists this, rec |].
  destruct (DecodeFec_safe this rec r Hok Hr) as (this1 & rec1 & n & -> & Hok1 & Hbnd1). rewrite bind_Ok. by apply IH.
Qed.

Lemma new_decoder_sane : decoder_sane (mkDecoder ssrc media_ssrc []) [].
Proof. split; cbn; try done; try constructor. pose proof tracked_nonneg. lia. Qed.

End Safe.

(** ** Theorems *)

(** The FEC decoder survives any input, in either header format: whatever
    bytes arrive as FEC packets, and whatever media packets of 12 to 1500 bytes,
    in any order and any number, [DecodeFec] stays inside its buffers and passes
    its own checks. It never keeps more FEC packets or more media packets than
    its limits, and all it keeps are packets of 12 to 1500 bytes. *)
Theorem decoder_survives_any_input `{CheckMode} `{FecHeaderReader} `{!ReaderSafe} ssrc media_ssrc rs :
  Forall (received_sane ssrc media_ssrc) rs ->
  exists this rec, decode_all (mkDecoder ssrc media_ssrc []) [] rs = Ok (this, rec) /\
    Z.of_nat (length (received_fec_packets_ this)) <= reader_MaxFecPackets /\
    Z.of_nat (length rec) <= reader_MaxMediaPackets /\
    Forall (fun r => rc_ssrc r = media_ssrc /\ media_ok (rc_pkt r)) rec.
Proof.
  intros Hrs. destruct (decode_all_safe ssrc media_ssrc rs Hrs _ [] (new_decoder_sane ssrc media_ssrc)) as (this & rec & Hrun & Hok & Hbnd).
  { pose proof tracked_nonneg. cbn. lia. }
  exists this, rec. split_and!; [ done | apply Hok | done | apply Hok ].
Qed.

(** A FEC packet with all its bits set, one that is too short, and a media
    packet, for the FlexFEC reader. *)
Definition garbage_packets : list ReceivedPacket :=
  [mkReceived 9 5 true (replicate 40 255); mkReceived 9 6 true [1; 2; 3];
   mkReceived 9 7 true ([0; 0; 0; 0; 0; 0; 0; 0; 1; 0; 0; 0; 0; 0; 0; 7; 0; 9; 192; 0] ++ replicate 30 255);
   mkReceived 7 10 false (replicate 13 128)].

Lemma decoder_survives_any_input_witness :
  exists this rec, @decode_all true (@Flexfec03.Flexfec03HeaderReader true) (mkDecoder 9 7 []) [] garbage_packets = Ok (this, rec) /\
    Z.of_nat (length (received_fec_packets_ this)) <= Flexfec03.kMaxFecPackets /\
    Z.of_nat (length rec) <= Flexfec03.kMaxTrackedMediaPackets /\
    Forall (fun r => rc_ssrc r = 7 /\ media_ok (rc_pkt r)) rec.
Proof.
  apply (@decoder_survives_any_input true (@Flexfec03.Flexfec03HeaderReader true) (@FlexfecReaderSafe true) 9 7 garbage_packets). unfold garbage_packets, received_sane, media_ok, bytes_ok.
  repeat (constructor; [ split; [ reflexivity |]; cbn; try (split; [| lia ]); repeat (constructor; [ lia |]); constructor |]). constructor.
Defined.
