(* ===== verification/ExtensionMap.v ===== *)
(** * Which header extension has which id

    [RtpHeaderExtensionMap] of [modules/rtp_rtcp/source/rtp_header_extension_map.cc]:
    the ids that the two ends of a stream have agreed on for the kinds of RTP
    header extension. The array [ids_] is the list of its elements. *)
From S2P Require Import Prelude.
From stdpp Require Import base list list_numbers numbers option strings tactics.
From Stdlib Require Import ZArith Lia.

#[local] Open Scope Z_scope.

(** ** Kinds of extension *)

(** [enum RTPExtensionType]; its last element is the number of the others. *)
Inductive RTPExtensionType : Type :=
| kRtpExtensionNone
| kRtpExtensionTransmissionTimeOffset
| kRtpExtensionAudioLevel
| kRtpExtensionCsrcAudioLevel
| kRtpExtensionInbandComfortNoise
| kRtpExtensionAbsoluteSendTime
| kRtpExtensionAbsoluteCaptureTime
| kRtpExtensionVideoRotation
| kRtpExtensionTransportSequenceNumber
| kRtpExtensionTransportSequenceNumber02
| kRtpExtensionPlayoutDelay
| kRtpExtensionVideoContentType
| kRtpExtensionVideoLayersAllocation
| kRtpExtensionVideoTiming
| kRtpExtensionRtpStreamId
| kRtpExtensionRepairedRtpStreamId
| kRtpExtensionMid
| kRtpExtensionGenericFrameDescriptor
| kRtpExtensionDependencyDescriptor
| kRtpExtensionColorSpace
| kRtpExtensionVideoFrameTrackingId
| kRtpExtensionCorruptionDetection.

#[export] Instance RTPExtensionType_eq_dec : EqDecision RTPExtensionType.
Proof. solve_decision. Defined.

(** In the order of the enumeration. *)
Definition extension_types : list RTPExtensionType :=
  [kRtpExtensionNone; kRtpExtensionTransmissionTimeOffset; kRtpExtensionAudioLevel; kRtpExtensionCsrcAudioLevel;
   kRtpExtensionInbandComfortNoise; kRtpExtensionAbsoluteSendTime; kRtpExtensionAbsoluteCaptureTime;
   kRtpExtensionVideoRotation; kRtpExtensionTransportSequenceNumber; kRtpExtensionTransportSequenceNumber02;
   kRtpExtensionPlayoutDelay; kRtpExtensionVideoContentType; kRtpExtensionVideoLayersAllocation;
   kRtpExtensionVideoTiming; kRtpExtensionRtpStreamId; kRtpExtensionRepairedRtpStreamId; kRtpExtensionMid;
   kRtpExtensionGenericFrameDescriptor; kRtpExtensionDependencyDescriptor; kRtpExtensionColorSpace;
   kRtpExtensionVideoFrameTrackingId; kRtpExtensionCorruptionDetection].
Definition kRtpExtensionNumberOfExtensions : Z := Z.of_nat (length extension_types).

(** The value of an element of the enumeration. *)
Definition type_index (t : RTPExtensionType) : Z :=
  match t with
  | kRtpExtensionNone => 0
  | kRtpExtensionTransmissionTimeOffset => 1
  | kRtpExtensionAudioLevel => 2
  | kRtpExtensionCsrcAudioLevel => 3
  | kRtpExtensionInbandComfortNoise => 4
  | kRtpExtensionAbsoluteSendTime => 5
  | kRtpExtensionAbsoluteCaptureTime => 6
  | kRtpExtensionVideoRotation => 7
  | kRtpExtensionTransportSequenceNumber => 8
  | kRtpExtensionTransportSequenceNumber02 => 9
  | kRtpExtensionPlayoutDelay => 10
  | kRtpExtensionVideoContentType => 11
  | kRtpExtensionVideoLayersAllocation => 12
  | kRtpExtensionVideoTiming => 13
  | kRtpExtensionRtpStreamId => 14
  | kRtpExtensionRepairedRtpStreamId => 15
  | kRtpExtensionMid => 16
  | kRtpExtensionGenericFrameDescriptor => 17
  | kRtpExtensionDependencyDescriptor => 18
  | kRtpExtensionColorSpace => 19
  | kRtpExtensionVideoFrameTrackingId => 20
  | kRtpExtensionCorruptionDetection => 21
  end.

(** [RtpExtension::kMinId] and so on, [api/rtp_parameters.h]. *)
Definition kMinId : Z := 1.
Definition kMaxId : Z := 255.
Definition kMaxValueSize : Z := 255.
Definition kOneByteHeaderExtensionMaxId : Z := 14.
Definition kOneByteHeaderExtensionMaxValueSize : Z := 16.
Definition kInvalidType : RTPExtensionType := kRtpExtensionNone.
Definition kInvalidId : Z := 0.

(** [kExtensions]: every kind with its URI. *)
Definition kExtensions : list (RTPExtensionType * string) :=
  [(kRtpExtensionTransmissionTimeOffset, "urn:ietf:params:rtp-hdrext:toffset");
   (kRtpExtensionAudioLevel, "urn:ietf:params:rtp-hdrext:ssrc-audio-level");
   (kRtpExtensionCsrcAudioLevel, "urn:ietf:params:rtp-hdrext:csrc-audio-level");
   (kRtpExtensionAbsoluteSendTime, "http://www.webrtc.org/experiments/rtp-hdrext/abs-send-time");
   (kRtpExtensionAbsoluteCaptureTime, "http://www.webrtc.org/experiments/rtp-hdrext/abs-capture-time");
   (kRtpExtensionVideoRotation, "urn:3gpp:video-orientation");
   (kRtpExtensionTransportSequenceNumber, "http://www.ietf.org/id/draft-holmer-rmcat-transport-wide-cc-extensions-01");
   (kRtpExtensionTransportSequenceNumber02, "http://www.webrtc.org/experiments/rtp-hdrext/transport-wide-cc-02");
   (kRtpExtensionPlayoutDelay, "http://www.webrtc.org/experiments/rtp-hdrext/playout-delay");
   (kRtpExtensionVideoContentType, "http://www.webrtc.org/experiments/rtp-hdrext/video-content-type");
   (kRtpExtensionVideoLayersAllocation, "http://www.webrtc.org/experiments/rtp-hdrext/video-layers-allocation00");
   (kRtpExtensionVideoTiming, "http://www.webrtc.org/experiments/rtp-hdrext/video-timing");
   (kRtpExtensionRtpStreamId, "urn:ietf:params:rtp-hdrext:sdes:rtp-stream-id");
   (kRtpExtensionRepairedRtpStreamId, "urn:ietf:params:rtp-hdrext:sdes:repaired-rtp-stream-id");
   (kRtpExtensionMid, "urn:ietf:params:rtp-hdrext:sdes:mid");
   (kRtpExtensionGenericFrameDescriptor, "http://www.webrtc.org/experiments/rtp-hdrext/generic-frame-descriptor-00");
   (kRtpExtensionDependencyDescriptor,
     "https://aomediacodec.github.io/av1-rtp-spec/#dependency-descriptor-rtp-header-extension");
   (kRtpExtensionColorSpace, "http://www.webrtc.org/experiments/rtp-hdrext/color-space");
   (kRtpExtensionInbandComfortNoise, "http://www.webrtc.org/experiments/rtp-hdrext/inband-cn");
   (kRtpExtensionVideoFrameTrackingId, "http://www.webrtc.org/experiments/rtp-hdrext/video-frame-tracking-id");
   (kRtpExtensionCorruptionDetection, "http://www.webrtc.org/experiments/rtp-hdrext/corruption-detection")]%string.

(** ** The map *)

Record ExtensionMap : Type := mkMap { ids_ : list Z; extmap_allow_mixed_ : bool }.

Definition RtpHeaderExtensionMap_new (extmap_allow_mixed : bool) : ExtensionMap :=
  mkMap (replicate (Z.to_nat kRtpExtensionNumberOfExtensions) kInvalidId) extmap_allow_mixed.

Definition set_id (m : ExtensionMap) (type : RTPExtensionType) (id : Z) : ExtensionMap :=
  mkMap (<[Z.to_nat (type_index type) := id]> (ids_ m)) (extmap_allow_mixed_ m).

Section Map.
Context `{CheckMode}.

Definition GetId (m : ExtensionMap) (type : RTPExtensionType) : outcome Z :=
  RTC_DCHECK (type_index kRtpExtensionNone <? type_index type);;
  RTC_DCHECK (type_index type <? kRtpExtensionNumberOfExtensions);;
  get (ids_ m) (type_index type).

Definition IsRegistered (m : ExtensionMap) (type : RTPExtensionType) : outcome bool :=
  id ← GetId m type; Ok (negb (id =? kInvalidId)).

(** The loop of [GetType] over the kinds from [kRtpExtensionNone + 1] on. *)
Fixpoint find_type (m : ExtensionMap) (id : Z) (types : list RTPExtensionType) : outcome RTPExtensionType :=
  match types with
  | [] => Ok kInvalidType
  | type :: types =>
      i ← get (ids_ m) (type_index type);
      if i =? id then Ok type else find_type m id types
  end.

Definition GetType (m : ExtensionMap) (id : Z) : outcome RTPExtensionType :=
  RTC_DCHECK (kMinId <=? id);;
  RTC_DCHECK (id <=? kMaxId);;
  find_type m id (tail extension_types).

Definition Register (m : ExtensionMap) (id : Z) (type : RTPExtensionType) : outcome (ExtensionMap * bool) :=
  RTC_DCHECK (type_index kRtpExtensionNone <? type_index type);;
  RTC_DCHECK (type_index type <? kRtpExtensionNumberOfExtensions);;
  if (id <? kMinId) || (kMaxId <? id) then Ok (m, false)
  else
    registered_type ← GetType m id;
    if decide (registered_type = type) then Ok (m, true)
    else if negb (bool_decide (registered_type = kInvalidType)) then Ok (m, false)
    else
      registered ← IsRegistered m type;
      if (registered : bool) then Ok (m, false) else Ok (set_id m type (u8 id), true).

Definition RegisterByType (m : ExtensionMap) (id : Z) (type : RTPExtensionType) : outcome (ExtensionMap * bool) :=
  match list_find (fun e => type = e.1) kExtensions with
  | Some (_, (t, _)) => Register m id t
  | None => RTC_DCHECK false;; Ok (m, false)
  end.

Definition RegisterByUri (m : ExtensionMap) (id : Z) (uri : string) : outcome (ExtensionMap * bool) :=
  match list_find (fun e => uri = e.2) kExtensions with
  | Some (_, (t, _)) => Register m id t
  | None => Ok (m, false)
  end.

Definition Deregister (m : ExtensionMap) (uri : string) : ExtensionMap :=
  match list_find (fun e => e.2 = uri) kExtensions with
  | Some (_, (t, _)) => set_id m t kInvalidId
  | None => m
  end.

Definition SetExtmapAllowMixed (m : ExtensionMap) (b : bool) : ExtensionMap := mkMap (ids_ m) b.

Fixpoint register_all (m : ExtensionMap) (extensions : list (Z * string)) : outcome ExtensionMap :=
  match extensions with
  | [] => Ok m
  | (id, uri) :: extensions => '(m, _) ← RegisterByUri m id uri; register_all m extensions
  end.
Definition Reset (m : ExtensionMap) (extensions : list (Z * string)) : outcome ExtensionMap :=
  register_all (mkMap (replicate (length (ids_ m)) kInvalidId) (extmap_allow_mixed_ m)) extensions.

(** ** The invariant: an id belongs to one kind of extension at most *)

Definition id_of (m : ExtensionMap) (type : RTPExtensionType) : Z := ids_ m !!! Z.to_nat (type_index type).

Record map_ok (m : ExtensionMap) : Prop := {
  mo_length : length (ids_ m) = 22%nat;
  mo_range : forall t, 0 <= id_of m t <= kMaxId;
  mo_unique : forall t t', id_of m t = id_of m t' -> id_of m t <> kInvalidId -> t = t';
  mo_none : id_of m kRtpExtensionNone = kInvalidId
}.

Lemma type_index_range t : 0 <= type_index t < 22.
Proof. destruct t; cbn; lia. Qed.

Lemma type_index_inj t t' : type_index t = type_index t' -> t = t'.
Proof. destruct t, t'; cbn; congruence || lia. Qed.

Lemma get_id m t : map_ok m -> get (ids_ m) (type_index t) = Ok (id_of m t).
Proof.
  intros Hm. pose proof (type_index_range t). apply get_Ok; [| lia ].
  apply list_lookup_lookup_total_lt. rewrite (mo_length _ Hm). lia.
Qed.

Lemma id_of_set m t t' id :
  map_ok m -> id_of (set_id m t id) t' = if decide (t' = t) then id else id_of m t'.
Proof.
  intros Hm. pose proof (type_index_range t). pose proof (type_index_range t'). unfold id_of, set_id. cbn [ids_].
  case_decide as Ht.
  - subst t'. apply list_lookup_total_insert_eq. rewrite (mo_length _ Hm). lia.
  - apply list_lookup_total_insert_ne. intros He. apply Ht, type_index_inj. lia.
Qed.

Lemma new_map_ok b : map_ok (RtpHeaderExtensionMap_new b).
Proof.
  assert (Hz : forall t, id_of (RtpHeaderExtensionMap_new b) t = kInvalidId).
  { intros t. pose proof (type_index_range t). apply lookup_total_replicate_2.
    unfold kRtpExtensionNumberOfExtensions. rewrite Nat2Z.id. change (length extension_types) with 22%nat. lia. }
  split; [ done | intros t; rewrite Hz; unfold kInvalidId, kMaxId; lia | intros t t' _ Hne; by rewrite Hz in Hne | apply Hz ].
Qed.

Lemma set_id_ok m t id :
  map_ok m -> t <> kRtpExtensionNone -> 0 <= id <= kMaxId -> (id <> kInvalidId -> forall t', id_of m t' <> id) ->
  map_ok (set_id m t id).
Proof.
  intros Hm Ht Hid Hfree. split.
  - cbn. rewrite length_insert. apply Hm.
  - intros t'. rewrite id_of_set by done. case_decide; [ done | apply Hm ].
  - intros t1 t2. rewrite !id_of_set by done. repeat case_decide; subst; try done; intros He Hne.
    + by destruct (Hfree Hne t2).
    + rewrite He in Hne. by destruct (Hfree Hne t1).
    + by apply (mo_unique _ Hm).
  - rewrite id_of_set by done. rewrite decide_False by done. apply Hm.
Qed.

Lemma GetId_Ok m t : map_ok m -> t <> kRtpExtensionNone -> GetId m t = Ok (id_of m t).
Proof.
  intros Hm Ht. unfold GetId. pose proof (type_index_range t).
  assert (type_index t <> 0) by (intros He; apply Ht, type_index_inj; by rewrite He).
  change (type_index kRtpExtensionNone) with 0. change kRtpExtensionNumberOfExtensions with 22.
  rewrite !RTC_DCHECK_Ok, !bind_Ok by (apply Z.ltb_lt; lia). by apply get_id.
Qed.

(** [GetType] is the inverse of [GetId]. *)
Lemma find_type_Ok m id types :
  map_ok m -> exists t, find_type m id types = Ok t /\
    ((t ∈ types) /\ id_of m t = id \/ t = kInvalidType /\ forall t', t' ∈ types -> id_of m t' <> id).
Proof.
  intros Hm. induction types as [| t types IH ]; cbn [find_type].
  { exists kInvalidType. split; [ done |]. right. split; [ done |]. by intros t' ?%not_elem_of_nil. }
  rewrite get_id, bind_Ok by done. destruct (Z.eqb_spec (id_of m t) id) as [He | Hne].
  { exists t. split; [ done |]. left. split; [ by left | done ]. }
  destruct IH as (t1 & -> & Ht). exists t1. split; [ done |]. destruct Ht as [[Hin Hid] | [-> Hall]].
  - left. split; [ by right | done ].
  - right. split; [ done |]. intros t' [-> | Hin]%elem_of_cons; [ done | by apply Hall ].
Qed.

Lemma GetType_Ok m id :
  map_ok m -> 1 <= id <= 255 -> exists t, GetType m id = Ok t /\
    (t <> kRtpExtensionNone /\ id_of m t = id \/ t = kInvalidType /\ forall t', id_of m t' <> id).
Proof.
  intros Hm Hid. unfold GetType. rewrite !RTC_DCHECK_Ok, !bind_Ok by (apply Z.leb_le; unfold kMinId, kMaxId; lia).
  destruct (find_type_Ok m id (tail extension_types) Hm) as (t & -> & Ht). exists t. split; [ done |].
  destruct Ht as [[Hin He] | [-> Hall]].
  - left. split; [| done ]. intros ->. apply list_elem_of_In in Hin. cbn in Hin. intuition discriminate.
  - right. split; [ done |]. intros t'. destruct (decide (t' = kRtpExtensionNone)) as [-> | Ht'].
    + rewrite (mo_none _ Hm). unfold kInvalidId. lia.
    + apply Hall. destruct t'; [ done | apply list_elem_of_In; cbn; tauto.. ].
Qed.

Lemma Register_Ok m id t :
  map_ok m -> t <> kRtpExtensionNone ->
  exists m' b, Register m id t = Ok (m', b) /\ map_ok m' /\ extmap_allow_mixed_ m' = extmap_allow_mixed_ m /\
    (if b : bool then id_of m' t = id else m' = m) /\ forall t', t' <> t -> id_of m' t' = id_of m t'.
Proof.
  intros Hm Ht. unfold Register. pose proof (type_index_range t).
  assert (type_index t <> 0) by (intros He; apply Ht, type_index_inj; by rewrite He).
  change (type_index kRtpExtensionNone) with 0. change kRtpExtensionNumberOfExtensions with 22.
  rewrite !RTC_DCHECK_Ok, !bind_Ok by (apply Z.ltb_lt; lia). unfold kMinId, kMaxId.
  destruct (Z.ltb_spec id 1); [ by exists m, false |]. destruct (Z.ltb_spec 255 id); [ by exists m, false |]. cbn [orb].
  destruct (GetType_Ok m id Hm ltac:(lia)) as (rt & -> & Hrt). rewrite bind_Ok.
  destruct (decide (rt = t)) as [-> | Hne].
  { destruct Hrt as [[_ Hid] | [-> _]]; [ by exists m, true | done ]. }
  destruct Hrt as [[Hrt Hid] | [-> Hfree]].
  { rewrite bool_decide_eq_false_2 by done. by exists m, false. }
  rewrite bool_decide_eq_true_2 by done. cbn [negb]. unfold IsRegistered. rewrite GetId_Ok, !bind_Ok by done.
  destruct (Z.eqb_spec (id_of m t) kInvalidId) as [Hfree' | Hused]; cbn [negb]; [| by exists m, false ].
  eexists _, true. split; [ done |]. rewrite u8_id by lia. split_and!; [ | done | |].
  - apply set_id_ok; unfold kMaxId; (done || lia).
  - by rewrite id_of_set, decide_True by done.
  - intros t' Ht'. by rewrite id_of_set, decide_False by done.
Qed.

Lemma kExtensions_types i t u : kExtensions !! i = Some (t, u) -> t <> kRtpExtensionNone.
Proof.
  intros Hi. assert (Hall : forallb (fun e => bool_decide (e.1 <> kRtpExtensionNone)) kExtensions = true) by reflexivity.
  rewrite forallb_forall in Hall. specialize (Hall (t, u) (proj1 (list_elem_of_In _ _) (list_elem_of_lookup_2 _ _ _ Hi))).
  by apply bool_decide_eq_true_1 in Hall.
Qed.

Lemma RegisterByUri_Ok m id uri : map_ok m -> exists m' b, RegisterByUri m id uri = Ok (m', b) /\ map_ok m'.
Proof.
  intros Hm. unfold RegisterByUri. destruct (list_find _ kExtensions) as [[i [t u]] |] eqn:Hf; [| by exists m, false ].
  apply list_find_Some in Hf as (Hi & _ & _).
  destruct (Register_Ok m id t Hm (kExtensions_types i t u Hi)) as (m' & b & -> & Hok & _). by exists m', b.
Qed.

Lemma register_all_Ok m exts : map_ok m -> exists m', register_all m exts = Ok m' /\ map_ok m'.
Proof.
  revert m. induction exts as [| [id uri] exts IH ]; intros m Hm; cbn [register_all]; [ by exists m |].
  destruct (RegisterByUri_Ok m id uri Hm) as (m' & b & -> & Hok). rewrite bind_Ok. by apply IH.
Qed.

End Map.

(** ** Theorems *)

(** What the calls of [class RtpHeaderExtensionMap] do to a map. *)
Inductive map_call : Type :=
| CallRegisterByType (id : Z) (type : RTPExtensionType)
| CallRegisterByUri (id : Z) (uri : string)
| CallDeregister (uri : string)
| CallReset (extensions : list (Z * string))
| CallSetExtmapAllowMixed (b : bool).

Definition map_run `{CheckMode} (m : ExtensionMap) (c : map_call) : outcome ExtensionMap :=
  match c with
  | CallRegisterByType id type => fst <$> RegisterByType m id type
  | CallRegisterByUri id uri => fst <$> RegisterByUri m id uri
  | CallDeregister uri => Ok (Deregister m uri)
  | CallReset extensions => Reset m extensions
  | CallSetExtmapAllowMixed b => Ok (SetExtmapAllowMixed m b)
  end.

(** The precondition: a kind is registered, not the lack of one. *)
Definition map_call_ok (c : map_call) : Prop :=
  match c with CallRegisterByType _ type => type <> kRtpExtensionNone | _ => True end.

Lemma map_run_ok `{CheckMode} m c : map_ok m -> map_call_ok c -> exists m', map_run m c = Ok m' /\ map_ok m'.
Proof.
  intros Hm Hc. destruct c as [id t | id uri | uri | exts | b]; cbn [map_run map_call_ok] in *.
  - unfold RegisterByType. destruct (list_find _ kExtensions) as [[i [t' u]] |] eqn:Hf.
    + apply list_find_Some in Hf as (Hi & _ & _).
      destruct (Register_Ok m id t' Hm (kExtensions_types i t' u Hi)) as (m' & b & -> & Hok & _). by exists m'.
    + exfalso. revert Hf. by destruct t.
  - destruct (RegisterByUri_Ok m id uri Hm) as (m' & b & -> & Hok). by exists m'.
  - eexists. split; [ done |]. unfold Deregister. destruct (list_find _ kExtensions) as [[i [t u]] |] eqn:Hf; [| done ].
    apply list_find_Some in Hf as (Hi & _ & _). apply set_id_ok; [ done | by eapply kExtensions_types | | done ].
    unfold kInvalidId, kMaxId. lia.
  - unfold Reset. rewrite (mo_length _ Hm). apply register_all_Ok, (new_map_ok (extmap_allow_mixed_ m)).
  - eexists. split; [ done |]. by destruct Hm.
Qed.

Fixpoint map_runs `{CheckMode} (m : ExtensionMap) (cs : list map_call) : outcome ExtensionMap :=
  match cs with [] => Ok m | c :: cs => m ← map_run m c; map_runs m cs end.

(** C33. Whatever is registered and deregistered, no call faults and ids and kinds
    of extension stay in one-to-one correspondence: [GetType] answers [t] for
    [id] exactly when [GetId] answers [id] for [t]. *)
Theorem extension_ids_unique (mode : CheckMode) allow cs :
  Forall map_call_ok cs ->
  exists m, map_runs (RtpHeaderExtensionMap_new allow) cs = Ok m /\
    forall id t, 1 <= id <= 255 -> t <> kRtpExtensionNone -> (GetType m id = Ok t <-> GetId m t = Ok id).
Proof.
  intros Hcs. assert (Hrun : forall m, map_ok m -> exists m', map_runs m cs = Ok m' /\ map_ok m').
  { induction Hcs as [| c cs Hc _ IH ]; intros m Hm; cbn [map_runs]; [ by exists m |].
    destruct (map_run_ok m c Hm Hc) as (m' & -> & Hm'). rewrite bind_Ok. by apply IH. }
  destruct (Hrun _ (new_map_ok allow)) as (m & Hm & Hok). exists m. split; [ done |]. intros id t Hid Ht.
  rewrite GetId_Ok by done. destruct (GetType_Ok m id Hok Hid) as (t' & -> & Ht'). split.
  - intros [= ->]. destruct Ht' as [[_ <-] | [-> _]]; done.
  - intros [= He]. destruct Ht' as [[_ He'] | [_ Hno]]; [| by destruct (Hno t) ].
    f_equal. apply (mo_unique _ Hok); [ congruence |]. rewrite He'. unfold kInvalidId. lia.
Qed.

(** Two kinds compete for an id, and one of them is moved. *)
Definition sample_map_calls : list map_call :=
  [CallRegisterByType 3 kRtpExtensionAbsoluteSendTime; CallRegisterByType 3 kRtpExtensionMid;
   CallDeregister "http://www.webrtc.org/experiments/rtp-hdrext/abs-send-time"; CallRegisterByType 3 kRtpExtensionMid;
   CallRegisterByUri 300 "urn:3gpp:video-orientation"]%string.

Lemma extension_ids_unique_witness :
  exists m, @map_runs true (RtpHeaderExtensionMap_new true) sample_map_calls = Ok m /\
    forall id t, 1 <= id <= 255 -> t <> kRtpExtensionNone -> (@GetType true m id = Ok t <-> @GetId true m t = Ok id).
Proof. apply (extension_ids_unique true true sample_map_calls). repeat constructor; discriminate. Defined.
