(* ===== verification/RtpPacket.v ===== *)
(** * RTP packets: the vendored class

    [class RtpPacket] of [modules/rtp_rtcp/source/rtp_packet.cc]: a packet is a
    buffer that holds its wire format together with the fields parsed from it
    or written to it. Header extensions are kept in the one-byte or the two-byte
    format of RFC 8285; the first extension that needs it promotes those already
    there.

    A [CopyOnWriteBuffer] is the memory it may write to, from its offset on, and
    its size; the length of the memory is the capacity. Copying on write makes
    buffers values, except that a copy does not keep the bytes past the size:
    [Copy] replaces them. Memory that is allocated and not initialised comes
    from [fresh]. Every write is checked against the capacity. *)
From S2P Require Import Prelude.
From S2P Require Import RtpFecCodec.
From S2P Require Import ExtensionMap.
From stdpp Require Import base list list_numbers numbers option tactics.
From Stdlib Require Import ZArith Lia.

#[local] Open Scope Z_scope.

Definition kFixedHeaderSize : Z := 12.
Definition kRtpVersion : Z := 2.
Definition kOneByteExtensionProfileId : Z := 0xBEDE.
Definition kTwoByteExtensionProfileId : Z := 0x1000.
Definition kTwobyteExtensionProfileIdAppBitsFilter : Z := 0xfff0.
Definition kOneByteExtensionHeaderLength : Z := 1.
Definition kTwoByteExtensionHeaderLength : Z := 2.
Definition kDefaultPacketSize : Z := 1500.

(** [VideoTimingExtension::kPacerExitDeltaOffset]. *)
Definition kPacerExitDeltaOffset : Z := 7.

(** ** Buffers *)

Record CopyOnWriteBuffer : Type := mkCow { cow_mem : list Z; cow_size : Z }.

Definition capacity (b : CopyOnWriteBuffer) : Z := Z.of_nat (length (cow_mem b)).
(** The bytes a buffer stands for. *)
Definition contents (b : CopyOnWriteBuffer) : list Z := take (Z.to_nat (cow_size b)) (cow_mem b).

(** ** Packets *)

Record ExtensionInfo : Type := mkInfo { ei_id : Z; ei_length : Z; ei_offset : Z }.

(** The members of [class RtpPacket] other than the map and the buffer. *)
Record Fields : Type := mkFields {
  marker_ : bool;
  payload_type_ : Z;
  padding_size_ : Z;
  sequence_number_ : Z;
  timestamp_ : Z;
  rtp_ssrc_ : Z;
  payload_offset_ : Z;
  payload_size_ : Z;
  extension_entries_ : list ExtensionInfo;
  extensions_size_ : Z
}.

Record RtpPacket : Type := mkPacket {
  fields : Fields;
  extensions_ : ExtensionMap;
  buffer_ : CopyOnWriteBuffer
}.

Definition headers_size (p : RtpPacket) : Z := payload_offset_ (fields p).
Definition payload_size (p : RtpPacket) : Z := payload_size_ (fields p).
Definition padding_size (p : RtpPacket) : Z := padding_size_ (fields p).
Definition Marker (p : RtpPacket) : bool := marker_ (fields p).
Definition PayloadType (p : RtpPacket) : Z := payload_type_ (fields p).
Definition SequenceNumber (p : RtpPacket) : Z := sequence_number_ (fields p).
Definition Timestamp (p : RtpPacket) : Z := timestamp_ (fields p).
Definition Ssrc (p : RtpPacket) : Z := rtp_ssrc_ (fields p).
Definition Buffer (p : RtpPacket) : list Z := contents (buffer_ p).
Definition packet_size (p : RtpPacket) : Z := headers_size p + payload_size p + padding_size p.

Definition payload (p : RtpPacket) : outcome (list Z) :=
  slice (cow_mem (buffer_ p)) (headers_size p) (payload_size p).

(** ** Changing one member *)

Definition with_fields (f : Fields) (p : RtpPacket) : RtpPacket := mkPacket f (extensions_ p) (buffer_ p).
Definition with_buffer (b : CopyOnWriteBuffer) (p : RtpPacket) : RtpPacket := mkPacket (fields p) (extensions_ p) b.
Definition with_mem (mem : list Z) (p : RtpPacket) : RtpPacket := with_buffer (mkCow mem (cow_size (buffer_ p))) p.
Definition set_marker_ (m : bool) (f : Fields) : Fields :=
  mkFields m (payload_type_ f) (padding_size_ f) (sequence_number_ f) (timestamp_ f) (rtp_ssrc_ f)
    (payload_offset_ f) (payload_size_ f) (extension_entries_ f) (extensions_size_ f).
Definition set_payload_type_ (pt : Z) (f : Fields) : Fields :=
  mkFields (marker_ f) pt (padding_size_ f) (sequence_number_ f) (timestamp_ f) (rtp_ssrc_ f)
    (payload_offset_ f) (payload_size_ f) (extension_entries_ f) (extensions_size_ f).
Definition set_padding_size_ (n : Z) (f : Fields) : Fields :=
  mkFields (marker_ f) (payload_type_ f) n (sequence_number_ f) (timestamp_ f) (rtp_ssrc_ f)
    (payload_offset_ f) (payload_size_ f) (extension_entries_ f) (extensions_size_ f).
Definition set_sequence_number_ (n : Z) (f : Fields) : Fields :=
  mkFields (marker_ f) (payload_type_ f) (padding_size_ f) n (timestamp_ f) (rtp_ssrc_ f)
    (payload_offset_ f) (payload_size_ f) (extension_entries_ f) (extensions_size_ f).
Definition set_timestamp_ (n : Z) (f : Fields) : Fields :=
  mkFields (marker_ f) (payload_type_ f) (padding_size_ f) (sequence_number_ f) n (rtp_ssrc_ f)
    (payload_offset_ f) (payload_size_ f) (extension_entries_ f) (extensions_size_ f).
Definition set_ssrc_ (n : Z) (f : Fields) : Fields :=
  mkFields (marker_ f) (payload_type_ f) (padding_size_ f) (sequence_number_ f) (timestamp_ f) n
    (payload_offset_ f) (payload_size_ f) (extension_entries_ f) (extensions_size_ f).
Definition set_payload_offset_ (n : Z) (f : Fields) : Fields :=
  mkFields (marker_ f) (payload_type_ f) (padding_size_ f) (sequence_number_ f) (timestamp_ f) (rtp_ssrc_ f)
    n (payload_size_ f) (extension_entries_ f) (extensions_size_ f).
Definition set_payload_size_ (n : Z) (f : Fields) : Fields :=
  mkFields (marker_ f) (payload_type_ f) (padding_size_ f) (sequence_number_ f) (timestamp_ f) (rtp_ssrc_ f)
    (payload_offset_ f) n (extension_entries_ f) (extensions_size_ f).
Definition set_extensions_ (es : list ExtensionInfo) (n : Z) (f : Fields) : Fields :=
  mkFields (marker_ f) (payload_type_ f) (padding_size_ f) (sequence_number_ f) (timestamp_ f) (rtp_ssrc_ f)
    (payload_offset_ f) (payload_size_ f) es n.

(** ** Extension entries *)

Definition FindExtensionInfo (id : Z) (es : list ExtensionInfo) : option ExtensionInfo :=
  snd <$> list_find (fun e => ei_id e = id) es.

(** [FindOrCreateExtensionInfo] followed by the assignment of the entry it
    returned, when there is one to make. *)
Fixpoint update_info (id : Z) (f : ExtensionInfo -> ExtensionInfo) (es : list ExtensionInfo) : list ExtensionInfo :=
  match es with
  | [] => [f (mkInfo id 0 0)]
  | e :: es => if ei_id e =? id then f e :: es else e :: update_info id f es
  end.

(** ** Parsing *)

Section Parse.
Context (buffer : list Z).

(** The loop over the extensions, [extensions_size_] and [extension_entries_].
    A turn that goes on makes [extensions_size_] larger, and none starts with
    it at [extensions_capacity] or beyond, which therefore is enough [fuel]. *)
Fixpoint parse_extensions (fuel : nat) (profile extension_offset extensions_capacity extensions_size : Z)
    (entries : list ExtensionInfo) : outcome (Z * list ExtensionInfo) :=
  match fuel with
  | O => Ok (extensions_size, entries)
  | S fuel =>
      let one_byte := profile =? kOneByteExtensionProfileId in
      let extension_header_length :=
        if one_byte then kOneByteExtensionHeaderLength else kTwoByteExtensionHeaderLength in
      if extensions_size + extension_header_length <? extensions_capacity then
        b ← get buffer (extension_offset + extensions_size);
        if b =? 0
        then parse_extensions fuel profile extension_offset extensions_capacity (extensions_size + 1) entries
        else
          '(id, length) ←
            (if (one_byte : bool) then Ok (Z.shiftr b 4, 1 + Z.land b 0xf)
             else l ← get buffer (extension_offset + extensions_size + 1); Ok (b, l));
          if one_byte && ((id =? 15) || (id =? 0) && negb (length =? 1)) then Ok (extensions_size, entries)
          else if extensions_capacity <? extensions_size + extension_header_length + length
          then Ok (extensions_size, entries)
          else
            let offset := extension_offset + extensions_size + extension_header_length in
            if 65535 <? offset then Ok (extensions_size, update_info id (fun e => e) entries)
            else
              parse_extensions fuel profile extension_offset extensions_capacity
                (extensions_size + extension_header_length + length)
                (update_info id (fun e => mkInfo (ei_id e) length offset) entries)
      else Ok (extensions_size, entries)
  end.

(** The part of [ParseBuffer] for a packet with the extension bit: the new
    [payload_offset_] and what the loop found. *)
Definition parse_extension_block (payload_offset : Z) : outcome (option (Z * Z * list ExtensionInfo)) :=
  let size := Z.of_nat (length buffer) in
  let extension_offset := payload_offset + 4 in
  if size <? extension_offset then Ok None
  else
    profile ← read_be16 buffer payload_offset;
    words ← read_be16 buffer (payload_offset + 2);
    let extensions_capacity := words * 4 in
    if size <? extension_offset + extensions_capacity then Ok None
    else
      '(extensions_size, entries) ←
        (if negb (profile =? kOneByteExtensionProfileId) &&
            negb (Z.land profile kTwobyteExtensionProfileIdAppBitsFilter =? kTwoByteExtensionProfileId)
         then Ok (0, [])
         else parse_extensions (Z.to_nat extensions_capacity) profile extension_offset extensions_capacity 0 []);
      Ok (Some (extension_offset + extensions_capacity, extensions_size, entries)).

(** [ParseBuffer]; [None] is [false]. *)
Definition ParseBuffer : outcome (option Fields) :=
  let size := Z.of_nat (length buffer) in
  if size <? kFixedHeaderSize then Ok None
  else
    b0 ← get buffer 0;
    let version := Z.shiftr b0 6 in
    if negb (version =? kRtpVersion) then Ok None
    else
      let has_padding := negb (Z.land b0 0x20 =? 0) in
      let has_extension := negb (Z.land b0 0x10 =? 0) in
      let number_of_crcs := Z.land b0 0x0f in
      b1 ← get buffer 1;
      let marker := negb (Z.land b1 0x80 =? 0) in
      let payload_type := Z.land b1 0x7f in
      sequence_number ← read_be16 buffer 2;
      timestamp ← read_be32 buffer 4;
      ssrc ← read_be32 buffer 8;
      if size <? kFixedHeaderSize + number_of_crcs * 4 then Ok None
      else
        let payload_offset := kFixedHeaderSize + number_of_crcs * 4 in
        block ← (if has_extension then parse_extension_block payload_offset else Ok (Some (payload_offset, 0, [])));
        match block with
        | None => Ok None
        | Some (payload_offset, extensions_size, entries) =>
            padding_size ← (if has_padding && (payload_offset <? size) then get buffer (size - 1) else Ok 0);
            if has_padding && (payload_offset <? size) && (padding_size =? 0) then Ok None
            else if size <? payload_offset + padding_size then Ok None
            else
              Ok (Some (mkFields marker payload_type padding_size sequence_number timestamp ssrc payload_offset
                          (size - payload_offset - padding_size) entries extensions_size))
        end.

End Parse.

(** [dchecked_cast]. *)
Definition dchecked_u8 `{CheckMode} (x : Z) : outcome Z := RTC_DCHECK ((0 <=? x) && (x <=? 255));; Ok (u8 x).
Definition dchecked_u16 `{CheckMode} (x : Z) : outcome Z := RTC_DCHECK ((0 <=? x) && (x <=? 65535));; Ok (u16 x).

(** [memmove(mem + dst, mem + src, n)]. *)
Definition memmove (mem : list Z) (dst src n : Z) : outcome (list Z) :=
  bytes ← slice mem src n; memcpy mem dst bytes 0 n.

Section Build.
Context `{CheckMode} (fresh : nat -> list Z).

(** [CopyOnWriteBuffer::SetSize]. *)
Definition SetSize (n : Z) (b : CopyOnWriteBuffer) : CopyOnWriteBuffer :=
  if n <=? cow_size b then mkCow (cow_mem b) n
  else if n <=? capacity b then mkCow (cow_mem b) n
  else mkCow (contents b ++ fresh (Z.to_nat (n - cow_size b))) n.

(** What the copy of a buffer holds once it is written to. *)
Definition Copy (b : CopyOnWriteBuffer) : CopyOnWriteBuffer :=
  mkCow (contents b ++ fresh (length (cow_mem b) - length (contents b))) (cow_size b).
Definition copy_packet (p : RtpPacket) : RtpPacket := with_buffer (Copy (buffer_ p)) p.

(** [WriteAt(offset, byte)], and writing what [WriteAt(offset)] points to. *)
Definition WriteAt (p : RtpPacket) (offset byte : Z) : outcome RtpPacket :=
  mem ← put (cow_mem (buffer_ p)) offset byte; Ok (with_mem mem p).
Definition write_mem (p : RtpPacket) (f : list Z -> outcome (list Z)) : outcome RtpPacket :=
  mem ← f (cow_mem (buffer_ p)); Ok (with_mem mem p).
Definition data_at (p : RtpPacket) (offset : Z) : outcome Z := get (cow_mem (buffer_ p)) offset.
Definition set_size (n : Z) (p : RtpPacket) : RtpPacket := with_buffer (SetSize n (buffer_ p)) p.

(** ** Header fields *)

Definition Clear (p : RtpPacket) : outcome RtpPacket :=
  let p := with_fields (mkFields false 0 0 0 0 0 kFixedHeaderSize 0 [] 0) p in
  p ← write_mem p (fun mem => memset mem 0 0 kFixedHeaderSize);
  let p := set_size kFixedHeaderSize p in
  WriteAt p 0 (u8 (Z.shiftl kRtpVersion 6)).

Definition RtpPacket_new (extensions : ExtensionMap) (cap : Z) : outcome RtpPacket :=
  RTC_DCHECK (kFixedHeaderSize <=? cap);;
  Clear (mkPacket (mkFields false 0 0 0 0 0 0 0 [] 0) extensions (mkCow (fresh (Z.to_nat cap)) cap)).

Definition IdentifyExtensions (p : RtpPacket) (m : ExtensionMap) : RtpPacket := mkPacket (fields p) m (buffer_ p).

Definition SetMarker (p : RtpPacket) (marker_bit : bool) : outcome RtpPacket :=
  let p := with_fields (set_marker_ marker_bit (fields p)) p in
  b1 ← data_at p 1;
  WriteAt p 1 (if marker_bit then Z.lor b1 0x80 else Z.land b1 0x7F).

Definition SetPayloadType (p : RtpPacket) (payload_type : Z) : outcome RtpPacket :=
  RTC_DCHECK (payload_type <=? 0x7F);;
  let p := with_fields (set_payload_type_ payload_type (fields p)) p in
  b1 ← data_at p 1;
  WriteAt p 1 (Z.lor (Z.land b1 0x80) payload_type).

Definition SetSequenceNumber (p : RtpPacket) (seq_no : Z) : outcome RtpPacket :=
  write_mem (with_fields (set_sequence_number_ seq_no (fields p)) p) (fun mem => write_be16 mem 2 seq_no).

Definition SetTimestamp (p : RtpPacket) (timestamp : Z) : outcome RtpPacket :=
  write_mem (with_fields (set_timestamp_ timestamp (fields p)) p) (fun mem => write_be32 mem 4 timestamp).

Definition SetSsrc (p : RtpPacket) (ssrc : Z) : outcome RtpPacket :=
  write_mem (with_fields (set_ssrc_ ssrc (fields p)) p) (fun mem => write_be32 mem 8 ssrc).

Fixpoint write_csrcs (offset : Z) (csrcs : list Z) (mem : list Z) : outcome (list Z) :=
  match csrcs with
  | [] => Ok mem
  | csrc :: csrcs => mem ← write_be32 mem offset csrc; write_csrcs (offset + 4) csrcs mem
  end.

Definition SetCsrcs (p : RtpPacket) (csrcs : list Z) : outcome RtpPacket :=
  let n := Z.of_nat (length csrcs) in
  RTC_DCHECK (extensions_size_ (fields p) =? 0);;
  RTC_DCHECK (payload_size p =? 0);;
  RTC_DCHECK (padding_size p =? 0);;
  RTC_DCHECK (n <=? 0x0f);;
  RTC_DCHECK (kFixedHeaderSize + 4 * n <=? capacity (buffer_ p));;
  let p := with_fields (set_payload_offset_ (kFixedHeaderSize + 4 * n) (fields p)) p in
  b0 ← data_at p 0;
  n8 ← dchecked_u8 n;
  p ← WriteAt p 0 (Z.lor (Z.land b0 0xF0) n8);
  p ← write_mem p (write_csrcs kFixedHeaderSize csrcs);
  Ok (set_size (headers_size p) p).

Definition Csrcs (p : RtpPacket) : outcome (list Z) :=
  b0 ← data_at p 0;
  let num_csrc := Z.land b0 0x0F in
  RTC_DCHECK (kFixedHeaderSize + num_csrc * 4 <=? capacity (buffer_ p));;
  for_loop 0 (Z.to_nat num_csrc) (fun i csrcs =>
    csrc ← read_be32 (cow_mem (buffer_ p)) (kFixedHeaderSize + i * 4); Ok (csrcs ++ [csrc])) [].

(** ** Header extensions *)

Definition SetExtensionLengthMaybeAddZeroPadding (p : RtpPacket) (extensions_offset : Z) : outcome (RtpPacket * Z) :=
  let extensions_size := extensions_size_ (fields p) in
  extensions_words ← dchecked_u16 ((extensions_size + 3) / 4);
  p ← write_mem p (fun mem => write_be16 mem (extensions_offset - 2) extensions_words);
  let extension_padding_size := u64 (4 * extensions_words - extensions_size) in
  p ← write_mem p (fun mem => memset mem (extensions_offset + extensions_size) 0 extension_padding_size);
  Ok (p, u16 (4 * extensions_words)).

(** The loop of [PromoteToTwoByteHeaderExtension] over the entries, the last
    one first: the entries, still in that order, and the memory. *)
Fixpoint promote_entries (rev_entries : list ExtensionInfo) (write_read_delta : Z) (mem : list Z)
    : outcome (list ExtensionInfo * list Z) :=
  match rev_entries with
  | [] => Ok ([], mem)
  | e :: rest =>
      let read_index := ei_offset e in
      let write_index := read_index + write_read_delta in
      offset ← dchecked_u16 write_index;
      mem ← memmove mem write_index read_index (ei_length e);
      mem ← put mem (write_index - 1) (ei_length e);
      mem ← put mem (write_index - 2) (ei_id e);
      '(rest, mem) ← promote_entries rest (write_read_delta - 1) mem;
      Ok (mkInfo (ei_id e) (ei_length e) offset :: rest, mem)
  end.

Definition PromoteToTwoByteHeaderExtension (p : RtpPacket) : outcome RtpPacket :=
  b0 ← data_at p 0;
  let num_csrc := Z.land b0 0x0F in
  let extensions_offset := kFixedHeaderSize + num_csrc * 4 + 4 in
  let entries := extension_entries_ (fields p) in
  RTC_CHECK (0 <? Z.of_nat (length entries));;
  RTC_CHECK (payload_size p =? 0);;
  profile_id ← read_be16 (cow_mem (buffer_ p)) (extensions_offset - 4);
  RTC_CHECK (kOneByteExtensionProfileId =? profile_id);;
  '(rev_entries, mem) ← promote_entries (reverse entries) (Z.of_nat (length entries)) (cow_mem (buffer_ p));
  let p := with_mem mem p in
  p ← write_mem p (fun mem => write_be16 mem (extensions_offset - 4) kTwoByteExtensionProfileId);
  let p := with_fields (set_extensions_ (reverse rev_entries)
                          (extensions_size_ (fields p) + Z.of_nat (length entries)) (fields p)) p in
  '(p, extensions_size_padded) ← SetExtensionLengthMaybeAddZeroPadding p extensions_offset;
  let p := with_fields (set_payload_offset_ (extensions_offset + extensions_size_padded) (fields p)) p in
  Ok (set_size (headers_size p) p).

(** The parts of the end of [AllocateRawExtension], once the format is known:
    the extension block is opened before the first extension, ... *)
Definition begin_extensions (p : RtpPacket) (extensions_offset profile_id : Z) : outcome RtpPacket :=
  if extensions_size_ (fields p) =? 0 then
    RTC_DCHECK (headers_size p =? extensions_offset - 4);;
    b0 ← data_at p 0;
    p ← WriteAt p 0 (Z.lor b0 0x10);
    write_mem p (fun mem => write_be16 mem (extensions_offset - 4) profile_id)
  else Ok p.

(** ... the id and the length are written, ... *)
Definition write_extension_header (p : RtpPacket) (one_byte : bool) (at_offset id length : Z) : outcome RtpPacket :=
  if one_byte then
    id8 ← dchecked_u8 id;
    len8 ← dchecked_u8 (length - 1);
    WriteAt p at_offset (Z.lor (u8 (Z.shiftl id8 4)) len8)
  else
    id8 ← dchecked_u8 id;
    p ← WriteAt p at_offset id8;
    len8 ← dchecked_u8 length;
    WriteAt p (at_offset + 1) len8.

(** ... and the entry is made and the block closed: the packet with the new
    extension and where its value goes. *)
Definition append_extension (p : RtpPacket) (extensions_offset profile_id id length : Z)
    : outcome (RtpPacket * option (Z * Z)) :=
  let extensions_size := extensions_size_ (fields p) in
  let one_byte := profile_id =? kOneByteExtensionProfileId in
  let extension_header_size :=
    if one_byte then kOneByteExtensionHeaderLength else kTwoByteExtensionHeaderLength in
  let new_extensions_size := extensions_size + extension_header_size + length in
  if capacity (buffer_ p) <? extensions_offset + new_extensions_size then Ok (p, None)
  else
    p ← begin_extensions p extensions_offset profile_id;
    p ← write_extension_header p one_byte (extensions_offset + extensions_size) id length;
    extension_info_offset ← dchecked_u16 (extensions_offset + extensions_size + extension_header_size);
    extension_info_length ← dchecked_u8 length;
    let p := with_fields (set_extensions_
               (extension_entries_ (fields p) ++ [mkInfo (u8 id) extension_info_length extension_info_offset])
               new_extensions_size (fields p)) p in
    '(p, extensions_size_padded) ← SetExtensionLengthMaybeAddZeroPadding p extensions_offset;
    let p := with_fields (set_payload_offset_ (extensions_offset + extensions_size_padded) (fields p)) p in
    Ok (set_size (headers_size p) p, Some (extension_info_offset, extension_info_length)).

(** [AllocateRawExtension]: the packet and the view returned, [None] when it is
    empty. *)
Definition AllocateRawExtension (p : RtpPacket) (id length : Z) : outcome (RtpPacket * option (Z * Z)) :=
  RTC_DCHECK (kMinId <=? id);;
  RTC_DCHECK (id <=? kMaxId);;
  RTC_DCHECK (1 <=? length);;
  RTC_DCHECK (length <=? kMaxValueSize);;
  match FindExtensionInfo id (extension_entries_ (fields p)) with
  | Some extension_entry =>
      if ei_length extension_entry =? length then Ok (p, Some (ei_offset extension_entry, length)) else Ok (p, None)
  | None =>
      if 0 <? payload_size p then Ok (p, None)
      else if 0 <? padding_size p then Ok (p, None)
      else
        b0 ← data_at p 0;
        let num_csrc := Z.land b0 0x0F in
        let extensions_offset := kFixedHeaderSize + num_csrc * 4 + 4 in
        let two_byte_header_required :=
          (kOneByteHeaderExtensionMaxId <? id) || (kOneByteHeaderExtensionMaxValueSize <? length) || (length =? 0) in
        RTC_CHECK (negb two_byte_header_required || extmap_allow_mixed_ (extensions_ p));;
        if 0 <? extensions_size_ (fields p) then
          profile_id ← read_be16 (cow_mem (buffer_ p)) (extensions_offset - 4);
          if (profile_id =? kOneByteExtensionProfileId) && two_byte_header_required then
            let expected_new_extensions_size :=
              extensions_size_ (fields p) + Z.of_nat (Datatypes.length (extension_entries_ (fields p))) +
              kTwoByteExtensionHeaderLength + length in
            if capacity (buffer_ p) <? extensions_offset + expected_new_extensions_size then Ok (p, None)
            else
              p ← PromoteToTwoByteHeaderExtension p;
              append_extension p extensions_offset kTwoByteExtensionProfileId id length
          else append_extension p extensions_offset profile_id id length
        else
          append_extension p extensions_offset
            (if two_byte_header_required then kTwoByteExtensionProfileId else kOneByteExtensionProfileId) id length
  end.

Definition AllocateExtension (p : RtpPacket) (type : RTPExtensionType) (length : Z)
    : outcome (RtpPacket * option (Z * Z)) :=
  let mixed := extmap_allow_mixed_ (extensions_ p) in
  if (length =? 0) || (kMaxValueSize <? length) || negb mixed && (kOneByteHeaderExtensionMaxValueSize <? length)
  then Ok (p, None)
  else
    id ← GetId (extensions_ p) type;
    if id =? kInvalidId then Ok (p, None)
    else if negb mixed && (kOneByteHeaderExtensionMaxId <? id) then Ok (p, None)
    else AllocateRawExtension p id length.

(** [SetRawExtension] and [ReserveExtension]. *)
Definition SetRawExtension (p : RtpPacket) (type : RTPExtensionType) (value : list Z) : outcome (RtpPacket * bool) :=
  '(p, view) ← AllocateExtension p type (Z.of_nat (length value));
  match view with
  | None => Ok (p, false)
  | Some (offset, n) => p ← write_mem p (fun mem => memcpy mem offset value 0 n); Ok (p, true)
  end.
Definition ReserveExtension (p : RtpPacket) (type : RTPExtensionType) (value_size : Z) : outcome (RtpPacket * bool) :=
  '(p, view) ← AllocateExtension p type value_size;
  match view with
  | None => Ok (p, false)
  | Some (offset, _) => p ← write_mem p (fun mem => memset mem offset 0 value_size); Ok (p, true)
  end.

(** [FindExtension]: the bytes of the view, [None] for an empty one. *)
Definition FindExtension (p : RtpPacket) (type : RTPExtensionType) : outcome (option (list Z)) :=
  id ← GetId (extensions_ p) type;
  if id =? kInvalidId then Ok None
  else
    match FindExtensionInfo id (extension_entries_ (fields p)) with
    | None => Ok None
    | Some e => value ← slice (cow_mem (buffer_ p)) (ei_offset e) (ei_length e); Ok (Some value)
    end.

Definition HasExtension (p : RtpPacket) (type : RTPExtensionType) : outcome bool :=
  id ← GetId (extensions_ p) type;
  if id =? kInvalidId then Ok false
  else Ok (bool_decide (is_Some (FindExtensionInfo id (extension_entries_ (fields p))))).

(** One turn of [ZeroMutableExtensions]. *)
Definition zero_extension (p : RtpPacket) (e : ExtensionInfo) : outcome RtpPacket :=
  type ← GetType (extensions_ p) (ei_id e);
  match type with
  | kRtpExtensionVideoTiming =>
      if kPacerExitDeltaOffset <? ei_length e
      then write_mem p (fun mem =>
             memset mem (ei_offset e + kPacerExitDeltaOffset) 0 (ei_length e - kPacerExitDeltaOffset))
      else Ok p
  | kRtpExtensionTransportSequenceNumber | kRtpExtensionTransportSequenceNumber02
  | kRtpExtensionTransmissionTimeOffset | kRtpExtensionAbsoluteSendTime =>
      write_mem p (fun mem => memset mem (ei_offset e) 0 (ei_length e))
  | _ => Ok p
  end.
Fixpoint zero_extensions (p : RtpPacket) (es : list ExtensionInfo) : outcome RtpPacket :=
  match es with
  | [] => Ok p
  | e :: es => p ← zero_extension p e; zero_extensions p es
  end.
Definition ZeroMutableExtensions (p : RtpPacket) : outcome RtpPacket :=
  zero_extensions p (extension_entries_ (fields p)).

(** ** Payload and padding *)

(** [SetPayloadSize]; the pointer returned is [payload_offset_]. *)
Definition SetPayloadSize (p : RtpPacket) (size_bytes : Z) : outcome RtpPacket :=
  RTC_DCHECK (padding_size p =? 0);;
  let p := with_fields (set_payload_size_ size_bytes (fields p)) p in
  Ok (set_size (headers_size p + payload_size p) p).

Definition AllocatePayload (p : RtpPacket) (size_bytes : Z) : outcome RtpPacket :=
  p ← SetPayloadSize p 0; SetPayloadSize p size_bytes.

(** [memcpy] of [bytes] to offset [start] of the payload. *)
Definition write_payload (p : RtpPacket) (start : Z) (bytes : list Z) : outcome RtpPacket :=
  write_mem p (fun mem => memcpy mem (headers_size p + start) bytes 0 (Z.of_nat (length bytes))).

Definition SetPadding (p : RtpPacket) (padding_bytes : Z) : outcome (RtpPacket * bool) :=
  if capacity (buffer_ p) <? headers_size p + payload_size p + padding_bytes then Ok (p, false)
  else
    padding8 ← dchecked_u8 padding_bytes;
    let p := with_fields (set_padding_size_ padding8 (fields p)) p in
    let p := set_size (headers_size p + payload_size p + padding_size p) p in
    p ← (if 0 <? padding_size p then
           let padding_offset := headers_size p + payload_size p in
           let padding_end := padding_offset + padding_size p in
           p ← write_mem p (fun mem => memset mem padding_offset 0 (padding_size p - 1));
           p ← WriteAt p (padding_end - 1) (padding_size p);
           b0 ← data_at p 0;
           WriteAt p 0 (Z.lor b0 0x20)
         else
           b0 ← data_at p 0;
           WriteAt p 0 (Z.land b0 0xdf));
    Ok (p, true).

(** ** Whole packets *)

(** [CopyOnWriteBuffer::Slice]. *)
Definition Slice (b : CopyOnWriteBuffer) (offset length : Z) : outcome CopyOnWriteBuffer :=
  RTC_DCHECK (offset <=? cow_size b);;
  RTC_DCHECK (length + offset <=? cow_size b);;
  Ok (mkCow (drop (Z.to_nat offset) (cow_mem b)) length).

Definition CopyHeaderFrom (p packet : RtpPacket) : outcome RtpPacket :=
  buffer ← Slice (buffer_ packet) 0 (headers_size packet);
  Ok (mkPacket (set_padding_size_ 0 (set_payload_size_ 0 (fields packet))) (extensions_ packet) (Copy buffer)).

(** [Parse(CopyOnWriteBuffer)]. *)
Definition Parse (p : RtpPacket) (buffer : CopyOnWriteBuffer) : outcome (RtpPacket * bool) :=
  result ← ParseBuffer (contents buffer);
  match result with
  | None => p ← Clear p; Ok (p, false)
  | Some f =>
      let p := mkPacket f (extensions_ p) buffer in
      RTC_DCHECK (packet_size p =? cow_size buffer);;
      Ok (p, true)
  end.

(** The loop of [RemoveExtension]; [None] when there is no room. *)
Fixpoint copy_extensions (this : RtpPacket) (id_to_remove : Z) (es : list ExtensionInfo) (new_packet : RtpPacket)
    (found_extension : bool) : outcome (option (RtpPacket * bool)) :=
  match es with
  | [] => Ok (Some (new_packet, found_extension))
  | ext :: es =>
      if ei_id ext =? id_to_remove then copy_extensions this id_to_remove es new_packet true
      else
        '(new_packet, view) ← AllocateRawExtension new_packet (ei_id ext) (ei_length ext);
        if negb (default 0 (snd <$> view) =? ei_length ext) then Ok None
        else
          new_packet ← write_mem new_packet (fun mem =>
            memcpy mem (default 0 (fst <$> view)) (cow_mem (buffer_ this)) (ei_offset ext) (ei_length ext));
          copy_extensions this id_to_remove es new_packet found_extension
  end.

Definition RemoveExtension (this : RtpPacket) (type : RTPExtensionType) : outcome (RtpPacket * bool) :=
  id_to_remove ← GetId (extensions_ this) type;
  if id_to_remove =? kInvalidId then Ok (this, false)
  else
    new_packet ← RtpPacket_new (RtpHeaderExtensionMap_new false) kDefaultPacketSize;
    new_packet ← SetMarker new_packet (Marker this);
    new_packet ← SetPayloadType new_packet (PayloadType this);
    new_packet ← SetSequenceNumber new_packet (SequenceNumber this);
    new_packet ← SetTimestamp new_packet (Timestamp this);
    new_packet ← SetSsrc new_packet (Ssrc this);
    let new_packet := IdentifyExtensions new_packet (extensions_ this) in
    copied ← copy_extensions this id_to_remove (extension_entries_ (fields this)) new_packet false;
    match copied with
    | None | Some (_, false) => Ok (this, false)
    | Some (new_packet, true) =>
        new_packet ←
          (if 0 <? payload_size this then
             bytes ← payload this;
             new_packet ← AllocatePayload new_packet (payload_size this);
             write_payload new_packet 0 bytes
           else SetPayloadSize new_packet 0);
        '(new_packet, _) ← SetPadding new_packet (padding_size this);
        Ok (new_packet, true)
    end.

End Build.
