(* ===== verification/RtpPacketWire.v ===== *)
(** * The wire format of RTP packets

    What a packet is ([Pkt]) and what it looks like on the wire ([wire]), written
    down independently of [class RtpPacket], as RFC 3550 and RFC 8285 have it;
    and the parser against it: [ParseBuffer] of [wire v] finds [v], and on
    arbitrary bytes [ParseBuffer] stays inside the buffer and answers with
    fields that lie inside it. *)
From S2P Require Import Prelude.
From S2P Require Import RtpFecCodec.
From S2P Require Import RtpFecAlgebra.
From S2P Require Import ExtensionMap.
From S2P Require Import RtpPacket.
From stdpp Require Import base list list_numbers numbers option tactics.
From Stdlib Require Import ZArith Lia.

#[local] Open Scope Z_scope.

Definition is_byte (b : Z) : Prop := 0 <= b < 256.
Abbreviation zlen l := (Z.of_nat (length l)).

(** ** Packets *)

(** [v_wide] tells the two-byte from the one-byte format of the extensions. *)
Record Pkt : Type := mkPkt {
  v_marker : bool;
  v_type : Z;
  v_seq : Z;
  v_time : Z;
  v_ssrc : Z;
  v_csrcs : list Z;
  v_wide : bool;
  v_exts : list (Z * list Z);
  v_payload : list Z;
  v_padding : Z
}.

Definition be16 (n : Z) : list Z := [u8 (n / 256); u8 n].
Definition be32 (n : Z) : list Z := [u8 (n / 2 ^ 24); u8 (n / 2 ^ 16); u8 (n / 256); u8 n].

Definition ext_header (wide : bool) : Z := if wide then 2 else 1.
Definition ext_bytes (wide : bool) (e : Z * list Z) : list Z :=
  if wide then e.1 :: zlen e.2 :: e.2 else e.1 * 16 + (zlen e.2 - 1) :: e.2.
Definition exts_bytes (wide : bool) (es : list (Z * list Z)) : list Z := concat (map (ext_bytes wide) es).
Definition profile (wide : bool) : Z := if wide then kTwoByteExtensionProfileId else kOneByteExtensionProfileId.

(** The number of 32-bit words that hold [n] bytes. *)
Definition words (n : Z) : Z := (n + 3) / 4.

Definition ext_block (wide : bool) (es : list (Z * list Z)) : list Z :=
  match es with
  | [] => []
  | _ =>
      let bytes := exts_bytes wide es in
      let w := words (zlen bytes) in
      be16 (profile wide) ++ be16 w ++ bytes ++ replicate (Z.to_nat (4 * w - zlen bytes)) 0
  end.

Definition first_byte (v : Pkt) : Z :=
  0x80 + 0x20 * Z.b2z (0 <? v_padding v) + 0x10 * Z.b2z (bool_decide (v_exts v <> [])) + zlen (v_csrcs v).
Definition second_byte (v : Pkt) : Z := 0x80 * Z.b2z (v_marker v) + v_type v.

Definition fixed_header (v : Pkt) : list Z :=
  first_byte v :: second_byte v :: be16 (v_seq v) ++ be32 (v_time v) ++ be32 (v_ssrc v).
Definition header (v : Pkt) : list Z :=
  fixed_header v ++ concat (map be32 (v_csrcs v)) ++ ext_block (v_wide v) (v_exts v).
Definition pad_bytes (n : Z) : list Z := if 0 <? n then replicate (Z.to_nat (n - 1)) 0 ++ [n] else [].
Definition wire (v : Pkt) : list Z := header v ++ v_payload v ++ pad_bytes (v_padding v).

Definition ext_ok (wide : bool) (e : Z * list Z) : Prop :=
  1 <= e.1 <= (if wide then 255 else 14) /\ 1 <= zlen e.2 <= (if wide then 255 else 16) /\ Forall is_byte e.2.

Record pkt_ok (v : Pkt) : Prop := {
  po_type : 0 <= v_type v < 128;
  po_seq : 0 <= v_seq v < 2 ^ 16;
  po_time : 0 <= v_time v < 2 ^ 32;
  po_ssrc : 0 <= v_ssrc v < 2 ^ 32;
  po_csrcs : zlen (v_csrcs v) <= 15 /\ Forall (fun c => 0 <= c < 2 ^ 32) (v_csrcs v);
  po_exts : Forall (ext_ok (v_wide v)) (v_exts v);
  po_ids : NoDup (map fst (v_exts v));
  po_header : zlen (header v) < 2 ^ 16;
  po_payload : Forall is_byte (v_payload v);
  po_padding : 0 <= v_padding v < 256
}.

(** ** The fields of a packet *)

Fixpoint entries (wide : bool) (offset : Z) (es : list (Z * list Z)) : list ExtensionInfo :=
  match es with
  | [] => []
  | e :: es =>
      mkInfo e.1 (zlen e.2) (offset + ext_header wide) :: entries wide (offset + ext_header wide + zlen e.2) es
  end.

(** Where the extensions begin. *)
Definition exts_start (v : Pkt) : Z := 16 + 4 * zlen (v_csrcs v).

Definition fields_of (v : Pkt) (exts_size : Z) : Fields :=
  mkFields (v_marker v) (v_type v) (v_padding v) (v_seq v) (v_time v) (v_ssrc v) (zlen (header v))
    (zlen (v_payload v)) (entries (v_wide v) (exts_start v) (v_exts v)) exts_size.

(** What [extensions_size_] is in a packet that is being built, and in one that
    has been parsed: the parser counts padding up to the last place where an
    extension could start. *)
Definition built_size (v : Pkt) : Z := zlen (exts_bytes (v_wide v) (v_exts v)).
Definition parsed_size (v : Pkt) : Z :=
  match v_exts v with
  | [] => 0
  | _ => Z.max (built_size v) (4 * words (built_size v) - ext_header (v_wide v))
  end.

(** ** Lists and bytes *)

Lemma get_mid {A} (pre post : list A) x i : i = zlen pre -> get (pre ++ x :: post) i = Ok x.
Proof. intros ->. apply get_Ok; [| lia ]. rewrite Nat2Z.id. by apply list_lookup_middle. Qed.

Lemma read_be16_mid (pre post : list Z) n i :
  i = zlen pre -> 0 <= n < 2 ^ 16 -> read_be16 (pre ++ be16 n ++ post) i = Ok n.
Proof.
  intros -> Hn. unfold read_be16, be16. cbn [app]. rewrite (get_mid pre _ _ (zlen pre)), bind_Ok by done.
  rewrite (cons_middle (u8 (n / 256))), app_assoc, get_mid, bind_Ok by (rewrite length_app; cbn; lia).
  by rewrite be16_value.
Qed.

Lemma length_be16 n : length (be16 n) = 2%nat.
Proof. done. Qed.
Lemma length_be32 n : length (be32 n) = 4%nat.
Proof. done. Qed.
Lemma length_csrcs cs : zlen (concat (map be32 cs)) = 4 * zlen cs.
Proof.
  induction cs as [| c cs IH ]; [ done |]. cbn [map concat]. rewrite length_app, length_be32. cbn [length]. lia.
Qed.
Lemma length_ext_bytes wide e : zlen (ext_bytes wide e) = ext_header wide + zlen e.2.
Proof. unfold ext_bytes, ext_header. destruct wide; cbn [length]; lia. Qed.

Lemma words_bounds n : 0 <= n -> n <= 4 * words n <= n + 3.
Proof. intros Hn. unfold words. pose proof (Z.div_mod (n + 3) 4). pose proof (Z.mod_pos_bound (n + 3) 4). lia. Qed.

Lemma length_ext_block wide es :
  zlen (ext_block wide es) = match es with [] => 0 | _ => 4 + 4 * words (zlen (exts_bytes wide es)) end.
Proof.
  destruct es as [| e es ]; [ done |]. unfold ext_block. cbv zeta.
  pose proof (words_bounds (zlen (exts_bytes wide (e :: es)))).
  rewrite !length_app, !length_be16, length_replicate. lia.
Qed.

Lemma length_fixed_header v : length (fixed_header v) = 12%nat.
Proof. done. Qed.

Lemma length_header v :
  zlen (header v) = 12 + 4 * zlen (v_csrcs v) + zlen (ext_block (v_wide v) (v_exts v)).
Proof. unfold header. rewrite !length_app, length_fixed_header. pose proof (length_csrcs (v_csrcs v)). lia. Qed.

Lemma length_pad_bytes n : 0 <= n -> zlen (pad_bytes n) = n.
Proof.
  intros Hn. unfold pad_bytes. destruct (Z.ltb_spec 0 n); [| cbn; lia ].
  rewrite length_app, length_replicate. cbn [length]. lia.
Qed.

Lemma length_wire v : 0 <= v_padding v -> zlen (wire v) = zlen (header v) + zlen (v_payload v) + v_padding v.
Proof. intros Hp. unfold wire. rewrite !length_app. pose proof (length_pad_bytes (v_padding v) Hp). lia. Qed.

(** ** Parsing what was written *)

Lemma update_info_fresh id f es :
  id ∉ map ei_id es -> update_info id f es = es ++ [f (mkInfo id 0 0)].
Proof.
  induction es as [| e es IH ]; intros Hid; [ done |]. cbn [update_info map] in *.
  apply not_elem_of_cons in Hid as [Hne Hid]. rewrite (proj2 (Z.eqb_neq _ _)) by done. cbn. by rewrite IH.
Qed.

Lemma profile_one_byte wide : (profile wide =? kOneByteExtensionProfileId) = negb wide.
Proof. by destruct wide. Qed.

(** The zeros at the end are skipped. *)
Lemma parse_zeros wide off cap post es z : forall pre fuel size,
  off + size = zlen pre -> cap = size + Z.of_nat z -> (z <= fuel)%nat ->
  parse_extensions (pre ++ replicate z 0 ++ post) fuel (profile wide) off cap size es =
    Ok (Z.max size (cap - ext_header wide), es).
Proof.
  induction z as [| z IH ]; intros pre fuel size Hpre Hcap Hfuel.
  - destruct fuel as [| fuel ]; cbn [parse_extensions]; [| rewrite (proj2 (Z.ltb_ge _ _)) ];
      rewrite ?profile_one_byte; unfold ext_header, kOneByteExtensionHeaderLength, kTwoByteExtensionHeaderLength;
      destruct wide; cbn [negb]; try (do 2 f_equal; lia); lia.
  - destruct fuel as [| fuel ]; [ lia |]. cbn [parse_extensions replicate app]. rewrite profile_one_byte.
    replace (if negb wide then kOneByteExtensionHeaderLength else kTwoByteExtensionHeaderLength) with (ext_header wide)
      by (by destruct wide).
    destruct (Z.ltb_spec (size + ext_header wide) cap) as [Hlt | Hge]; [| do 2 f_equal; lia ].
    rewrite (get_mid _ _ _ (off + size)), bind_Ok by done. cbn [Z.eqb].
    rewrite cons_middle, app_assoc. rewrite IH; [| rewrite length_app; cbn; lia | lia | lia ].
    do 2 f_equal. unfold ext_header in *. destruct wide; lia.
Qed.

(** The header of one extension. *)
Lemma one_byte_header id n :
  1 <= id <= 14 -> 1 <= n <= 16 ->
  let b := id * 16 + (n - 1) in b <> 0 /\ Z.shiftr b 4 = id /\ 1 + Z.land b 0xf = n.
Proof.
  intros Hid Hn b. unfold b. split; [ lia |]. rewrite Z.shiftr_div_pow2 by lia. change 0xf with (Z.ones 4).
  rewrite Z.land_ones by lia. change (2 ^ 4) with 16. rewrite Z.div_add_l, Z.div_small by lia.
  rewrite Z.add_comm with (n := id * 16), Z.mod_add, Z.mod_small by lia. lia.
Qed.

Lemma parse_written wide off cap z es : forall pre post fuel size done,
  off + size = zlen pre -> cap = size + zlen (exts_bytes wide es) + Z.of_nat z ->
  (Z.to_nat (cap - size) <= fuel)%nat -> 0 <= off -> off + cap < 2 ^ 16 ->
  Forall (ext_ok wide) es -> NoDup (map ei_id done ++ map fst es) ->
  parse_extensions (pre ++ exts_bytes wide es ++ replicate z 0 ++ post) fuel (profile wide) off cap size done =
    Ok (Z.max (size + zlen (exts_bytes wide es)) (cap - ext_header wide), done ++ entries wide (off + size) es).
Proof.
  induction es as [| [id val] es IH ]; intros pre post fuel size done Hpre Hcap Hfuel Hoff Hmax Hes Hids.
  { cbn [exts_bytes map concat app entries]. cbn [exts_bytes map concat length] in Hcap.
    rewrite app_nil_r, Z.add_0_r. apply parse_zeros; [ done | lia | lia ]. }
  apply Forall_cons_1 in Hes as [[Hid [Hlen Hval]] Hes]. cbn [fst snd] in *.
  change (exts_bytes wide ((id, val) :: es)) with (ext_bytes wide (id, val) ++ exts_bytes wide es) in *.
  rewrite length_app, Nat2Z.inj_add, length_ext_bytes in Hcap. rewrite <- app_assoc. cbn [snd] in *.
  assert (Hh : 1 <= ext_header wide <= 2) by (unfold ext_header; destruct wide; lia).
  destruct fuel as [| fuel ]; [ lia |]. cbn [parse_extensions]. rewrite profile_one_byte.
  replace (if negb wide then kOneByteExtensionHeaderLength else kTwoByteExtensionHeaderLength) with (ext_header wide)
    by (by destruct wide).
  rewrite (proj2 (Z.ltb_lt _ _)) by lia.
  set (rest := exts_bytes wide es ++ replicate z 0 ++ post).
  assert (Hhead : exists b bs, ext_bytes wide (id, val) = b :: bs /\ b <> 0 /\
    ((if negb wide then Ok (Z.shiftr b 4, 1 + Z.land b 15)
      else l ← get (pre ++ ext_bytes wide (id, val) ++ rest) (off + size + 1); Ok (b, l)) = Ok (id, zlen val)) /\
    negb wide && ((id =? 15) || (id =? 0) && negb (zlen val =? 1)) = false).
  { destruct wide; cbn [negb ext_bytes fst snd andb].
    - eexists id, _. split_and!; [ done | lia | | done ]. cbn [app]. rewrite cons_middle, app_assoc.
      rewrite get_mid, bind_Ok; [ done |]. rewrite length_app. cbn. lia.
    - destruct (one_byte_header id (zlen val)) as (Hb & Hs & Hl); [ lia | lia |].
      eexists _, val. split_and!; [ done | done | by rewrite Hs, Hl |].
      rewrite (proj2 (Z.eqb_neq id 15)), (proj2 (Z.eqb_neq id 0)) by lia. done. }
  destruct Hhead as (b & bs & Hbs & Hb0 & Hdec & Hcont). rewrite Hbs at 1. cbn [app].
  rewrite (get_mid _ _ _ (off + size)), bind_Ok by done. rewrite (proj2 (Z.eqb_neq _ _)) by done.
  rewrite Hdec, bind_Ok. cbn beta iota. rewrite Hcont.
  rewrite (proj2 (Z.ltb_ge cap _)), (proj2 (Z.ltb_ge 65535 _)) by lia.
  assert (Hnew : id ∉ map ei_id done).
  { intros Hin. apply list.NoDup_app in Hids as (_ & Hdis & _). apply (Hdis id Hin). left. }
  rewrite update_info_fresh by done. rewrite app_assoc. unfold rest.
  rewrite IH; [ | | lia | lia | lia | lia | done |].
  - cbn [entries ei_id fst snd]. rewrite <- app_assoc. cbn [app].
    rewrite length_app, Nat2Z.inj_add, length_ext_bytes. cbn [snd]. do 2 f_equal; [ lia |].
    do 3 f_equal. lia.
  - rewrite length_app, Nat2Z.inj_add, length_ext_bytes. cbn [snd]. lia.
  - cbn [ei_id]. rewrite map_app, <- app_assoc. cbn [map ei_id app].
    exact Hids.
Qed.

Lemma fixed_reads c0 c1 c2 c3 c4 c5 c6 c7 c8 c9 c10 c11 rest :
  let l := [c0; c1; c2; c3; c4; c5; c6; c7; c8; c9; c10; c11] ++ rest in
  get l 0 = Ok c0 /\ get l 1 = Ok c1 /\ read_be16 l 2 = Ok (c2 * 256 + c3) /\
  read_be32 l 4 = Ok ((c4 * 256 + c5) * 2 ^ 16 + (c6 * 256 + c7)) /\
  read_be32 l 8 = Ok ((c8 * 256 + c9) * 2 ^ 16 + (c10 * 256 + c11)).
Proof. split_and!; reflexivity. Qed.

Lemma first_byte_bits (p x : bool) n :
  0 <= n <= 15 ->
  let b := 0x80 + 0x20 * Z.b2z p + 0x10 * Z.b2z x + n in
  Z.shiftr b 6 = 2 /\ negb (Z.land b 0x20 =? 0) = p /\ negb (Z.land b 0x10 =? 0) = x /\ Z.land b 0x0f = n.
Proof.
  intros Hn b.
  assert (Hall : all_between 0 15 (fun n => let b := 0x80 + 0x20 * Z.b2z p + 0x10 * Z.b2z x + n in
    (Z.shiftr b 6 =? 2) && Bool.eqb (negb (Z.land b 0x20 =? 0)) p && Bool.eqb (negb (Z.land b 0x10 =? 0)) x &&
    (Z.land b 0x0f =? n)) = true) by (destruct p, x; reflexivity).
  pose proof (all_between_spec 0 15 _ Hall n Hn) as Hb. cbv zeta in Hb. fold b in Hb.
  apply andb_true_iff in Hb as [Hb H4]. apply andb_true_iff in Hb as [Hb H3]. apply andb_true_iff in Hb as [H1 H2].
  split_and!; [ by apply Z.eqb_eq | by apply eqb_prop | by apply eqb_prop | by apply Z.eqb_eq ].
Qed.

Lemma second_byte_bits (m : bool) t :
  0 <= t < 128 ->
  let b := 0x80 * Z.b2z m + t in negb (Z.land b 0x80 =? 0) = m /\ Z.land b 0x7f = t.
Proof.
  intros Ht b.
  assert (Hall : all_between 0 127 (fun t => let b := 0x80 * Z.b2z m + t in
    Bool.eqb (negb (Z.land b 0x80 =? 0)) m && (Z.land b 0x7f =? t)) = true) by (destruct m; reflexivity).
  pose proof (all_between_spec 0 127 _ Hall t ltac:(lia)) as Hb. cbv zeta in Hb. fold b in Hb.
  apply andb_true_iff in Hb as [H1 H2]. split; [ by apply eqb_prop | by apply Z.eqb_eq ].
Qed.

(** The extension block, wherever it starts. *)
Lemma parse_block_written pre post wide es :
  es <> [] -> Forall (ext_ok wide) es -> NoDup (map fst es) ->
  zlen pre + zlen (ext_block wide es) < 2 ^ 16 ->
  let size := zlen (exts_bytes wide es) in
  parse_extension_block (pre ++ ext_block wide es ++ post) (zlen pre) =
    Ok (Some (zlen pre + zlen (ext_block wide es), Z.max size (4 * words size - ext_header wide),
              entries wide (zlen pre + 4) es)).
Proof.
  intros Hne Hes Hids Hmax size. pose proof (length_ext_block wide es) as Hlen.
  destruct es as [| e es ]; [ done |]. fold size in Hlen. pose proof (words_bounds size ltac:(lia)) as Hw.
  unfold parse_extension_block.
  rewrite (proj2 (Z.ltb_ge (zlen (pre ++ _)) _)) by (rewrite !length_app; lia).
  assert (Hbuf : pre ++ ext_block wide (e :: es) ++ post = pre ++ be16 (profile wide) ++ be16 (words size) ++
    exts_bytes wide (e :: es) ++ replicate (Z.to_nat (4 * words size - size)) 0 ++ post)
    by (unfold ext_block; cbv zeta; fold size; by rewrite <- !app_assoc).
  rewrite Hbuf.
  rewrite (read_be16_mid _ _ _ (zlen pre)), bind_Ok by (done || (unfold profile; destruct wide; split; done)).
  rewrite (app_assoc pre), (read_be16_mid _ _ _ (zlen pre + 2)), bind_Ok by (rewrite ?length_app, ?length_be16; lia).
  rewrite (proj2 (Z.ltb_ge _ _)).
  2:{ rewrite !length_app, !length_be16, length_replicate. lia. }
  replace (negb (profile wide =? kOneByteExtensionProfileId) &&
     negb (Z.land (profile wide) kTwobyteExtensionProfileIdAppBitsFilter =? kTwoByteExtensionProfileId)) with false
    by (by destruct wide).
  rewrite (app_assoc (pre ++ _)).
  rewrite parse_written; [ | | | | | | done | done ].
  - rewrite bind_Ok, Z.add_0_l, Z.add_0_r. cbn [app]. fold size. rewrite (Z.mul_comm (words size)), Hlen, Z.add_assoc. done.
  - rewrite !length_app, !length_be16. lia.
  - fold size. lia.
  - lia.
  - lia.
  - lia.
Qed.

Lemma last_padding pre n : 0 < n -> get (pre ++ pad_bytes n) (zlen (pre ++ pad_bytes n) - 1) = Ok n.
Proof.
  intros Hn. unfold pad_bytes. rewrite (proj2 (Z.ltb_lt _ _)) by done. rewrite app_assoc. apply get_mid.
  rewrite (length_app _ [n]). cbn [length]. lia.
Qed.

(** [ParseBuffer] is the inverse of [wire]. *)
Lemma ParseBuffer_wire v : pkt_ok v -> ParseBuffer (wire v) = Ok (Some (fields_of v (parsed_size v))).
Proof.
  intros [Ht Hs Htm Hr [Hc1 Hc2] He Hi Hh Hp Hpad]. unfold ParseBuffer.
  pose proof (length_wire v ltac:(lia)) as Hlen. pose proof (length_header v) as Hhd.
  assert (Hx0 : 0 <= zlen (ext_block (v_wide v) (v_exts v))) by lia.
  rewrite (proj2 (Z.ltb_ge _ _)) by (unfold kFixedHeaderSize; lia).
  destruct (first_byte_bits (0 <? v_padding v) (bool_decide (v_exts v <> [])) (zlen (v_csrcs v)) ltac:(lia))
    as (B1 & B2 & B3 & B4). fold (first_byte v) in B1, B2, B3, B4.
  destruct (second_byte_bits (v_marker v) (v_type v) Ht) as [B5 B6]. fold (second_byte v) in B5, B6.
  set (csrcs := concat (map be32 (v_csrcs v))) in *. pose proof (length_csrcs (v_csrcs v)) as Hcs. fold csrcs in Hcs.
  assert (Hw : wire v = fixed_header v ++ csrcs ++ ext_block (v_wide v) (v_exts v) ++ v_payload v ++ pad_bytes (v_padding v))
    by (unfold wire, header; fold csrcs; by rewrite <- !app_assoc).
  destruct (fixed_reads (first_byte v) (second_byte v) (u8 (v_seq v / 256)) (u8 (v_seq v)) (u8 (v_time v / 2 ^ 24))
    (u8 (v_time v / 2 ^ 16)) (u8 (v_time v / 256)) (u8 (v_time v)) (u8 (v_ssrc v / 2 ^ 24)) (u8 (v_ssrc v / 2 ^ 16))
    (u8 (v_ssrc v / 256)) (u8 (v_ssrc v)) (csrcs ++ ext_block (v_wide v) (v_exts v) ++ v_payload v ++ pad_bytes (v_padding v)))
    as (R0 & R1 & R2 & R4 & R8).
  change ([_; _; _; _; _; _; _; _; _; _; _; _] ++ _) with
    (fixed_header v ++ csrcs ++ ext_block (v_wide v) (v_exts v) ++ v_payload v ++ pad_bytes (v_padding v)) in R0, R1, R2, R4, R8.
  rewrite <- Hw in R0, R1, R2, R4, R8. rewrite be16_value in R2 by done. rewrite be32_value in R4, R8 by done.
  rewrite R0, bind_Ok, B1. cbn [Z.eqb Pos.eqb negb kRtpVersion]. rewrite R1, bind_Ok, R2, bind_Ok, R4, bind_Ok, R8, bind_Ok.
  rewrite B2, B3, B4, B5, B6. unfold kFixedHeaderSize. rewrite (proj2 (Z.ltb_ge _ _)) by lia.
  assert (Hblock : (if bool_decide (v_exts v <> []) then parse_extension_block (wire v) (12 + zlen (v_csrcs v) * 4)
            else Ok (Some (12 + zlen (v_csrcs v) * 4, 0, []))) =
          Ok (Some (zlen (header v), parsed_size v, entries (v_wide v) (exts_start v) (v_exts v)))).
  { unfold parsed_size, exts_start. destruct (v_exts v) as [| e es ] eqn:Ees.
    - rewrite bool_decide_eq_false_2 by (intros H; by apply H). cbn [ext_block length] in Hhd.
      replace (12 + zlen (v_csrcs v) * 4) with (zlen (header v)) by lia. done.
    - rewrite bool_decide_eq_true_2, Hw, app_assoc by done.
      assert (Hpre : 12 + zlen (v_csrcs v) * 4 = zlen (fixed_header v ++ csrcs))
        by (rewrite length_app, length_fixed_header; lia).
      rewrite Hpre, parse_block_written; [| done | done | done | rewrite length_app, length_fixed_header; lia ].
      unfold built_size. rewrite Ees, <- Hpre.
      replace (12 + zlen (v_csrcs v) * 4 + zlen (ext_block (v_wide v) (e :: es))) with (zlen (header v)) by lia.
      by replace (12 + zlen (v_csrcs v) * 4 + 4) with (16 + 4 * zlen (v_csrcs v)) by lia. }
  rewrite Hblock, bind_Ok. cbn beta iota. unfold fields_of.
  destruct (Z.ltb_spec 0 (v_padding v)) as [Hpos | Hzero]; cbn [andb].
  - rewrite (proj2 (Z.ltb_lt _ _)) by lia. cbn [andb].
    assert (Hlast : get (wire v) (zlen (wire v) - 1) = Ok (v_padding v)).
    { rewrite Hw, !app_assoc. by apply last_padding. }
    rewrite Hlast, bind_Ok, (proj2 (Z.eqb_neq _ _)), (proj2 (Z.ltb_ge _ _)) by lia.
    do 3 f_equal. lia.
  - assert (v_padding v = 0) as -> by lia. rewrite bind_Ok, (proj2 (Z.ltb_ge _ _)) by lia. do 3 f_equal. lia.
Qed.

(** ** Parsing arbitrary bytes *)

(** An entry that lies before [limit]. *)
Record entry_in (limit : Z) (e : ExtensionInfo) : Prop := {
  en_id : 1 <= ei_id e <= 255;
  en_length : 0 <= ei_length e <= 255;
  en_offset : 0 <= ei_offset e < 2 ^ 16;
  en_end : ei_offset e + ei_length e <= limit
}.

(** Fields that describe a buffer of [n] bytes. *)
Record fields_in (n : Z) (f : Fields) : Prop := {
  fi_type : 0 <= payload_type_ f < 128;
  fi_seq : 0 <= sequence_number_ f < 2 ^ 16;
  fi_time : 0 <= timestamp_ f < 2 ^ 32;
  fi_ssrc : 0 <= rtp_ssrc_ f < 2 ^ 32;
  fi_header : kFixedHeaderSize <= payload_offset_ f;
  fi_payload : 0 <= payload_size_ f;
  fi_padding : 0 <= padding_size_ f < 256;
  fi_total : payload_offset_ f + payload_size_ f + padding_size_ f = n;
  fi_entries : Forall (entry_in (payload_offset_ f)) (extension_entries_ f);
  fi_ids : NoDup (map ei_id (extension_entries_ f))
}.

Lemma map_id_update_info id f es :
  (forall e, ei_id (f e) = ei_id e) ->
  map ei_id (update_info id f es) = if decide (id ∈ map ei_id es) then map ei_id es else map ei_id es ++ [id].
Proof.
  intros Hf. induction es as [| e es IH ]; cbn [update_info map].
  { rewrite decide_False by apply not_elem_of_nil. by rewrite Hf. }
  destruct (Z.eqb_spec (ei_id e) id) as [<- | Hne]; cbn [map].
  - rewrite decide_True by (by left). by rewrite Hf.
  - rewrite IH. destruct (decide (id ∈ map ei_id es)) as [Hin | Hout].
    + rewrite decide_True by (by right). done.
    + rewrite decide_False; [ done |]. intros [-> | Hin]%elem_of_cons; done.
Qed.

Lemma Forall_update_info (P : ExtensionInfo -> Prop) id f es :
  Forall P es -> (forall e, e ∈ es -> ei_id e = id -> P (f e)) -> P (f (mkInfo id 0 0)) -> Forall P (update_info id f es).
Proof.
  intros Hes Hold Hnew. induction Hes as [| e es He Hes IH ]; cbn [update_info]; [ by apply Forall_singleton |].
  destruct (Z.eqb_spec (ei_id e) id).
  - constructor; [| done ]. apply Hold; [ by left | done ].
  - constructor; [ done |]. apply IH. intros e' He'. apply Hold. by right.
Qed.

Lemma NoDup_update_info id f es :
  (forall e, ei_id (f e) = ei_id e) -> NoDup (map ei_id es) -> NoDup (map ei_id (update_info id f es)).
Proof.
  intros Hf Hes. rewrite map_id_update_info by done. case_decide as Hd; [ done |].
  apply list.NoDup_app. split_and!; [ done | | apply NoDup_singleton ].
  intros x Hx ->%list_elem_of_singleton. done.
Qed.

Lemma byte_lookup buf i : Forall is_byte buf -> 0 <= i < zlen buf -> exists b, get buf i = Ok b /\ is_byte b.
Proof.
  intros Hb Hi. destruct (lookup_lt_is_Some_2 buf (Z.to_nat i)) as [b Hl]; [ lia |]. exists b.
  split; [ apply get_Ok; [ done | lia ] |]. exact (proj1 (list.Forall_forall _ _) Hb b (list_elem_of_lookup_2 _ _ _ Hl)).
Qed.

(** The id and the length a header of an extension announces. *)
Lemma header_range (one : bool) b l :
  is_byte b -> is_byte l -> b <> 0 ->
  let '(id, n) := if one then (Z.shiftr b 4, 1 + Z.land b 0xf) else (b, l) in
  0 <= id <= 255 /\ 0 <= n <= 255 /\ (one && ((id =? 15) || (id =? 0) && negb (n =? 1)) = false -> 1 <= id).
Proof.
  unfold is_byte. intros Hb Hl Hb0. destruct one; cbn [andb]; [| lia ].
  rewrite Z.shiftr_div_pow2 by lia. change 0xf with (Z.ones 4). rewrite Z.land_ones by lia. change (2 ^ 4) with 16.
  pose proof (Z.div_mod b 16 ltac:(lia)). pose proof (Z.mod_pos_bound b 16 ltac:(lia)).
  assert (0 <= b / 16 < 16) by (split; [ apply Z.div_pos | apply Z.div_lt_upper_bound ]; lia).
  split_and!; lia.
Qed.

Lemma parse_extensions_safe buf prof off cap : forall fuel size es,
  Forall is_byte buf -> 0 <= off -> 0 <= size -> off + cap <= zlen buf ->
  Forall (entry_in (off + cap)) es -> NoDup (map ei_id es) ->
  exists size' es', parse_extensions buf fuel prof off cap size es = Ok (size', es') /\
    Forall (entry_in (off + cap)) es' /\ NoDup (map ei_id es').
Proof.
  induction fuel as [| fuel IH ]; intros size es Hb Hoff Hsize Hcap Hes Hids; cbn [parse_extensions]; [ by exists size, es |].
  set (one := prof =? kOneByteExtensionProfileId). set (h := if one then _ else _).
  assert (Hh : h = 1 /\ one = true \/ h = 2 /\ one = false) by (unfold h; destruct one; auto).
  destruct (Z.ltb_spec (size + h) cap) as [Hlt | _]; [| by exists size, es ].
  destruct (byte_lookup buf (off + size) Hb ltac:(lia)) as (b & -> & Hbb). rewrite bind_Ok.
  destruct (Z.eqb_spec b 0) as [_ | Hb0]; [ apply IH; try done; lia |].
  destruct (byte_lookup buf (off + size + 1) Hb ltac:(lia)) as (l & Hl & Hlb).
  pose proof (header_range one b l Hbb Hlb Hb0) as Hrange.
  replace (if one then _ else _) with (Ok (if one then (Z.shiftr b 4, 1 + Z.land b 0xf) else (b, l)) : outcome (Z * Z))
    by (destruct one; [ done | by rewrite Hl ]).
  rewrite bind_Ok. set (d := if one then (Z.shiftr b 4, 1 + Z.land b 0xf) else (b, l)) in *. clearbody d.
  destruct d as [id n]. destruct Hrange as (Hid & Hn & Hpos).
  destruct (one && _); [ by exists size, es |]. specialize (Hpos eq_refl).
  destruct (Z.ltb_spec cap (size + h + n)); [ by exists size, es |].
  destruct (Z.ltb_spec 65535 (off + size + h)).
  - do 2 eexists. split; [ done |]. split; [| by apply NoDup_update_info ].
    apply Forall_update_info; [ done | | split; cbn; lia ]. intros e He _. by apply (proj1 (list.Forall_forall _ _) Hes).
  - apply IH; try done; try lia; [| by apply NoDup_update_info ].
    apply Forall_update_info; [ done | | split; cbn; lia ]. intros e He _.
    destruct (proj1 (list.Forall_forall _ _) Hes e He). split; cbn; lia.
Qed.

(** More fuel than the extensions have bytes changes nothing. *)
Lemma parse_extensions_fuel buf prof off cap : forall fuel size es k,
  Forall is_byte buf -> 0 <= off -> off + cap <= zlen buf -> 0 <= size -> (Z.to_nat (cap - size) <= fuel)%nat ->
  parse_extensions buf (fuel + k) prof off cap size es = parse_extensions buf fuel prof off cap size es.
Proof.
  induction fuel as [| fuel IH ]; intros size es k Hb Hoff Hcap Hsize Hfuel.
  { destruct k as [| k ]; [ done |]. cbn [parse_extensions Nat.add]. set (h := if prof =? kOneByteExtensionProfileId then _ else _).
    assert (0 < h) by (unfold h, kOneByteExtensionHeaderLength, kTwoByteExtensionHeaderLength; case_match; lia).
    rewrite (proj2 (Z.ltb_ge _ _)) by lia. done. }
  cbn [parse_extensions Nat.add]. set (one := prof =? kOneByteExtensionProfileId). set (h := if one then _ else _).
  assert (Hh : 1 <= h <= 2)
    by (unfold h, kOneByteExtensionHeaderLength, kTwoByteExtensionHeaderLength; destruct one; lia).
  destruct (Z.ltb_spec (size + h) cap); [| done ].
  destruct (byte_lookup buf (off + size) Hb ltac:(lia)) as (b & -> & Hbb). rewrite !bind_Ok.
  destruct (b =? 0) eqn:Hb0; [ apply IH; (done || lia) |]. apply Z.eqb_neq in Hb0.
  destruct (byte_lookup buf (off + size + 1) Hb ltac:(lia)) as (l & Hl & Hlb).
  pose proof (header_range one b l Hbb Hlb Hb0) as Hrange.
  replace (if one then _ else _) with (Ok (if one then (Z.shiftr b 4, 1 + Z.land b 0xf) else (b, l)) : outcome (Z * Z))
    by (destruct one; [ done | by rewrite Hl ]).
  rewrite !bind_Ok. set (d := if one then (Z.shiftr b 4, 1 + Z.land b 0xf) else (b, l)) in *. clearbody d.
  destruct d as [id n]. destruct Hrange as (Hid & Hn & Hpos).
  destruct (one && _); [ done |]. destruct (cap <? _); [ done |]. destruct (65535 <? _); [ done |].
  apply IH; (done || lia).
Qed.

Lemma read_be16_byte buf i :
  Forall is_byte buf -> 0 <= i -> i + 2 <= zlen buf -> exists n, read_be16 buf i = Ok n /\ 0 <= n < 2 ^ 16.
Proof.
  intros Hb Hi Hl. destruct (byte_lookup buf i Hb ltac:(lia)) as (a & Ha & Hab).
  destruct (byte_lookup buf (i + 1) Hb ltac:(lia)) as (b & Hb' & Hbb). exists (a * 256 + b).
  unfold read_be16. rewrite Ha, bind_Ok, Hb', bind_Ok. unfold is_byte in *. split; [ done | lia ].
Qed.

Lemma read_be32_byte buf i :
  Forall is_byte buf -> 0 <= i -> i + 4 <= zlen buf -> exists n, read_be32 buf i = Ok n /\ 0 <= n < 2 ^ 32.
Proof.
  intros Hb Hi Hl. destruct (read_be16_byte buf i Hb Hi ltac:(lia)) as (a & Ha & Hab).
  destruct (read_be16_byte buf (i + 2) Hb ltac:(lia) ltac:(lia)) as (b & Hb' & Hbb). exists (a * 2 ^ 16 + b).
  unfold read_be32. rewrite Ha, bind_Ok, Hb', bind_Ok. split; [ done | lia ].
Qed.

Lemma parse_block_safe buf o :
  Forall is_byte buf -> 0 <= o -> exists r, parse_extension_block buf o = Ok r /\
    forall o' size es, r = Some (o', size, es) ->
      o <= o' <= zlen buf /\ Forall (entry_in o') es /\ NoDup (map ei_id es).
Proof.
  intros Hb Ho. unfold parse_extension_block. destruct (Z.ltb_spec (zlen buf) (o + 4)) as [_ | Hl]; [ by exists None |].
  destruct (read_be16_byte buf o Hb Ho ltac:(lia)) as (prof & -> & _). rewrite bind_Ok.
  destruct (read_be16_byte buf (o + 2) Hb ltac:(lia) ltac:(lia)) as (w & -> & Hw). rewrite bind_Ok.
  destruct (Z.ltb_spec (zlen buf) (o + 4 + w * 4)) as [_ | Hl2]; [ by exists None |].
  destruct (negb _ && negb _).
  - rewrite bind_Ok. eexists. split; [ done |]. intros o' size es [= <- <- <-]. split; [ lia |]. split; constructor.
  - destruct (parse_extensions_safe buf prof (o + 4) (w * 4) (Z.to_nat (w * 4)) 0 [] Hb) as (sz & es & -> & Hes & Hids);
      [ lia | lia | lia | constructor | constructor |].
    rewrite bind_Ok. eexists. split; [ done |]. intros o' size es' [= <- <- <-]. split; [ lia | done ].
Qed.

Lemma land_low b k : 0 <= k -> 0 <= Z.land b (Z.ones k) < 2 ^ k.
Proof. intros Hk. rewrite Z.land_ones by done. apply Z.mod_pos_bound. lia. Qed.

Lemma ParseBuffer_safe buf :
  Forall is_byte buf -> exists r, ParseBuffer buf = Ok r /\ forall f, r = Some f -> fields_in (zlen buf) f.
Proof.
  intros Hb. unfold ParseBuffer, kFixedHeaderSize. destruct (Z.ltb_spec (zlen buf) 12) as [_ | Hl]; [ by exists None |].
  destruct (byte_lookup buf 0 Hb ltac:(lia)) as (b0 & -> & H0). rewrite bind_Ok.
  destruct (negb (Z.shiftr b0 6 =? kRtpVersion)); [ by exists None |].
  destruct (byte_lookup buf 1 Hb ltac:(lia)) as (b1 & -> & H1). rewrite bind_Ok.
  destruct (read_be16_byte buf 2 Hb ltac:(lia) ltac:(lia)) as (seq & -> & Hseq). rewrite bind_Ok.
  destruct (read_be32_byte buf 4 Hb ltac:(lia) ltac:(lia)) as (ts & -> & Hts). rewrite bind_Ok.
  destruct (read_be32_byte buf 8 Hb ltac:(lia) ltac:(lia)) as (ssrc & -> & Hssrc). rewrite bind_Ok.
  pose proof (land_low b0 4 ltac:(lia)) as Hcc. pose proof (land_low b1 7 ltac:(lia)) as Hpt.
  change (Z.ones 4) with 15 in Hcc. change (Z.ones 7) with 127 in Hpt.
  destruct (Z.ltb_spec (zlen buf) (12 + Z.land b0 15 * 4)) as [_ | Hl2]; [ by exists None |].
  set (o := 12 + Z.land b0 15 * 4) in *.
  assert (Hblock : exists r, (if negb (Z.land b0 16 =? 0) then parse_extension_block buf o else Ok (Some (o, 0, []))) = Ok r /\
    forall o' size es, r = Some (o', size, es) ->
      o <= o' <= zlen buf /\ Forall (entry_in o') es /\ NoDup (map ei_id es)).
  { destruct (negb _); [ apply parse_block_safe; [ done | lia ] |]. eexists. split; [ done |].
    intros o' size es [= <- <- <-]. split; [ lia |]. split; constructor. }
  destruct Hblock as (r & -> & Hr). rewrite bind_Ok. destruct r as [[[o' size] es] |]; [| by exists None ].
  destruct (Hr o' size es eq_refl) as (Ho' & Hes & Hids).
  set (pad := negb (Z.land b0 32 =? 0) && (o' <? zlen buf)).
  assert (Hpad : exists n, (if pad then get buf (zlen buf - 1) else Ok 0) = Ok n /\ 0 <= n < 256).
  { destruct pad; [| by exists 0 ]. destruct (byte_lookup buf (zlen buf - 1) Hb ltac:(lia)) as (b & -> & ?). by exists b. }
  destruct Hpad as (n & -> & Hn). rewrite bind_Ok. destruct (pad && (n =? 0)); [ by exists None |].
  destruct (Z.ltb_spec (zlen buf) (o' + n)); [ by exists None |]. eexists. split; [ done |]. intros f [= <-].
  split; unfold kFixedHeaderSize; cbn; (done || lia).
Qed.

(** ** Theorems *)

(** C16. Packets survive the wire: parsing the wire format of a packet gives back its
    fields, its extensions included, in either extension format. *)
Theorem parse_wire_roundtrip v :
  pkt_ok v -> ParseBuffer (wire v) = Ok (Some (fields_of v (parsed_size v))).
Proof. apply ParseBuffer_wire. Qed.

(** A packet with one CSRC, two extensions in the two-byte format and padding. *)
Definition wire_pkt : Pkt := mkPkt true 96 65535 90000 7 [11] true [(3, [1; 2; 3]); (200, [4])] [5; 6; 7] 2.

Lemma parse_wire_roundtrip_witness : ParseBuffer (wire wire_pkt) = Ok (Some (fields_of wire_pkt (parsed_size wire_pkt))).
Proof.
  apply (parse_wire_roundtrip wire_pkt).
  split; [ cbn; lia | cbn; lia | cbn; lia | cbn; lia | | | | vm_compute; reflexivity | repeat (constructor; [ unfold is_byte; lia |]); constructor | cbn; lia ].
  - split; [ cbn; lia | repeat (constructor; [ lia |]); constructor ].
  - repeat (constructor; [ split; [ cbn; lia | split; [ cbn; lia |] ]; repeat (constructor; [ unfold is_byte; lia |]); constructor |]). constructor.
  - apply (bool_decide_unpack _). vm_compute. exact I.
Defined.
