(* ===== verification/RtpPacketBuild.v ===== *)
(** * Building RTP packets

    The setters of [class RtpPacket] against the packets of [RtpPacketWire]:
    [holds n p v] says that [p] is [v] (its buffer holds the wire format of [v]
    and its fields are those of [v], with [n] for [extensions_size_]), and every
    operation takes a packet that is [v] to one that is the changed [v]. *)
From S2P Require Import Prelude.
From S2P Require Import RtpFecCodec.
From S2P Require Import RtpFecAlgebra.
From S2P Require Import ExtensionMap.
From S2P Require Import RtpPacket.
From S2P Require Import RtpPacketWire.
From stdpp Require Import base list list_numbers numbers option tactics.
From Stdlib Require Import ZArith Lia.

#[local] Open Scope Z_scope.

(** ** Changing one part of a packet *)

Definition w_marker (b : bool) (v : Pkt) : Pkt :=
  mkPkt b (v_type v) (v_seq v) (v_time v) (v_ssrc v) (v_csrcs v) (v_wide v) (v_exts v) (v_payload v) (v_padding v).
Definition w_type (t : Z) (v : Pkt) : Pkt :=
  mkPkt (v_marker v) t (v_seq v) (v_time v) (v_ssrc v) (v_csrcs v) (v_wide v) (v_exts v) (v_payload v) (v_padding v).
Definition w_seq (n : Z) (v : Pkt) : Pkt :=
  mkPkt (v_marker v) (v_type v) n (v_time v) (v_ssrc v) (v_csrcs v) (v_wide v) (v_exts v) (v_payload v) (v_padding v).
Definition w_time (n : Z) (v : Pkt) : Pkt :=
  mkPkt (v_marker v) (v_type v) (v_seq v) n (v_ssrc v) (v_csrcs v) (v_wide v) (v_exts v) (v_payload v) (v_padding v).
Definition w_ssrc (n : Z) (v : Pkt) : Pkt :=
  mkPkt (v_marker v) (v_type v) (v_seq v) (v_time v) n (v_csrcs v) (v_wide v) (v_exts v) (v_payload v) (v_padding v).
Definition w_csrcs (cs : list Z) (v : Pkt) : Pkt :=
  mkPkt (v_marker v) (v_type v) (v_seq v) (v_time v) (v_ssrc v) cs (v_wide v) (v_exts v) (v_payload v) (v_padding v).
Definition w_exts (wide : bool) (es : list (Z * list Z)) (v : Pkt) : Pkt :=
  mkPkt (v_marker v) (v_type v) (v_seq v) (v_time v) (v_ssrc v) (v_csrcs v) wide es (v_payload v) (v_padding v).
Definition w_payload (bytes : list Z) (v : Pkt) : Pkt :=
  mkPkt (v_marker v) (v_type v) (v_seq v) (v_time v) (v_ssrc v) (v_csrcs v) (v_wide v) (v_exts v) bytes (v_padding v).
Definition w_padding (n : Z) (v : Pkt) : Pkt :=
  mkPkt (v_marker v) (v_type v) (v_seq v) (v_time v) (v_ssrc v) (v_csrcs v) (v_wide v) (v_exts v) (v_payload v) n.

(** A packet with nothing set. *)
Definition empty_pkt : Pkt := mkPkt false 0 0 0 0 [] false [] [] 0.

(** ** The relation *)

Record holds (n : Z) (p : RtpPacket) (v : Pkt) : Prop := {
  ho_ok : pkt_ok v;
  ho_fields : fields p = fields_of v n;
  ho_size : cow_size (buffer_ p) = zlen (wire v);
  ho_mem : exists tail, cow_mem (buffer_ p) = wire v ++ tail /\ Forall is_byte tail
}.

(** A packet under construction and one that has been parsed. *)
Definition built (p : RtpPacket) (v : Pkt) : Prop := holds (built_size v) p v.
Definition parsed (p : RtpPacket) (v : Pkt) : Prop := holds (parsed_size v) p v.

Lemma holds_buffer n p v : holds n p v -> Buffer p = wire v.
Proof.
  intros [_ _ Hs (tail & Hm & _)]. unfold Buffer, contents. rewrite Hs, Hm, Nat2Z.id. by rewrite take_app_length'.
Qed.

Lemma is_byte_u8 x : is_byte (u8 x).
Proof. apply u8_range. Qed.

Lemma be16_bytes_ok n : Forall is_byte (be16 n).
Proof. repeat constructor; apply u8_range. Qed.
Lemma be32_bytes_ok n : Forall is_byte (be32 n).
Proof. repeat constructor; apply u8_range. Qed.

Lemma exts_bytes_ok wide es : Forall (ext_ok wide) es -> Forall is_byte (exts_bytes wide es).
Proof.
  induction 1 as [| [id val] es (Hid & Hl & Hv) _ IH ]; [ constructor |]. cbn [fst snd] in *.
  apply Forall_app. split; [| exact IH ]. unfold ext_bytes, is_byte.
  destruct wide; cbn [fst snd]; repeat (constructor; [ lia |]); exact Hv.
Qed.

Lemma header_bytes_ok v : pkt_ok v -> Forall is_byte (header v).
Proof.
  intros [Ht _ _ _ [Hc _] He _ _ _ _]. unfold header, fixed_header.
  rewrite !Forall_app. split_and!.
  - constructor; [ unfold first_byte, is_byte; destruct (0 <? _), (bool_decide _); cbn [Z.b2z]; lia |].
    constructor; [ unfold second_byte, is_byte; destruct (v_marker v); cbn [Z.b2z]; lia |].
    rewrite !Forall_app. split_and!; [ apply be16_bytes_ok | apply be32_bytes_ok | apply be32_bytes_ok ].
  - induction (v_csrcs v); [ constructor |]. apply Forall_app. split; [ apply be32_bytes_ok |].
    apply IHl. cbn [length] in Hc. lia.
  - unfold ext_block. destruct (v_exts v) as [| e es ]; [ constructor |]. cbv zeta.
    rewrite !Forall_app. split_and!; [ apply be16_bytes_ok | apply be16_bytes_ok | by apply exts_bytes_ok |].
    apply Forall_replicate. unfold is_byte. lia.
Qed.

Lemma wire_bytes_ok v : pkt_ok v -> Forall is_byte (wire v).
Proof.
  intros Hv. unfold wire. rewrite !Forall_app. split_and!; [ by apply header_bytes_ok | apply Hv |].
  pose proof (po_padding _ Hv). unfold pad_bytes. destruct (0 <? v_padding v); [| constructor ].
  apply Forall_app. split; [ apply Forall_replicate; unfold is_byte; lia | apply Forall_singleton; unfold is_byte; lia ].
Qed.

(** ** Writing to the fixed header *)

(** The parts of a packet after its first twelve bytes. *)
Definition same_rest (v v' : Pkt) : Prop :=
  v_csrcs v' = v_csrcs v /\ v_wide v' = v_wide v /\ v_exts v' = v_exts v /\ v_payload v' = v_payload v /\
  v_padding v' = v_padding v.

Definition after_fixed (v : Pkt) : list Z :=
  concat (map be32 (v_csrcs v)) ++ ext_block (v_wide v) (v_exts v) ++ v_payload v ++ pad_bytes (v_padding v).

Lemma wire_split v : wire v = fixed_header v ++ after_fixed v.
Proof. unfold wire, header, after_fixed. by rewrite <- !app_assoc. Qed.

Lemma update_fixed n p v v' f tail :
  holds n p v -> cow_mem (buffer_ p) = wire v ++ tail -> Forall is_byte tail -> pkt_ok v' -> same_rest v v' ->
  f = fields_of v' n ->
  holds n (with_mem (fixed_header v' ++ after_fixed v ++ tail) (with_fields f p)) v'.
Proof.
  intros [_ _ Hs _] Hm Ht Hok (E1 & E2 & E3 & E4 & E5) ->.
  assert (Ha : after_fixed v' = after_fixed v) by (unfold after_fixed; by rewrite E1, E2, E3, E4, E5).
  split; cbn [with_mem with_fields with_buffer buffer_ fields cow_size cow_mem]; [ done | done | |].
  - rewrite Hs, (wire_split v), (wire_split v'), Ha, !length_app. done.
  - exists tail. split; [| done ]. by rewrite wire_split, Ha, <- app_assoc.
Qed.

Lemma fixed_mem n p v :
  holds n p v -> exists tail, cow_mem (buffer_ p) = fixed_header v ++ after_fixed v ++ tail /\
    cow_mem (buffer_ p) = wire v ++ tail /\ Forall is_byte tail.
Proof.
  intros [_ _ _ (tail & Hm & Ht)]. exists tail. split_and!; [| done | done ]. by rewrite Hm, wire_split, <- app_assoc.
Qed.

Lemma second_byte_set (m b : bool) t :
  0 <= t < 128 ->
  (if b then Z.lor (0x80 * Z.b2z m + t) 0x80 else Z.land (0x80 * Z.b2z m + t) 0x7F) = 0x80 * Z.b2z b + t.
Proof.
  intros Ht. apply Z.eqb_eq. revert t Ht.
  assert (Hall : all_between 0 127 (fun t =>
    (if b then Z.lor (0x80 * Z.b2z m + t) 0x80 else Z.land (0x80 * Z.b2z m + t) 0x7F) =? 0x80 * Z.b2z b + t) = true)
    by (destruct m, b; reflexivity).
  intros t Ht. apply (all_between_spec _ _ _ Hall). lia.
Qed.

Lemma second_byte_type (m : bool) t t' :
  0 <= t < 128 -> 0 <= t' < 128 ->
  Z.lor (Z.land (0x80 * Z.b2z m + t) 0x80) t' = 0x80 * Z.b2z m + t'.
Proof.
  intros Ht Ht'.
  assert (Hh : Z.land (0x80 * Z.b2z m + t) 0x80 = 0x80 * Z.b2z m).
  { apply Z.eqb_eq. revert t Ht.
    assert (Hall : all_between 0 127 (fun t => Z.land (0x80 * Z.b2z m + t) 0x80 =? 0x80 * Z.b2z m) = true)
      by (destruct m; reflexivity).
    intros t Ht. apply (all_between_spec _ _ _ Hall). lia. }
  rewrite Hh. apply Z.eqb_eq. revert t' Ht'.
  assert (Hall : all_between 0 127 (fun t' => Z.lor (0x80 * Z.b2z m) t' =? 0x80 * Z.b2z m + t') = true)
    by (destruct m; reflexivity).
  intros t' Ht'. apply (all_between_spec _ _ _ Hall). lia.
Qed.

(** What no setter changes: the map, and that there is room. *)
Definition keeps (p p' : RtpPacket) : Prop :=
  extensions_ p' = extensions_ p /\ capacity (buffer_ p) <= capacity (buffer_ p').

#[export] Instance keeps_preorder : PreOrder keeps.
Proof. split; [ done |]. intros p q r [E1 C1] [E2 C2]. split; [ congruence | lia ]. Qed.

Lemma keeps_fixed n p v f l :
  holds n p v -> forall tail, cow_mem (buffer_ p) = fixed_header v ++ after_fixed v ++ tail -> length l = 12%nat ->
  keeps p (with_mem (l ++ after_fixed v ++ tail) (with_fields f p)).
Proof.
  intros _ tail Hm Hl. split; [ done |]. unfold capacity. rewrite Hm. cbn [with_mem with_buffer buffer_ cow_mem].
  rewrite !(length_app _ (after_fixed v ++ tail)), Hl. done.
Qed.

(** The first twelve bytes of a longer buffer. *)
Lemma get_fixed (l rest : list Z) i : length l = 12%nat -> 0 <= i < 12 -> get (l ++ rest) i = get l i.
Proof.
  intros Hl Hi. unfold get. destruct (0 <=? i); [| done ]. by rewrite lookup_app_l by lia.
Qed.

Lemma put_fixed (l rest : list Z) i x :
  length l = 12%nat -> 0 <= i < 12 -> put (l ++ rest) i x = Ok (<[Z.to_nat i := x]> l ++ rest).
Proof.
  intros Hl Hi. rewrite put_Ok by (rewrite length_app; lia). by rewrite insert_app_l by lia.
Qed.

Section Setters.
Context `{CheckMode}.

(** Opens a packet whose first twelve bytes are written. *)
Local Ltac open_fixed Hp :=
  let tail := fresh "tail" in let Hm := fresh "Hm" in let Hw := fresh "Hw" in let Ht := fresh "Ht" in
  destruct (fixed_mem _ _ _ Hp) as (tail & Hm & Hw & Ht);
  unfold data_at, WriteAt, write_mem, write_be16, write_be32; cbn [buffer_ with_fields fields]; rewrite Hm;
  rewrite ?get_fixed by (done || lia);
  repeat (first [ rewrite put_fixed by (rewrite ?length_insert; (done || lia)) | rewrite bind_Ok ]).

(** Closes it. *)
Local Ltac close_fixed Hp :=
  match goal with
  | Hm : cow_mem _ = fixed_header _ ++ _, Hw : cow_mem _ = wire _ ++ ?tail, Ht : Forall is_byte ?tail,
    Hok : pkt_ok _ |- _ =>
      eexists; split; [ reflexivity |]; split; [| by eapply (keeps_fixed _ _ _ _ _ Hp _ Hm) ];
      match goal with |- holds _ (with_mem _ (with_fields ?f _)) ?v' =>
        apply (update_fixed _ _ _ v' f tail Hp Hw Ht);
          [ destruct Hok; split; done | done | by rewrite (ho_fields _ _ _ Hp) ] end
  end.

Lemma SetMarker_Ok n p v b :
  holds n p v -> exists p', SetMarker p b = Ok p' /\ holds n p' (w_marker b v) /\ keeps p p'.
Proof.
  intros Hp. pose proof (ho_ok _ _ _ Hp) as Hok. unfold SetMarker. open_fixed Hp.
  change (get (fixed_header v) 1) with (Ok (second_byte v)). rewrite bind_Ok.
  unfold second_byte at 1 2. rewrite second_byte_set by apply Hok. rewrite put_fixed, bind_Ok by (done || lia).
  close_fixed Hp.
Qed.

Lemma SetPayloadType_Ok n p v t :
  holds n p v -> 0 <= t < 128 ->
  exists p', SetPayloadType p t = Ok p' /\ holds n p' (w_type t v) /\ keeps p p'.
Proof.
  intros Hp Ht7. pose proof (ho_ok _ _ _ Hp) as Hok. unfold SetPayloadType.
  rewrite RTC_DCHECK_Ok, bind_Ok by (apply Z.leb_le; lia). open_fixed Hp.
  change (get (fixed_header v) 1) with (Ok (second_byte v)). rewrite bind_Ok.
  unfold second_byte at 1. rewrite second_byte_type by (done || apply Hok). rewrite put_fixed, bind_Ok by (done || lia).
  close_fixed Hp.
Qed.

Lemma SetSequenceNumber_Ok n p v seq :
  holds n p v -> 0 <= seq < 2 ^ 16 ->
  exists p', SetSequenceNumber p seq = Ok p' /\ holds n p' (w_seq seq v) /\ keeps p p'.
Proof.
  intros Hp Hseq. pose proof (ho_ok _ _ _ Hp) as Hok. unfold SetSequenceNumber. open_fixed Hp. close_fixed Hp.
Qed.

Lemma SetTimestamp_Ok n p v t :
  holds n p v -> 0 <= t < 2 ^ 32 ->
  exists p', SetTimestamp p t = Ok p' /\ holds n p' (w_time t v) /\ keeps p p'.
Proof.
  intros Hp Htime. pose proof (ho_ok _ _ _ Hp) as Hok. unfold SetTimestamp. open_fixed Hp. close_fixed Hp.
Qed.

Lemma SetSsrc_Ok n p v ssrc :
  holds n p v -> 0 <= ssrc < 2 ^ 32 ->
  exists p', SetSsrc p ssrc = Ok p' /\ holds n p' (w_ssrc ssrc v) /\ keeps p p'.
Proof.
  intros Hp Hssrc. pose proof (ho_ok _ _ _ Hp) as Hok. unfold SetSsrc. open_fixed Hp. close_fixed Hp.
Qed.

(** ** Payload and padding *)

Context (fresh : nat -> list Z).

(** What is assumed of uninitialised memory. *)
Definition fresh_ok : Prop := forall n, length (fresh n) = n /\ Forall is_byte (fresh n).
Hypothesis Hfresh : fresh_ok.

(** [SetSize] keeps what is in front of both sizes. *)
Lemma SetSize_keeps n (b : CopyOnWriteBuffer) pre post :
  cow_mem b = pre ++ post -> Forall is_byte post -> zlen pre <= cow_size b <= capacity b -> zlen pre <= n ->
  exists post', cow_mem (SetSize fresh n b) = pre ++ post' /\ Forall is_byte post' /\ n <= zlen pre + zlen post' /\
    cow_size (SetSize fresh n b) = n /\ capacity b <= capacity (SetSize fresh n b) /\
    (n <= capacity b -> post' = post).
Proof.
  intros Hm Hb Hs Hn. assert (Hcap : capacity b = zlen pre + zlen post) by (unfold capacity; rewrite Hm, length_app; lia).
  unfold SetSize. destruct (Z.leb_spec n (cow_size b)).
  { exists post. cbn [cow_mem cow_size]. split_and!; (done || lia). }
  destruct (Z.leb_spec n (capacity b)).
  { exists post. cbn [cow_mem cow_size]. split_and!; (done || lia). }
  destruct (Hfresh (Z.to_nat (n - cow_size b))) as [Hfl Hfb].
  assert (Hc : contents b = pre ++ take (Z.to_nat (cow_size b) - length pre) post).
  { unfold contents. rewrite Hm, take_app. f_equal. apply take_ge. lia. }
  assert (Hcl : zlen (contents b) = cow_size b) by (unfold contents; rewrite length_take; unfold capacity in *; lia).
  exists (take (Z.to_nat (cow_size b) - length pre) post ++ fresh (Z.to_nat (n - cow_size b))).
  cbn [cow_mem cow_size]. unfold capacity at 1 2. cbn [cow_mem]. rewrite Hc, <- app_assoc.
  rewrite Hc, length_app in Hcl. split_and!; [ done | | | done | | lia ].
  - apply Forall_app. split; [ by apply Forall_take | done ].
  - rewrite length_app, Hfl. lia.
  - rewrite !length_app, Hfl, Hm, length_app. unfold capacity in *. rewrite Hm, length_app in *. lia.
Qed.

Lemma holds_capacity n p v : holds n p v -> zlen (wire v) <= capacity (buffer_ p).
Proof. intros [_ _ _ (tail & Hm & _)]. unfold capacity. rewrite Hm, length_app. lia. Qed.

Lemma payload_ok v bytes : pkt_ok v -> Forall is_byte bytes -> pkt_ok (w_payload bytes v).
Proof. intros []. split; done. Qed.

Lemma wire_payload v bytes : v_padding v = 0 -> wire (w_payload bytes v) = header v ++ bytes.
Proof. intros Hp. unfold wire. cbn [w_payload v_padding v_payload]. rewrite Hp. cbn [pad_bytes Z.ltb Z.compare]. by rewrite app_nil_r. Qed.

Lemma SetPayloadSize_Ok k p v n :
  holds k p v -> v_padding v = 0 -> 0 <= n ->
  exists p' bytes, SetPayloadSize fresh p n = Ok p' /\ zlen bytes = n /\ holds k p' (w_payload bytes v) /\ keeps p p' /\
    (n <= zlen (v_payload v) -> bytes = take (Z.to_nat n) (v_payload v)).
Proof.
  intros Hp Hpad Hn. pose proof Hp as [Hok Hf Hs (tail & Hm & Ht)].
  assert (Hw : wire v = header v ++ v_payload v) by (rewrite <- (wire_payload v (v_payload v) Hpad); by destruct v).
  unfold SetPayloadSize, padding_size. rewrite Hf. cbn [fields_of padding_size_]. rewrite Hpad.
  rewrite RTC_DCHECK_Ok, bind_Ok by done. unfold headers_size, payload_size.
  cbn [with_fields fields set_payload_size_ payload_size_ payload_offset_ fields_of].
  rewrite Hw, <- app_assoc in Hm. pose proof (holds_capacity _ _ _ Hp) as Hcap. rewrite Hw, length_app in Hs, Hcap.
  destruct (SetSize_keeps (zlen (header v) + n) (buffer_ p) (header v) (v_payload v ++ tail)) as
    (post & Hm' & Hb' & Hlen & Hs' & Hc' & Hsame); [ done | | lia | lia |].
  { apply Forall_app. split; [ apply Hok | done ]. }
  exists (set_size fresh (zlen (header v) + n) (with_fields (set_payload_size_ n (fields p)) p)), (take (Z.to_nat n) post).
  assert (Hbl : zlen (take (Z.to_nat n) post) = n) by (rewrite length_take; lia).
  rewrite Hf. split_and!; [ done | done | | by split |].
  - split; cbn [set_size with_buffer with_fields buffer_ fields].
    + apply payload_ok; [ done | by apply Forall_take ].
    + unfold fields_of, set_payload_size_. cbn [w_payload v_marker v_type v_padding v_seq v_time v_ssrc v_payload v_wide v_exts
        v_csrcs marker_ payload_type_ padding_size_ sequence_number_ timestamp_ rtp_ssrc_ payload_offset_ payload_size_
        extension_entries_ extensions_size_]. by rewrite Hbl.
    + rewrite wire_payload, length_app, Hs' by done. lia.
    + exists (drop (Z.to_nat n) post). rewrite wire_payload, <- app_assoc, take_drop by done. split; [ done | by apply Forall_drop ].
  - intros Hle. rewrite Hsame by lia. rewrite take_app_le by lia. done.
Qed.

Lemma write_payload_Ok k p v start bytes :
  holds k p v -> 0 <= start -> start + zlen bytes <= zlen (v_payload v) -> Forall is_byte bytes ->
  exists p', write_payload p start bytes = Ok p' /\
    holds k p' (w_payload (blit (Z.to_nat start) bytes (v_payload v)) v) /\ keeps p p'.
Proof.
  intros Hp Hs0 Hlen Hb. pose proof Hp as [Hok Hf Hs (tail & Hm & Ht)].
  pose proof (holds_capacity _ _ _ Hp) as Hcap. unfold capacity in Hcap.
  pose proof (length_wire v ltac:(apply Hok)) as Hwl. pose proof (po_padding _ Hok).
  unfold write_payload, write_mem, headers_size. rewrite Hf. cbn [fields_of payload_offset_].
  rewrite memcpy_Ok, bind_Ok by lia. rewrite drop_0, Nat2Z.id, firstn_all.
  eexists. split; [ reflexivity |].
  set (new := blit (Z.to_nat start) bytes (v_payload v)).
  assert (Hnl : length new = length (v_payload v)) by (apply length_blit; lia).
  assert (Hblit : blit (Z.to_nat (zlen (header v) + start)) bytes (cow_mem (buffer_ p)) = wire (w_payload new v) ++ tail).
  { rewrite Hm. unfold wire, new. cbn [w_payload v_payload v_padding]. change (header (w_payload _ v)) with (header v).
    rewrite <- !app_assoc. apply list_eq. intros i.
    rewrite lookup_blit by (rewrite !length_app; lia). rewrite !lookup_app, lookup_blit, length_blit by lia.
    destruct (header v !! i) eqn:Eh.
    { rewrite decide_False; [ done |]. apply lookup_lt_Some in Eh. lia. }
    apply lookup_ge_None in Eh. repeat case_decide; try lia.
    - replace (i - length (header v) - Z.to_nat start)%nat with (i - Z.to_nat (zlen (header v) + start))%nat by lia.
      by destruct (lookup_lt_is_Some_2 bytes (i - Z.to_nat (zlen (header v) + start))) as [x ->]; [ lia |].
    - done. }
  rewrite Hblit. split.
  - split; cbn [with_mem with_buffer buffer_ fields cow_size cow_mem].
    + apply payload_ok; [ done |]. unfold new, blit. rewrite !Forall_app. split_and!; [ apply Forall_take, Hok | done | apply Forall_drop, Hok ].
    + rewrite Hf. unfold fields_of. cbn [w_payload v_marker v_type v_padding v_seq v_time v_ssrc v_payload v_wide v_exts v_csrcs].
      rewrite Hnl. done.
    + rewrite Hs. unfold wire. cbn [w_payload v_payload v_padding]. change (header (w_payload _ v)) with (header v).
      rewrite !length_app, Hnl. done.
    + by exists tail.
  - split; [ done |]. unfold capacity. cbn [with_mem with_buffer buffer_ cow_mem]. rewrite <- Hblit, length_blit; [ done | lia ].
Qed.

(** [AllocatePayload] and a [memcpy] to all of it. *)
Lemma AllocatePayload_Ok k p v bytes :
  holds k p v -> v_padding v = 0 -> Forall is_byte bytes ->
  exists p' p'', AllocatePayload fresh p (zlen bytes) = Ok p' /\ write_payload p' 0 bytes = Ok p'' /\
    holds k p'' (w_payload bytes v) /\ keeps p p''.
Proof.
  intros Hp Hpad Hb. unfold AllocatePayload.
  destruct (SetPayloadSize_Ok k p v 0 Hp Hpad ltac:(lia)) as (p1 & b1 & -> & Hb1 & Hp1 & Hk1 & _). rewrite bind_Ok.
  destruct (SetPayloadSize_Ok k p1 _ (zlen bytes) Hp1 Hpad ltac:(lia)) as (p2 & b2 & -> & Hb2 & Hp2 & Hk2 & _).
  cbn [w_payload v_marker v_type v_padding v_seq v_time v_ssrc v_csrcs v_wide v_exts] in Hp2.
  destruct (write_payload_Ok k p2 _ 0 bytes Hp2 ltac:(lia)) as (p3 & Hw & Hp3 & Hk3).
  { cbn [w_payload v_payload]. lia. } { done. }
  exists p2, p3. split_and!; [ done | done | | by repeat (etransitivity; [ eassumption |]) ].
  cbn [w_payload v_payload] in Hp3. change (Z.to_nat 0) with 0%nat in Hp3. rewrite blit_0_full in Hp3 by lia. exact Hp3.
Qed.

Lemma copy_packet_Ok k p v : holds k p v -> holds k (copy_packet fresh p) v /\ keeps p (copy_packet fresh p).
Proof.
  intros Hp. pose proof (holds_buffer _ _ _ Hp) as Hbuf. destruct Hp as [Hok Hf Hs (tail & Hm & Ht)]. unfold Buffer in Hbuf.
  unfold copy_packet, Copy. rewrite Hbuf. destruct (Hfresh (length (cow_mem (buffer_ p)) - length (wire v))%nat) as [Hfl Hfb].
  split.
  - split; cbn [with_buffer buffer_ fields cow_size cow_mem]; [ done | done | done |]. by eexists.
  - split; [ done |]. unfold capacity. cbn [with_buffer buffer_ cow_mem]. rewrite length_app, Hfl, Hm, length_app. lia.
Qed.

Lemma empty_pkt_ok : pkt_ok empty_pkt.
Proof. split; try (cbn; lia); try constructor; try constructor; cbn; lia. Qed.

Lemma Clear_Ok p :
  12 <= capacity (buffer_ p) -> 0 <= cow_size (buffer_ p) <= capacity (buffer_ p) -> Forall is_byte (cow_mem (buffer_ p)) ->
  exists p', Clear fresh p = Ok p' /\ built p' empty_pkt /\ keeps p p'.
Proof.
  intros Hcap Hsz Hb. unfold Clear, write_mem, kFixedHeaderSize. cbn [with_fields buffer_].
  unfold capacity in Hcap. rewrite memset_Ok, !bind_Ok by lia. change (Z.to_nat 0) with 0%nat.
  set (mem := blit 0 (replicate (Z.to_nat 12) 0) (cow_mem (buffer_ p))).
  assert (Hm : mem = [] ++ replicate 12 0 ++ drop 12 (cow_mem (buffer_ p))) by reflexivity.
  assert (Hml : length mem = length (cow_mem (buffer_ p))) by (apply length_blit; rewrite length_replicate; lia).
  destruct (SetSize_keeps 12 (mkCow mem (cow_size (buffer_ p))) [] (replicate 12 0 ++ drop 12 (cow_mem (buffer_ p))))
    as (post & Hm' & Hb' & Hl & Hs & Hc & Hsame).
  { done. }
  { apply Forall_app. split; [ apply Forall_replicate; unfold is_byte; lia | by apply Forall_drop ]. }
  { unfold capacity. cbn [cow_size cow_mem length]. rewrite Hml. unfold capacity in Hsz. lia. }
  { cbn. lia. }
  unfold capacity in Hsame, Hc. cbn [cow_mem] in Hsame, Hc. rewrite Hml in Hsame, Hc. rewrite Hsame in Hm' by lia.
  cbn [app] in Hm'. unfold WriteAt, set_size. cbn [with_mem with_buffer buffer_ with_fields cow_size].
  rewrite Hm', put_fixed, bind_Ok by (done || lia). eexists. split; [ reflexivity |].
  split.
  - split; cbn [with_mem with_buffer buffer_ fields cow_size cow_mem with_fields]; [ apply empty_pkt_ok | done | done |].
    exists (drop 12 (cow_mem (buffer_ p))). split; [ done | by apply Forall_drop ].
  - split; [ done |]. unfold capacity. cbn [with_mem with_buffer buffer_ cow_mem with_fields].
    rewrite Hm' in Hc. rewrite length_app in *. rewrite length_insert. lia.
Qed.

Lemma RtpPacket_new_Ok m cap :
  12 <= cap -> exists p, RtpPacket_new fresh m cap = Ok p /\ built p empty_pkt /\ extensions_ p = m /\ cap <= capacity (buffer_ p).
Proof.
  intros Hcap. unfold RtpPacket_new, kFixedHeaderSize. rewrite RTC_DCHECK_Ok, bind_Ok by (by apply Z.leb_le).
  destruct (Hfresh (Z.to_nat cap)) as [Hfl Hfb].
  set (p0 := mkPacket _ _ _). destruct (Clear_Ok p0) as (p & -> & Hp & [Hk1 Hk2]).
  - unfold capacity, p0. cbn. lia.
  - unfold capacity, p0. cbn. lia.
  - done.
  - exists p. unfold capacity in *. unfold p0 in Hk1, Hk2. cbn in Hk1, Hk2. split_and!; try done. lia.
Qed.

Lemma first_byte_pad (q x : bool) n :
  0 <= n <= 15 ->
  let b := 0x80 + 0x20 * Z.b2z q + 0x10 * Z.b2z x + n in
  Z.lor b 0x20 = 0x80 + 0x20 * Z.b2z true + 0x10 * Z.b2z x + n /\
  Z.land b 0xdf = 0x80 + 0x20 * Z.b2z false + 0x10 * Z.b2z x + n.
Proof.
  intros Hn b.
  assert (Hall : all_between 0 15 (fun n => let b := 0x80 + 0x20 * Z.b2z q + 0x10 * Z.b2z x + n in
    (Z.lor b 0x20 =? 0x80 + 0x20 * Z.b2z true + 0x10 * Z.b2z x + n) &&
    (Z.land b 0xdf =? 0x80 + 0x20 * Z.b2z false + 0x10 * Z.b2z x + n)) = true) by (destruct q, x; reflexivity).
  pose proof (all_between_spec 0 15 _ Hall n Hn) as Hb. cbv zeta in Hb. fold b in Hb.
  apply andb_true_iff in Hb as [H1 H2]. split; by apply Z.eqb_eq.
Qed.

Lemma first_byte_padding v n :
  pkt_ok v ->
  (if 0 <? n then Z.lor (first_byte v) 0x20 else Z.land (first_byte v) 0xdf) = first_byte (w_padding n v).
Proof.
  intros Hok. destruct (first_byte_pad (0 <? v_padding v) (bool_decide (v_exts v <> [])) (zlen (v_csrcs v))) as [Hor Hand];
    [ pose proof (po_csrcs _ Hok); lia |].
  unfold first_byte in *. cbn [w_padding v_padding v_exts v_csrcs]. by destruct (0 <? n).
Qed.

Lemma header_fixed v : header v = fixed_header v ++ concat (map be32 (v_csrcs v)) ++ ext_block (v_wide v) (v_exts v).
Proof. done. Qed.

(** The padding [memset] and the last byte write. *)
Lemma pad_written (pre post : list Z) n :
  0 < n <= zlen post ->
  (memset (pre ++ post) (zlen pre) 0 (n - 1) ≫= fun mem => put mem (zlen pre + n - 1) n) =
    Ok (pre ++ pad_bytes n ++ drop (Z.to_nat n) post).
Proof.
  intros Hn. rewrite memset_Ok, bind_Ok by (rewrite ?length_app; lia). rewrite Nat2Z.id.
  destruct (lookup_lt_is_Some_2 post (Z.to_nat (n - 1))) as [b Hb]; [ lia |].
  rewrite <- (take_drop_middle post _ b Hb) at 1.
  replace (S (Z.to_nat (n - 1))) with (Z.to_nat n) by lia.
  rewrite blit_between by (rewrite ?length_replicate, ?length_take; lia).
  rewrite app_assoc, put_Ok by (rewrite !length_app, length_replicate; cbn [length]; lia).
  replace (Z.to_nat (zlen pre + n - 1)) with (length (pre ++ replicate (Z.to_nat (n - 1)) 0%Z) + 0)%nat
    by (rewrite length_app, length_replicate; lia).
  rewrite insert_app_r. cbn [insert list_insert]. unfold pad_bytes. rewrite (proj2 (Z.ltb_lt _ _)) by lia.
  by rewrite <- !app_assoc.
Qed.

(** The packet with its new padding, whatever was behind the payload before. *)
Lemma padded_packet k p v n post b :
  holds k p v -> 0 <= n < 256 -> n <= zlen post -> Forall is_byte post -> capacity (buffer_ p) <= zlen (header v ++ v_payload v ++ post) ->
  cow_size b = zlen (header v) + zlen (v_payload v) + n ->
  let p' := with_buffer (mkCow (<[0%nat := first_byte (w_padding n v)]> (header v ++ v_payload v) ++ pad_bytes n ++ drop (Z.to_nat n) post)
              (cow_size b)) (with_fields (set_padding_size_ n (fields p)) p) in
  holds k p' (w_padding n v) /\ keeps p p'.
Proof.
  intros [Hok Hf _ _] Hn Hpost Hb Hcap Hs p'. unfold p'. pose proof (length_pad_bytes n ltac:(lia)) as Hpl. split.
  - split; cbn [with_mem with_buffer with_fields buffer_ fields cow_size cow_mem].
    + destruct Hok. split; done.
    + by rewrite Hf.
    + rewrite Hs, length_wire by (cbn [w_padding v_padding]; lia). done.
    + exists (drop (Z.to_nat n) post). split; [| by apply Forall_drop ].
      change (<[0%nat := first_byte (w_padding n v)]> (header v ++ v_payload v)) with (header (w_padding n v) ++ v_payload v).
      change (wire (w_padding n v)) with (header (w_padding n v) ++ v_payload v ++ pad_bytes n). by rewrite <- !app_assoc.
  - split; [ done |]. unfold capacity in *. cbn [with_buffer buffer_ cow_mem]. etransitivity; [ exact Hcap |].
    rewrite !length_app, length_insert, length_app, length_drop. lia.
Qed.

Lemma SetPadding_Ok k p v n :
  holds k p v -> 0 <= n < 256 -> zlen (header v) + zlen (v_payload v) + n <= capacity (buffer_ p) ->
  exists p', SetPadding fresh p n = Ok (p', true) /\ holds k p' (w_padding n v) /\ keeps p p'.
Proof.
  intros Hp Hn Hfit. pose proof Hp as [Hok Hf Hs (tail & Hm & Ht)]. pose proof (po_padding _ Hok) as Hpo.
  pose proof (holds_capacity _ _ _ Hp) as Hcap. pose proof (length_wire v ltac:(lia)) as Hwl.
  unfold SetPadding, headers_size, payload_size. rewrite Hf. cbn [fields_of payload_offset_ payload_size_].
  rewrite (proj2 (Z.ltb_ge _ _)) by lia. unfold dchecked_u8. rewrite RTC_DCHECK_Ok, !bind_Ok by lia. rewrite u8_id by lia.
  cbn [with_fields fields set_padding_size_ payload_offset_ payload_size_ padding_size_ fields_of].
  unfold padding_size. cbn [with_fields with_buffer set_size fields set_padding_size_ padding_size_].
  assert (Hw : wire v ++ tail = (header v ++ v_payload v) ++ pad_bytes (v_padding v) ++ tail)
    by (unfold wire; by rewrite <- !app_assoc).
  pose proof (wire_bytes_ok v Hok) as Hwb. unfold wire in Hwb. rewrite !Forall_app in Hwb. rewrite Hw in Hm.
  destruct (SetSize_keeps (zlen (header v) + zlen (v_payload v) + n) (buffer_ p) (header v ++ v_payload v)
    (pad_bytes (v_padding v) ++ tail)) as (post & Hm' & Hb' & Hlen & Hs' & Hc' & _); try (rewrite ?length_app; lia || done).
  { apply Forall_app. tauto. }
  rewrite length_app in Hlen. unfold capacity in Hc' at 2. rewrite Hm', <- app_assoc in Hc'.
  destruct (padded_packet k p v n post _ Hp Hn ltac:(lia) Hb' Hc' Hs') as [Hdone Hkeep]. rewrite Hf in Hdone, Hkeep.
  pose proof (first_byte_padding v n Hok) as Hfb.
  assert (Hfirst : forall rest, get ((header v ++ v_payload v) ++ rest) 0 = Ok (first_byte v)) by done.
  assert (Hput : forall rest x, put ((header v ++ v_payload v) ++ rest) 0 x = Ok (<[0%nat := x]> (header v ++ v_payload v) ++ rest)).
  { intros rest x. rewrite put_Ok by (cbn; lia). done. }
  unfold set_size, write_mem, WriteAt, data_at. cbn [with_fields with_buffer with_mem buffer_ cow_size cow_mem fields]. rewrite Hm'.
  destruct (Z.ltb_spec 0 n) as [Hpos | Hzero].
  - pose proof (pad_written (header v ++ v_payload v) post n ltac:(lia)) as Hpad. rewrite length_app, Nat2Z.inj_add in Hpad.
    cbn [set_padding_size_ fields_of payload_offset_ payload_size_].
    destruct (memset _ _ _ _) as [mem |]; [| discriminate Hpad ].
    rewrite !bind_Ok in *. cbn [with_fields with_buffer with_mem buffer_ cow_size cow_mem fields].
    cbn [set_padding_size_ fields_of payload_offset_ payload_size_ padding_size_]. rewrite Hpad, !bind_Ok.
    cbn [with_fields with_buffer with_mem buffer_ cow_size cow_mem fields].
    rewrite Hfirst, bind_Ok, Hput, !bind_Ok, Hfb. eexists. split; [ reflexivity |]. done.
  - assert (n = 0) as -> by lia. rewrite Hfirst, bind_Ok, Hput, !bind_Ok, Hfb. eexists. split; [ reflexivity |]. done.
Qed.

End Setters.
