(* ===== verification/RtpPacketExt.v ===== *)
(** * Header extensions of RTP packets

    [AllocateRawExtension] and what is built on it against the packets of
    [RtpPacketWire]: an extension is added to the packet, the extensions already
    there change to the two-byte format when the new one needs it, and there is
    room or nothing happens, unless the room ends in the padding of the block.
    Then the whole life of a packet: CSRCs, extensions, values, zeroed mutable
    extensions, and parsing what was built. *)
From S2P Require Import Prelude.
From S2P Require Import RtpFecCodec.
From S2P Require Import RtpFecAlgebra.
From S2P Require Import ExtensionMap.
From S2P Require Import RtpPacket.
From S2P Require Import RtpPacketWire.
From S2P Require Import RtpPacketBuild.
From stdpp Require Import base list list_numbers numbers option tactics.
From Stdlib Require Import ZArith Lia.

#[local] Open Scope Z_scope.

(** ** Writing a part of a buffer *)

Lemma put_mid {A} (pre post : list A) x y i : i = zlen pre -> put (pre ++ x :: post) i y = Ok (pre ++ y :: post).
Proof.
  intros ->. rewrite put_Ok by (rewrite length_app; cbn [length]; lia). f_equal. rewrite Nat2Z.id.
  replace (length pre) with (length pre + 0)%nat by lia. by rewrite insert_app_r.
Qed.

Lemma write_be16_mid (pre mid post : list Z) n i :
  i = zlen pre -> length mid = 2%nat -> write_be16 (pre ++ mid ++ post) i n = Ok (pre ++ be16 n ++ post).
Proof.
  intros -> Hl. destruct mid as [| x [| y [| z mid ]]]; try done. unfold write_be16. cbn [app].
  rewrite put_mid, bind_Ok by done. rewrite cons_middle, app_assoc.
  rewrite put_mid by (rewrite length_app; cbn; lia). by rewrite <- app_assoc.
Qed.

Lemma write_be32_mid (pre mid post : list Z) n i :
  i = zlen pre -> length mid = 4%nat -> write_be32 (pre ++ mid ++ post) i n = Ok (pre ++ be32 n ++ post).
Proof.
  intros -> Hl. destruct mid as [| x [| y [| z [| w [| q mid ]]]]]; try done. unfold write_be32. cbn [app].
  rewrite put_mid, bind_Ok by done. rewrite cons_middle, app_assoc.
  rewrite put_mid, bind_Ok by (rewrite length_app; cbn; lia). rewrite cons_middle, app_assoc.
  rewrite put_mid, bind_Ok by (rewrite !length_app; cbn; lia). rewrite cons_middle, app_assoc.
  rewrite put_mid by (rewrite !length_app; cbn; lia). by rewrite <- !app_assoc.
Qed.

Lemma memset_mid {A} (pre mid post : list A) x i n :
  i = zlen pre -> n = zlen mid -> memset (pre ++ mid ++ post) i x n = Ok (pre ++ replicate (length mid) x ++ post).
Proof.
  intros -> ->. rewrite memset_Ok by (rewrite ?length_app; lia). rewrite !Nat2Z.id. f_equal.
  by apply blit_between; [| rewrite length_replicate ].
Qed.

Lemma memcpy_mid {A} (pre mid post src : list A) i n :
  i = zlen pre -> n = zlen src -> length mid = length src -> memcpy (pre ++ mid ++ post) i src 0 n = Ok (pre ++ src ++ post).
Proof.
  intros -> -> Hl. rewrite memcpy_Ok by (rewrite ?length_app; lia). rewrite !Nat2Z.id, drop_0, take_ge by lia. f_equal.
  by apply blit_between.
Qed.

Lemma slice_mid {A} (pre mid post : list A) i n :
  i = zlen pre -> n = zlen mid -> slice (pre ++ mid ++ post) i n = Ok mid.
Proof.
  intros -> ->. rewrite slice_Ok by (rewrite ?length_app; lia). rewrite !Nat2Z.id, drop_app_length.
  by rewrite take_app_length.
Qed.

(** A list in two parts. *)
Lemma split_at {A} (l : list A) n :
  0 <= n <= zlen l -> exists l1 l2, l = l1 ++ l2 /\ zlen l1 = n /\ l2 = drop (Z.to_nat n) l.
Proof.
  intros Hn. exists (take (Z.to_nat n) l), (drop (Z.to_nat n) l).
  split_and!; [ by rewrite take_drop | rewrite length_take; lia | done ].
Qed.

(** ** Entries *)

Lemma exts_bytes_app wide es es' : exts_bytes wide (es ++ es') = exts_bytes wide es ++ exts_bytes wide es'.
Proof. unfold exts_bytes. by rewrite map_app, concat_app. Qed.
Lemma exts_bytes_snoc wide es e : exts_bytes wide (es ++ [e]) = exts_bytes wide es ++ ext_bytes wide e.
Proof. rewrite exts_bytes_app. unfold exts_bytes at 2. cbn [map concat]. by rewrite app_nil_r. Qed.

Lemma entries_app wide off es es' :
  entries wide off (es ++ es') = entries wide off es ++ entries wide (off + zlen (exts_bytes wide es)) es'.
Proof.
  revert off. induction es as [| e es IH ]; intros off; cbn [entries app].
  { by rewrite Z.add_0_r. }
  rewrite IH. do 3 f_equal. change (exts_bytes wide (e :: es)) with (ext_bytes wide e ++ exts_bytes wide es).
  rewrite length_app, Nat2Z.inj_add, length_ext_bytes. lia.
Qed.

Lemma length_entries wide off es : length (entries wide off es) = length es.
Proof. revert off. induction es as [| e es IH ]; intros off; cbn [entries length]; [ done | by rewrite IH ]. Qed.

Lemma map_id_entries wide off es : map ei_id (entries wide off es) = map fst es.
Proof. revert off. induction es as [| e es IH ]; intros off; cbn [entries map]; [ done | by rewrite IH ]. Qed.

Lemma length_exts_wide es : zlen (exts_bytes true es) = zlen (exts_bytes false es) + zlen es.
Proof.
  induction es as [| e es IH ]; [ done |].
  change (exts_bytes ?w (e :: es)) with (ext_bytes w e ++ exts_bytes w es).
  rewrite !length_app, !Nat2Z.inj_add, !length_ext_bytes, IH. cbn [length]. unfold ext_header. lia.
Qed.

Lemma ext_ok_widen wide e : ext_ok false e -> ext_ok wide e.
Proof. destruct wide; [| done ]. intros (H1 & H2 & H3). split_and!; [ lia | lia | lia | lia | done ]. Qed.

(** ** The number of words and the padding *)

Section Extensions.
Context `{CheckMode} (fresh : nat -> list Z).
Context (Hfresh : fresh_ok fresh).

Lemma dchecked_u8_Ok x : 0 <= x <= 255 -> dchecked_u8 x = Ok x.
Proof. intros Hx. unfold dchecked_u8. rewrite RTC_DCHECK_Ok, bind_Ok, u8_id by lia. done. Qed.
Lemma dchecked_u16_Ok x : 0 <= x <= 65535 -> dchecked_u16 x = Ok x.
Proof. intros Hx. unfold dchecked_u16. rewrite RTC_DCHECK_Ok, bind_Ok, u16_id by lia. done. Qed.

Lemma close_block p pre mid bytes rest pad offset :
  cow_mem (buffer_ p) = pre ++ mid ++ bytes ++ pad ++ rest -> length mid = 2%nat ->
  extensions_size_ (fields p) = zlen bytes -> offset = zlen pre + 2 ->
  zlen bytes + zlen pad = 4 * words (zlen bytes) -> 4 * words (zlen bytes) <= 65535 ->
  SetExtensionLengthMaybeAddZeroPadding p offset =
    Ok (with_mem (pre ++ be16 (words (zlen bytes)) ++ bytes ++ replicate (length pad) 0 ++ rest) p, 4 * words (zlen bytes)).
Proof.
  intros Hm Hmid Hs -> Hpad Hmax. pose proof (words_bounds (zlen bytes) ltac:(lia)) as Hw.
  unfold SetExtensionLengthMaybeAddZeroPadding. rewrite Hs. fold (words (zlen bytes)).
  rewrite dchecked_u16_Ok, bind_Ok by lia. unfold write_mem. rewrite Hm, write_be16_mid, !bind_Ok by (done || lia).
  cbn [with_mem with_buffer buffer_ cow_mem]. rewrite u64_id by lia. rewrite !app_assoc, <- (app_assoc _ pad).
  rewrite memset_mid, !bind_Ok by (rewrite ?length_app, ?length_be16; lia). rewrite u16_id by lia.
  by rewrite <- !app_assoc.
Qed.

(** The padding does not fit. *)
Lemma close_block_overrun p pre mid bytes rest offset :
  cow_mem (buffer_ p) = pre ++ mid ++ bytes ++ rest -> length mid = 2%nat ->
  extensions_size_ (fields p) = zlen bytes -> offset = zlen pre + 2 ->
  zlen bytes + zlen rest < 4 * words (zlen bytes) -> 4 * words (zlen bytes) <= 65535 ->
  SetExtensionLengthMaybeAddZeroPadding p offset = Fail OutOfBounds.
Proof.
  intros Hm Hmid Hs -> Hpad Hmax. pose proof (words_bounds (zlen bytes) ltac:(lia)) as Hw.
  unfold SetExtensionLengthMaybeAddZeroPadding. rewrite Hs. fold (words (zlen bytes)).
  rewrite dchecked_u16_Ok, bind_Ok by lia. unfold write_mem. rewrite Hm, write_be16_mid, !bind_Ok by (done || lia).
  cbn [with_mem with_buffer buffer_ cow_mem]. rewrite u64_id by lia. unfold memset.
  rewrite (proj2 (Z.leb_gt (_ + _) _)); [ by rewrite andb_false_r |].
  rewrite !length_app, length_be16. lia.
Qed.

(** ** Promotion to the two-byte format *)

(** One turn of the loop: an extension moves [k] bytes up and gets its new
    header; the bytes between are left over. *)
Lemma promote_one (pre rest val : list Z) h id k :
  1 <= k <= zlen rest ->
  exists gap, zlen gap = k - 1 /\
    (mem ← memmove (pre ++ (h :: val) ++ rest) (zlen pre + 1 + k) (zlen pre + 1) (zlen val);
     mem ← put mem (zlen pre + 1 + k - 1) (zlen val);
     put mem (zlen pre + 1 + k - 2) id) =
    Ok (pre ++ gap ++ ext_bytes true (id, val) ++ drop (Z.to_nat k) rest).
Proof.
  intros Hk. destruct (split_at ((h :: val) ++ rest) (k - 1)) as (gap & l & El & Hgap & _).
  { rewrite length_app. cbn [length]. lia. }
  assert (Hl : zlen l = 2 + zlen val + (zlen rest - k)).
  { pose proof (f_equal (fun l => zlen l) El) as E. cbn beta in E. rewrite !length_app in E. cbn [length] in E. lia. }
  destruct l as [| a [| b l ]]; [ cbn in Hl; lia | cbn in Hl; lia |].
  destruct (split_at l (zlen val)) as (old & l' & El' & Hold & _); [ cbn [length] in Hl; lia |].
  assert (Erest : l' = drop (Z.to_nat k) rest).
  { pose proof (f_equal (drop (S (length val) + Z.to_nat k)) El) as E. rewrite El' in E.
    rewrite drop_app_ge in E by (cbn [length]; lia).
    replace (S (length val) + Z.to_nat k - length (h :: val))%nat with (Z.to_nat k) in E by (cbn [length]; lia).
    rewrite E. rewrite !cons_middle, !app_assoc. rewrite drop_app_length'; [ done |].
    rewrite !length_app. cbn [length]. lia. }
  exists gap. split; [ done |]. unfold memmove.
  replace (pre ++ (h :: val) ++ rest) with ((pre ++ [h]) ++ val ++ rest) by (by rewrite <- !app_assoc).
  rewrite slice_mid, bind_Ok by (rewrite ?length_app; cbn; lia).
  replace ((pre ++ [h]) ++ val ++ rest) with ((pre ++ gap ++ [a; b]) ++ old ++ l').
  2:{ rewrite <- !app_assoc. f_equal. cbn [app]. rewrite <- El', <- El. done. }
  rewrite memcpy_mid, bind_Ok by (rewrite ?length_app; cbn; lia).
  replace ((pre ++ gap ++ [a; b]) ++ val ++ l') with ((pre ++ gap ++ [a]) ++ b :: val ++ l') by (by rewrite <- !app_assoc).
  rewrite put_mid, bind_Ok by (rewrite !length_app; cbn; lia).
  replace ((pre ++ gap ++ [a]) ++ zlen val :: val ++ l') with ((pre ++ gap) ++ a :: zlen val :: val ++ l') by (by rewrite <- !app_assoc).
  rewrite put_mid by (rewrite !length_app; lia). rewrite <- !app_assoc, <- Erest. done.
Qed.

Lemma promote_entries_Ok pre es : forall rest,
  Forall (ext_ok false) es -> zlen es <= zlen rest -> zlen pre + zlen (exts_bytes true es) <= 65535 ->
  promote_entries (reverse (entries false (zlen pre) es)) (zlen es) (pre ++ exts_bytes false es ++ rest) =
    Ok (reverse (entries true (zlen pre) es), pre ++ exts_bytes true es ++ drop (length es) rest).
Proof.
  induction es as [| e es IH ] using rev_ind; intros rest Hes Hrest Hmax; [ done |].
  apply Forall_app in Hes as [Hes [He _]%Forall_cons_1]. destruct e as [id val]. destruct He as (Hid & Hlen & Hval).
  rewrite !exts_bytes_snoc, !entries_app, !reverse_app in *. rewrite length_app, Nat2Z.inj_add, length_ext_bytes in Hmax.
  rewrite length_app in *. cbn [length fst snd ext_header] in *. pose proof (length_exts_wide es) as Hw.
  cbn [entries reverse rev_append app promote_entries ei_offset ei_length ei_id fst snd ext_header].
  rewrite dchecked_u16_Ok, bind_Ok by lia.
  destruct (promote_one (pre ++ exts_bytes false es) rest val (id * 16 + (zlen val - 1)) id (zlen es + 1)) as (gap & Hgap & Hstep);
    [ lia |].
  rewrite length_app, Nat2Z.inj_add in Hstep. rewrite <- !app_assoc in *. unfold ext_bytes at 1. cbn [fst snd].
  rewrite Nat2Z.inj_add. change (Z.of_nat 1) with 1.
  apply bind_Ok_inv in Hstep as (m1 & E1 & (m2 & E2 & E3)%bind_Ok_inv). rewrite E1, bind_Ok, E2, bind_Ok, E3, bind_Ok.
  replace (zlen es + 1 - 1) with (zlen es) by lia. rewrite IH, bind_Ok; [| done | rewrite length_app; lia | lia ].
  rewrite drop_app_length' by lia. do 3 f_equal; [ f_equal; lia |]. do 3 f_equal. lia.
Qed.

Lemma first_byte_csrcs v : pkt_ok v -> Z.land (first_byte v) 0x0F = zlen (v_csrcs v).
Proof.
  intros Hok. pose proof (po_csrcs _ Hok) as [Hc _].
  destruct (first_byte_bits (0 <? v_padding v) (bool_decide (v_exts v <> [])) (zlen (v_csrcs v)) ltac:(lia)) as (_ & _ & _ & B).
  exact B.
Qed.

Lemma SetSize_fits n b : n <= capacity b -> SetSize fresh n b = mkCow (cow_mem b) n.
Proof. intros Hn. unfold SetSize. destruct (n <=? cow_size b); [ done |]. by rewrite (proj2 (Z.leb_le _ _)). Qed.

(** What precedes the extension block. *)
Definition before_exts (v : Pkt) : list Z := fixed_header v ++ concat (map be32 (v_csrcs v)).
Lemma length_before_exts v : zlen (before_exts v) = exts_start v - 4.
Proof. unfold before_exts, exts_start. rewrite length_app, length_fixed_header. pose proof (length_csrcs (v_csrcs v)). lia. Qed.
Lemma header_before v : header v = before_exts v ++ ext_block (v_wide v) (v_exts v).
Proof. unfold header, before_exts. by rewrite app_assoc. Qed.

(** A packet without payload and padding, from its extension block on. *)
Lemma bare_mem k p v :
  holds k p v -> v_payload v = [] -> v_padding v = 0 ->
  exists tail, cow_mem (buffer_ p) = before_exts v ++ ext_block (v_wide v) (v_exts v) ++ tail /\ Forall is_byte tail /\
    zlen (before_exts v) + zlen (ext_block (v_wide v) (v_exts v)) + zlen tail = capacity (buffer_ p).
Proof.
  intros [_ _ _ (tail & Hm & Ht)] Hpl Hpad. exists tail.
  assert (E : wire v = before_exts v ++ ext_block (v_wide v) (v_exts v)).
  { unfold wire. rewrite Hpl, Hpad, header_before. cbn. by rewrite app_nil_r. }
  rewrite E in Hm. split_and!; [ by rewrite Hm, <- app_assoc | done |]. unfold capacity. rewrite Hm, !length_app. lia.
Qed.

(** ... and back. *)
Definition same_room (p p' : RtpPacket) : Prop :=
  extensions_ p' = extensions_ p /\ capacity (buffer_ p') = capacity (buffer_ p).

Lemma same_room_keeps p p' : same_room p p' -> keeps p p'.
Proof. intros [He Hc]. split; [ done | lia ]. Qed.

Lemma bare_holds p p' v' pre tail :
  pkt_ok v' -> v_payload v' = [] -> v_padding v' = 0 ->
  fields p' = fields_of v' (built_size v') -> cow_size (buffer_ p') = zlen (header v') ->
  cow_mem (buffer_ p') = pre ++ ext_block (v_wide v') (v_exts v') ++ tail -> pre = before_exts v' -> Forall is_byte tail ->
  extensions_ p' = extensions_ p ->
  capacity (buffer_ p) = zlen (before_exts v') + zlen (ext_block (v_wide v') (v_exts v')) + zlen tail ->
  built p' v' /\ same_room p p'.
Proof.
  intros Hok Hpl Hpad Hf Hs Hm -> Ht He Hc.
  assert (E : wire v' = header v') by (unfold wire; rewrite Hpl, Hpad; cbn; by rewrite app_nil_r).
  split; [| split; [ done | unfold capacity in *; rewrite Hm, !length_app; lia ] ].
  split; [ done | done | by rewrite E |].
  exists tail. split; [| done ]. by rewrite E, header_before, <- app_assoc.
Qed.

(** The block of a packet with an extension. *)
Lemma ext_block_some wide es :
  es <> [] -> exists pad, ext_block wide es = be16 (profile wide) ++ be16 (words (zlen (exts_bytes wide es))) ++ exts_bytes wide es ++ replicate pad 0 /\
    zlen (exts_bytes wide es) + Z.of_nat pad = 4 * words (zlen (exts_bytes wide es)).
Proof.
  intros Hne. destruct es as [| e es ]; [ done |]. pose proof (words_bounds (zlen (exts_bytes wide (e :: es))) ltac:(lia)).
  eexists. split; [ unfold ext_block; cbv zeta; reflexivity |]. lia.
Qed.

Lemma exts_nonempty wide es : es <> [] -> 0 < zlen (exts_bytes wide es).
Proof.
  destruct es as [| e es ]; [ done |]. intros _. change (exts_bytes wide (e :: es)) with (ext_bytes wide e ++ exts_bytes wide es).
  rewrite length_app, Nat2Z.inj_add, length_ext_bytes. unfold ext_header. destruct wide; lia.
Qed.

(** The block is closed over the extensions of [v]. *)
Lemma finish_block p v mid rest :
  let bytes := exts_bytes (v_wide v) (v_exts v) in
  pkt_ok v -> v_payload v = [] -> v_padding v = 0 -> v_exts v <> [] ->
  cow_mem (buffer_ p) = before_exts v ++ be16 (profile (v_wide v)) ++ mid ++ bytes ++ rest ->
  length mid = 2%nat -> Forall is_byte rest -> 4 * words (zlen bytes) <= zlen bytes + zlen rest ->
  set_payload_offset_ (zlen (header v)) (fields p) = fields_of v (built_size v) ->
  exists p1, SetExtensionLengthMaybeAddZeroPadding p (exts_start v) = Ok (p1, 4 * words (zlen bytes)) /\
    let p2 := with_fields (set_payload_offset_ (exts_start v + 4 * words (zlen bytes)) (fields p1)) p1 in
    built (set_size fresh (headers_size p2) p2) v /\ same_room p (set_size fresh (headers_size p2) p2).
Proof.
  intros bytes Hok Hpl Hpad Hne Hm Hmid Ht Hroom Hf. pose proof (words_bounds (zlen bytes) ltac:(lia)) as Hw.
  destruct (ext_block_some (v_wide v) (v_exts v) Hne) as (n & Eb & Hwords). fold bytes in Eb, Hwords.
  destruct (split_at rest (Z.of_nat n)) as (pad & rest' & -> & Hpadl & _); [ lia |].
  pose proof (length_before_exts v) as Hbl. pose proof (po_header _ Hok) as Hmax.
  assert (Hh : zlen (header v) = exts_start v + 4 * words (zlen bytes)).
  { rewrite header_before, Eb, !length_app, !length_be16, length_replicate. lia. }
  eexists. split.
  { apply (close_block p (before_exts v ++ be16 (profile (v_wide v))) mid bytes rest' pad); try done.
    - by rewrite Hm, <- !app_assoc.
    - pose proof (f_equal extensions_size_ Hf) as E. cbn in E. exact E.
    - rewrite length_app, length_be16. lia.
    - lia.
    - unfold exts_start in *. lia. }
  rewrite <- Hh. intros p2. set (mem := _ ++ _) in p2.
  assert (Emem : mem = before_exts v ++ ext_block (v_wide v) (v_exts v) ++ rest').
  { unfold mem. rewrite Eb. replace (length pad) with n by lia. by rewrite <- !app_assoc. }
  assert (Hcap : capacity (buffer_ p2) = zlen mem) by done.
  apply Forall_app in Ht as [_ Ht].
  assert (Hcp : capacity (buffer_ p) = zlen (before_exts v) + zlen (ext_block (v_wide v) (v_exts v)) + zlen rest').
  { unfold capacity. rewrite Hm, Eb, !length_app, !length_be16, length_replicate. lia. }
  apply (bare_holds p _ v (before_exts v) rest'); try done; unfold set_size; cbn [with_buffer fields buffer_]; rewrite ?SetSize_fits; try done.
  all: unfold headers_size; cbn [fields with_fields set_payload_offset_ payload_offset_ p2 cow_size]; rewrite Hcap, Emem, header_before, !length_app; lia.
Qed.

(** A packet with other extensions. *)
Lemma pkt_ok_exts wide es v :
  pkt_ok v -> Forall (ext_ok wide) es -> NoDup (map fst es) ->
  exts_start v + 4 * words (zlen (exts_bytes wide es)) < 2 ^ 16 -> pkt_ok (w_exts wide es v).
Proof.
  intros Hok Hes Hids Hmax. pose proof (length_header (w_exts wide es v)) as Hh. cbn [w_exts v_csrcs v_wide v_exts] in Hh.
  rewrite length_ext_block in Hh. pose proof (words_bounds (zlen (exts_bytes wide es)) ltac:(lia)).
  destruct Hok. split; try done. rewrite Hh. unfold exts_start in *. destruct es; lia.
Qed.

Lemma before_exts_same wide es v : es <> [] -> v_exts v <> [] -> before_exts (w_exts wide es v) = before_exts v.
Proof.
  intros H1 H2. unfold before_exts, fixed_header, first_byte. cbn [w_exts v_padding v_csrcs v_exts].
  by rewrite !bool_decide_eq_true_2 by done.
Qed.

Lemma before_exts_any wide es es' v : es <> [] -> es' <> [] -> before_exts (w_exts wide es v) = before_exts (w_exts wide es' v).
Proof. intros H1 H2. by rewrite <- (before_exts_same wide es (w_exts wide es' v)). Qed.

Lemma Promote_Ok p v :
  built p v -> v_payload v = [] -> v_padding v = 0 -> v_exts v <> [] -> v_wide v = false ->
  let size := zlen (exts_bytes true (v_exts v)) in
  exts_start v + 4 * words size <= capacity (buffer_ p) -> exts_start v + 4 * words size < 2 ^ 16 ->
  exists p', PromoteToTwoByteHeaderExtension fresh p = Ok p' /\ built p' (w_exts true (v_exts v) v) /\ same_room p p'.
Proof.
  intros Hp Hpl Hpad Hne Hwide size Hroom Hmax. pose proof Hp as [Hok Hf Hs _].
  destruct (bare_mem _ _ _ Hp Hpl Hpad) as (tail & Hm & Ht & Hc). rewrite Hwide in Hm, Hc.
  destruct (ext_block_some false (v_exts v) Hne) as (pad & Eb & Hwords).
  pose proof (length_before_exts v) as Hbl. pose proof (length_exts_wide (v_exts v)) as Hlw. fold size in Hlw.
  pose proof (words_bounds size ltac:(lia)) as Hw.
  unfold PromoteToTwoByteHeaderExtension, data_at.
  assert (Hb0 : get (cow_mem (buffer_ p)) 0 = Ok (first_byte v)) by (by rewrite Hm).
  rewrite Hb0, bind_Ok, first_byte_csrcs by done. unfold payload_size. rewrite Hf.
  cbn [fields_of payload_size_ extension_entries_ extensions_size_]. rewrite length_entries, Hpl. cbn [length].
  assert (Hex : 0 < zlen (v_exts v)) by (destruct (v_exts v); cbn [length]; [ done | lia ]).
  rewrite (RTC_CHECK_Ok (0 <? _)), bind_Ok by (by apply Z.ltb_lt). rewrite (RTC_CHECK_Ok (_ =? 0)), bind_Ok by done.
  replace (kFixedHeaderSize + zlen (v_csrcs v) * 4 + 4) with (exts_start v) by (unfold exts_start, kFixedHeaderSize; lia).
  set (tail' := replicate pad 0 ++ tail).
  assert (Hm' : cow_mem (buffer_ p) = before_exts v ++ be16 (profile false) ++ be16 (words (zlen (exts_bytes false (v_exts v)))) ++
    exts_bytes false (v_exts v) ++ tail') by (rewrite Hm, Eb; unfold tail'; by rewrite <- !app_assoc).
  assert (Hr : read_be16 (cow_mem (buffer_ p)) (exts_start v - 4) = Ok (profile false))
    by (rewrite Hm'; apply read_be16_mid; [ lia | done ]).
  rewrite Hr, bind_Ok.
  rewrite RTC_CHECK_Ok, bind_Ok by done.
  assert (Htl : zlen (exts_bytes false (v_exts v)) + zlen tail' + exts_start v = capacity (buffer_ p)).
  { unfold capacity. rewrite Hm', !length_app, !length_be16. lia. }
  rewrite Hwide. set (pre := before_exts v ++ be16 (profile false) ++ be16 (words (zlen (exts_bytes false (v_exts v))))).
  assert (Hpre : exts_start v = zlen pre) by (unfold pre; rewrite !length_app, !length_be16; lia).
  rewrite (f_equal (fun o => entries false o (v_exts v)) Hpre). replace (cow_mem (buffer_ p)) with (pre ++ exts_bytes false (v_exts v) ++ tail')
    by (rewrite Hm'; unfold pre; by rewrite <- !app_assoc).
  rewrite promote_entries_Ok, bind_Ok; [| rewrite <- Hwide; apply Hok | lia | fold size; lia ].
  rewrite <- Hpre. assert (Epre : forall l, pre ++ l = before_exts v ++ be16 (profile false) ++
    be16 (words (zlen (exts_bytes false (v_exts v)))) ++ l) by (intros l; unfold pre; by rewrite <- !app_assoc).
  unfold write_mem. cbn [with_mem with_buffer buffer_ cow_mem].
  rewrite Epre, write_be16_mid, !bind_Ok by (done || lia). cbn [with_mem with_buffer with_fields buffer_ cow_mem fields].
  rewrite Hf. cbn [fields_of extensions_size_]. unfold built_size. rewrite Hwide, reverse_involutive.
  set (p0 := with_fields _ _). set (v' := w_exts true (v_exts v) v).
  assert (Hok' : pkt_ok v').
  { apply pkt_ok_exts; try done; [| apply Hok ]. apply (list.Forall_impl (ext_ok false)); [| apply ext_ok_widen ].
    rewrite <- Hwide. apply Hok. }
  destruct (finish_block p0 v' (be16 (words (zlen (exts_bytes false (v_exts v))))) (drop (length (v_exts v)) tail')) as (p1 & E1 & HB & HR);
    try done.
  - apply Forall_drop, Forall_app. split; [ apply Forall_replicate; unfold is_byte; lia | done ].
  - change (exts_bytes (v_wide v') (v_exts v')) with (exts_bytes true (v_exts v)). fold size. rewrite length_drop. lia.
  - unfold built_size. cbn [v' p0 w_exts v_wide v_exts with_fields fields]. rewrite length_exts_wide. done.
  - change (exts_start v') with (exts_start v) in E1. rewrite E1, bind_Ok. eexists. split_and!; [ reflexivity | exact HB |].
    destruct HR as [HR1 HR2]. split; [ exact HR1 |]. rewrite <- Htl. etransitivity; [ exact HR2 |]. unfold capacity.
    cbn [p0 with_fields with_mem with_buffer buffer_ cow_mem]. rewrite !length_app, !length_be16, length_drop.
    fold size. lia.
Qed.

(** ** Adding an extension *)

(** The first byte once there are extensions. *)
Lemma first_byte_exts v wide es :
  pkt_ok v -> v_exts v = [] -> es <> [] -> Z.lor (first_byte v) 0x10 = first_byte (w_exts wide es v).
Proof.
  intros Hok He Hne. pose proof (po_csrcs _ Hok) as [Hc _]. unfold first_byte. cbn [w_exts v_padding v_exts v_csrcs].
  rewrite He, (bool_decide_eq_true_2 (es <> [])), (bool_decide_eq_false_2 ([] <> [])) by (done || naive_solver).
  assert (Hall : all_between 0 15 (fun n => Z.lor (0x80 + 0x20 * Z.b2z (0 <? v_padding v) + 0x10 * Z.b2z false + n) 0x10 =?
    0x80 + 0x20 * Z.b2z (0 <? v_padding v) + 0x10 * Z.b2z true + n) = true) by (destruct (0 <? v_padding v); reflexivity).
  apply Z.eqb_eq, (all_between_spec _ _ _ Hall). lia.
Qed.

Lemma begin_Ok p v wide es :
  built p v -> v_payload v = [] -> v_padding v = 0 -> (v_exts v <> [] -> v_wide v = wide) -> es <> [] ->
  exts_start v <= capacity (buffer_ p) ->
  exists p1 mid rest, begin_extensions p (exts_start v) (profile wide) = Ok p1 /\ length mid = 2%nat /\
    cow_mem (buffer_ p1) =
      before_exts (w_exts wide es v) ++ be16 (profile wide) ++ mid ++ exts_bytes wide (v_exts v) ++ rest /\
    Forall is_byte rest /\ fields p1 = fields p /\ same_room p p1.
Proof.
  intros Hp Hpl Hpad Hwide Hne Hroom. pose proof Hp as [Hok Hf Hs _].
  destruct (bare_mem _ _ _ Hp Hpl Hpad) as (tail & Hm & Ht & Hc). pose proof (length_before_exts v) as Hbl.
  assert (Hsz : extensions_size_ (fields p) = zlen (exts_bytes (v_wide v) (v_exts v))) by (by rewrite Hf).
  unfold begin_extensions. rewrite Hsz.
  destruct (decide (v_exts v = [])) as [He | Hne'].
  - rewrite He in *. cbn [exts_bytes map concat length Z.of_nat Z.eqb ext_block app] in *.
    destruct (split_at tail 4) as (four & rest & -> & H4 & _); [ lia |].
    destruct four as [| a [| b [| c [| d [| z four ]]]]]; try (cbn in H4; lia).
    rewrite RTC_DCHECK_Ok, bind_Ok.
    2:{ unfold headers_size. rewrite Hf. cbn [fields_of payload_offset_]. rewrite header_before, He, length_app. cbn [ext_block length].
        apply Z.eqb_eq. lia. }
    unfold data_at, WriteAt, write_mem. assert (Hb0 : get (cow_mem (buffer_ p)) 0 = Ok (first_byte v)) by (by rewrite Hm).
    rewrite Hb0, bind_Ok, (first_byte_exts v wide es) by done.
    assert (Hput : put (cow_mem (buffer_ p)) 0 (first_byte (w_exts wide es v)) =
      Ok (before_exts (w_exts wide es v) ++ [a; b] ++ [c; d] ++ rest)).
    { rewrite Hm. rewrite put_Ok by (cbn; lia). done. }
    rewrite Hput, !bind_Ok. cbn [with_mem with_buffer buffer_ cow_mem].
    rewrite write_be16_mid, bind_Ok by (done || (rewrite length_before_exts; unfold exts_start; cbn [w_exts v_csrcs]; lia)).
    eexists _, [c; d], rest. split_and!; [ reflexivity | done | done | apply Forall_app in Ht; tauto | done |].
    split; [ done |]. unfold capacity. rewrite Hm. cbn [with_mem with_buffer buffer_ cow_mem]. rewrite !length_app.
    reflexivity.
  - rewrite (proj2 (Z.eqb_neq _ _)) by (pose proof (exts_nonempty (v_wide v) _ Hne'); lia).
    destruct (ext_block_some (v_wide v) (v_exts v) Hne') as (pad & Eb & _). rewrite (Hwide Hne') in *.
    eexists p, _, (replicate pad 0 ++ tail). split_and!; [ done | apply length_be16 | | | done | done ].
    + rewrite Hm, Eb, before_exts_same by done. by rewrite <- !app_assoc.
    + apply Forall_app. split; [ apply Forall_replicate; unfold is_byte; lia | done ].
Qed.

(** The id and the length in front of bytes that become the value. *)
Lemma lor_disjoint id n : 0 <= id <= 14 -> 0 <= n < 16 -> Z.lor (u8 (Z.shiftl id 4)) n = id * 16 + n.
Proof.
  intros Hid Hn. assert (Hall : all_between 0 14 (fun id => all_between 0 15 (fun n =>
    Z.lor (u8 (Z.shiftl id 4)) n =? id * 16 + n)) = true) by reflexivity.
  apply Z.eqb_eq, (all_between_spec 0 15 _ (all_between_spec 0 14 _ Hall id Hid)). lia.
Qed.

Lemma write_header_Ok p pre old val post wide id :
  cow_mem (buffer_ p) = pre ++ old ++ val ++ post -> zlen old = ext_header wide ->
  1 <= id <= (if wide then 255 else 14) -> 1 <= zlen val <= (if wide then 255 else 16) ->
  write_extension_header p (negb wide) (zlen pre) id (zlen val) =
    Ok (with_mem (pre ++ ext_bytes wide (id, val) ++ post) p).
Proof.
  intros Hm Hold Hid Hval. unfold write_extension_header, WriteAt. destruct wide; cbn [negb ext_header] in *.
  - destruct old as [| a [| b [| c old ]]]; try (cbn in Hold; lia). rewrite Hm.
    rewrite !dchecked_u8_Ok, bind_Ok by lia. cbn [app]. rewrite put_mid, !bind_Ok by done.
    cbn [with_mem with_buffer buffer_ cow_mem].
    rewrite cons_middle, app_assoc, put_mid, bind_Ok by (rewrite length_app; cbn; lia). by rewrite <- app_assoc.
  - destruct old as [| a [| b old ]]; try (cbn in Hold; lia). rewrite Hm.
    rewrite !dchecked_u8_Ok, !bind_Ok by lia. cbn [app].
    rewrite lor_disjoint, put_mid, bind_Ok by (done || lia). done.
Qed.

(** What adding an extension of [len] bytes to [v] comes to, in a packet that
    answers with [result]. *)
Definition added (p : RtpPacket) (v : Pkt) (wide : bool) (id len : Z)
    (result : outcome (RtpPacket * option (Z * Z))) : Prop :=
  let size := zlen (exts_bytes wide (v_exts v)) + ext_header wide + len in
  if decide (capacity (buffer_ p) < exts_start v + size) then result = Ok (p, None)
  else if decide (capacity (buffer_ p) < exts_start v + 4 * words size) then result = Fail OutOfBounds
  else
    exists p' val, result = Ok (p', Some (exts_start v + size - len, len)) /\ zlen val = len /\
      built p' (w_exts wide (v_exts v ++ [(id, val)]) v) /\ same_room p p'.

(** A packet that can take an extension in the format [wide]. *)
Record can_add (p : RtpPacket) (v : Pkt) (wide : bool) (id len : Z) : Prop := {
  ca_built : built p v;
  ca_payload : v_payload v = [];
  ca_padding : v_padding v = 0;
  ca_id : id ∉ map fst (v_exts v);
  ca_range : 1 <= id <= (if wide then 255 else 14);
  ca_len : 1 <= len <= (if wide then 255 else 16);
  ca_max : exts_start v + 4 * words (zlen (exts_bytes wide (v_exts v)) + ext_header wide + len) < 2 ^ 16
}.

Lemma added_to p v wide id len :
  can_add p v wide id len -> (v_exts v <> [] -> v_wide v = wide) ->
  extensions_size_ (fields p) = zlen (exts_bytes wide (v_exts v)) /\
  extension_entries_ (fields p) = entries wide (exts_start v) (v_exts v).
Proof.
  intros Hca Hwide. rewrite (ho_fields _ _ _ (ca_built _ _ _ _ _ Hca)). cbn [fields_of extensions_size_ extension_entries_].
  unfold built_size. destruct (decide (v_exts v = [])) as [-> | Hne]; [ done | by rewrite (Hwide Hne) ].
Qed.

(** Everything up to the padding. *)
Lemma append_prepare p v wide id len :
  can_add p v wide id len -> (v_exts v <> [] -> v_wide v = wide) ->
  let size := zlen (exts_bytes wide (v_exts v)) + ext_header wide + len in
  exts_start v + size <= capacity (buffer_ p) ->
  exists p2 val mid rest,
    append_extension fresh p (exts_start v) (profile wide) id len =
      ('(p, padded) ← SetExtensionLengthMaybeAddZeroPadding p2 (exts_start v);
       let p := with_fields (set_payload_offset_ (exts_start v + padded) (fields p)) p in
       Ok (set_size fresh (headers_size p) p, Some (exts_start v + size - len, len))) /\
    zlen val = len /\ Forall is_byte val /\ length mid = 2%nat /\ Forall is_byte rest /\ same_room p p2 /\
    let v' := w_exts wide (v_exts v ++ [(id, val)]) v in
    cow_mem (buffer_ p2) = before_exts v' ++ be16 (profile wide) ++ mid ++ exts_bytes wide (v_exts v') ++ rest /\
    fields p2 = set_payload_offset_ (zlen (header v)) (fields_of v' size).
Proof.
  intros Hca Hwide size Hfits. destruct (added_to _ _ _ _ _ Hca Hwide) as [Hsz Hent].
  destruct Hca as [Hp Hpl Hpad Hid Hidr Hlen Hmax]. fold size in Hmax.
  assert (Hh : 1 <= ext_header wide <= 2) by (unfold ext_header; destruct wide; lia).
  pose proof (words_bounds size ltac:(unfold size; lia)) as Hw.
  unfold append_extension. rewrite Hsz, profile_one_byte.
  replace (if negb wide then kOneByteExtensionHeaderLength else kTwoByteExtensionHeaderLength) with (ext_header wide)
    by (by destruct wide). fold size. rewrite (proj2 (Z.ltb_ge _ _)) by lia.
  destruct (begin_Ok p v wide (v_exts v ++ [(id, [])]) Hp Hpl Hpad Hwide) as (p1 & mid & rest & -> & Hmid & Hm & Ht & Hf & He & Hc);
    [ by destruct (v_exts v) | unfold size in *; lia |].
  rewrite bind_Ok. pose proof (length_before_exts (w_exts wide (v_exts v ++ [(id, [])]) v)) as Hbl.
  change (exts_start (w_exts _ _ _)) with (exts_start v) in Hbl.
  set (before := before_exts _) in Hm, Hbl. pose proof Hc as Hcap. unfold capacity in Hc at 1.
  rewrite Hm, !length_app, length_be16 in Hc.
  destruct (split_at rest (ext_header wide)) as (old & rest1 & -> & Hold & _); [ unfold size in *; lia |].
  rewrite length_app in Hc.
  destruct (split_at rest1 len) as (val & rest2 & -> & Hval & _); [ unfold size in *; lia |].
  rewrite length_app in Hc. rewrite !Forall_app in Ht. destruct Ht as (_ & Hvb & Ht).
  set (pre := before ++ be16 (profile wide) ++ mid ++ exts_bytes wide (v_exts v)).
  assert (Hpre : exts_start v + zlen (exts_bytes wide (v_exts v)) = zlen pre) by (unfold pre; rewrite !length_app, length_be16; lia).
  rewrite Hpre, <- Hval. rewrite (write_header_Ok p1 pre old val rest2); [| unfold pre; rewrite Hm, <- !app_assoc; done | done | done | lia ].
  rewrite bind_Ok, dchecked_u16_Ok, bind_Ok, dchecked_u8_Ok, bind_Ok, u8_id by (destruct wide; unfold size, exts_start in *; lia).
  cbn [with_mem with_buffer fields]. rewrite Hf, Hent.
  replace (zlen pre + ext_header wide) with (exts_start v + size - zlen val) by (unfold size; lia).
  eexists _, val, mid, rest2. split; [ reflexivity |]. split_and!; try done.
  - split; [ done |]. rewrite <- Hc. unfold capacity, pre. cbn [with_fields with_mem with_buffer buffer_ cow_mem].
    rewrite !length_app, length_be16. pose proof (length_ext_bytes wide (id, val)) as Hb. cbn [snd] in Hb. lia.
  - cbn [with_fields with_mem with_buffer buffer_ cow_mem w_exts v_exts]. unfold pre. rewrite exts_bytes_snoc, <- !app_assoc.
    f_equal. apply before_exts_any; by destruct (v_exts v).
  - cbn [with_fields fields]. rewrite (ho_fields _ _ _ Hp). unfold fields_of, set_extensions_, set_payload_offset_.
    cbn [w_exts v_marker v_type v_padding v_seq v_time v_ssrc v_payload v_exts v_wide marker_ payload_type_ padding_size_
      sequence_number_ timestamp_ rtp_ssrc_ payload_offset_ payload_size_ extension_entries_ extensions_size_].
    rewrite entries_app. cbn [entries fst snd]. change (exts_start (w_exts _ _ v)) with (exts_start v).
    do 4 f_equal. f_equal. unfold size. lia.
Qed.

Lemma append_Ok p v wide id len :
  can_add p v wide id len -> (v_exts v <> [] -> v_wide v = wide) ->
  added p v wide id len (append_extension fresh p (exts_start v) (profile wide) id len).
Proof.
  intros Hca Hwide. unfold added. set (size := _ + _ + len). pose proof Hca as [Hp Hpl Hpad Hid Hidr Hlen Hmax]. fold size in Hmax.
  case_decide as Hfull.
  { destruct (added_to _ _ _ _ _ Hca Hwide) as [Hsz _].
    unfold append_extension. rewrite Hsz, profile_one_byte.
    replace (if negb wide then kOneByteExtensionHeaderLength else kTwoByteExtensionHeaderLength) with (ext_header wide)
      by (by destruct wide). fold size. by rewrite (proj2 (Z.ltb_lt _ _)) by lia. }
  destruct (append_prepare p v wide id len Hca Hwide ltac:(fold size; lia))
    as (p2 & val & mid & rest & -> & Hval & Hvb & Hmid & Hrest & Hroom & Hm & Hf). fold size in Hf |- *.
  set (v' := w_exts wide (v_exts v ++ [(id, val)]) v) in *.
  assert (Hbytes : zlen (exts_bytes wide (v_exts v')) = size).
  { cbn [v' w_exts v_exts]. rewrite exts_bytes_snoc, length_app, Nat2Z.inj_add, length_ext_bytes. cbn [snd]. unfold size. lia. }
  assert (Hcap : capacity (buffer_ p) = exts_start v + size + zlen rest).
  { destruct Hroom as [_ <-]. unfold capacity. rewrite Hm, !length_app, length_be16.
    pose proof (length_before_exts v') as Hb. change (exts_start v') with (exts_start v) in Hb. lia. }
  case_decide as Hover.
  - rewrite (close_block_overrun p2 (before_exts v' ++ be16 (profile wide)) mid (exts_bytes wide (v_exts v')) rest); try done.
    + by rewrite Hm, <- app_assoc.
    + by rewrite Hf, Hbytes.
    + rewrite length_app, length_be16. pose proof (length_before_exts v') as Hb. change (exts_start v') with (exts_start v) in Hb. lia.
    + rewrite Hbytes. lia.
    + rewrite Hbytes. unfold exts_start in *. lia.
  - assert (Hok' : pkt_ok v').
    { apply pkt_ok_exts; [ apply Hp | | | cbn [v' w_exts v_exts] in Hbytes; rewrite Hbytes; lia ].
      - apply Forall_app. split; [| apply Forall_singleton; split_and!; cbn [fst snd]; (lia || done) ].
        destruct (decide (v_exts v = [])) as [-> | Hne]; [ constructor | rewrite <- (Hwide Hne); apply Hp ].
      - rewrite map_app. apply list.NoDup_app. split_and!; [ apply Hp | | apply NoDup_singleton ].
        intros x Hx ->%list_elem_of_singleton. done. }
    destruct (finish_block p2 v' mid rest) as (p3 & E3 & HB & HR); try done.
    + by destruct (v_exts v).
    + change (v_wide v') with wide. rewrite Hbytes. lia.
    + rewrite Hf. unfold built_size. change (v_wide v') with wide. by rewrite Hbytes.
    + change (exts_start v') with (exts_start v) in *. rewrite E3, bind_Ok. eexists _, val. split_and!; [ reflexivity | done | exact HB |].
      destruct Hroom, HR. split; congruence.
Qed.

(** Whether the new extension needs the two-byte format, and whether all will
    have it. *)
Definition needs_wide (id len : Z) : bool := (14 <? id) || (16 <? len).
Definition add_wide (v : Pkt) (id len : Z) : bool :=
  (match v_exts v with [] => false | _ => v_wide v end) || needs_wide id len.

Lemma find_entry_none wide off es id :
  id ∉ map fst es -> FindExtensionInfo id (entries wide off es) = None.
Proof.
  intros Hid. unfold FindExtensionInfo. rewrite (proj2 (list_find_None _ _)); [ done |].
  apply list.Forall_forall. intros e He Heq. apply Hid. rewrite <- (map_id_entries wide off), <- Heq.
  apply list_elem_of_In, in_map, list_elem_of_In, He.
Qed.

(** Adding an extension that needs the two-byte format to those in the other. *)
Lemma promote_append p v id len :
  can_add p v true id len -> v_exts v <> [] -> v_wide v = false ->
  added p v true id len
    (if capacity (buffer_ p) <? exts_start v + (zlen (exts_bytes false (v_exts v)) + zlen (v_exts v) + 2 + len) then Ok (p, None)
     else p ← PromoteToTwoByteHeaderExtension fresh p;
          append_extension fresh p (exts_start v) kTwoByteExtensionProfileId id len).
Proof.
  intros [Hp Hpl Hpad Hid Hidr Hlen Hmax] Hne Hwide. unfold added. cbn [ext_header] in *.
  pose proof (length_exts_wide (v_exts v)) as Hlw. rewrite <- Hlw. set (size := zlen (exts_bytes true (v_exts v))) in *.
  pose proof (words_bounds size ltac:(lia)) as Hw. pose proof (words_bounds (size + 2 + len) ltac:(lia)) as Hw'.
  case_decide as Hfull; [ by rewrite (proj2 (Z.ltb_lt _ _)) by lia |].
  rewrite (proj2 (Z.ltb_ge _ _)) by lia.
  destruct (Promote_Ok p v Hp Hpl Hpad Hne Hwide) as (p1 & -> & Hp1 & Hr1 & Hc1); [ fold size; lia | fold size; lia |].
  rewrite bind_Ok. pose proof (append_Ok p1 (w_exts true (v_exts v) v) true id len) as Happ.
  unfold added in Happ. cbn [w_exts v_exts v_wide ext_header] in Happ. change (exts_start (w_exts _ _ v)) with (exts_start v) in Happ.
  fold size in Happ. rewrite Hc1, decide_False in Happ by done.
  specialize (Happ ltac:(done) ltac:(done)). case_decide as Hover; [ exact Happ |].
  destruct Happ as (p' & val & E & Hval & Hb & Hr). exists p', val. split_and!; try done. destruct Hr. split; congruence.
Qed.

Lemma AllocateRawExtension_Ok p v id len :
  can_add p v (add_wide v id len) id len -> (needs_wide id len = true -> extmap_allow_mixed_ (extensions_ p) = true) ->
  added p v (add_wide v id len) id len (AllocateRawExtension fresh p id len).
Proof.
  intros Hca Hmixed. pose proof Hca as [Hp Hpl Hpad Hid Hidr Hlen Hmax]. pose proof Hp as [Hok Hf _ _].
  unfold AllocateRawExtension, kMinId, kMaxId, kMaxValueSize.
  rewrite !RTC_DCHECK_Ok, !bind_Ok by (destruct (add_wide v id len); lia).
  unfold payload_size, padding_size, data_at. rewrite Hf.
  cbn [fields_of extension_entries_ payload_size_ padding_size_ extensions_size_]. rewrite find_entry_none by done.
  rewrite Hpl, Hpad. cbn [length]. change (0 <? Z.of_nat 0) with false. change (0 <? 0) with false. cbv iota.
  destruct (bare_mem _ _ _ Hp Hpl Hpad) as (tail & Hm & Ht & Hc). pose proof (length_before_exts v) as Hbl.
  assert (Hb0 : get (cow_mem (buffer_ p)) 0 = Ok (first_byte v)) by (by rewrite Hm).
  rewrite Hb0, bind_Ok, first_byte_csrcs by done.
  replace (kFixedHeaderSize + zlen (v_csrcs v) * 4 + 4) with (exts_start v) by (unfold exts_start, kFixedHeaderSize; lia).
  replace ((kOneByteHeaderExtensionMaxId <? id) || (kOneByteHeaderExtensionMaxValueSize <? len) || (len =? 0)) with (needs_wide id len)
    by (unfold needs_wide; rewrite (proj2 (Z.eqb_neq len 0)) by lia; by rewrite orb_false_r).
  rewrite RTC_CHECK_Ok, bind_Ok by (destruct (needs_wide id len); [ by rewrite Hmixed | done ]). rewrite length_entries.
  unfold built_size. destruct (decide (v_exts v = [])) as [Hnil | Hne].
  { rewrite Hnil. cbn [exts_bytes map concat length]. change (0 <? Z.of_nat 0) with false. cbv iota.
    assert (Ew : add_wide v id len = needs_wide id len) by (unfold add_wide; by rewrite Hnil).
    rewrite Ew in *. apply append_Ok; [ done |]. rewrite Hnil. done. }
  assert (Ew : add_wide v id len = v_wide v || needs_wide id len) by (unfold add_wide; by destruct (v_exts v)).
  rewrite (proj2 (Z.ltb_lt _ _)) by (by apply exts_nonempty).
  destruct (ext_block_some (v_wide v) (v_exts v) Hne) as (pad & Eb & _).
  assert (Hr : read_be16 (cow_mem (buffer_ p)) (exts_start v - 4) = Ok (profile (v_wide v))).
  { rewrite Hm, Eb, <- !app_assoc. apply read_be16_mid; [ lia |]. by destruct (v_wide v). }
  rewrite Hr, bind_Ok, profile_one_byte.
  destruct (v_wide v) eqn:Hwide; cbn [negb andb orb] in *.
  { rewrite Ew in *. by apply append_Ok. }
  destruct (needs_wide id len) eqn:Hneeds; rewrite Ew in *; [| by apply append_Ok ].
  unfold kTwoByteExtensionHeaderLength. by apply promote_append.
Qed.

End Extensions.
