(* ===== verification/RtpPacketOps.v ===== *)
(** * The operations of RTP packets

    What the rest of the stack does with packets, against the packets of
    [RtpPacketWire]: extension values are written, found and zeroed, CSRCs are
    set, packets are parsed, headers copied and extensions removed. At the end
    a packet made by any sequence of calls is on the wire what the calls say,
    and its receiver parses the same packet. *)
From S2P Require Import Prelude.
From S2P Require Import RtpFecCodec.
From S2P Require Import RtpFecAlgebra.
From S2P Require Import ExtensionMap.
From S2P Require Import RtpPacket.
From S2P Require Import RtpPacketWire.
From S2P Require Import RtpPacketBuild.
From S2P Require Import RtpPacketExt.
From stdpp Require Import base list list_numbers numbers option tactics.
From Stdlib Require Import ZArith Lia.

#[local] Open Scope Z_scope.

(** ** Values of extensions *)

(** The extension after [es1] has another value of the same size. *)
Definition w_value (es1 : list (Z * list Z)) (id : Z) (val : list Z) (es2 : list (Z * list Z)) (v : Pkt) : Pkt :=
  w_exts (v_wide v) (es1 ++ (id, val) :: es2) v.

Lemma exts_bytes_cons wide e es : exts_bytes wide (e :: es) = ext_bytes wide e ++ exts_bytes wide es.
Proof. done. Qed.

Lemma entries_value wide off es1 id val val' es2 :
  zlen val = zlen val' -> entries wide off (es1 ++ (id, val) :: es2) = entries wide off (es1 ++ (id, val') :: es2).
Proof. intros Hl. rewrite !entries_app. cbn [entries fst snd]. by rewrite Hl. Qed.

Lemma ext_bytes_split wide id val : exists hd, ext_bytes wide (id, val) = hd ++ val /\ zlen hd = ext_header wide /\
  forall val', zlen val' = zlen val -> ext_bytes wide (id, val') = hd ++ val'.
Proof.
  unfold ext_bytes, ext_header. destruct wide; cbn [fst snd].
  - exists [id; zlen val]. split_and!; [ done | done |]. by intros val' ->.
  - exists [id * 16 + (zlen val - 1)]. split_and!; [ done | done |]. by intros val' ->.
Qed.

(** Where a value is in the wire format. *)
Lemma wire_value v es1 id val es2 :
  v_exts v = es1 ++ (id, val) :: es2 ->
  exists pre post, wire v = pre ++ val ++ post /\
    zlen pre = exts_start v + zlen (exts_bytes (v_wide v) es1) + ext_header (v_wide v) /\
    forall val', zlen val' = zlen val -> wire (w_value es1 id val' es2 v) = pre ++ val' ++ post.
Proof.
  intros He. set (wide := v_wide v). destruct (ext_bytes_split wide id val) as (hd & Ehd & Hhd & Hsame).
  assert (Hne : forall val', es1 ++ (id, val') :: es2 <> []) by (intros val'; by destruct es1).
  assert (Hlen : forall val', zlen val' = zlen val ->
    zlen (exts_bytes wide (es1 ++ (id, val') :: es2)) = zlen (exts_bytes wide (v_exts v))).
  { intros val' Hl. rewrite He, !exts_bytes_app, !exts_bytes_cons, !length_app, !Nat2Z.inj_add, !length_ext_bytes. cbn [snd]. lia. }
  set (n := zlen (exts_bytes wide (v_exts v))) in *.
  exists (before_exts v ++ be16 (profile wide) ++ be16 (words n) ++ exts_bytes wide es1 ++ hd).
  exists (exts_bytes wide es2 ++ replicate (Z.to_nat (4 * words n - n)) 0 ++ v_payload v ++ pad_bytes (v_padding v)).
  assert (Hblock : forall val', zlen val' = zlen val -> ext_block wide (es1 ++ (id, val') :: es2) =
    be16 (profile wide) ++ be16 (words n) ++ (exts_bytes wide es1 ++ (hd ++ val') ++ exts_bytes wide es2) ++
    replicate (Z.to_nat (4 * words n - n)) 0).
  { intros val' Hl. transitivity (let bytes := exts_bytes wide (es1 ++ (id, val') :: es2) in
      be16 (profile wide) ++ be16 (words (zlen bytes)) ++ bytes ++ replicate (Z.to_nat (4 * words (zlen bytes) - zlen bytes)) 0).
    - unfold ext_block. by destruct es1.
    - cbv zeta. rewrite (Hlen val' Hl), exts_bytes_app, exts_bytes_cons, (Hsame val' Hl). done. }
  assert (Hbefore : forall val', before_exts (w_value es1 id val' es2 v) = before_exts v).
  { intros val'. apply before_exts_same; [ done | by rewrite He ]. }
  split_and!.
  - unfold wire. rewrite header_before, He. fold wide. rewrite Hblock by done. by rewrite <- !app_assoc.
  - rewrite !length_app, !length_be16. pose proof (length_before_exts v). lia.
  - intros val' Hl. unfold wire. rewrite header_before, Hbefore. cbn [w_value w_exts v_wide v_exts v_payload v_padding]. fold wide.
    rewrite Hblock by done. by rewrite <- !app_assoc.
Qed.

(** Memory where a value can be changed. *)
Lemma value_mem k p v es1 id val es2 :
  holds k p v -> v_exts v = es1 ++ (id, val) :: es2 ->
  exists pre post, cow_mem (buffer_ p) = pre ++ val ++ post /\
    zlen pre = exts_start v + zlen (exts_bytes (v_wide v) es1) + ext_header (v_wide v) /\
    forall val', zlen val' = zlen val -> Forall is_byte val' ->
      holds k (with_mem (pre ++ val' ++ post) p) (w_value es1 id val' es2 v) /\ same_room p (with_mem (pre ++ val' ++ post) p).
Proof.
  intros [Hok Hf Hs (tail & Hm & Ht)] He. destruct (wire_value v es1 id val es2 He) as (pre & post & Hw & Hpre & Hnew).
  exists pre, (post ++ tail). split_and!; [ by rewrite Hm, Hw, <- !app_assoc | done |]. intros val' Hl Hb.
  assert (Hlw : zlen (wire (w_value es1 id val' es2 v)) = zlen (wire v)) by (rewrite Hw, Hnew, !length_app by done; lia).
  assert (Hlh : zlen (header (w_value es1 id val' es2 v)) = zlen (header v)).
  { pose proof (length_wire v) as H1. pose proof (length_wire (w_value es1 id val' es2 v)) as H2.
    pose proof (po_padding _ Hok). cbn [w_value w_exts v_padding v_payload] in H2. lia. }
  split; [ split; cbn [with_mem with_buffer fields buffer_ cow_mem cow_size] |].
  - destruct Hok as [H1 H2 H3 H4 H5 H6 H7 H8 H9 H10]. rewrite He in H6, H7.
    split; try done; cbn [w_value w_exts v_exts v_wide].
    + apply Forall_app in H6 as [Ha [Hv Hb']%Forall_cons_1]. apply Forall_app. split; [ done |]. constructor; [| done ].
      destruct Hv as (Hi & Hv & _). split_and!; [ apply Hi | apply Hi | cbn [snd] in *; lia | cbn [snd] in *; lia | done ].
    + rewrite map_app in *. exact H7.
    + lia.
  - rewrite Hf. unfold fields_of. rewrite Hlh. cbn [w_value w_exts v_marker v_type v_padding v_seq v_time v_ssrc v_payload v_exts v_wide].
    change (exts_start (w_value es1 id val' es2 v)) with (exts_start v). rewrite He.
    by rewrite (entries_value _ _ _ _ val val').
  - lia.
  - exists tail. split; [| done ]. rewrite Hnew, <- !app_assoc by done. done.
  - split; [ done |]. unfold capacity. cbn [with_mem with_buffer buffer_ cow_mem]. rewrite Hm, Hw, !length_app. lia.
Qed.

(** ** Finding an extension *)

Definition ext_value (id : Z) (es : list (Z * list Z)) : option (list Z) := snd ∘ snd <$> list_find (fun e => e.1 = id) es.

Lemma ext_value_split id es val :
  ext_value id es = Some val -> exists es1 es2, es = es1 ++ (id, val) :: es2 /\ id ∉ map fst es1.
Proof.
  unfold ext_value. destruct (list_find _ es) as [[i [id' val']] |] eqn:Hf; [| done ]. intros [= ->].
  apply list_find_Some in Hf as (Hi & Heq & Hbefore). cbn in Heq. subst id'.
  exists (take i es), (drop (S i) es). split; [ symmetry; by apply take_drop_middle |].
  intros ([id1 v1] & -> & Hin)%list_elem_of_fmap. apply list_elem_of_lookup in Hin as [j Hj].
  apply lookup_take_Some in Hj as [Hj Hlt]. by apply (Hbefore j _ Hj Hlt).
Qed.

Lemma ext_value_none id es : ext_value id es = None -> id ∉ map fst es.
Proof.
  unfold ext_value. destruct (list_find _ es) as [x |] eqn:Hf; [ done |]. intros _ ([id1 v1] & -> & Hin)%list_elem_of_fmap.
  apply list_find_None in Hf. rewrite list.Forall_forall in Hf. by apply (Hf _ Hin).
Qed.

Lemma find_entry wide off es1 id val es2 :
  id ∉ map fst es1 ->
  FindExtensionInfo id (entries wide off (es1 ++ (id, val) :: es2)) =
    Some (mkInfo id (zlen val) (off + zlen (exts_bytes wide es1) + ext_header wide)).
Proof.
  intros Hid. rewrite entries_app. unfold FindExtensionInfo. cbn [entries fst snd].
  rewrite list_find_app_r.
  - cbn [list_find ei_id]. rewrite decide_True by done. done.
  - pose proof (find_entry_none wide off es1 id Hid) as Hn. unfold FindExtensionInfo in Hn. by destruct (list_find _ (entries _ _ es1)).
Qed.

(** The payload of a packet. *)
Lemma payload_view k p v : holds k p v -> payload p = Ok (v_payload v).
Proof.
  intros [Hok Hf Hs (tail & Hm & Ht)]. unfold payload, headers_size, payload_size. rewrite Hf, Hm.
  cbn [fields_of payload_offset_ payload_size_]. unfold wire. rewrite <- !app_assoc. by apply slice_mid.
Qed.

Section Ops.
Context `{CheckMode} (fresh : nat -> list Z).
Context (Hfresh : fresh_ok fresh).

(** The view [FindExtension] answers with has the value of the extension. *)
Lemma FindExtension_Ok k p v type :
  holds k p v -> map_ok (extensions_ p) -> type <> kRtpExtensionNone ->
  FindExtension p type = Ok (if decide (id_of (extensions_ p) type = kInvalidId) then None
                             else ext_value (id_of (extensions_ p) type) (v_exts v)).
Proof.
  intros Hp Hmap Ht. unfold FindExtension. rewrite GetId_Ok, bind_Ok by done. set (id := id_of _ _).
  destruct (Z.eqb_spec id kInvalidId) as [E | E]; [ by rewrite decide_True | rewrite decide_False by done ].
  rewrite (ho_fields _ _ _ Hp). cbn [fields_of extension_entries_].
  destruct (ext_value id (v_exts v)) as [val |] eqn:Hv.
  - destruct (ext_value_split _ _ _ Hv) as (es1 & es2 & Ees & Hid). rewrite Ees, find_entry by done. cbn [ei_offset ei_length].
    destruct (value_mem _ _ _ _ _ _ _ Hp Ees) as (pre & post & Hm & Hpre & _). rewrite Hm, <- Hpre.
    by rewrite slice_mid.
  - by rewrite find_entry_none by (by apply ext_value_none).
Qed.

(** ** Setting an extension *)

Definition add_ext (id : Z) (val : list Z) (v : Pkt) : Pkt :=
  w_exts (add_wide v id (zlen val)) (v_exts v ++ [(id, val)]) v.

(** What an extension needs in the packet [v]: room up to the end of the block. *)
Definition room_for (v : Pkt) (id len cap : Z) : Prop :=
  let wide := add_wide v id len in
  let n := exts_start v + 4 * words (zlen (exts_bytes wide (v_exts v)) + ext_header wide + len) in
  n <= cap /\ n < 2 ^ 16.

Lemma needs_wide_false id len : 1 <= id <= 255 -> 1 <= len <= 255 -> needs_wide id len = false -> id <= 14 /\ len <= 16.
Proof. unfold needs_wide. intros. lia. Qed.

(** The format chosen suits the extension. *)
Lemma add_wide_range v id len :
  1 <= id <= 255 -> 1 <= len <= 255 ->
  1 <= id <= (if add_wide v id len then 255 else 14) /\ 1 <= len <= (if add_wide v id len then 255 else 16).
Proof.
  intros Hid Hlen. unfold add_wide. destruct (needs_wide id len) eqn:E; rewrite ?orb_true_r; [ lia |].
  destruct (needs_wide_false id len Hid Hlen E). rewrite orb_false_r. destruct (match v_exts v with [] => _ | _ => _ end); lia.
Qed.

Lemma AllocateExtension_new p v type len :
  let m := extensions_ p in let id := id_of m type in
  built p v -> map_ok m -> type <> kRtpExtensionNone -> id <> kInvalidId -> id ∉ map fst (v_exts v) ->
  v_payload v = [] -> v_padding v = 0 ->
  1 <= len <= 255 -> (needs_wide id len = true -> extmap_allow_mixed_ m = true) -> room_for v id len (capacity (buffer_ p)) ->
  exists p' val, zlen val = len /\ built p' (add_ext id val v) /\ same_room p p' /\
    AllocateExtension fresh p type len =
      Ok (p', Some (exts_start v + zlen (exts_bytes (add_wide v id len) (v_exts v)) + ext_header (add_wide v id len), len)).
Proof.
  intros m id Hp Hmap Ht Hid0 Hid Hpl Hpad Hlen Hmixed [Hroom Hmax]. unfold AllocateExtension. fold m.
  pose proof (mo_range _ Hmap type) as Hrange. fold id in Hrange. unfold kInvalidId, kMaxId in *.
  unfold needs_wide in Hmixed. unfold kMaxValueSize, kOneByteHeaderExtensionMaxValueSize, kOneByteHeaderExtensionMaxId.
  rewrite (proj2 (Z.eqb_neq len 0)), (proj2 (Z.ltb_ge 255 len)) by lia. cbn [orb].
  rewrite GetId_Ok, bind_Ok by done. fold id. rewrite (proj2 (Z.eqb_neq id 0)) by done.
  assert (Hmix : negb (extmap_allow_mixed_ m) && (16 <? len) = false /\ negb (extmap_allow_mixed_ m) && (14 <? id) = false).
  { destruct (extmap_allow_mixed_ m); [ done |]. cbn [negb andb]. lia. }
  destruct Hmix as [-> ->].
  assert (Hca : can_add p v (add_wide v id len) id len).
  { destruct (add_wide_range v id len ltac:(lia) Hlen). by split. }
  pose proof (AllocateRawExtension_Ok fresh p v id len Hca Hmixed) as Hadd. unfold added in Hadd.
  set (size := _ + _ + len) in *. pose proof (words_bounds size ltac:(unfold size, ext_header; destruct (add_wide v id len); lia)).
  rewrite !decide_False in Hadd by lia. destruct Hadd as (p' & val & E & Hval & Hb & Hr). exists p', val. rewrite E.
  split_and!; [ done | | done |].
  - unfold add_ext. by rewrite Hval.
  - do 4 f_equal. unfold size. lia.
Qed.

(** The value of the extension added last. *)
Lemma fill_value p v wide es id old val :
  built p (w_exts wide (es ++ [(id, old)]) v) -> zlen val = zlen old -> Forall is_byte val ->
  exists pre post, cow_mem (buffer_ p) = pre ++ old ++ post /\
    zlen pre = exts_start v + zlen (exts_bytes wide es) + ext_header wide /\
    built (with_mem (pre ++ val ++ post) p) (w_exts wide (es ++ [(id, val)]) v) /\ same_room p (with_mem (pre ++ val ++ post) p).
Proof.
  intros Hp Hlen Hval. destruct (value_mem _ _ _ es id old [] Hp eq_refl) as (pre & post & Hm & Hpre & Hnew).
  exists pre, post. destruct (Hnew val Hlen Hval) as [Hb Hr]. split_and!; [ done | done | | done ].
  unfold built in *. replace (built_size (w_exts wide (es ++ [(id, val)]) v)) with
    (built_size (w_exts wide (es ++ [(id, old)]) v)); [ exact Hb |].
  unfold built_size. cbn [w_exts v_wide v_exts]. rewrite !exts_bytes_snoc, !length_app, !Nat2Z.inj_add, !length_ext_bytes. cbn [snd]. lia.
Qed.

(** [SetRawExtension] adds an extension that is not there yet, ... *)
Lemma SetRawExtension_new p v type val :
  let m := extensions_ p in let id := id_of m type in
  built p v -> map_ok m -> type <> kRtpExtensionNone -> id <> kInvalidId -> id ∉ map fst (v_exts v) ->
  v_payload v = [] -> v_padding v = 0 -> Forall is_byte val ->
  1 <= zlen val <= 255 -> (needs_wide id (zlen val) = true -> extmap_allow_mixed_ m = true) ->
  room_for v id (zlen val) (capacity (buffer_ p)) ->
  exists p', SetRawExtension fresh p type val = Ok (p', true) /\ built p' (add_ext id val v) /\ same_room p p'.
Proof.
  intros m id Hp Hmap Ht Hid0 Hid Hpl Hpad Hval Hlen Hmixed Hroom.
  destruct (AllocateExtension_new p v type (zlen val)) as (p1 & old & Hold & Hp1 & [Hr1 Hr2] & E); try done. fold m id in Hp1, E.
  unfold SetRawExtension. rewrite E, bind_Ok. unfold write_mem. unfold add_ext in *. rewrite Hold in Hp1.
  destruct (fill_value _ _ _ _ _ _ val Hp1 ltac:(lia) Hval) as (pre & post & Hm & Hpre & Hb & Hr3 & Hr4). rewrite Hm.
  rewrite <- Hpre, memcpy_mid, !bind_Ok by (done || lia). eexists. split_and!; [ done | exact Hb | split; congruence ].
Qed.

(** [ReserveExtension] adds one with the value zero. *)
Lemma ReserveExtension_new p v type len :
  let m := extensions_ p in let id := id_of m type in
  built p v -> map_ok m -> type <> kRtpExtensionNone -> id <> kInvalidId -> id ∉ map fst (v_exts v) ->
  v_payload v = [] -> v_padding v = 0 ->
  1 <= len <= 255 -> (needs_wide id len = true -> extmap_allow_mixed_ m = true) -> room_for v id len (capacity (buffer_ p)) ->
  exists p', ReserveExtension fresh p type len = Ok (p', true) /\ built p' (add_ext id (replicate (Z.to_nat len) 0) v) /\ same_room p p'.
Proof.
  intros m id Hp Hmap Ht Hid0 Hid Hpl Hpad Hlen Hmixed Hroom.
  destruct (AllocateExtension_new p v type len) as (p1 & old & Hold & Hp1 & [Hr1 Hr2] & E); try done. fold m id in Hp1, E.
  unfold ReserveExtension. rewrite E, bind_Ok. unfold write_mem, add_ext in *. rewrite length_replicate, Z2Nat.id by lia. rewrite Hold in Hp1.
  destruct (fill_value _ _ _ _ _ _ (replicate (Z.to_nat len) 0) Hp1) as (pre & post & Hm & Hpre & Hb & Hr3 & Hr4).
  { rewrite length_replicate. lia. }
  { apply Forall_replicate. unfold is_byte. lia. }
  rewrite Hm, <- Hpre, memset_mid, !bind_Ok by (done || lia). replace (length old) with (Z.to_nat len) by lia. eexists. split_and!; [ done | exact Hb | split; congruence ].
Qed.

(** An extension that has no id, or one that needs the two-byte format where
    only the other is allowed, is refused. *)
Lemma AllocateExtension_refused p type len :
  let m := extensions_ p in let id := id_of m type in
  map_ok m -> type <> kRtpExtensionNone ->
  id = kInvalidId \/ extmap_allow_mixed_ m = false /\ needs_wide id len = true -> AllocateExtension fresh p type len = Ok (p, None).
Proof.
  intros m id Hmap Ht Hno. unfold AllocateExtension. fold m.
  unfold kMaxValueSize, kOneByteHeaderExtensionMaxValueSize, kOneByteHeaderExtensionMaxId.
  destruct (_ || (255 <? len)); [ done |]. cbn [orb]. rewrite GetId_Ok by done. fold id.
  destruct Hno as [E | [Em Hw]].
  - rewrite bind_Ok, E. by destruct (_ && _).
  - rewrite Em, bind_Ok. cbn [negb andb]. unfold needs_wide in Hw. destruct (16 <? len); [ done |]. rewrite orb_false_r in Hw. rewrite Hw.
    by destruct (id =? kInvalidId).
Qed.

(** ... and replaces the value of one that is. *)
Lemma SetRawExtension_again k p v type val es1 old es2 :
  let m := extensions_ p in let id := id_of m type in
  holds k p v -> map_ok m -> type <> kRtpExtensionNone -> v_exts v = es1 ++ (id, old) :: es2 -> id ∉ map fst es1 ->
  zlen val = zlen old -> Forall is_byte val -> (needs_wide id (zlen val) = true -> extmap_allow_mixed_ m = true) ->
  exists p', SetRawExtension fresh p type val = Ok (p', true) /\ holds k p' (w_value es1 id val es2 v) /\ same_room p p'.
Proof.
  intros m id Hp Hmap Ht Ees Hid Hlen Hval Hmixed. pose proof (po_exts _ (ho_ok _ _ _ Hp)) as Hes. rewrite Ees in Hes.
  apply Forall_app in Hes as [_ [He _]%Forall_cons_1]. destruct He as (Hidr & Hold & _). cbn [fst snd] in *.
  assert (Hb : 1 <= id <= 255 /\ 1 <= zlen old <= 255) by (destruct (v_wide v); lia).
  unfold SetRawExtension, AllocateExtension. fold m. unfold needs_wide in Hmixed.
  unfold kMaxValueSize, kOneByteHeaderExtensionMaxValueSize, kOneByteHeaderExtensionMaxId, kInvalidId.
  rewrite (proj2 (Z.eqb_neq (zlen val) 0)), (proj2 (Z.ltb_ge 255 (zlen val))) by lia. cbn [orb].
  rewrite GetId_Ok, bind_Ok by done. fold id. rewrite (proj2 (Z.eqb_neq id 0)) by lia.
  assert (Hmix : negb (extmap_allow_mixed_ m) && (16 <? zlen val) = false /\ negb (extmap_allow_mixed_ m) && (14 <? id) = false).
  { destruct (extmap_allow_mixed_ m); [ done |]. cbn [negb andb]. lia. }
  destruct Hmix as [-> ->]. unfold AllocateRawExtension, kMinId, kMaxId, kMaxValueSize.
  rewrite !RTC_DCHECK_Ok, !bind_Ok by (apply Z.leb_le; lia). rewrite (ho_fields _ _ _ Hp). cbn [fields_of extension_entries_].
  rewrite Ees, find_entry by done. cbn [ei_length ei_offset]. rewrite (proj2 (Z.eqb_eq _ _)), bind_Ok by lia.
  destruct (value_mem _ _ _ _ _ _ _ Hp Ees) as (pre & post & Hm & Hpre & Hnew). unfold write_mem. rewrite Hm, <- Hpre.
  rewrite memcpy_mid, !bind_Ok by (done || lia). destruct (Hnew val Hlen Hval) as [Hh Hr]. by eexists.
Qed.

(** ** Zeroing the mutable extensions *)

(** The value an extension has once the parts that senders rewrite are zero. *)
Definition zero_value (m : ExtensionMap) (id : Z) (val : list Z) : list Z :=
  if decide (id = id_of m kRtpExtensionVideoTiming) then
    if decide (zlen val <= 7) then val else take 7 val ++ replicate (length val - 7) 0
  else if decide (id ∈ [id_of m kRtpExtensionTransportSequenceNumber; id_of m kRtpExtensionTransportSequenceNumber02;
                        id_of m kRtpExtensionTransmissionTimeOffset; id_of m kRtpExtensionAbsoluteSendTime])
  then replicate (length val) 0
  else val.
Definition zero_exts (m : ExtensionMap) (es : list (Z * list Z)) : list (Z * list Z) :=
  map (fun e => (e.1, zero_value m e.1 e.2)) es.
Definition zero_mutable (m : ExtensionMap) (v : Pkt) : Pkt := w_exts (v_wide v) (zero_exts m (v_exts v)) v.

Lemma length_zero_value m id val : zlen (zero_value m id val) = zlen val.
Proof. unfold zero_value. repeat case_decide; rewrite ?length_app, ?length_take, ?length_replicate; lia. Qed.

Lemma zero_value_bytes m id val : Forall is_byte val -> Forall is_byte (zero_value m id val).
Proof.
  intros Hv. assert (Hz : forall n, Forall is_byte (replicate n 0)) by (intros n; apply Forall_replicate; unfold is_byte; lia).
  unfold zero_value. repeat case_decide; auto. apply Forall_app. split; [ by apply Forall_take | done ].
Qed.

(** What one turn writes. *)
Lemma zero_value_type m id type val :
  map_ok m -> 1 <= id -> (type <> kRtpExtensionNone /\ id_of m type = id \/ type = kInvalidType /\ forall t, id_of m t <> id) ->
  zero_value m id val =
    match type with
    | kRtpExtensionVideoTiming => if decide (zlen val <= 7) then val else take 7 val ++ replicate (length val - 7) 0
    | kRtpExtensionTransportSequenceNumber | kRtpExtensionTransportSequenceNumber02
    | kRtpExtensionTransmissionTimeOffset | kRtpExtensionAbsoluteSendTime => replicate (length val) 0
    | _ => val
    end.
Proof.
  intros Hmap Hid Hty. assert (Hne : forall t, t <> kRtpExtensionNone -> (id = id_of m t <-> type = t)).
  { intros t Ht. destruct Hty as [[Hn He] | [-> Hno]].
    - split; [| by intros <- ]. intros E. apply (mo_unique _ Hmap); [ congruence |]. rewrite He. unfold kInvalidId. lia.
    - split; [ intros E; by destruct (Hno t) |]. intros <-. by destruct Ht. }
  unfold zero_value. case_decide as E1; rewrite Hne in E1 by done; [ by subst type |].
  case_decide as E2; rewrite !elem_of_cons, elem_of_nil, !Hne in E2 by done.
  - by destruct E2 as [-> | [-> | [-> | [-> | []]]]].
  - destruct type; (done || (exfalso; tauto)).
Qed.

Lemma zero_extension_Ok k p v es1 id val es2 :
  holds k p v -> map_ok (extensions_ p) -> v_exts v = es1 ++ (id, val) :: es2 ->
  exists p', zero_extension p (mkInfo id (zlen val) (exts_start v + zlen (exts_bytes (v_wide v) es1) + ext_header (v_wide v))) = Ok p' /\
    holds k p' (w_value es1 id (zero_value (extensions_ p) id val) es2 v) /\ same_room p p'.
Proof.
  intros Hp Hmap Ees. pose proof (po_exts _ (ho_ok _ _ _ Hp)) as Hes. rewrite Ees in Hes.
  apply Forall_app in Hes as [_ [He _]%Forall_cons_1]. destruct He as (Hidr & _ & Hvb). cbn [fst snd] in *.
  destruct (value_mem _ _ _ _ _ _ _ Hp Ees) as (pre & post & Hm & Hpre & Hnew). rewrite <- Hpre.
  destruct (GetType_Ok (extensions_ p) id Hmap ltac:(destruct (v_wide v); lia)) as (type & Ety & Hty).
  pose proof (Hnew _ (length_zero_value (extensions_ p) id val) (zero_value_bytes _ id val Hvb)) as Hdone.
  rewrite (zero_value_type _ id type val Hmap ltac:(lia) Hty) in *.
  assert (Hall : exists p', write_mem p (fun mem => memset mem (zlen pre) 0 (zlen val)) = Ok p' /\
    p' = with_mem (pre ++ replicate (length val) 0 ++ post) p).
  { unfold write_mem. rewrite Hm, memset_mid, bind_Ok by done. by eexists. }
  assert (Hsame : with_mem (pre ++ val ++ post) p = p) by (rewrite <- Hm; by destruct p as [? ? []]).
  unfold zero_extension. cbn [ei_id ei_length ei_offset]. rewrite Ety, bind_Ok. unfold kPacerExitDeltaOffset.
  destruct type; rewrite ?Hsame in Hdone; try (by eexists); try (destruct Hall as (p' & -> & ->); by eexists).
  case_decide as Hl; [ rewrite (proj2 (Z.ltb_ge _ _)) by lia; rewrite Hsame in Hdone; by eexists |].
  rewrite (proj2 (Z.ltb_lt _ _)) by lia. unfold write_mem. rewrite Hm.
  replace (pre ++ val ++ post) with ((pre ++ take 7 val) ++ drop 7 val ++ post)
    by (by rewrite <- app_assoc, (app_assoc (take 7 val)), take_drop).
  rewrite memset_mid, bind_Ok by (rewrite ?length_app, ?length_take, ?length_drop; lia). rewrite length_drop. eexists. split; [ done |].
  rewrite <- !app_assoc. rewrite <- !app_assoc in Hdone. exact Hdone.
Qed.

Lemma zero_extensions_Ok k m es2 : forall es1 p v,
  map_ok m -> extensions_ p = m -> holds k p v -> v_exts v = es1 ++ es2 ->
  exists p', zero_extensions p (entries (v_wide v) (exts_start v + zlen (exts_bytes (v_wide v) es1)) es2) = Ok p' /\
    holds k p' (w_exts (v_wide v) (es1 ++ zero_exts m es2) v) /\ same_room p p'.
Proof.
  induction es2 as [| [id val] es2 IH ]; intros es1 p v Hmap Em Hp Ees; cbn [entries zero_extensions zero_exts map fst snd].
  { exists p. split_and!; [ done | | done ]. rewrite <- Ees. by destruct v. }
  destruct (zero_extension_Ok k p v es1 id val es2 Hp ltac:(by rewrite Em) Ees) as (p1 & -> & Hp1 & Hr1). rewrite bind_Ok.
  rewrite Em in Hp1. set (v1 := w_value _ _ _ _ v) in Hp1.
  destruct (IH (es1 ++ [(id, zero_value m id val)]) p1 v1 Hmap) as (p2 & E2 & Hp2 & Hr2).
  - by rewrite (proj1 Hr1).
  - done.
  - cbn [v1 w_value w_exts v_exts]. by rewrite <- app_assoc.
  - change (v_wide v1) with (v_wide v) in E2, Hp2. change (exts_start v1) with (exts_start v) in E2.
    rewrite exts_bytes_snoc, length_app, Nat2Z.inj_add, length_ext_bytes in E2. cbn [snd] in E2. rewrite length_zero_value in E2.
    rewrite !Z.add_assoc in E2. rewrite E2. exists p2. split_and!; [ done | | destruct Hr1, Hr2; split; congruence ].
    rewrite <- app_assoc in Hp2. exact Hp2.
Qed.

(** [ZeroMutableExtensions]. *)
Lemma ZeroMutableExtensions_Ok k p v :
  holds k p v -> map_ok (extensions_ p) ->
  exists p', ZeroMutableExtensions p = Ok p' /\ holds k p' (zero_mutable (extensions_ p) v) /\ same_room p p'.
Proof.
  intros Hp Hmap. unfold ZeroMutableExtensions. rewrite (ho_fields _ _ _ Hp). cbn [fields_of extension_entries_].
  destruct (zero_extensions_Ok k _ (v_exts v) [] p v Hmap eq_refl Hp eq_refl) as (p' & E & Hp').
  cbn [exts_bytes map concat length] in E. rewrite Z.add_0_r in E. rewrite E. by exists p'.
Qed.

(** ** CSRCs *)

Lemma write_csrcs_Ok cs : forall pre mid post,
  length mid = length (concat (map be32 cs)) ->
  write_csrcs (zlen pre) cs (pre ++ mid ++ post) = Ok (pre ++ concat (map be32 cs) ++ post).
Proof.
  induction cs as [| c cs IH ]; intros pre mid post Hl; cbn [write_csrcs map concat] in *.
  { by destruct mid. }
  rewrite length_app, length_be32 in Hl. destruct (split_at mid 4 ltac:(lia)) as (m1 & m2 & -> & H1 & _).
  rewrite <- app_assoc, write_be32_mid, bind_Ok by (done || lia). rewrite app_assoc.
  replace (zlen pre + 4) with (zlen (pre ++ be32 c)) by (rewrite length_app, length_be32; lia).
  rewrite IH by (rewrite length_app in Hl; lia). by rewrite <- !app_assoc.
Qed.

Lemma first_byte_set_csrcs v cs :
  pkt_ok v -> zlen cs <= 15 -> Z.lor (Z.land (first_byte v) 0xF0) (zlen cs) = first_byte (w_csrcs cs v).
Proof.
  intros Hok Hcs. pose proof (po_csrcs _ Hok) as [Hc _]. unfold first_byte. cbn [w_csrcs v_padding v_exts v_csrcs].
  destruct (0 <? v_padding v), (bool_decide (v_exts v <> [])); apply Z.eqb_eq;
    match goal with |- (Z.lor (Z.land (?b + _) _) _ =? _) = true =>
      assert (Hall : all_between 0 15 (fun n => all_between 0 15 (fun m => Z.lor (Z.land (b + n) 0xF0) m =? b + m)) = true) by reflexivity end;
    exact (all_between_spec 0 15 _ (all_between_spec 0 15 _ Hall (zlen (v_csrcs v)) ltac:(lia)) (zlen cs) ltac:(lia)).
Qed.

Lemma SetCsrcs_Ok p v cs :
  built p v -> v_exts v = [] -> v_payload v = [] -> v_padding v = 0 ->
  zlen cs <= 15 -> Forall (fun c => 0 <= c < 2 ^ 32) cs -> 12 + 4 * zlen cs <= capacity (buffer_ p) ->
  exists p', SetCsrcs fresh p cs = Ok p' /\ built p' (w_csrcs cs v) /\ same_room p p'.
Proof.
  intros Hp He Hpl Hpad Hn Hcs Hcap. pose proof Hp as [Hok Hf Hs Hmem].
  destruct (bare_mem _ _ _ Hp Hpl Hpad) as (tail & Hm & Ht & Hc). rewrite He in Hm, Hc. cbn [ext_block app length] in Hm, Hc.
  unfold SetCsrcs, payload_size, padding_size, kFixedHeaderSize. rewrite Hf. cbn [fields_of extensions_size_ payload_size_ padding_size_].
  unfold built_size. rewrite He, Hpl, Hpad. cbn [exts_bytes map concat length]. rewrite !RTC_DCHECK_Ok, !bind_Ok by (done || lia).
  unfold data_at, WriteAt, write_mem. cbn [with_fields buffer_].
  assert (Hb0 : get (cow_mem (buffer_ p)) 0 = Ok (first_byte v)) by (by rewrite Hm).
  rewrite Hb0, bind_Ok, dchecked_u8_Ok, bind_Ok, first_byte_set_csrcs by (done || lia).
  destruct (split_at (concat (map be32 (v_csrcs v)) ++ tail) (4 * zlen cs)) as (mid & rest & Emid & Hmid & Erest).
  { unfold before_exts in Hc. rewrite length_app, length_fixed_header in Hc. rewrite length_app. lia. }
  assert (Hput : put (cow_mem (buffer_ p)) 0 (first_byte (w_csrcs cs v)) = Ok (fixed_header (w_csrcs cs v) ++ mid ++ rest)).
  { rewrite Hm. unfold before_exts. rewrite <- app_assoc, Emid. by rewrite put_Ok by (cbn; lia). }
  rewrite Hput, !bind_Ok. cbn [with_mem with_buffer buffer_ cow_mem].
  pose proof (length_csrcs cs) as Hlc. pose proof (write_csrcs_Ok cs (fixed_header (w_csrcs cs v)) mid rest ltac:(lia)) as Hwr.
  change (zlen (fixed_header _)) with 12 in Hwr. rewrite Hwr, !bind_Ok. eexists. split; [ done |]. set (v' := w_csrcs cs v) in *.
  assert (Hlh : zlen (header v') = 12 + 4 * zlen cs).
  { rewrite length_header. cbn [v' w_csrcs v_csrcs v_wide v_exts]. rewrite He. cbn. lia. }
  assert (Hcap' : capacity (buffer_ p) = 12 + 4 * zlen cs + zlen rest).
  { unfold before_exts in Hc. rewrite length_app, length_fixed_header in Hc. apply (f_equal (fun l => zlen l)) in Emid.
    rewrite !length_app in Emid. lia. }
  apply (bare_holds p _ v' (fixed_header v' ++ concat (map be32 cs)) rest); try done.
  all: unfold set_size; cbn [with_buffer buffer_ with_mem with_fields cow_mem fields headers_size set_payload_offset_ payload_offset_].
  - destruct Hok. split; try done. rewrite Hlh. lia.
  - unfold fields_of, set_payload_offset_, built_size. rewrite Hlh. cbn [v' w_csrcs v_wide v_exts v_marker v_type v_padding v_seq v_time
      v_ssrc v_payload marker_ payload_type_ padding_size_ sequence_number_ timestamp_ rtp_ssrc_ payload_offset_ payload_size_
      extension_entries_ extensions_size_]. by rewrite He.
  - rewrite SetSize_fits; [ done |]. unfold capacity. cbn [cow_mem]. rewrite !length_app, length_fixed_header. lia.
  - rewrite SetSize_fits; [| unfold capacity; cbn [cow_mem]; rewrite !length_app, length_fixed_header; lia ]. cbn [cow_mem v' w_csrcs v_exts v_wide].
    rewrite He, <- app_assoc. done.
  - rewrite Erest. apply Forall_drop, Forall_app. split; [| done ]. pose proof (header_bytes_ok v Hok) as Hh.
    unfold header in Hh. rewrite !Forall_app in Hh. tauto.
  - unfold before_exts. cbn [v' w_csrcs v_exts v_wide v_csrcs]. rewrite He, length_app, length_fixed_header. cbn. lia.
Qed.

Lemma read_be32_mid (pre post : list Z) n i :
  i = zlen pre -> 0 <= n < 2 ^ 32 -> read_be32 (pre ++ be32 n ++ post) i = Ok n.
Proof.
  intros -> Hn. unfold read_be32, read_be16, be32. cbn [app].
  rewrite (get_mid _ _ _ (zlen pre)), bind_Ok by done.
  rewrite cons_middle, app_assoc, (get_mid _ _ _ (zlen pre + 1)), !bind_Ok by (rewrite length_app; cbn; lia).
  rewrite cons_middle, app_assoc, (get_mid _ _ _ (zlen pre + 2)), !bind_Ok by (rewrite !length_app; cbn; lia).
  rewrite cons_middle, app_assoc, get_mid, !bind_Ok by (rewrite !length_app; cbn; lia). f_equal. by apply be32_value.
Qed.

(** [Csrcs] reads them back. *)
Lemma Csrcs_Ok k p v : holds k p v -> Csrcs p = Ok (v_csrcs v).
Proof.
  intros Hp. pose proof Hp as [Hok _ _ (tail & Hm & _)]. pose proof (po_csrcs _ Hok) as [Hc Hr].
  pose proof (holds_capacity _ _ _ Hp) as Hcap. pose proof (length_wire v ltac:(apply Hok)) as Hlw. pose proof (length_header v) as Hlh.
  pose proof (po_padding _ Hok) as Hpad. unfold Csrcs, data_at.
  assert (Hb0 : get (cow_mem (buffer_ p)) 0 = Ok (first_byte v)) by (by rewrite Hm).
  rewrite Hb0, bind_Ok, first_byte_csrcs by done. unfold kFixedHeaderSize. rewrite RTC_DCHECK_Ok, bind_Ok by (apply Z.leb_le; lia).
  rewrite Nat2Z.id.
  destruct (for_loop_rule (fun i cs => cs = take (Z.to_nat i) (v_csrcs v)) (fun i csrcs =>
    csrc ← read_be32 (cow_mem (buffer_ p)) (12 + i * 4); Ok (csrcs ++ [csrc])) (length (v_csrcs v)) 0 []) as (cs & E & ->); [ done | |].
  - intros i cs Hi ->. destruct (lookup_lt_is_Some_2 (v_csrcs v) (Z.to_nat i)) as [c Hc']; [ lia |].
    pose proof (proj1 (Forall_lookup _ _) Hr _ _ Hc') as Hcr. cbn beta in Hcr.
    assert (Hsplit : exists pre post, cow_mem (buffer_ p) = pre ++ be32 c ++ post /\ zlen pre = 12 + i * 4).
    { rewrite Hm. exists (fixed_header v ++ concat (map be32 (take (Z.to_nat i) (v_csrcs v)))).
      eexists. split.
      - assert (Ecs : concat (map be32 (v_csrcs v)) = concat (map be32 (take (Z.to_nat i) (v_csrcs v))) ++ be32 c ++
          concat (map be32 (drop (S (Z.to_nat i)) (v_csrcs v)))).
        { rewrite <- (take_drop_middle _ _ _ Hc') at 1. by rewrite map_app, concat_app. }
        unfold wire, header. rewrite Ecs, <- !app_assoc. reflexivity.
      - rewrite length_app, length_fixed_header, Nat2Z.inj_add, length_csrcs, length_take. lia. }
    destruct Hsplit as (pre & post & -> & Hpre). rewrite read_be32_mid, bind_Ok by done. eexists. split; [ done |].
    replace (Z.to_nat (i + 1)) with (S (Z.to_nat i)) by lia. symmetry. by apply take_S_r.
  - rewrite E. f_equal. apply take_ge. lia.
Qed.

(** ** Parsing *)

Lemma Parse_Ok p v buf :
  pkt_ok v -> contents buf = wire v -> cow_size buf <= capacity buf -> 0 <= cow_size buf -> Forall is_byte (cow_mem buf) ->
  exists p', Parse fresh p buf = Ok (p', true) /\ parsed p' v /\ extensions_ p' = extensions_ p /\ buffer_ p' = buf.
Proof.
  intros Hok Hw Hc Hs Hb. unfold Parse. rewrite Hw, ParseBuffer_wire, bind_Ok by done.
  assert (Hsize : cow_size buf = zlen (wire v)).
  { rewrite <- Hw. unfold contents. rewrite length_take. unfold capacity in Hc. lia. }
  rewrite RTC_DCHECK_Ok, bind_Ok.
  2:{ unfold packet_size, headers_size, payload_size, padding_size. cbn [fields fields_of payload_offset_ payload_size_ padding_size_].
      rewrite Hsize, length_wire by apply Hok. apply Z.eqb_eq. lia. }
  eexists. split_and!; [ done | | done | done ]. split; [ done | done | done |].
  exists (drop (Z.to_nat (cow_size buf)) (cow_mem buf)). split; [| by apply Forall_drop ].
  cbn [buffer_]. rewrite <- Hw. unfold contents. by rewrite take_drop.
Qed.

(** A parsed or built packet goes through [Parse] again. *)
Lemma holds_contents k p v : holds k p v ->
  contents (buffer_ p) = wire v /\ cow_size (buffer_ p) <= capacity (buffer_ p) /\ 0 <= cow_size (buffer_ p) /\
  Forall is_byte (cow_mem (buffer_ p)).
Proof.
  intros Hp. pose proof (holds_buffer _ _ _ Hp) as Hbuf. pose proof (holds_capacity _ _ _ Hp) as Hc.
  destruct Hp as [Hok _ Hs (tail & Hm & Ht)]. split_and!; [ done | lia | lia |].
  rewrite Hm. apply Forall_app. split; [ by apply wire_bytes_ok | done ].
Qed.

End Ops.
