(* ===== verification/RtpPacketCalls.v ===== *)
(** * Building an RTP packet, call by call

    The calls of [class RtpPacket] that make a packet, as a language: a packet
    made by calls that respect their preconditions has on the wire what the
    calls say, and [Parse] of those bytes finds it again. [RemoveExtension] and
    [CopyHeaderFrom], which make packets out of packets. *)
From S2P Require Import Prelude.
From S2P Require Import RtpFecCodec.
From S2P Require Import RtpFecAlgebra.
From S2P Require Import ExtensionMap.
From S2P Require Import RtpPacket.
From S2P Require Import RtpPacketWire.
From S2P Require Import RtpPacketBuild.
From S2P Require Import RtpPacketExt.
From S2P Require Import RtpPacketOps.
From stdpp Require Import base list list_numbers numbers option tactics.
From Stdlib Require Import ZArith Lia.

#[local] Open Scope Z_scope.

(** ** The calls *)

Inductive call : Type :=
| CallSetMarker (b : bool)
| CallSetPayloadType (t : Z)
| CallSetSequenceNumber (n : Z)
| CallSetTimestamp (n : Z)
| CallSetSsrc (n : Z)
| CallSetCsrcs (cs : list Z)
| CallSetRawExtension (type : RTPExtensionType) (val : list Z)
| CallSetPayload (bytes : list Z)
| CallSetPadding (n : Z)
| CallZeroMutableExtensions.

(** What a call makes of a packet, ... *)
Definition apply_call (m : ExtensionMap) (v : Pkt) (c : call) : Pkt :=
  match c with
  | CallSetMarker b => w_marker b v
  | CallSetPayloadType t => w_type t v
  | CallSetSequenceNumber n => w_seq n v
  | CallSetTimestamp n => w_time n v
  | CallSetSsrc n => w_ssrc n v
  | CallSetCsrcs cs => w_csrcs cs v
  | CallSetRawExtension type val => add_ext (id_of m type) val v
  | CallSetPayload bytes => w_payload bytes v
  | CallSetPadding n => w_padding n v
  | CallZeroMutableExtensions => zero_mutable m v
  end.

(** ... when it may be made, in a buffer of [cap] bytes, ... *)
Definition call_ok (m : ExtensionMap) (cap : Z) (v : Pkt) (c : call) : Prop :=
  match c with
  | CallSetMarker _ => True
  | CallSetPayloadType t => 0 <= t < 128
  | CallSetSequenceNumber n => 0 <= n < 2 ^ 16
  | CallSetTimestamp n | CallSetSsrc n => 0 <= n < 2 ^ 32
  | CallSetCsrcs cs =>
      v_exts v = [] /\ v_payload v = [] /\ v_padding v = 0 /\ zlen cs <= 15 /\ Forall (fun c => 0 <= c < 2 ^ 32) cs /\
      12 + 4 * zlen cs <= cap
  | CallSetRawExtension type val =>
      type <> kRtpExtensionNone /\ id_of m type <> kInvalidId /\ (id_of m type ∉ map fst (v_exts v)) /\
      v_payload v = [] /\ v_padding v = 0 /\ Forall is_byte val /\ 1 <= zlen val <= 255 /\
      (needs_wide (id_of m type) (zlen val) = true -> extmap_allow_mixed_ m = true) /\ room_for v (id_of m type) (zlen val) cap
  | CallSetPayload bytes => v_padding v = 0 /\ Forall is_byte bytes
  | CallSetPadding n => 0 <= n < 256 /\ zlen (header v) + zlen (v_payload v) + n <= cap
  | CallZeroMutableExtensions => True
  end.

Fixpoint calls_ok (m : ExtensionMap) (cap : Z) (v : Pkt) (cs : list call) : Prop :=
  match cs with
  | [] => True
  | c :: cs => call_ok m cap v c /\ calls_ok m cap (apply_call m v c) cs
  end.

Section Calls.
Context `{CheckMode} (fresh : nat -> list Z).

(** ... and the calls themselves. *)
Definition run_call (p : RtpPacket) (c : call) : outcome RtpPacket :=
  match c with
  | CallSetMarker b => SetMarker p b
  | CallSetPayloadType t => SetPayloadType p t
  | CallSetSequenceNumber n => SetSequenceNumber p n
  | CallSetTimestamp n => SetTimestamp p n
  | CallSetSsrc n => SetSsrc p n
  | CallSetCsrcs cs => SetCsrcs fresh p cs
  | CallSetRawExtension type val => fst <$> SetRawExtension fresh p type val
  | CallSetPayload bytes => p ← AllocatePayload fresh p (zlen bytes); write_payload p 0 bytes
  | CallSetPadding n => fst <$> SetPadding fresh p n
  | CallZeroMutableExtensions => ZeroMutableExtensions p
  end.

Fixpoint run_calls (p : RtpPacket) (cs : list call) : outcome RtpPacket :=
  match cs with [] => Ok p | c :: cs => p ← run_call p c; run_calls p cs end.

Context (Hfresh : fresh_ok fresh).

Lemma room_for_mono v id len cap cap' : cap <= cap' -> room_for v id len cap -> room_for v id len cap'.
Proof. intros Hc [H1 H2]. split; [ lia | done ]. Qed.

(** The setters keep [extensions_size_], which none of the parts they change
    plays a role in. *)
Lemma run_call_Ok m cap p v c :
  map_ok m -> built p v -> extensions_ p = m -> cap <= capacity (buffer_ p) -> call_ok m cap v c ->
  exists p', run_call p c = Ok p' /\ built p' (apply_call m v c) /\ keeps p p'.
Proof.
  intros Hmap Hp Em Hcap Hc. unfold built in Hp.
  destruct c as [b | t | n | n | n | cs | type val | bytes | n |]; cbn [run_call apply_call call_ok] in *.
  - by apply SetMarker_Ok.
  - by apply SetPayloadType_Ok.
  - by apply SetSequenceNumber_Ok.
  - by apply SetTimestamp_Ok.
  - by apply SetSsrc_Ok.
  - destruct Hc as (H1 & H2 & H3 & H4 & H5 & H6).
    destruct (SetCsrcs_Ok fresh p v cs Hp H1 H2 H3 H4 H5 ltac:(lia)) as (p' & -> & Hp' & Hr%same_room_keeps). by exists p'.
  - destruct Hc as (H1 & H2 & H3 & H4 & H5 & H6 & H7 & H8 & H9). rewrite <- Em in *.
    destruct (SetRawExtension_new fresh p v type val Hp Hmap H1 H2 H3 H4 H5 H6 H7 H8 (room_for_mono _ _ _ _ _ Hcap H9))
      as (p' & -> & Hp' & Hr%same_room_keeps). by exists p'.
  - destruct Hc as (H1 & H2). destruct (AllocatePayload_Ok fresh Hfresh _ p v bytes Hp H1 H2) as (p1 & p2 & -> & E & Hp2 & Hk).
    rewrite bind_Ok. by exists p2.
  - destruct Hc as (H1 & H2). destruct (SetPadding_Ok fresh Hfresh _ p v n Hp H1 ltac:(lia)) as (p' & -> & Hp' & Hk). by exists p'.
  - rewrite <- Em in *. destruct (ZeroMutableExtensions_Ok _ p v Hp Hmap) as (p' & -> & Hp' & Hr%same_room_keeps). exists p'. split_and!; [ done | | done ].
    replace (built_size v) with (built_size (zero_mutable (extensions_ p) v)) in Hp'; [ done |].
    unfold built_size, zero_mutable, zero_exts. cbn [w_exts v_wide v_exts].
    induction (v_exts v) as [| e es IH ]; [ done |]. cbn [map]. rewrite !exts_bytes_cons, !length_app, !Nat2Z.inj_add, !length_ext_bytes.
    cbn [fst snd]. rewrite length_zero_value. lia.
Qed.

Lemma run_calls_Ok m cap cs : forall p v,
  map_ok m -> built p v -> extensions_ p = m -> cap <= capacity (buffer_ p) -> calls_ok m cap v cs ->
  exists p', run_calls p cs = Ok p' /\ built p' (foldl (apply_call m) v cs) /\ extensions_ p' = m.
Proof.
  induction cs as [| c cs IH ]; intros p v Hmap Hp Em Hcap Hcs; cbn [run_calls foldl calls_ok] in *; [ by exists p |].
  destruct Hcs as [Hc Hcs]. destruct (run_call_Ok m cap p v c Hmap Hp Em Hcap Hc) as (p1 & -> & Hp1 & Hk1 & Hk2).
  rewrite bind_Ok. apply IH; [ done | done | congruence | lia | done ].
Qed.

(** What a reader of a packet sees: the accessors of [class RtpPacket]. *)
Record sees (p : RtpPacket) (v : Pkt) : Prop := {
  se_marker : Marker p = v_marker v;
  se_type : PayloadType p = v_type v;
  se_seq : SequenceNumber p = v_seq v;
  se_time : Timestamp p = v_time v;
  se_ssrc : Ssrc p = v_ssrc v;
  se_csrcs : Csrcs p = Ok (v_csrcs v);
  se_payload : payload p = Ok (v_payload v);
  se_padding : padding_size p = v_padding v;
  se_extensions : forall type, type <> kRtpExtensionNone -> id_of (extensions_ p) type <> kInvalidId ->
    FindExtension p type = Ok (ext_value (id_of (extensions_ p) type) (v_exts v))
}.

Lemma holds_sees k p v : holds k p v -> map_ok (extensions_ p) -> sees p v.
Proof.
  intros Hp Hmap. pose proof (ho_fields _ _ _ Hp) as Hf.
  split; try (unfold Marker, PayloadType, SequenceNumber, Timestamp, Ssrc, padding_size; by rewrite Hf).
  - by eapply Csrcs_Ok.
  - by eapply payload_view.
  - intros type Ht Hid. rewrite (FindExtension_Ok k p v) by done. by rewrite decide_False.
Qed.

(** ** Packets made of packets *)

Lemma memcpy_view {A} (pre mid post src1 src src2 : list A) i j n :
  i = zlen pre -> j = zlen src1 -> n = zlen src -> length mid = length src ->
  memcpy (pre ++ mid ++ post) i (src1 ++ src ++ src2) j n = Ok (pre ++ src ++ post).
Proof.
  intros -> -> -> Hl. rewrite memcpy_Ok by (rewrite ?length_app; lia). rewrite !Nat2Z.id, drop_app_length, take_app_length.
  f_equal. by apply blit_between.
Qed.

Lemma exts_wide_le wide es : zlen (exts_bytes wide es) <= zlen (exts_bytes true es).
Proof. destruct wide; [ done |]. rewrite length_exts_wide. lia. Qed.

(** One extension that stays. *)
Lemma copy_one this k v es1 id val es2 p u :
  holds k this v -> v_exts v = es1 ++ (id, val) :: es2 -> (needs_wide id (zlen val) = true -> extmap_allow_mixed_ (extensions_ p) = true) ->
  can_add p u (add_wide u id (zlen val)) id (zlen val) -> room_for u id (zlen val) (capacity (buffer_ p)) ->
  exists p1 o p2, AllocateRawExtension fresh p id (zlen val) = Ok (p1, Some (o, zlen val)) /\
    write_mem p1 (fun mem => memcpy mem o (cow_mem (buffer_ this))
      (exts_start v + zlen (exts_bytes (v_wide v) es1) + ext_header (v_wide v)) (zlen val)) = Ok p2 /\
    built p2 (add_ext id val u) /\ same_room p p2.
Proof.
  intros Ht Ees Hmixed Hca [Hroom Hmax]. pose proof (AllocateRawExtension_Ok fresh p u id (zlen val) Hca Hmixed) as Hadd.
  unfold added in Hadd. set (size := _ + _ + zlen val) in *.
  pose proof (words_bounds size ltac:(unfold size, ext_header; destruct (add_wide u id (zlen val)); lia)).
  rewrite !decide_False in Hadd by lia. destruct Hadd as (p1 & old & E & Hold & Hb & Hr1 & Hr2).
  destruct (value_mem _ _ _ _ _ _ _ Ht Ees) as (spre & spost & Hsm & Hspre & _). rewrite Hsm, <- Hspre.
  pose proof (po_exts _ (ho_ok _ _ _ Ht)) as Hes. rewrite Ees in Hes. apply Forall_app in Hes as [_ [(_ & _ & Hvb) _]%Forall_cons_1].
  destruct (fill_value _ _ _ _ _ _ val Hb ltac:(lia) Hvb) as (pre & post & Hm & Hpre & Hb' & Hr3 & Hr4).
  eexists p1, _, _. split; [ exact E |]. unfold write_mem. rewrite Hm, memcpy_view, bind_Ok by (done || (unfold size; lia)).
  split_and!; [ done | exact Hb' | split; congruence ].
Qed.

(** The default size has room for it. *)
Lemma copy_room p u id len :
  built p u -> v_payload u = [] -> v_padding u = 0 -> v_csrcs u = [] -> id ∉ map fst (v_exts u) -> 1 <= id <= 255 -> 1 <= len <= 255 ->
  zlen (exts_bytes true (v_exts u)) + 2 + len <= 1480 -> 1500 <= capacity (buffer_ p) ->
  can_add p u (add_wide u id len) id len /\ room_for u id len (capacity (buffer_ p)).
Proof.
  intros Hp Hpl Hpad Hcs Hid Hidr Hlen Hsize Hcap. destruct (add_wide_range u id len Hidr Hlen) as [Hir Hlr].
  pose proof (exts_wide_le (add_wide u id len) (v_exts u)) as Hle.
  assert (Hh : 1 <= ext_header (add_wide u id len) <= 2) by (unfold ext_header; destruct (add_wide u id len); lia).
  pose proof (words_bounds (zlen (exts_bytes (add_wide u id len) (v_exts u)) + ext_header (add_wide u id len) + len) ltac:(lia)) as Hw.
  assert (Hstart : exts_start u = 16) by (unfold exts_start; by rewrite Hcs).
  split; split; try done; lia.
Qed.

(** [RemoveExtension] copies the extensions that stay. *)
Lemma copy_extensions_Ok this k v id_rm m es2 : forall es1 p u found,
  holds k this v -> extensions_ p = m -> map_ok m -> (v_wide v = true -> extmap_allow_mixed_ m = true) ->
  v_exts v = es1 ++ es2 -> built p u -> v_payload u = [] -> v_padding u = 0 -> v_csrcs u = [] ->
  (forall id, id ∈ map fst (v_exts u) -> id ∈ map fst es1) ->
  zlen (exts_bytes true (v_exts u)) + zlen (exts_bytes true es2) <= 1480 -> 1500 <= capacity (buffer_ p) ->
  let keep := filter (fun e => e.1 <> id_rm) es2 in
  exists p', copy_extensions fresh this id_rm (entries (v_wide v) (exts_start v + zlen (exts_bytes (v_wide v) es1)) es2) p found =
      Ok (Some (p', found || bool_decide (id_rm ∈ map fst es2))) /\
    built p' (foldl (fun u e => add_ext e.1 e.2 u) u keep) /\ same_room p p'.
Proof.
  induction es2 as [| [id val] es2 IH ]; intros es1 p u found Ht Em Hmap Hmix Ees Hp Hpl Hpad Hcs Hids Hsize Hcap;
    cbn [entries copy_extensions map fst snd ei_id ei_length ei_offset].
  { cbn. rewrite bool_decide_eq_false_2, orb_false_r by apply not_elem_of_nil. by exists p. }
  rewrite exts_bytes_cons, length_app, Nat2Z.inj_add, length_ext_bytes in Hsize. cbn [snd ext_header] in Hsize.
  assert (Hok : ext_ok (v_wide v) (id, val)).
  { pose proof (po_exts _ (ho_ok _ _ _ Ht)) as Hes. rewrite Ees in Hes. by apply Forall_app in Hes as [_ [He _]%Forall_cons_1]. }
  destruct Hok as (Hidr & Hlen & Hvb). cbn [fst snd] in *.
  assert (Hnotin : id ∉ map fst es1).
  { pose proof (po_ids _ (ho_ok _ _ _ Ht)) as Hnd. rewrite Ees, map_app in Hnd. apply list.NoDup_app in Hnd as (_ & Hd & _).
    intros Hin. apply (Hd id Hin). by left. }
  assert (Hoff : exts_start v + zlen (exts_bytes (v_wide v) es1) + ext_header (v_wide v) + zlen val =
    exts_start v + zlen (exts_bytes (v_wide v) (es1 ++ [(id, val)]))).
  { rewrite exts_bytes_snoc, length_app, Nat2Z.inj_add, length_ext_bytes. cbn [snd]. lia. }
  rewrite filter_cons. cbn [fst]. destruct (Z.eqb_spec id id_rm) as [<- | Hne].
  - rewrite decide_False by (intros Hk; by apply Hk). rewrite Hoff.
    destruct (IH (es1 ++ [(id, val)]) p u true) as (p' & -> & Hp' & Hr); try done.
    + by rewrite <- app_assoc.
    + intros i Hi. rewrite map_app. apply elem_of_app. left. by apply Hids.
    + lia.
    + exists p'. split_and!; [| done | done ]. cbn [orb]. rewrite bool_decide_eq_true_2, orb_true_r by (by left). done.
  - rewrite decide_True by done. destruct (copy_room p u id (zlen val) Hp Hpl Hpad Hcs) as [Hca Hroom];
      [ intros Hin; by apply Hnotin, Hids | destruct (v_wide v); lia | destruct (v_wide v); lia | lia | done |].
    destruct (copy_one this k v es1 id val es2 p u Ht Ees) as (p1 & o & p2 & -> & E2 & Hp2 & Hr2); [| done | done |].
    { intros Hn. rewrite Em. apply Hmix. unfold needs_wide in Hn. destruct (v_wide v); [ done | lia ]. }
    rewrite bind_Ok. change (default 0 (snd <$> Some (o, zlen val))) with (zlen val). change (default 0 (fst <$> Some (o, zlen val))) with o.
    rewrite Z.eqb_refl. cbn [negb]. rewrite E2, bind_Ok, Hoff.
    destruct (IH (es1 ++ [(id, val)]) p2 (add_ext id val u) found) as (p' & -> & Hp' & Hr); try done.
    + by rewrite (proj1 Hr2).
    + by rewrite <- app_assoc.
    + intros i. unfold add_ext. cbn [w_exts v_exts]. rewrite !map_app, !elem_of_app. intros [Hi | Hi]; [ left; by apply Hids | by right ].
    + unfold add_ext. cbn [w_exts v_exts]. rewrite exts_bytes_snoc, length_app, Nat2Z.inj_add, length_ext_bytes. cbn [snd ext_header]. lia.
    + rewrite (proj2 Hr2). lia.
    + exists p'. split_and!; [| done | destruct Hr, Hr2; split; congruence ]. do 3 f_equal. f_equal. apply bool_decide_ext.
      rewrite elem_of_cons. split; [ by right | by intros [<- |] ].
Qed.

Definition base_pkt (v : Pkt) : Pkt := w_ssrc (v_ssrc v) (w_time (v_time v) (w_seq (v_seq v) (w_type (v_type v) (w_marker (v_marker v) empty_pkt)))).

(** The new packet and its fixed header. *)
Lemma new_like_Ok k p v :
  holds k p v -> exists p', built p' (base_pkt v) /\ 1500 <= capacity (buffer_ p') /\
    forall A (next : RtpPacket -> outcome A),
      (new_packet ← RtpPacket_new fresh (RtpHeaderExtensionMap_new false) kDefaultPacketSize;
       new_packet ← SetMarker new_packet (Marker p);
       new_packet ← SetPayloadType new_packet (PayloadType p);
       new_packet ← SetSequenceNumber new_packet (SequenceNumber p);
       new_packet ← SetTimestamp new_packet (Timestamp p);
       new_packet ← SetSsrc new_packet (Ssrc p);
       next new_packet) = next p'.
Proof.
  intros Hp. pose proof (ho_ok _ _ _ Hp) as Hok. unfold Marker, PayloadType, SequenceNumber, Timestamp, Ssrc.
  rewrite (ho_fields _ _ _ Hp). cbn [fields_of marker_ payload_type_ sequence_number_ timestamp_ rtp_ssrc_].
  destruct (RtpPacket_new_Ok fresh Hfresh (RtpHeaderExtensionMap_new false) kDefaultPacketSize ltac:(done)) as (p0 & -> & Hp0 & _ & Hc0).
  destruct (SetMarker_Ok _ p0 _ (v_marker v) Hp0) as (p1 & E1 & Hp1 & Hk1).
  destruct (SetPayloadType_Ok _ p1 _ (v_type v) Hp1 ltac:(apply Hok)) as (p2 & E2 & Hp2 & Hk2).
  destruct (SetSequenceNumber_Ok _ p2 _ (v_seq v) Hp2 ltac:(apply Hok)) as (p3 & E3 & Hp3 & Hk3).
  destruct (SetTimestamp_Ok _ p3 _ (v_time v) Hp3 ltac:(apply Hok)) as (p4 & E4 & Hp4 & Hk4).
  destruct (SetSsrc_Ok _ p4 _ (v_ssrc v) Hp4 ltac:(apply Hok)) as (p5 & E5 & Hp5 & Hk5).
  exists p5. split_and!; [ done | destruct Hk1, Hk2, Hk3, Hk4, Hk5; unfold kDefaultPacketSize in Hc0; lia |].
  intros A next. by rewrite bind_Ok, E1, bind_Ok, E2, bind_Ok, E3, bind_Ok, E4, bind_Ok, E5, bind_Ok.
Qed.

Lemma fold_add_ext es : forall u,
  let u' := foldl (fun u e => add_ext e.1 e.2 u) u es in
  v_exts u' = v_exts u ++ es /\ v_csrcs u' = v_csrcs u /\ v_payload u' = v_payload u /\ v_padding u' = v_padding u.
Proof.
  induction es as [| [id val] es IH ]; intros u; cbn [foldl fst snd]; [ by rewrite app_nil_r |].
  destruct (IH (add_ext id val u)) as (E1 & E2 & E3 & E4). rewrite E1, E2, E3, E4. unfold add_ext. cbn [w_exts v_exts v_csrcs v_payload v_padding].
  by rewrite <- app_assoc.
Qed.

Lemma filter_exts_le (P : Z * list Z -> Prop) `{forall e, Decision (P e)} wide es :
  zlen (exts_bytes wide (filter P es)) <= zlen (exts_bytes wide es).
Proof.
  induction es as [| e es IH ]; [ done |]. rewrite filter_cons. case_decide; rewrite !exts_bytes_cons, !length_app; lia.
Qed.

(** Payload and padding come last. *)
Lemma copy_payload_Ok k p v p7 u :
  holds k p v -> built p7 u -> v_padding u = 0 -> v_payload u = [] -> zlen (header u) + zlen (v_payload v) + v_padding v <= capacity (buffer_ p7) ->
  exists p8 p9, (if 0 <? payload_size p then
      bytes ← payload p; new_packet ← AllocatePayload fresh p7 (payload_size p); write_payload new_packet 0 bytes
     else SetPayloadSize fresh p7 0) = Ok p8 /\
    SetPadding fresh p8 (padding_size p) = Ok (p9, true) /\ built p9 (w_padding (v_padding v) (w_payload (v_payload v) u)) /\
    extensions_ p9 = extensions_ p7.
Proof.
  intros Hp Hu Hpad Hpl Hfit. pose proof (ho_ok _ _ _ Hp) as Hok. pose proof (ho_fields _ _ _ Hp) as Hf.
  assert (Hps : payload_size p = zlen (v_payload v)) by (unfold payload_size; by rewrite Hf).
  assert (Hpd : padding_size p = v_padding v) by (unfold padding_size; by rewrite Hf).
  assert (H8 : exists p8, (if 0 <? payload_size p then
      bytes ← payload p; new_packet ← AllocatePayload fresh p7 (payload_size p); write_payload new_packet 0 bytes
     else SetPayloadSize fresh p7 0) = Ok p8 /\ built p8 (w_payload (v_payload v) u) /\ keeps p7 p8).
  { rewrite (payload_view _ _ _ Hp), Hps. destruct (Z.ltb_spec 0 (zlen (v_payload v))) as [Hpos | Hz].
    - destruct (AllocatePayload_Ok fresh Hfresh _ p7 u (v_payload v) Hu Hpad ltac:(apply Hok)) as (q1 & q2 & E1 & E2 & Hq & Hk).
      rewrite bind_Ok, E1, bind_Ok, E2. by exists q2.
    - destruct (SetPayloadSize_Ok fresh Hfresh _ p7 u 0 Hu Hpad ltac:(lia)) as (q & bytes & E & Hl & Hq & Hk & _).
      assert (bytes = v_payload v) as -> by (destruct bytes, (v_payload v); cbn [length] in *; (done || lia)). by exists q. }
  destruct H8 as (p8 & -> & H8 & [He Hk]). exists p8. rewrite Hpd.
  destruct (SetPadding_Ok fresh Hfresh _ p8 _ (v_padding v) H8 ltac:(apply Hok)) as (p9 & E9 & H9 & [He9 _]).
  { change (header (w_payload (v_payload v) u)) with (header u). cbn [w_payload v_payload]. lia. }
  exists p9. split_and!; [ done | done | done | congruence ].
Qed.

(** [RemoveExtension] of an extension that is there, in a packet that fits in
    the default size: the packet without the extension, and without its CSRCs. *)
Lemma RemoveExtension_Ok k p v type :
  let m := extensions_ p in let id := id_of m type in
  holds k p v -> map_ok m -> type <> kRtpExtensionNone -> id ∈ map fst (v_exts v) -> (v_wide v = true -> extmap_allow_mixed_ m = true) ->
  zlen (exts_bytes true (v_exts v)) + zlen (v_payload v) + v_padding v <= 1480 ->
  exists p', RemoveExtension fresh p type = Ok (p', true) /\ extensions_ p' = m /\
    built p' (w_padding (v_padding v) (w_payload (v_payload v)
      (foldl (fun u e => add_ext e.1 e.2 u) (base_pkt v) (filter (fun e => e.1 <> id) (v_exts v))))).
Proof.
  intros m id Hp Hmap Ht Hin Hmix Hsize. pose proof (ho_ok _ _ _ Hp) as Hok. pose proof (ho_fields _ _ _ Hp) as Hf.
  assert (Hid0 : id <> kInvalidId).
  { apply list_elem_of_fmap in Hin as (e & E & Hin). pose proof (po_exts _ Hok) as Hes. rewrite list.Forall_forall in Hes.
    destruct (Hes _ Hin) as (Hr & _). rewrite <- E in Hr. unfold kInvalidId. lia. }
  unfold RemoveExtension. fold m. rewrite GetId_Ok, bind_Ok by done. fold id. rewrite (proj2 (Z.eqb_neq _ _)) by done.
  destruct (new_like_Ok k p v Hp) as (p5 & Hp5 & Hc5 & E5). rewrite E5. rewrite Hf.
  set (p6 := IdentifyExtensions p5 m).
  assert (Hp6 : built p6 (base_pkt v)) by (by destruct Hp5).
  cbn [fields_of extension_entries_].
  destruct (copy_extensions_Ok p k v id m (v_exts v) [] p6 (base_pkt v) false) as (p7 & E7 & Hp7 & Hr7); try done.
  { cbn [base_pkt w_ssrc w_time w_seq w_type w_marker empty_pkt v_exts exts_bytes map concat length]. pose proof (po_padding _ Hok). lia. }
  cbn [exts_bytes map concat length] in E7. rewrite Z.add_0_r in E7. rewrite E7, bind_Ok, bool_decide_eq_true_2 by done. cbn [orb].
  set (keep := filter _ (v_exts v)) in *. destruct (fold_add_ext keep (base_pkt v)) as (U1 & U2 & U3 & U4).
  set (u := foldl _ _ keep) in *.
  destruct (copy_payload_Ok k p v p7 u Hp Hp7 U4 U3) as (p8 & p9 & -> & E9 & H9 & He9).
  { rewrite (proj2 Hr7). change (capacity (buffer_ p6)) with (capacity (buffer_ p5)).
    pose proof (filter_exts_le (fun e => e.1 <> id) true (v_exts v)) as Hkeep. fold keep in Hkeep. cbn [app base_pkt] in U1.
    rewrite length_header, U2, length_ext_block, U1. pose proof (exts_wide_le (v_wide u) keep).
    pose proof (words_bounds (zlen (exts_bytes (v_wide u) keep)) ltac:(lia)).
    change (zlen (v_csrcs (base_pkt v))) with 0. change (v_exts (base_pkt v) ++ keep) with keep. destruct keep; lia. }
  rewrite bind_Ok, E9, bind_Ok. exists p9. split_and!; [ done | by rewrite He9, (proj1 Hr7) | done ].
Qed.

End Calls.

(** ** Copying a header *)

(** The header alone. *)
Definition header_only (v : Pkt) : Pkt := w_padding 0 (w_payload [] v).

Lemma header_only_wire v : pkt_ok v -> wire (header_only v) = header v <-> v_padding v = 0.
Proof.
  intros Hok. pose proof (po_padding _ Hok) as Hpad.
  assert (Hw : wire (header_only v) = header (header_only v)) by (unfold wire; cbn; by rewrite app_nil_r). rewrite Hw. split.
  - intros E. assert (E0 : first_byte (header_only v) = first_byte v) by (apply (f_equal (fun l => l !! 0%nat)) in E; by injection E).
    unfold first_byte in E0. cbn [header_only w_padding w_payload v_padding v_exts v_csrcs] in E0.
    destruct (Z.ltb_spec 0 (v_padding v)); cbn [Z.ltb Z.compare Z.b2z] in E0; lia.
  - intros E. unfold header, fixed_header, first_byte. cbn [header_only w_padding w_payload v_padding v_exts v_csrcs v_wide]. by rewrite E.
Qed.

Lemma header_only_length v : length (header (header_only v)) = length (header v).
Proof. unfold header. rewrite !length_app. done. Qed.

Lemma CopyHeaderFrom_Ok `{CheckMode} fresh p q k v :
  fresh_ok fresh -> holds k q v ->
  exists p', CopyHeaderFrom fresh p q = Ok p' /\ Buffer p' = header v /\ fields p' = fields_of (header_only v) k /\
    (v_padding v = 0 -> holds k p' (header_only v)).
Proof.
  intros Hfresh Hq. pose proof Hq as [Hok Hf Hs (tail & Hm & Ht)]. pose proof (length_wire v ltac:(apply Hok)) as Hlw.
  pose proof (po_padding _ Hok) as Hpad. unfold CopyHeaderFrom, Slice, headers_size. rewrite Hf. cbn [fields_of payload_offset_].
  rewrite !RTC_DCHECK_Ok, !bind_Ok by (apply Z.leb_le; lia).
  assert (Hc : contents (mkCow (drop (Z.to_nat 0) (cow_mem (buffer_ q))) (zlen (header v))) = header v).
  { unfold contents. cbn [cow_mem cow_size]. rewrite drop_0, Hm, Nat2Z.id. unfold wire. rewrite <- app_assoc. by rewrite take_app_length. }
  unfold Copy. rewrite Hc. cbn [cow_mem cow_size]. set (rest := fresh _). destruct (Hfresh (length (drop (Z.to_nat 0) (cow_mem (buffer_ q))) - length (header v))%nat) as [_ Hrb].
  fold rest in Hrb. eexists. split_and!; [ done | | |].
  - unfold Buffer, contents. cbn [buffer_ cow_mem cow_size]. by rewrite Nat2Z.id, take_app_length.
  - cbn [fields]. unfold fields_of. rewrite header_only_length. done.
  - intros E. assert (Hw : wire (header_only v) = header v) by (by apply header_only_wire). split; cbn [fields buffer_ cow_mem cow_size].
    + destruct Hok. by split.
    + unfold fields_of. rewrite header_only_length. done.
    + by rewrite Hw.
    + exists rest. by rewrite Hw.
Qed.

(** ** Theorems *)

(** C11. A packet made by calls of [class RtpPacket] within their preconditions (the
    fixed header in any order, CSRCs and extensions before the payload, padding
    last, and room for all): no call faults, the buffer holds the wire format of
    the packet the calls describe, and another packet that parses that buffer
    sees every part of it. *)
Theorem built_packet_parses (mode : CheckMode) fresh m cap cs q :
  fresh_ok fresh -> map_ok m -> 12 <= cap -> calls_ok m cap empty_pkt cs -> extensions_ q = m ->
  let v := foldl (apply_call m) empty_pkt cs in
  exists p q', (p ← RtpPacket_new fresh m cap; run_calls fresh p cs) = Ok p /\ Buffer p = wire v /\ sees p v /\
    Parse fresh q (buffer_ p) = Ok (q', true) /\ sees q' v.
Proof.
  intros Hfresh Hmap Hcap Hcs Hq v. destruct (RtpPacket_new_Ok fresh Hfresh m cap Hcap) as (p0 & -> & Hp0 & Em & Hc).
  rewrite bind_Ok. destruct (run_calls_Ok fresh Hfresh m cap cs p0 empty_pkt Hmap Hp0 Em Hc Hcs) as (p & Hrun & Hp & Emp).
  destruct (holds_contents _ _ _ Hp) as (H1 & H2 & H3 & H4).
  destruct (Parse_Ok fresh q v (buffer_ p) (ho_ok _ _ _ Hp) H1 H2 H3 H4) as (q' & Eq & Hq' & Emq & _).
  exists p, q'. split_and!; [ done | by eapply holds_buffer | | done |].
  - eapply holds_sees; [ done |]. by rewrite Emp.
  - eapply holds_sees; [ done |]. by rewrite Emq, Hq.
Qed.

(** [RemoveExtension] of an extension the packet has: the packet made has its
    other extensions, its fixed header, payload and padding, and no CSRCs,
    whatever the CSRCs of the packet were. *)
Theorem remove_extension_drops_csrcs (mode : CheckMode) fresh k p v type :
  let m := extensions_ p in let id := id_of m type in
  fresh_ok fresh -> holds k p v -> map_ok m -> type <> kRtpExtensionNone -> id ∈ map fst (v_exts v) ->
  (v_wide v = true -> extmap_allow_mixed_ m = true) -> zlen (exts_bytes true (v_exts v)) + zlen (v_payload v) + v_padding v <= 1480 ->
  exists p' v', RemoveExtension fresh p type = Ok (p', true) /\ sees p' v' /\ v_csrcs v' = [] /\
    v_exts v' = filter (fun e => e.1 <> id) (v_exts v) /\ v_payload v' = v_payload v /\ v_padding v' = v_padding v.
Proof.
  intros m id Hfresh Hp Hmap Ht Hin Hmix Hsize.
  destruct (RemoveExtension_Ok fresh Hfresh k p v type Hp Hmap Ht Hin Hmix Hsize) as (p' & E & Em & Hb).
  destruct (fold_add_ext (filter (fun e => e.1 <> id) (v_exts v)) (base_pkt v)) as (U1 & U2 & _ & _).
  eexists p', _. split; [ exact E |]. split_and!; [ eapply holds_sees; [ exact Hb | by rewrite Em ] | exact U2 | exact U1 | done | done ].
Qed.

(** The buffer of a header copied from a packet is the header of that packet:
    the packet is well formed, with no payload and no padding, exactly when the
    source has no padding; otherwise its padding bit is set and its padding is
    none. *)
Theorem copied_header_padding (mode : CheckMode) fresh p q k v :
  fresh_ok fresh -> holds k q v ->
  exists p', CopyHeaderFrom fresh p q = Ok p' /\ Buffer p' = header v /\ padding_size p' = 0 /\
    (holds k p' (header_only v) <-> v_padding v = 0).
Proof.
  intros Hfresh Hq. destruct (CopyHeaderFrom_Ok fresh p q k v Hfresh Hq) as (p' & -> & Hb & Hf & Hh). exists p'.
  split_and!; [ done | done | unfold padding_size; by rewrite Hf |]. split; [| done ].
  intros Hp. apply (header_only_wire v (ho_ok _ _ _ Hq)). rewrite <- Hb. symmetry. by eapply holds_buffer.
Qed.

(** C31. [AllocateRawExtension] of an extension the packet does not have, before its
    payload: it refuses when the extensions do not fit; it adds the extension
    when they fit with the padding up to four bytes; and when they fit without
    that padding only, it writes the padding past the end of the buffer. That
    never happens in a buffer of a multiple of four bytes. *)
Theorem allocate_extension_bounds (mode : CheckMode) fresh p v id len :
  let wide := add_wide v id len in
  let size := zlen (exts_bytes wide (v_exts v)) + ext_header wide + len in
  let cap := capacity (buffer_ p) in
  let result := AllocateRawExtension fresh p id len in
  can_add p v wide id len -> (needs_wide id len = true -> extmap_allow_mixed_ (extensions_ p) = true) ->
  (cap < exts_start v + size -> result = Ok (p, None)) /\
  (exts_start v + size <= cap < exts_start v + 4 * words size -> result = Fail OutOfBounds) /\
  (exts_start v + 4 * words size <= cap ->
     exists p' val, result = Ok (p', Some (exts_start v + size - len, len)) /\ zlen val = len /\
       built p' (w_exts wide (v_exts v ++ [(id, val)]) v)) /\
  ((4 | cap) -> result <> Fail OutOfBounds).
Proof.
  intros wide size cap result Hca Hmix. pose proof (AllocateRawExtension_Ok fresh p v id len Hca Hmix) as Hadd.
  fold result in Hadd. unfold added in Hadd. fold wide size cap in Hadd.
  pose proof (words_bounds size ltac:(pose proof (ca_len _ _ _ _ _ Hca); unfold size, ext_header; fold wide; destruct wide; lia)) as Hw.
  split_and!.
  - intros Hlt. by rewrite decide_True in Hadd.
  - intros Hlt. by rewrite decide_False, decide_True in Hadd by lia.
  - intros Hlt. rewrite !decide_False in Hadd by lia. destruct Hadd as (p' & val & E & Hval & Hb & _). by exists p', val.
  - intros [c Hc] Hres. unfold exts_start in *. case_decide; [ congruence |]. case_decide; [ lia |].
    destruct Hadd as (p' & val & E & _). congruence.
Qed.

(** ** Witnesses *)

#[local] Instance checks_on : CheckMode := true.

(** A map with two extensions, one of which needs the two-byte format. *)
Definition sample_map : ExtensionMap :=
  set_id (set_id (RtpHeaderExtensionMap_new true) kRtpExtensionAbsoluteSendTime 3) kRtpExtensionMid 20.

Lemma sample_map_ok : map_ok sample_map.
Proof.
  assert (H1 : map_ok (set_id (RtpHeaderExtensionMap_new true) kRtpExtensionAbsoluteSendTime 3)).
  { apply set_id_ok; [ apply new_map_ok | done | unfold kMaxId; lia |]. intros _ t. by destruct t. }
  apply set_id_ok; [ done | done | unfold kMaxId; lia |]. intros _ t. by destruct t.
Qed.

Definition zero_fresh (n : nat) : list Z := replicate n 0.
Lemma zero_fresh_ok : fresh_ok zero_fresh.
Proof. intros n. split; [ apply length_replicate | apply Forall_replicate; unfold is_byte; lia ]. Qed.

Definition sample_calls : list call :=
  [CallSetPayloadType 96; CallSetSequenceNumber 65535; CallSetTimestamp 7; CallSetSsrc 0x11223344; CallSetCsrcs [5; 6];
   CallSetRawExtension kRtpExtensionAbsoluteSendTime [1; 2; 3]; CallSetRawExtension kRtpExtensionMid [48];
   CallSetMarker true; CallSetPayload [10; 11; 12]; CallSetPadding 4; CallZeroMutableExtensions].

Lemma sample_calls_ok : calls_ok sample_map 100 empty_pkt sample_calls.
Proof.
  cbn. repeat split; try lia; try (repeat constructor; lia); try discriminate;
    try (intros Hin; by apply not_elem_of_nil in Hin); try (intros Hin%list_elem_of_singleton; vm_compute in Hin; discriminate).
Qed.

Definition sample_pkt : Pkt := foldl (apply_call sample_map) empty_pkt sample_calls.

Lemma sample_packet : exists p, (p ← RtpPacket_new zero_fresh sample_map 100; run_calls zero_fresh p sample_calls) = Ok p /\
  built p sample_pkt /\ extensions_ p = sample_map.
Proof.
  destruct (RtpPacket_new_Ok zero_fresh zero_fresh_ok sample_map 100 ltac:(lia)) as (p0 & E0 & Hp0 & Em & Hc).
  destruct (run_calls_Ok zero_fresh zero_fresh_ok sample_map 100 sample_calls p0 empty_pkt sample_map_ok Hp0 Em Hc sample_calls_ok)
    as (p & E & Hp & Emp). exists p. rewrite E0, bind_Ok. done.
Qed.

Lemma built_packet_parses_witness :
  exists p q', (p ← RtpPacket_new zero_fresh sample_map 100; run_calls zero_fresh p sample_calls) = Ok p /\ sees p sample_pkt /\
    Parse zero_fresh (mkPacket (mkFields false 0 0 0 0 0 0 0 [] 0) sample_map (mkCow [] 0)) (buffer_ p) = Ok (q', true).
Proof.
  destruct (built_packet_parses checks_on zero_fresh sample_map 100 sample_calls
    (mkPacket (mkFields false 0 0 0 0 0 0 0 [] 0) sample_map (mkCow [] 0)) zero_fresh_ok sample_map_ok ltac:(lia) sample_calls_ok eq_refl)
    as (p & q' & E & _ & Hs & Hq & _). exists p, q'. exact (conj E (conj Hs Hq)).
Defined.

Lemma remove_extension_drops_csrcs_witness :
  exists p p' v', built p sample_pkt /\ v_csrcs sample_pkt = [5; 6] /\
    RemoveExtension zero_fresh p kRtpExtensionMid = Ok (p', true) /\ sees p' v' /\ v_csrcs v' = [].
Proof.
  destruct sample_packet as (p & _ & Hp & Em).
  destruct (remove_extension_drops_csrcs checks_on zero_fresh _ p sample_pkt kRtpExtensionMid zero_fresh_ok Hp)
    as (p' & v' & E & Hs & Hc & _).
  - rewrite Em. apply sample_map_ok.
  - discriminate.
  - rewrite Em. apply list_elem_of_In. vm_compute. tauto.
  - intros _. by rewrite Em.
  - vm_compute. discriminate.
  - exists p, p', v'. exact (conj Hp (conj eq_refl (conj E (conj Hs Hc)))).
Defined.

Lemma copied_header_padding_witness :
  exists p p', built p sample_pkt /\ CopyHeaderFrom zero_fresh p p = Ok p' /\ padding_size p' = 0 /\ ~ holds 8 p' (header_only sample_pkt).
Proof.
  destruct sample_packet as (p & _ & Hp & Em).
  destruct (copied_header_padding checks_on zero_fresh p p _ sample_pkt zero_fresh_ok Hp) as (p' & E & _ & Hpad & Hh).
  exists p, p'. split; [ exact Hp |]. split; [ exact E |]. split; [ exact Hpad |].
  intros Hbad. apply Hh in Hbad. discriminate Hbad.
Defined.

Lemma allocate_extension_bounds_witness :
  exists p, RtpPacket_new zero_fresh sample_map 21 = Ok p /\ AllocateRawExtension zero_fresh p 1 4 = Fail OutOfBounds.
Proof.
  destruct (RtpPacket_new_Ok zero_fresh zero_fresh_ok sample_map 21 ltac:(lia)) as (p & E & Hp & Em & Hc). exists p. split; [ done |].
  assert (Hcap : capacity (buffer_ p) = 21) by (vm_compute in E; by injection E as <-).
  destruct (allocate_extension_bounds checks_on zero_fresh p empty_pkt 1 4) as (_ & Hover & _).
  - split; try done; try (vm_compute; split; discriminate); try (intros Hin; by apply not_elem_of_nil in Hin).
  - done.
  - apply Hover. rewrite Hcap. vm_compute. split; [ discriminate | done ].
Defined.
