(* ===== verification/RedPackets.v ===== *)
(** * Packets to send and RED encapsulation

    [class RtpPacketToSend] and the three places that put packets into RED
    packets and take them out again (RFC 2198, one block): [BuildRedPayload] and
    its caller in [rtp_sender_video.cc], and the copy for the FEC generator in
    [RtpSenderEgress::SendPacket]. The receiver's part is in [UlpfecReceiver]. *)
From S2P Require Import Prelude.
From S2P Require Import RtpFecCodec.
From S2P Require Import RtpFecAlgebra.
From S2P Require Import ExtensionMap.
From S2P Require Import RtpPacket.
From S2P Require Import RtpPacketWire.
From S2P Require Import RtpPacketBuild.
From S2P Require Import RtpPacketExt.
From S2P Require Import RtpPacketOps.
From stdpp Require Import base list list_numbers numbers option tactics.
From Stdlib Require Import ZArith Lia.

#[local] Open Scope Z_scope.

(** ** Packets to send *)

Inductive RtpPacketMediaType : Type := kAudio | kVideo | kRetransmission | kForwardErrorCorrection | kPadding.

#[export] Instance RtpPacketMediaType_eq_dec : EqDecision RtpPacketMediaType.
Proof. solve_decision. Defined.

(** Points in time, in microseconds. *)
Inductive Timestamp : Type := MinusInfinity | At (us : Z).

(** The packet with what the sender knows about it besides. *)
Record RtpPacketToSend : Type := mkToSend {
  rtp : RtpPacket;
  capture_time_ : Timestamp;
  packet_type_ : option RtpPacketMediaType;
  allow_retransmission_ : bool;
  is_key_frame_ : bool;
  fec_protect_packet_ : bool;
  is_red_ : bool
}.

Definition with_rtp (p : RtpPacket) (t : RtpPacketToSend) : RtpPacketToSend :=
  mkToSend p (capture_time_ t) (packet_type_ t) (allow_retransmission_ t) (is_key_frame_ t) (fec_protect_packet_ t) (is_red_ t).
Definition set_capture_time (c : Timestamp) (t : RtpPacketToSend) : RtpPacketToSend :=
  mkToSend (rtp t) c (packet_type_ t) (allow_retransmission_ t) (is_key_frame_ t) (fec_protect_packet_ t) (is_red_ t).
Definition set_packet_type (ty : RtpPacketMediaType) (t : RtpPacketToSend) : RtpPacketToSend :=
  mkToSend (rtp t) (capture_time_ t) (Some ty) (allow_retransmission_ t) (is_key_frame_ t) (fec_protect_packet_ t) (is_red_ t).
Definition set_allow_retransmission (b : bool) (t : RtpPacketToSend) : RtpPacketToSend :=
  mkToSend (rtp t) (capture_time_ t) (packet_type_ t) b (is_key_frame_ t) (fec_protect_packet_ t) (is_red_ t).
Definition set_fec_protect_packet (b : bool) (t : RtpPacketToSend) : RtpPacketToSend :=
  mkToSend (rtp t) (capture_time_ t) (packet_type_ t) (allow_retransmission_ t) (is_key_frame_ t) b (is_red_ t).
Definition set_is_red (b : bool) (t : RtpPacketToSend) : RtpPacketToSend :=
  mkToSend (rtp t) (capture_time_ t) (packet_type_ t) (allow_retransmission_ t) (is_key_frame_ t) (fec_protect_packet_ t) b.

Definition kRedForFecHeaderLength : Z := 1.

(** ** Packets as the FEC code sees them *)

Lemma wire_seq v : pkt_ok v -> seq_of (wire v) = v_seq v.
Proof.
  intros Hv. pose proof (po_seq _ Hv). rewrite wire_split. unfold seq_of, byte, fixed_header, be16. cbn [app lookup list_lookup default].
  apply be16_value. lia.
Qed.

Lemma wire_ssrc v : pkt_ok v -> ssrc_of (wire v) = v_ssrc v.
Proof.
  intros Hv. pose proof (po_ssrc _ Hv). rewrite wire_split. unfold ssrc_of, byte, fixed_header, be16, be32. cbn [app lookup list_lookup default].
  transitivity ((u8 (v_ssrc v / 2 ^ 24) * 256 + u8 (v_ssrc v / 2 ^ 16)) * 2 ^ 16 + (u8 (v_ssrc v / 256) * 256 + u8 (v_ssrc v))); [ cbn; lia |].
  apply be32_value. lia.
Qed.

Lemma wire_rtp_ok v : pkt_ok v -> zlen (wire v) <= 1488 -> rtp_ok (wire v).
Proof.
  intros Hv Hl. pose proof (po_padding _ Hv). pose proof (length_header v). split; [| split ].
  - assert (12 <= zlen (wire v)) by (rewrite length_wire; lia). lia.
  - by apply wire_bytes_ok.
  - change (byte (wire v) 0) with (first_byte v).
    assert (Hall : forall p x, all_between 0 15 (fun n =>
      Z.land (0x80 + 0x20 * Z.b2z p + 0x10 * Z.b2z x + n) 0xc0 =? 0x80) = true) by (intros [] []; reflexivity).
    pose proof (po_csrcs _ Hv) as [Hc _].
    exact (proj1 (Z.eqb_eq _ _) (all_between_spec 0 15 _ (Hall (0 <? v_padding v) (bool_decide (v_exts v <> []))) (zlen (v_csrcs v)) ltac:(lia))).
Qed.

(** A packet in a buffer of just its size. *)
Definition packet_with (m : ExtensionMap) (v : Pkt) : RtpPacket :=
  mkPacket (fields_of v (built_size v)) m (mkCow (wire v) (zlen (wire v))).

Lemma packet_with_built m v : pkt_ok v -> built (packet_with m v) v.
Proof. intros Hv. split; [ done | done | done |]. exists []. split; [ by rewrite app_nil_r | constructor ]. Qed.

(** A packet of four bytes of payload at most, for examples. *)
Definition small_pkt (marker : bool) (type seq : Z) (payload : list Z) : Pkt := mkPkt marker type seq 90000 7 [] false [] payload 0.

Lemma small_pkt_ok marker type seq payload :
  0 <= type < 128 -> 0 <= seq < 2 ^ 16 -> Forall is_byte payload -> pkt_ok (small_pkt marker type seq payload).
Proof. intros Ht Hs Hp. split; cbn; try done; try lia; try (split; [ lia | constructor ]); constructor. Qed.

Section Red.
Context `{CheckMode} (fresh : nat -> list Z).

(** The copy constructor: what the copy holds once one of the two is written. *)
Definition copy_to_send (t : RtpPacketToSend) : RtpPacketToSend := with_rtp (copy_packet fresh (rtp t)) t.

(** [BuildRedPayload]. *)
Definition BuildRedPayload (media_packet red_packet : RtpPacketToSend) : outcome RtpPacketToSend :=
  p ← AllocatePayload fresh (rtp red_packet) (kRedForFecHeaderLength + payload_size (rtp media_packet));
  p ← write_payload p 0 [u8 (PayloadType (rtp media_packet))];
  media_payload ← payload (rtp media_packet);
  p ← write_payload p kRedForFecHeaderLength media_payload;
  Ok (with_rtp p red_packet).

(** The branch of [RTPSenderVideo::SendVideo] that encapsulates [packet]. *)
Definition encapsulate_red (packet : RtpPacketToSend) (red_payload_type : Z) : outcome RtpPacketToSend :=
  let red_packet := copy_to_send packet in
  red_packet ← BuildRedPayload packet red_packet;
  p ← SetPayloadType (rtp red_packet) red_payload_type;
  let red_packet := set_is_red true (with_rtp p red_packet) in
  let red_packet := set_packet_type kVideo red_packet in
  Ok (set_allow_retransmission (allow_retransmission_ packet) red_packet).

(** The branch of [RtpSenderEgress::SendPacket] that undoes it for the FEC
    generator. *)
Definition unpack_red (packet : RtpPacketToSend) : outcome RtpPacketToSend :=
  let unpacked_packet := copy_to_send packet in
  media_payload_type ← data_at (rtp packet) (headers_size (rtp packet));
  p ← SetPayloadType (rtp unpacked_packet) media_payload_type;
  p ← SetPayloadSize fresh p (u64 (payload_size (rtp packet) - 1));
  bytes ← payload (rtp packet);
  p ← write_payload p 0 (drop 1 bytes);
  Ok (with_rtp p unpacked_packet).

(** ** What they do to a packet *)

Definition red_of (red_payload_type : Z) (v : Pkt) : Pkt := w_type red_payload_type (w_payload (v_type v :: v_payload v) v).

Context (Hfresh : fresh_ok fresh).

(** A byte in front of a payload. *)
Lemma write_red_Ok k p v b body old :
  holds k p (w_payload old v) -> zlen old = 1 + zlen body -> is_byte b -> Forall is_byte body ->
  exists p1 p2, write_payload p 0 [b] = Ok p1 /\ write_payload p1 kRedForFecHeaderLength body = Ok p2 /\
    holds k p2 (w_payload (b :: body) v) /\ keeps p p2.
Proof.
  intros Hp Hl Hb Hbody. destruct (write_payload_Ok k p _ 0 [b] Hp) as (p1 & E1 & Hp1 & Hk1);
    [ lia | cbn [w_payload v_payload length]; lia | by apply Forall_singleton |].
  unfold kRedForFecHeaderLength. destruct old as [| x old ]; [ cbn in Hl; lia |]. cbn [length] in Hl.
  change (blit (Z.to_nat 0) [b] (v_payload (w_payload (x :: old) v))) with (b :: old) in Hp1.
  change (w_payload (b :: old) (w_payload (x :: old) v)) with (w_payload (b :: old) v) in Hp1.
  destruct (write_payload_Ok k p1 _ 1 body Hp1) as (p2 & E2 & Hp2 & Hk2); [ lia | cbn [w_payload v_payload length]; lia | done |].
  exists p1, p2. split_and!; [ done | done | | by etransitivity ].
  cbn [w_payload v_payload] in Hp2. change (Z.to_nat 1) with 1%nat in Hp2.
  replace (blit 1 body (b :: old)) with (b :: body) in Hp2; [ exact Hp2 |].
  unfold blit. cbn [take app Nat.add drop]. rewrite drop_ge by lia. by rewrite app_nil_r.
Qed.

Lemma encapsulate_red_Ok k t v red_payload_type :
  holds k (rtp t) v -> v_padding v = 0 -> 0 <= red_payload_type < 128 ->
  exists r, encapsulate_red t red_payload_type = Ok r /\ holds k (rtp r) (red_of red_payload_type v) /\ keeps (rtp t) (rtp r) /\
    is_red_ r = true /\ packet_type_ r = Some kVideo /\ fec_protect_packet_ r = fec_protect_packet_ t /\
    is_key_frame_ r = is_key_frame_ t.
Proof.
  intros Ht Hpad Hpt. pose proof (ho_fields _ _ _ Ht) as Hf. pose proof (ho_ok _ _ _ Ht) as Hok. pose proof (po_type _ Hok) as Hty.
  destruct (copy_packet_Ok fresh Hfresh k (rtp t) v Ht) as [Hc Hk0].
  unfold encapsulate_red, BuildRedPayload, AllocatePayload, PayloadType, payload_size. rewrite Hf.
  cbn [fields_of payload_type_ payload_size_ copy_to_send with_rtp rtp].
  destruct (SetPayloadSize_Ok fresh Hfresh k _ v 0 Hc Hpad ltac:(lia)) as (p1 & b1 & -> & _ & Hp1 & Hk1 & _). rewrite bind_Ok.
  destruct (SetPayloadSize_Ok fresh Hfresh k p1 _ (1 + zlen (v_payload v)) Hp1 Hpad ltac:(lia)) as (p2 & b2 & E2 & Hb2 & Hp2 & Hk2 & _).
  change (kRedForFecHeaderLength + zlen (v_payload v)) with (1 + zlen (v_payload v)). rewrite E2, bind_Ok, u8_id by lia. rewrite (payload_view _ _ _ Ht).
  destruct (write_red_Ok k p2 v (v_type v) (v_payload v) b2 Hp2 Hb2) as (p3 & p4 & -> & E4 & Hp4 & Hk4);
    [ unfold is_byte; lia | apply Hok |].
  rewrite !bind_Ok, E4, !bind_Ok. cbn [with_rtp rtp].
  destruct (SetPayloadType_Ok k p4 _ red_payload_type Hp4 Hpt) as (p5 & -> & Hp5 & Hk5). rewrite bind_Ok.
  eexists. split; [ done |]. split_and!; try done. cbn [set_allow_retransmission set_packet_type set_is_red with_rtp rtp].
  by do 4 (etransitivity; [ eassumption |]).
Qed.

(** Taking the packet out of the RED packet. *)
Lemma unpack_red_Ok k t v red_payload_type :
  holds k (rtp t) (red_of red_payload_type v) -> v_padding v = 0 -> 0 <= v_type v < 128 -> zlen (v_payload v) < 2 ^ 64 ->
  exists u, unpack_red t = Ok u /\ holds k (rtp u) v /\ keeps (rtp t) (rtp u) /\ is_key_frame_ u = is_key_frame_ t.
Proof.
  intros Ht Hpad Hty Hmax. pose proof (ho_fields _ _ _ Ht) as Hf. pose proof (ho_ok _ _ _ Ht) as Hok.
  destruct (copy_packet_Ok fresh Hfresh k (rtp t) _ Ht) as [Hc Hk0].
  unfold unpack_red, headers_size, payload_size, data_at. rewrite Hf, (payload_view _ _ _ Ht). cbn [fields_of payload_offset_ payload_size_].
  destruct Ht as [_ _ _ (tail & Hm & _)].
  assert (Hget : get (cow_mem (buffer_ (rtp t))) (zlen (header (red_of red_payload_type v))) = Ok (v_type v)).
  { rewrite Hm. unfold wire. cbn [red_of w_type w_payload v_payload]. rewrite <- app_assoc. by apply get_mid. }
  rewrite Hget, bind_Ok. cbn [copy_to_send with_rtp rtp].
  destruct (SetPayloadType_Ok k _ _ (v_type v) Hc Hty) as (p1 & -> & Hp1 & Hk1). rewrite bind_Ok.
  cbn [red_of w_type w_payload v_payload length]. pose proof (po_payload _ Hok) as Hb. cbn [red_of w_type w_payload v_payload] in Hb.
  replace (u64 (Z.of_nat (S (length (v_payload v))) - 1)) with (zlen (v_payload v)) by (rewrite u64_id by lia; lia).
  destruct (SetPayloadSize_Ok fresh Hfresh k p1 _ (zlen (v_payload v)) Hp1 Hpad ltac:(lia)) as (p2 & b2 & -> & Hb2 & Hp2 & Hk2 & _).
  rewrite !bind_Ok. change (drop 1 (v_type v :: v_payload v)) with (v_payload v). apply Forall_cons_1 in Hb as [_ Hb].
  destruct (write_payload_Ok k p2 _ 0 (v_payload v) Hp2) as (p3 & -> & Hp3 & Hk3); [ lia | cbn [w_payload v_payload]; lia | done |].
  rewrite bind_Ok. eexists. split; [ done |]. split_and!; [| cbn [with_rtp rtp]; by do 3 (etransitivity; [ eassumption |]) | done ].
  cbn [w_payload v_payload] in Hp3. change (Z.to_nat 0) with 0%nat in Hp3. rewrite blit_0_full in Hp3 by lia.
  cbn [with_rtp rtp]. by destruct v.
Qed.

End Red.
