(* ===== verification/PacketSequencer.v ===== *)
(** * Numbering packets

    [class PacketSequencer] of [modules/rtp_rtcp/source/packet_sequencer.cc]:
    every packet of the media stream and of its retransmission stream gets the
    next number of its stream; padding gets the time and type of the last
    media packet. The clock is an argument. *)
From S2P Require Import Prelude.
From S2P Require Import RtpFecCodec.
From S2P Require Import RtpFecAlgebra.
From S2P Require Import ExtensionMap.
From S2P Require Import RtpPacket.
From S2P Require Import RtpPacketWire.
From S2P Require Import RtpPacketBuild.
From S2P Require Import RtpPacketExt.
From S2P Require Import RtpPacketOps.
From S2P Require Import RedPackets.
From stdpp Require Import base list list_numbers numbers option tactics.
From Stdlib Require Import ZArith Lia.

#[local] Open Scope Z_scope.

(** ** Time *)

(** [DivideRoundToNearest] for a constant positive divisor. *)
Definition DivideRoundToNearest (dividend divisor : Z) : Z :=
  let quotient := Z.quot dividend divisor in
  let remainder := Z.rem dividend divisor in
  if dividend <? 0 then if divisor / 2 <? - remainder then quotient - 1 else quotient
  else if (divisor - 1) / 2 <? remainder then quotient + 1 else quotient.

(** [TimeDelta::ms]. *)
Definition ms (delta : Z) : Z := DivideRoundToNearest delta 1000.

(** [Timestamp > Timestamp::Zero()]. *)
Definition after_zero (t : Timestamp) : bool := match t with MinusInfinity => false | At us => 0 <? us end.

(** ** The sequencer *)

(** [int8_t]. *)
Definition s8 (n : Z) : Z := (n + 128) mod 256 - 128.

Definition kTimestampTicksPerMs : Z := 90.

Record PacketSequencer : Type := mkSequencer {
  media_ssrc_ : Z;
  rtx_ssrc_ : option Z;
  require_marker_before_media_padding_ : bool;
  media_sequence_number_ : Z;
  rtx_sequence_number_ : Z;
  last_payload_type_ : Z;
  last_rtp_timestamp_ : Z;
  last_capture_time_ : Timestamp;
  last_timestamp_time_ : Timestamp;
  last_packet_marker_bit_ : bool
}.

(** The two random numbers are arguments. *)
Definition PacketSequencer_new (media_ssrc : Z) (rtx_ssrc : option Z) (require_marker : bool) (media_start rtx_start : Z)
    : PacketSequencer :=
  mkSequencer media_ssrc rtx_ssrc require_marker media_start rtx_start (-1) 0 MinusInfinity MinusInfinity false.

Definition set_media_number (n : Z) (s : PacketSequencer) : PacketSequencer :=
  mkSequencer (media_ssrc_ s) (rtx_ssrc_ s) (require_marker_before_media_padding_ s) n (rtx_sequence_number_ s)
    (last_payload_type_ s) (last_rtp_timestamp_ s) (last_capture_time_ s) (last_timestamp_time_ s) (last_packet_marker_bit_ s).
Definition set_rtx_number (n : Z) (s : PacketSequencer) : PacketSequencer :=
  mkSequencer (media_ssrc_ s) (rtx_ssrc_ s) (require_marker_before_media_padding_ s) (media_sequence_number_ s) n
    (last_payload_type_ s) (last_rtp_timestamp_ s) (last_capture_time_ s) (last_timestamp_time_ s) (last_packet_marker_bit_ s).

(** The part of [RtpState] the sequencer keeps. *)
Record RtpState : Type := mkRtpState {
  state_sequence_number : Z;
  state_timestamp : Z;
  state_capture_time : Timestamp;
  state_last_timestamp_time : Timestamp
}.

Definition SetRtpState (s : PacketSequencer) (state : RtpState) : PacketSequencer :=
  mkSequencer (media_ssrc_ s) (rtx_ssrc_ s) (require_marker_before_media_padding_ s) (state_sequence_number state)
    (rtx_sequence_number_ s) (last_payload_type_ s) (state_timestamp state) (state_capture_time state)
    (state_last_timestamp_time state) (last_packet_marker_bit_ s).
Definition PopulateRtpState (s : PacketSequencer) : RtpState :=
  mkRtpState (media_sequence_number_ s) (last_rtp_timestamp_ s) (last_capture_time_ s) (last_timestamp_time_ s).

Definition CanSendPaddingOnMediaSsrc (s : PacketSequencer) : bool :=
  if last_payload_type_ s =? -1 then false
  else negb (require_marker_before_media_padding_ s && negb (last_packet_marker_bit_ s)).

Section Sequencer.
Context `{CheckMode}.

(** [Timestamp::Micros]. *)
Definition Micros (us : Z) : outcome Timestamp := RTC_DCHECK (0 <=? us);; Ok (At us).

Definition UpdateLastPacketState (s : PacketSequencer) (packet : RtpPacketToSend) (now : Z) : outcome PacketSequencer :=
  payload_type ←
    (if is_red_ packet then
       RTC_DCHECK (kRedForFecHeaderLength <=? payload_size (rtp packet));;
       bytes ← payload (rtp packet); get bytes 0
     else Ok (PayloadType (rtp packet)));
  Ok (mkSequencer (media_ssrc_ s) (rtx_ssrc_ s) (require_marker_before_media_padding_ s) (media_sequence_number_ s)
        (rtx_sequence_number_ s) (s8 payload_type) (RtpPacket.Timestamp (rtp packet)) (capture_time_ packet) (At now)
        (Marker (rtp packet))).

Definition PopulatePaddingFields (s : PacketSequencer) (packet : RtpPacketToSend) (now : Z) : outcome RtpPacketToSend :=
  if Ssrc (rtp packet) =? media_ssrc_ s then
    RTC_DCHECK (CanSendPaddingOnMediaSsrc s);;
    p ← SetTimestamp (rtp packet) (last_rtp_timestamp_ s);
    p ← SetPayloadType p (u8 (last_payload_type_ s));
    Ok (set_capture_time (last_capture_time_ s) (with_rtp p packet))
  else
    RTC_DCHECK (bool_decide (Some (Ssrc (rtp packet)) = rtx_ssrc_ s));;
    if 0 <? payload_size (rtp packet) then Ok packet
    else
      p ← SetTimestamp (rtp packet) (last_rtp_timestamp_ s);
      let packet := set_capture_time (last_capture_time_ s) (with_rtp p packet) in
      match last_timestamp_time_ s with
      | At last =>
          if after_zero (At last) then
            let since_last_media := now - last in
            p ← SetTimestamp (rtp packet) (u32 (RtpPacket.Timestamp (rtp packet) + ms since_last_media * kTimestampTicksPerMs));
            let packet := with_rtp p packet in
            match capture_time_ packet with
            | At us =>
                if after_zero (At us) then t ← Micros (us + since_last_media); Ok (set_capture_time t packet) else Ok packet
            | MinusInfinity => Ok packet
            end
          else Ok packet
      | MinusInfinity => Ok packet
      end.

Definition Sequence (s : PacketSequencer) (packet : RtpPacketToSend) (now : Z) : outcome (PacketSequencer * RtpPacketToSend) :=
  let padding := bool_decide (packet_type_ packet = Some kPadding) in
  if Ssrc (rtp packet) =? media_ssrc_ s then
    if bool_decide (packet_type_ packet = Some kRetransmission) then Ok (s, packet)
    else
      packet ← (if padding then PopulatePaddingFields s packet now else Ok packet);
      p ← SetSequenceNumber (rtp packet) (media_sequence_number_ s);
      let packet := with_rtp p packet in
      let s := set_media_number (u16 (media_sequence_number_ s + 1)) s in
      s ← (if padding then Ok s else UpdateLastPacketState s packet now);
      Ok (s, packet)
  else if bool_decide (Some (Ssrc (rtp packet)) = rtx_ssrc_ s) then
    packet ← (if padding then PopulatePaddingFields s packet now else Ok packet);
    p ← SetSequenceNumber (rtp packet) (rtx_sequence_number_ s);
    Ok (set_rtx_number (u16 (rtx_sequence_number_ s + 1)) s, with_rtp p packet)
  else RTC_DCHECK false;; Ok (s, packet).

(** The packets in the order they are handed over, with the time. *)
Fixpoint sequence_all (s : PacketSequencer) (packets : list (RtpPacketToSend * Z))
    : outcome (PacketSequencer * list RtpPacketToSend) :=
  match packets with
  | [] => Ok (s, [])
  | (packet, now) :: rest =>
      '(s, packet) ← Sequence s packet now; '(s, packets) ← sequence_all s rest; Ok (s, packet :: packets)
  end.

(** ** What it does to packets *)

Lemma Sequence_media s t now k v :
  holds k (rtp t) v -> v_ssrc v = media_ssrc_ s -> packet_type_ t <> Some kRetransmission -> packet_type_ t <> Some kPadding ->
  (is_red_ t = true -> v_payload v <> []) -> 0 <= media_sequence_number_ s < 2 ^ 16 ->
  exists p, Sequence s t now = Ok (mkSequencer (media_ssrc_ s) (rtx_ssrc_ s) (require_marker_before_media_padding_ s)
      (u16 (media_sequence_number_ s + 1)) (rtx_sequence_number_ s) (s8 (if is_red_ t then v_payload v !!! 0%nat else v_type v))
      (v_time v) (capture_time_ t) (At now) (v_marker v), with_rtp p t) /\
    holds k p (w_seq (media_sequence_number_ s) v) /\ keeps (rtp t) p.
Proof.
  intros Ht Hs Hre Hpad Hred Hn. pose proof (ho_fields _ _ _ Ht) as Hf. unfold Sequence. cbv zeta.
  replace (Ssrc (rtp t)) with (v_ssrc v) by (unfold Ssrc; by rewrite Hf).
  rewrite Hs, Z.eqb_refl, !bool_decide_eq_false_2, bind_Ok by done.
  destruct (SetSequenceNumber_Ok k _ v _ Ht Hn) as (p & -> & Hp & Hk). rewrite bind_Ok. exists p. split; [| done ].
  pose proof (ho_fields _ _ _ Hp) as Hfp. unfold UpdateLastPacketState, Marker, RtpPacket.Timestamp, PayloadType, payload_size.
  cbn [with_rtp rtp is_red_ capture_time_]. rewrite Hfp. cbn [fields_of w_seq payload_size_ marker_ timestamp_ payload_type_ v_payload].
  destruct (is_red_ t); [| by rewrite !bind_Ok ].
  destruct (v_payload v) as [| b bytes ] eqn:E; [ by destruct Hred |]. rewrite RTC_DCHECK_Ok, bind_Ok by (by apply Z.leb_le; unfold kRedForFecHeaderLength; cbn [length]; lia).
  rewrite (payload_view _ _ _ Hp). cbn [w_seq v_payload]. by rewrite E, !bind_Ok.
Qed.

Lemma Sequence_other s t now k v :
  holds k (rtp t) v -> packet_type_ t <> Some kPadding -> 0 <= rtx_sequence_number_ s < 2 ^ 16 ->
  (v_ssrc v = media_ssrc_ s -> packet_type_ t = Some kRetransmission -> Sequence s t now = Ok (s, t)) /\
  (v_ssrc v <> media_ssrc_ s -> rtx_ssrc_ s = Some (v_ssrc v) ->
    exists p, Sequence s t now = Ok (set_rtx_number (u16 (rtx_sequence_number_ s + 1)) s, with_rtp p t) /\
      holds k p (w_seq (rtx_sequence_number_ s) v)).
Proof.
  intros Ht Hpad Hn. unfold Sequence. cbv zeta.
  replace (Ssrc (rtp t)) with (v_ssrc v) by (unfold Ssrc; by rewrite (ho_fields _ _ _ Ht)). split.
  - intros -> Hre. by rewrite Z.eqb_refl, bool_decide_eq_true_2.
  - intros Hne Hrtx. rewrite (proj2 (Z.eqb_neq _ _)), Hrtx, bool_decide_eq_true_2, bool_decide_eq_false_2, bind_Ok by done.
    destruct (SetSequenceNumber_Ok k _ v _ Ht Hn) as (p & -> & Hp & _). rewrite bind_Ok. by exists p.
Qed.

(** Padding on the media stream. *)
Lemma Sequence_padding s t now k v :
  holds k (rtp t) v -> v_ssrc v = media_ssrc_ s -> packet_type_ t = Some kPadding -> CanSendPaddingOnMediaSsrc s = true ->
  0 <= media_sequence_number_ s < 2 ^ 16 -> 0 <= last_payload_type_ s -> last_payload_type_ s < 128 -> 0 <= last_rtp_timestamp_ s < 2 ^ 32 ->
  exists p, Sequence s t now = Ok (set_media_number (u16 (media_sequence_number_ s + 1)) s,
      with_rtp p (set_capture_time (last_capture_time_ s) t)) /\
    holds k p (w_seq (media_sequence_number_ s) (w_type (last_payload_type_ s) (w_time (last_rtp_timestamp_ s) v))).
Proof.
  intros Ht Hs Hpad Hcan Hn Hty Hty' Htime. unfold Sequence, PopulatePaddingFields. cbv zeta.
  replace (Ssrc (rtp t)) with (v_ssrc v) by (unfold Ssrc; by rewrite (ho_fields _ _ _ Ht)).
  rewrite Hpad, Hs, Z.eqb_refl, bool_decide_eq_false_2, bool_decide_eq_true_2, Hcan, RTC_DCHECK_Ok, bind_Ok, u8_id by (done || lia).
  destruct (SetTimestamp_Ok k _ v _ Ht Htime) as (p1 & -> & Hp1 & _). rewrite bind_Ok.
  destruct (SetPayloadType_Ok k _ _ _ Hp1 (conj Hty Hty')) as (p2 & -> & Hp2 & _). rewrite !bind_Ok.
  cbn [set_capture_time with_rtp rtp]. destruct (SetSequenceNumber_Ok k _ _ _ Hp2 Hn) as (p3 & -> & Hp3 & _). rewrite !bind_Ok.
  by exists p3.
Qed.

End Sequencer.

(** ** Theorems *)

(** Which stream numbers a packet, and how many packets of a list it numbers. *)
Definition media_numbered (s : PacketSequencer) (t : RtpPacketToSend) : bool :=
  (Ssrc (rtp t) =? media_ssrc_ s) && negb (bool_decide (packet_type_ t = Some kRetransmission)).
Definition rtx_numbered (s : PacketSequencer) (t : RtpPacketToSend) : bool :=
  negb (Ssrc (rtp t) =? media_ssrc_ s) && bool_decide (Some (Ssrc (rtp t)) = rtx_ssrc_ s).
Fixpoint count_packets (f : RtpPacketToSend -> bool) (l : list (RtpPacketToSend * Z)) : Z :=
  match l with [] => 0 | (t, _) :: l => Z.b2z (f t) + count_packets f l end.

Definition number_at (s : PacketSequencer) (l : list (RtpPacketToSend * Z)) (i : nat) (t : RtpPacketToSend) : Z :=
  if media_numbered s t then u16 (media_sequence_number_ s + count_packets (media_numbered s) (take i l))
  else if rtx_numbered s t then u16 (rtx_sequence_number_ s + count_packets (rtx_numbered s) (take i l))
  else SequenceNumber (rtp t).

(** A packet of one of the two streams that is not padding. *)
Record numberable (s : PacketSequencer) (t : RtpPacketToSend) (v : Pkt) : Prop := {
  sn_packet : exists k, holds k (rtp t) v;
  sn_stream : v_ssrc v = media_ssrc_ s \/ rtx_ssrc_ s = Some (v_ssrc v);
  sn_type : packet_type_ t <> Some kPadding;
  sn_red : is_red_ t = true -> v_payload v <> []
}.

Definition numbers_ok (s : PacketSequencer) : Prop :=
  0 <= media_sequence_number_ s < 2 ^ 16 /\ 0 <= rtx_sequence_number_ s < 2 ^ 16.

Lemma Sequence_sendable `{CheckMode} s t now v :
  numbers_ok s -> numberable s t v ->
  exists s' t', Sequence s t now = Ok (s', t') /\ (exists k, holds k (rtp t') (w_seq (number_at s [] 0 t) v)) /\ numbers_ok s' /\
    media_ssrc_ s' = media_ssrc_ s /\ rtx_ssrc_ s' = rtx_ssrc_ s /\
    media_sequence_number_ s' = u16 (media_sequence_number_ s + Z.b2z (media_numbered s t)) /\
    rtx_sequence_number_ s' = u16 (rtx_sequence_number_ s + Z.b2z (rtx_numbered s t)).
Proof.
  intros [Hm Hr] [(k & Ht) Hst Hty Hred]. pose proof (ho_fields _ _ _ Ht) as Hf.
  assert (Hs : Ssrc (rtp t) = v_ssrc v) by (unfold Ssrc; by rewrite Hf).
  assert (Hq : SequenceNumber (rtp t) = v_seq v) by (unfold SequenceNumber; by rewrite Hf).
  unfold number_at, media_numbered, rtx_numbered. rewrite Hs, Hq. cbn [take count_packets].
  destruct (Z.eqb_spec (v_ssrc v) (media_ssrc_ s)) as [He | Hne]; cbn [negb andb].
  - case_bool_decide as Hre; cbn [negb Z.b2z]; rewrite ?Z.add_0_r.
    + exists s, t. rewrite (u16_id (rtx_sequence_number_ s)), (u16_id (media_sequence_number_ s)) by done.
      split; [ by apply (proj1 (Sequence_other s t now k v Ht Hty Hr)) |]. split; [| done ]. exists k. by destruct v.
    + rewrite (u16_id (rtx_sequence_number_ s)), (u16_id (media_sequence_number_ s)) by done.
      destruct (Sequence_media s t now k v Ht He Hre Hty Hred Hm) as (p & -> & Hp & _). eexists _, _. split; [ done |].
      split; [ by exists k |]. split; [| done ]. split; cbn; [ apply u16_range | done ].
  - destruct Hst as [? | Hrtx]; [ done |]. rewrite Hrtx, bool_decide_eq_true_2 by done. cbn [Z.b2z]. rewrite ?Z.add_0_r.
    rewrite (u16_id (rtx_sequence_number_ s)), (u16_id (media_sequence_number_ s)) by done.
    destruct (proj2 (Sequence_other s t now k v Ht Hty Hr) Hne Hrtx) as (p & -> & Hp). eexists _, _. split; [ done |].
    split; [ by exists k |]. split; [| done ]. split; cbn; [ done | apply u16_range ].
Qed.

Lemma number_at_cons s s' t now l i t' :
  media_ssrc_ s' = media_ssrc_ s -> rtx_ssrc_ s' = rtx_ssrc_ s ->
  media_sequence_number_ s' = u16 (media_sequence_number_ s + Z.b2z (media_numbered s t)) ->
  rtx_sequence_number_ s' = u16 (rtx_sequence_number_ s + Z.b2z (rtx_numbered s t)) ->
  number_at s' l i t' = number_at s ((t, now) :: l) (S i) t'.
Proof.
  intros E1 E2 E3 E4. unfold number_at. cbn [take count_packets].
  assert (Em : media_numbered s' = media_numbered s) by (unfold media_numbered; by rewrite E1).
  assert (Er : rtx_numbered s' = rtx_numbered s) by (unfold rtx_numbered; by rewrite E1, E2).
  rewrite Em, Er, E3, E4. unfold u16. by rewrite !Zplus_mod_idemp_l, !Z.add_assoc.
Qed.

Lemma sequence_all_numbers `{CheckMode} s l vs :
  numbers_ok s -> Forall2 (fun tn v => numberable s tn.1 v) l vs ->
  exists s' out, sequence_all s l = Ok (s', out) /\ length out = length l /\
    forall i t now v, l !! i = Some (t, now) -> vs !! i = Some v ->
      exists t' k, out !! i = Some t' /\ holds k (rtp t') (w_seq (number_at s l i t) v).
Proof.
  intros Hn Hl. revert s Hn Hl. revert vs. induction l as [| [t now] l IH ]; intros vs s Hn Hl; apply Forall2_cons_inv_l in Hl || apply Forall2_nil_inv_l in Hl.
  { exists s, []. split_and!; [ done | done |]. intros i t now v Hi. by rewrite lookup_nil in Hi. }
  destruct Hl as (v & vs' & Ht & Hl & ->). cbn [fst] in Ht. cbn [sequence_all].
  destruct (Sequence_sendable s t now v Hn Ht) as (s1 & t1 & -> & (k & Hk) & Hn1 & E1 & E2 & E3 & E4). rewrite bind_Ok.
  destruct (IH vs' s1 Hn1) as (s2 & out & -> & Hlen & Hall).
  { eapply list.Forall2_impl; [ exact Hl |]. intros [t' now'] v' [Hp Hs Hty Hr]. split; try done. by rewrite E1, E2. }
  rewrite bind_Ok. exists s2, (t1 :: out). split_and!; [ done | cbn [length]; lia |].
  intros [| i ] t' now' v' Hi Hv; cbn [lookup list_lookup] in Hi, Hv.
  - injection Hi as <- <-. injection Hv as <-. exists t1, k. split; [ done | exact Hk ].
  - destruct (Hall i t' now' v' Hi Hv) as (t2 & k2 & Ho & Hh). exists t2, k2. split; [ done |].
    rewrite <- (number_at_cons s s1 t now l i t') by done. exact Hh.
Qed.

(** C15. Packets of a media stream, its FEC packets and its retransmission stream in
    any order: every packet gets the number that follows the last packet of its
    own stream, modulo 2^16, whatever else was sent in between; packets sent
    again on the media stream keep theirs; nothing else of the packets
    changes. *)
Theorem sequencer_numbers (mode : CheckMode) s l vs :
  numbers_ok s -> Forall2 (fun tn v => numberable s tn.1 v) l vs ->
  exists s' out, sequence_all s l = Ok (s', out) /\ length out = length l /\
    forall i t now v, l !! i = Some (t, now) -> vs !! i = Some v ->
      exists t' k, out !! i = Some t' /\ holds k (rtp t') (w_seq (number_at s l i t) v).
Proof. apply sequence_all_numbers. Qed.

(** Padding after a FEC packet. A RED packet with a FEC packet leaves the
    sequencer with no marker and with the payload type of FEC as that of the
    last media packet: padding on the media stream is refused where it needs a
    marker, and elsewhere it is sent with the payload type of FEC. *)
Theorem padding_after_fec (mode : CheckMode) s t now k v pad now' k' u ulpfec_payload_type fec :
  numbers_ok s -> holds k (rtp t) v -> v_ssrc v = media_ssrc_ s -> v_marker v = false ->
  packet_type_ t = Some kForwardErrorCorrection -> is_red_ t = true -> v_payload v = ulpfec_payload_type :: fec ->
  0 <= ulpfec_payload_type < 128 -> holds k' (rtp pad) u -> v_ssrc u = media_ssrc_ s -> packet_type_ pad = Some kPadding ->
  exists s' t', Sequence s t now = Ok (s', t') /\
    CanSendPaddingOnMediaSsrc s' = negb (require_marker_before_media_padding_ s) /\
    (require_marker_before_media_padding_ s = false ->
       exists s'' p, Sequence s' pad now' = Ok (s'', p) /\ PayloadType (rtp p) = ulpfec_payload_type).
Proof.
  intros [Hm Hr] Ht Hs Hmark Hty Hred Hpay Hulp Hpad Hsu Hpt.
  destruct (Sequence_media s t now k v Ht Hs) as (p & -> & Hp & _); [ congruence | congruence | by rewrite Hpay | done |].
  rewrite Hred, Hpay, Hmark. cbn [lookup_total list_lookup_total].
  assert (E8 : s8 ulpfec_payload_type = ulpfec_payload_type) by (unfold s8; rewrite Z.mod_small; lia).
  eexists _, _. split; [ done |]. rewrite E8.
  assert (Hcan : forall r, CanSendPaddingOnMediaSsrc (mkSequencer (media_ssrc_ s) (rtx_ssrc_ s) r (u16 (media_sequence_number_ s + 1))
    (rtx_sequence_number_ s) ulpfec_payload_type (v_time v) (capture_time_ t) (At now) false) = negb r).
  { intros r. unfold CanSendPaddingOnMediaSsrc. cbn. rewrite (proj2 (Z.eqb_neq _ _)) by lia. by rewrite andb_true_r. }
  split; [ apply Hcan |]. intros Hreq. rewrite Hreq in *.
  destruct (Sequence_padding (mkSequencer (media_ssrc_ s) (rtx_ssrc_ s) false (u16 (media_sequence_number_ s + 1))
    (rtx_sequence_number_ s) ulpfec_payload_type (v_time v) (capture_time_ t) (At now) false) pad now' k' u) as (p' & -> & Hp');
    try first [ done | exact (Hcan false) | apply u16_range | exact (po_time _ (ho_ok _ _ _ Ht)) | apply Hulp ].
  eexists _, _. split; [ done |]. unfold PayloadType. cbn [with_rtp rtp]. by rewrite (ho_fields _ _ _ Hp').
Qed.

(** ** Witnesses *)

#[local] Instance checks_on : CheckMode := true.

Definition seq_sequencer : PacketSequencer := PacketSequencer_new 7 (Some 8) false 65535 300.
Definition seq_packet (ssrc : Z) (type : RtpPacketMediaType) (red : bool) (payload : list Z) : RtpPacketToSend :=
  mkToSend (packet_with (RtpHeaderExtensionMap_new false) (w_ssrc ssrc (small_pkt false 96 17 payload))) MinusInfinity (Some type) true false true red.

Lemma seq_pkt_ok ssrc payload : 0 <= ssrc < 2 ^ 32 -> Forall is_byte payload -> pkt_ok (w_ssrc ssrc (small_pkt false 96 17 payload)).
Proof. intros Hs Hp. destruct (small_pkt_ok false 96 17 payload ltac:(lia) ltac:(lia) Hp). by split. Qed.

Lemma seq_sendable ssrc type red payload :
  ssrc = 7 \/ ssrc = 8 -> type <> kPadding -> payload <> [] -> Forall is_byte payload ->
  numberable seq_sequencer (seq_packet ssrc type red payload) (w_ssrc ssrc (small_pkt false 96 17 payload)).
Proof.
  intros Hs Ht Hne Hp. split; [ | destruct Hs as [-> | ->]; [ by left | by right ] | cbn; congruence | done ].
  eexists. apply packet_with_built, seq_pkt_ok; [ lia | done ].
Qed.

Lemma sequencer_numbers_witness :
  exists s' out, sequence_all seq_sequencer [(seq_packet 7 kVideo false [1], 5); (seq_packet 8 kRetransmission false [2], 6);
      (seq_packet 7 kRetransmission false [3], 7); (seq_packet 7 kForwardErrorCorrection true [101; 4], 8)] = Ok (s', out) /\
    map (fun t => SequenceNumber (rtp t)) out = [65535; 300; 17; 0].
Proof.
  destruct (sequencer_numbers checks_on seq_sequencer [(seq_packet 7 kVideo false [1], 5); (seq_packet 8 kRetransmission false [2], 6);
      (seq_packet 7 kRetransmission false [3], 7); (seq_packet 7 kForwardErrorCorrection true [101; 4], 8)]
    [w_ssrc 7 (small_pkt false 96 17 [1]); w_ssrc 8 (small_pkt false 96 17 [2]); w_ssrc 7 (small_pkt false 96 17 [3]);
     w_ssrc 7 (small_pkt false 96 17 [101; 4])]) as (s' & out & Hrun & Hlen & Hall).
  - split; cbn; lia.
  - repeat (constructor; [ apply seq_sendable; [ auto | discriminate | discriminate | repeat constructor; lia ] |]). constructor.
  - exists s', out. split; [ exact Hrun |]. cbn [length] in Hlen.
    destruct (Hall 0%nat _ _ _ eq_refl eq_refl) as (t0 & k0 & E0 & H0). destruct (Hall 1%nat _ _ _ eq_refl eq_refl) as (t1 & k1 & E1 & H1).
    destruct (Hall 2%nat _ _ _ eq_refl eq_refl) as (t2 & k2 & E2 & H2). destruct (Hall 3%nat _ _ _ eq_refl eq_refl) as (t3 & k3 & E3 & H3).
    destruct out as [| o0 [| o1 [| o2 [| o3 [| o4 out ]]]]]; try discriminate Hlen. injection E0 as ->. injection E1 as ->. injection E2 as ->. injection E3 as ->.
    cbn [map]. unfold SequenceNumber. rewrite (ho_fields _ _ _ H0), (ho_fields _ _ _ H1), (ho_fields _ _ _ H2), (ho_fields _ _ _ H3). reflexivity.
Defined.

Lemma padding_after_fec_witness :
  exists s' t', Sequence seq_sequencer (seq_packet 7 kForwardErrorCorrection true [101; 4]) 5 = Ok (s', t') /\
    exists s'' p, Sequence s' (seq_packet 7 kPadding false []) 6 = Ok (s'', p) /\ PayloadType (rtp p) = 101.
Proof.
  destruct (padding_after_fec checks_on seq_sequencer (seq_packet 7 kForwardErrorCorrection true [101; 4]) 5
    (built_size (w_ssrc 7 (small_pkt false 96 17 [101; 4]))) (w_ssrc 7 (small_pkt false 96 17 [101; 4])) (seq_packet 7 kPadding false []) 6
    (built_size (w_ssrc 7 (small_pkt false 96 17 []))) (w_ssrc 7 (small_pkt false 96 17 [])) 101 [4]) as (s' & t' & E & _ & Hp).
  - split; cbn; lia.
  - apply packet_with_built, seq_pkt_ok; [ lia | repeat constructor; lia ].
  - reflexivity.
  - reflexivity.
  - reflexivity.
  - reflexivity.
  - reflexivity.
  - lia.
  - apply packet_with_built, seq_pkt_ok; [ lia | constructor ].
  - reflexivity.
  - reflexivity.
  - exists s', t'. split; [ exact E |]. exact (Hp eq_refl).
Defined.
