(* ===== verification/UlpfecGenerator.v ===== *)
(** * The FEC generator

    [class UlpfecGenerator] of [modules/rtp_rtcp/source/ulpfec_generator.cc],
    over any [FecHeaderWriter], as [FlexfecSender] uses it too: media packets
    are collected until a frame is complete and there are enough of them, then
    they are encoded; [GetFecPackets] hands out the FEC packets in RED packets.

    [generated_fec_packets_] are pointers into the array of the same name in
    [class ForwardErrorCorrection]: here indices into [fec_array_]. Of
    [fec_bitrate_] the model keeps what was passed to [Update]. *)
From S2P Require Import Prelude.
From S2P Require Import MaskTable.
From S2P Require Import UnequalProtection.
From S2P Require Import RtpFecCodec.
From S2P Require Import RtpFecAlgebra.
From S2P Require Import RtpFecEncoder.
From S2P Require Import ExtensionMap.
From S2P Require Import RtpPacket.
From S2P Require Import RtpPacketWire.
From S2P Require Import RtpPacketBuild.
From S2P Require Import RtpPacketExt.
From S2P Require Import RtpPacketOps.
From S2P Require Import RedPackets.
From stdpp Require Import base list list_numbers numbers option tactics.
From Stdlib Require Import ZArith Lia SpecFloat.

#[local] Open Scope Z_scope.

Definition kMaxExcessOverhead : Z := 50.
Definition kMinMediaPackets : Z := 4.
Definition kHighProtectionThreshold : Z := 80.

(** A [float] from an [int]; [kMinMediaPacketsAdaptationThreshold] is 2. *)
Definition float_of_Z (z : Z) : spec_float := binary_normalize 24 128 z 0 false.
Definition kMinMediaPacketsAdaptationThreshold : spec_float := float_of_Z 2.

Record FecProtectionParams : Type := mkFecParams { fec_rate : Z; max_fec_frames : Z; fec_mask_type : FecMaskType }.
Record GeneratorParams : Type := mkParams { delta_params : FecProtectionParams; keyframe_params : FecProtectionParams }.

Record UlpfecGenerator : Type := mkGenerator {
  red_payload_type_ : Z;
  ulpfec_payload_type_ : Z;
  fec_ : MaskBuffers;
  fec_array_ : list (list Z);
  media_packets_ : list (list Z);
  last_media_packet_ : option RtpPacketToSend;
  generated_fec_packets_ : list nat;
  num_protected_frames_ : Z;
  min_num_media_packets_ : Z;
  current_params_ : GeneratorParams;
  media_contains_keyframe_ : bool;
  pending_params_ : option GeneratorParams;
  fec_bitrate_ : list Z
}.

Definition default_params : GeneratorParams :=
  mkParams (mkFecParams 0 0 kFecMaskRandom) (mkFecParams 0 0 kFecMaskRandom).
Definition UlpfecGenerator_new (red_payload_type ulpfec_payload_type : Z) (fec : MaskBuffers) : UlpfecGenerator :=
  mkGenerator red_payload_type ulpfec_payload_type fec [] [] None [] 0 1 default_params false None [].

Definition CurrentParams (this : UlpfecGenerator) : FecProtectionParams :=
  if media_contains_keyframe_ this then keyframe_params (current_params_ this) else delta_params (current_params_ this).

Definition ResetState (this : UlpfecGenerator) : UlpfecGenerator :=
  mkGenerator (red_payload_type_ this) (ulpfec_payload_type_ this) (fec_ this) (fec_array_ this) [] None []
    0 (min_num_media_packets_ this) (current_params_ this) false (pending_params_ this) (fec_bitrate_ this).

(** The packets [generated_fec_packets_] points to. *)
Definition generated (this : UlpfecGenerator) : outcome (list (list Z)) :=
  foldr (fun i l => packet ← get (fec_array_ this) (Z.of_nat i); l ← l; Ok (packet :: l)) (Ok []) (generated_fec_packets_ this).

Section Generator.
Context `{CheckMode} `{FecHeaderWriter} (fresh : nat -> list Z).

Definition SetProtectionParameters (this : UlpfecGenerator) (delta_params key_params : FecProtectionParams)
    : outcome UlpfecGenerator :=
  RTC_DCHECK (0 <=? fec_rate delta_params);;
  RTC_DCHECK (fec_rate delta_params <=? 255);;
  RTC_DCHECK (0 <=? fec_rate key_params);;
  RTC_DCHECK (fec_rate key_params <=? 255);;
  Ok (mkGenerator (red_payload_type_ this) (ulpfec_payload_type_ this) (fec_ this) (fec_array_ this) (media_packets_ this)
        (last_media_packet_ this) (generated_fec_packets_ this) (num_protected_frames_ this) (min_num_media_packets_ this)
        (current_params_ this) (media_contains_keyframe_ this) (Some (mkParams delta_params key_params)) (fec_bitrate_ this)).

(** [Overhead], in Q8. *)
Definition Overhead (this : UlpfecGenerator) : outcome Z :=
  let num_media_packets := Z.of_nat (length (media_packets_ this)) in
  RTC_DCHECK (0 <? num_media_packets);;
  num_fec_packets ← NumFecPackets num_media_packets (fec_rate (CurrentParams this));
  if num_media_packets =? 0 then Fail DivideByZero
  else Ok (Z.shiftl num_fec_packets 8 / num_media_packets).

Definition ExcessOverheadBelowMax (this : UlpfecGenerator) : outcome bool :=
  overhead ← Overhead this; Ok (overhead - fec_rate (CurrentParams this) <? kMaxExcessOverhead).

Definition MinimumMediaPacketsReached (this : UlpfecGenerator) : bool :=
  let num_media_packets := Z.of_nat (length (media_packets_ this)) in
  let average_num_packets_per_frame := SFdiv 24 128 (float_of_Z num_media_packets) (float_of_Z (num_protected_frames_ this)) in
  if SFltb average_num_packets_per_frame kMinMediaPacketsAdaptationThreshold
  then min_num_media_packets_ this <=? num_media_packets
  else min_num_media_packets_ this + 1 <=? num_media_packets.

(** The parts of [AddPacketAndGenerateFec]: pending parameters are taken over, ... *)
Definition apply_pending (this : UlpfecGenerator) : UlpfecGenerator :=
  match pending_params_ this with
  | None => this
  | Some params =>
      let this := mkGenerator (red_payload_type_ this) (ulpfec_payload_type_ this) (fec_ this) (fec_array_ this)
        (media_packets_ this) (last_media_packet_ this) (generated_fec_packets_ this) (num_protected_frames_ this)
        (min_num_media_packets_ this) params (media_contains_keyframe_ this) None (fec_bitrate_ this) in
      mkGenerator (red_payload_type_ this) (ulpfec_payload_type_ this) (fec_ this) (fec_array_ this)
        (media_packets_ this) (last_media_packet_ this) (generated_fec_packets_ this) (num_protected_frames_ this)
        (if kHighProtectionThreshold <? fec_rate (CurrentParams this) then kMinMediaPackets else 1)
        (current_params_ this) (media_contains_keyframe_ this) (pending_params_ this) (fec_bitrate_ this)
  end.

(** ... the packet is stored unless there are too many, ... *)
Definition store_packet (this : UlpfecGenerator) (packet : RtpPacketToSend) : outcome UlpfecGenerator :=
  let media_contains_keyframe := media_contains_keyframe_ this || is_key_frame_ packet in
  let num_protected_frames := if Marker (rtp packet) then num_protected_frames_ this + 1 else num_protected_frames_ this in
  '(media_packets, last_media_packet) ←
    (if Z.of_nat (length (media_packets_ this)) <? kUlpfecMaxMediaPackets then
       RTC_DCHECK (kRtpHeaderSize <=? headers_size (rtp packet));;
       Ok (media_packets_ this ++ [Buffer (rtp packet)], Some packet)
     else Ok (media_packets_ this, last_media_packet_ this));
  Ok (mkGenerator (red_payload_type_ this) (ulpfec_payload_type_ this) (fec_ this) (fec_array_ this) media_packets
        last_media_packet (generated_fec_packets_ this) num_protected_frames (min_num_media_packets_ this)
        (current_params_ this) media_contains_keyframe (pending_params_ this) (fec_bitrate_ this)).

(** ... and the packets are encoded. *)
Definition generate_fec (this : UlpfecGenerator) (garbage : list Z) : outcome UlpfecGenerator :=
  let params := CurrentParams this in
  RTC_DCHECK (bool_decide (generated_fec_packets_ this = []));;
  '(_, fec_packets, fec) ←
    EncodeFec_upstream (fec_ this) (media_packets_ this) (u8 (fec_rate params)) 0 false (fec_mask_type params) garbage;
  let this := mkGenerator (red_payload_type_ this) (ulpfec_payload_type_ this) fec
        (fec_packets ++ drop (length fec_packets) (fec_array_ this)) (media_packets_ this) (last_media_packet_ this)
        (generated_fec_packets_ this ++ seq 0 (length fec_packets)) (num_protected_frames_ this) (min_num_media_packets_ this)
        (current_params_ this) (media_contains_keyframe_ this) (pending_params_ this) (fec_bitrate_ this) in
  if bool_decide (generated_fec_packets_ this = []) then Ok (ResetState this) else Ok this.

Definition AddPacketAndGenerateFec (this : UlpfecGenerator) (packet : RtpPacketToSend) (garbage : list Z)
    : outcome UlpfecGenerator :=
  RTC_DCHECK (bool_decide (generated_fec_packets_ this = []));;
  let this := apply_pending this in
  this ← store_packet this packet;
  if Marker (rtp packet) then
    ready ←
      (if max_fec_frames (CurrentParams this) <=? num_protected_frames_ this then Ok true
       else
         below_max ← ExcessOverheadBelowMax this;
         Ok (below_max && MinimumMediaPacketsReached this));
    if (ready : bool) then generate_fec this garbage else Ok this
  else Ok this.

(** One turn of the loop of [GetFecPackets]. *)
Definition fec_to_red (this : UlpfecGenerator) (last_media_packet : RtpPacketToSend) (fec_packet : list Z)
    : outcome RtpPacketToSend :=
  let red_packet := copy_to_send fresh last_media_packet in
  p ← SetPayloadType (rtp red_packet) (u8 (red_payload_type_ this));
  p ← SetMarker p false;
  p ← SetPayloadSize fresh p (kRedForFecHeaderLength + Z.of_nat (length fec_packet));
  p ← write_payload p 0 [u8 (ulpfec_payload_type_ this)];
  p ← write_payload p kRedForFecHeaderLength fec_packet;
  let red_packet := set_packet_type kForwardErrorCorrection (with_rtp p red_packet) in
  let red_packet := set_allow_retransmission false red_packet in
  let red_packet := set_is_red true red_packet in
  Ok (set_fec_protect_packet false red_packet).

Fixpoint fecs_to_red (this : UlpfecGenerator) (last_media_packet : RtpPacketToSend) (fec_packets : list (list Z))
    : outcome (list RtpPacketToSend) :=
  match fec_packets with
  | [] => Ok []
  | fec_packet :: fec_packets =>
      red_packet ← fec_to_red this last_media_packet fec_packet;
      red_packets ← fecs_to_red this last_media_packet fec_packets;
      Ok (red_packet :: red_packets)
  end.

Definition GetFecPackets (this : UlpfecGenerator) : outcome (UlpfecGenerator * list RtpPacketToSend) :=
  if bool_decide (generated_fec_packets_ this = []) then Ok (this, [])
  else
    match last_media_packet_ this with
    | None => Fail CheckFailed
    | Some last_media_packet =>
        p ← SetPayloadSize fresh (rtp last_media_packet) 0;
        let last_media_packet := with_rtp p last_media_packet in
        fec_packets ← generated this;
        red_packets ← fecs_to_red this last_media_packet fec_packets;
        let total_fec_size_bytes := foldr Z.add 0 (map (fun r => packet_size (rtp r)) red_packets) in
        let this := ResetState this in
        Ok (mkGenerator (red_payload_type_ this) (ulpfec_payload_type_ this) (fec_ this) (fec_array_ this)
              (media_packets_ this) (last_media_packet_ this) (generated_fec_packets_ this) (num_protected_frames_ this)
              (min_num_media_packets_ this) (current_params_ this) (media_contains_keyframe_ this) (pending_params_ this)
              (fec_bitrate_ this ++ [total_fec_size_bytes]), red_packets)
    end.

End Generator.
