(* ===== verification/UlpfecGeneratorSpec.v ===== *)
(** * What the FEC generator promises

    [UlpfecGenerator] refines a machine on packets: the packets since the last
    FEC packets make a block of at most 48, and the block is closed at the end
    of a frame when it spans enough frames, or when encoding it now would cost
    little more than asked for and it has enough packets. [AddPacketAndGenerateFec]
    followed by [GetFecPackets], as the sender calls them, is one step of the
    machine, and the packets handed out are RED packets with the FEC packets of
    the block. *)
From S2P Require Import Prelude.
From S2P Require Import MaskTable.
From S2P Require Import UnequalProtection.
From S2P Require Import RtpFecCodec.
From S2P Require Import RtpFecAlgebra.
From S2P Require Import UlpfecHeader.
From S2P Require Import RtpFecSound.
From S2P Require Import RtpFecEncoder.
From S2P Require Import RtpFecColumns.
From S2P Require Import RtpFecBuffers.
From S2P Require Import RtpFecBlocks.
From S2P Require Import ExtensionMap.
From S2P Require Import RtpPacket.
From S2P Require Import RtpPacketWire.
From S2P Require Import RtpPacketBuild.
From S2P Require Import RtpPacketExt.
From S2P Require Import RtpPacketOps.
From S2P Require Import RedPackets.
From S2P Require Import UlpfecGenerator.
From stdpp Require Import base list list_numbers numbers option tactics.
From Stdlib Require Import ZArith Lia SpecFloat.

#[local] Open Scope Z_scope.

(** ** The machine *)

Record Blocker : Type := mkBlocker {
  bl_packets : list Pkt;
  bl_frames : Z;
  bl_key : bool;
  bl_min : Z;
  bl_params : GeneratorParams;
  bl_pending : option GeneratorParams
}.

Definition bl_current (s : Blocker) : FecProtectionParams :=
  if bl_key s then keyframe_params (bl_params s) else delta_params (bl_params s).

(** New parameters come into force with the next packet. *)
Definition bl_apply (s : Blocker) : Blocker :=
  match bl_pending s with
  | None => s
  | Some params =>
      let rate := fec_rate (if bl_key s then keyframe_params params else delta_params params) in
      mkBlocker (bl_packets s) (bl_frames s) (bl_key s) (if 80 <? rate then 4 else 1) params None
  end.

Definition bl_store (s : Blocker) (v : Pkt) (key : bool) : Blocker :=
  mkBlocker (if Z.of_nat (length (bl_packets s)) <? 48 then bl_packets s ++ [v] else bl_packets s)
    (bl_frames s + Z.b2z (v_marker v)) (bl_key s || key) (bl_min s) (bl_params s) (bl_pending s).

(** Is the block to be closed at the end of a frame? *)
Definition bl_ready (s : Blocker) : bool :=
  let n := Z.of_nat (length (bl_packets s)) in
  let rate := fec_rate (bl_current s) in
  (max_fec_frames (bl_current s) <=? bl_frames s) ||
  (fec_count n rate * 256 / n <? rate + 50) && (bl_min s + Z.b2z (2 * bl_frames s <=? n) <=? n).

Definition bl_reset (s : Blocker) : Blocker := mkBlocker [] 0 false (bl_min s) (bl_params s) (bl_pending s).

(** One packet: the new state, and the block if one is closed, with its rate and
    kind of mask. *)
Definition bl_step (s : Blocker) (v : Pkt) (key : bool) : Blocker * option (list Pkt * FecProtectionParams) :=
  let s := bl_store (bl_apply s) v key in
  if v_marker v && bl_ready s then (bl_reset s, Some (bl_packets s, bl_current s)) else (s, None).

(** What is assumed of parameters. *)
Definition fec_params_ok (f : FecProtectionParams) : Prop := 0 <= fec_rate f <= 255 /\ max_fec_frames f <= 255.
Definition params_ok (p : GeneratorParams) : Prop := fec_params_ok (delta_params p) /\ fec_params_ok (keyframe_params p).
Record blocker_ok (s : Blocker) : Prop := {
  bo_params : params_ok (bl_params s);
  bo_pending : forall p, bl_pending s = Some p -> params_ok p;
  bo_frames : 0 <= bl_frames s < 255;
  bo_size : zlen (bl_packets s) <= 48
}.

(** ** The generator and the machine *)

(** The RED packet for a FEC packet, made from the last media packet. *)
Definition fec_red (red_payload_type ulpfec_payload_type : Z) (v : Pkt) (fec : list Z) : Pkt :=
  w_payload (ulpfec_payload_type :: fec) (w_marker false (w_type red_payload_type v)).

Record carries_fec (this : UlpfecGenerator) (v : Pkt) (r : RtpPacketToSend) (fec : list Z) : Prop := {
  cf_packet : exists k, holds k (rtp r) (fec_red (red_payload_type_ this) (ulpfec_payload_type_ this) v fec);
  cf_type : packet_type_ r = Some kForwardErrorCorrection /\ is_red_ r = true;
  cf_flags : allow_retransmission_ r = false /\ fec_protect_packet_ r = false
}.

Record generates (this : UlpfecGenerator) (s : Blocker) : Prop := {
  ge_fec : buffers_ok (fec_ this);
  ge_media : media_packets_ this = map wire (bl_packets s);
  ge_last : match list.last (bl_packets s) with
            | None => True
            | Some v => exists t k, last_media_packet_ this = Some t /\ holds k (rtp t) v /\ v_padding v = 0
            end;
  ge_frames : num_protected_frames_ this = bl_frames s;
  ge_min : min_num_media_packets_ this = bl_min s;
  ge_params : current_params_ this = bl_params s;
  ge_key : media_contains_keyframe_ this = bl_key s;
  ge_pending : pending_params_ this = bl_pending s;
  ge_types : 0 <= red_payload_type_ this < 128 /\ 0 <= ulpfec_payload_type_ this < 128
}.

(** After a block is closed: its FEC packets are there to be fetched, if any. *)
Definition has_fecs (this : UlpfecGenerator) (s : Blocker) (fecs : list (list Z)) : Prop :=
  match fecs with
  | [] => generates this (bl_reset s) /\ generated_fec_packets_ this = []
  | _ => generates this s /\ (exists rest, fec_array_ this = fecs ++ rest) /\ generated_fec_packets_ this = seq 0 (length fecs)
  end.

(** What the first steps of [AddPacketAndGenerateFec] leave alone. *)
Definition untouched (this this' : UlpfecGenerator) : Prop :=
  generated_fec_packets_ this' = generated_fec_packets_ this /\ fec_ this' = fec_ this /\
  red_payload_type_ this' = red_payload_type_ this /\ ulpfec_payload_type_ this' = ulpfec_payload_type_ this.

(** ** The average number of packets per frame *)

Lemma average_below n f :
  1 <= n <= 48 -> 1 <= f <= 255 ->
  SFltb (SFdiv 24 128 (float_of_Z n) (float_of_Z f)) kMinMediaPacketsAdaptationThreshold = (n <? 2 * f).
Proof.
  intros Hn Hf.
  assert (Hall : all_between 1 48 (fun n => all_between 1 255 (fun f => Bool.eqb
    (SFltb (SFdiv 24 128 (float_of_Z n) (float_of_Z f)) kMinMediaPacketsAdaptationThreshold) (n <? 2 * f))) = true)
    by (vm_compute; reflexivity).
  apply eqb_prop. exact (all_between_spec 1 255 _ (all_between_spec 1 48 _ Hall n Hn) f Hf).
Qed.

(** ** What never changes *)

Definition types_of (this : UlpfecGenerator) : Z * Z := (red_payload_type_ this, ulpfec_payload_type_ this).

Lemma Add_types `{CheckMode} `{FecHeaderWriter} this t garbage this' :
  AddPacketAndGenerateFec this t garbage = Ok this' -> types_of this' = types_of this.
Proof.
  unfold AddPacketAndGenerateFec. cbv zeta. intros Hrun. apply bind_Ok_inv in Hrun as (u & _ & Hrun).
  apply bind_Ok_inv in Hrun as (this2 & Hstore & Hrun).
  assert (H2 : types_of this2 = types_of this).
  { unfold store_packet in Hstore. cbv zeta in Hstore. apply bind_Ok_inv in Hstore as ([mp lm] & _ & [= <-]).
    unfold types_of, apply_pending. cbn. by destruct (pending_params_ this). }
  rewrite <- H2. destruct (Marker (rtp t)); [| by injection Hrun as <- ]. apply bind_Ok_inv in Hrun as (ready & _ & Hrun).
  destruct ready; [| by injection Hrun as <- ]. unfold generate_fec in Hrun. cbv zeta in Hrun.
  apply bind_Ok_inv in Hrun as (u' & _ & Hrun). apply bind_Ok_inv in Hrun as ([[ret fecs] fec] & _ & Hrun).
  cbn [generated_fec_packets_] in Hrun. by destruct (bool_decide _); injection Hrun as <-.
Qed.

Lemma Get_types `{CheckMode} fresh this this' rs : GetFecPackets fresh this = Ok (this', rs) -> types_of this' = types_of this.
Proof.
  unfold GetFecPackets. destruct (bool_decide _); [ by intros [= <- <-] |]. destruct (last_media_packet_ this); [| done ].
  intros Hrun. do 3 (apply bind_Ok_inv in Hrun as (? & _ & Hrun)). by injection Hrun as <- <-.
Qed.

(** ** Blocks that can be encoded *)

(** A block with a packet in it, at the end of a frame. *)
Definition blocker_ok_after (s : Blocker) : Prop :=
  1 <= zlen (bl_packets s) <= 48 /\ 1 <= bl_frames s <= 255 /\ 0 <= fec_rate (bl_current s) < 256.

(** Packets of one source in order, with room for a FEC header. *)
Record media_block (media_ssrc : Z) (ps : list Pkt) : Prop := {
  mb_ok : Forall pkt_ok ps;
  mb_sizes : Forall (fun v => zlen (wire v) <= 1480) ps;
  mb_source : Forall (fun v => v_ssrc v = media_ssrc) ps;
  mb_order : in_order (map wire ps)
}.

Lemma Forall_both {A} (P Q R : A -> Prop) l : Forall P l -> Forall Q l -> (forall x, P x -> Q x -> R x) -> Forall R l.
Proof. intros HP HQ HR. rewrite list.Forall_forall in *. eauto. Qed.

Lemma media_block_ok `{FecHeaderWriter} media_ssrc ps rate :
  media_block media_ssrc ps -> ps <> [] -> zlen ps <= writer_MaxMediaPackets <= 48 -> 0 <= rate < 256 ->
  block_ok (map wire ps) rate 0 /\ Forall (fun m => ssrc_of m = media_ssrc) (map wire ps).
Proof.
  intros [Hok Hsz Hsrc Hord] Hne Hn Hrate. split.
  - split; [ by destruct ps | | | done | by rewrite length_map | done | lia ]; apply Forall_map.
    + eapply Forall_both; [ exact Hok | exact Hsz |]. intros v Hv Hl. cbn beta in Hl. apply wire_rtp_ok; [ done | lia ].
    + eapply list.Forall_impl; [ exact Hsz |]. unfold fits. intros v Hl. cbn beta in Hl. lia.
  - apply Forall_map. eapply Forall_both; [ exact Hok | exact Hsrc |]. intros v Hv Hs. by rewrite wire_ssrc.
Qed.

Section Spec.
Context `{CheckMode} `{FecHeaderWriter} `{FecHeaderReader} (ssrc media_ssrc : Z) `{!FecHeaderLaws ssrc media_ssrc}.
Context (fresh : nat -> list Z) (Hfresh : fresh_ok fresh).
Context (Hmax : writer_MaxMediaPackets = 48).

Lemma current_params this s : generates this s -> CurrentParams this = bl_current s.
Proof. intros Hg. unfold CurrentParams, bl_current. by rewrite (ge_key _ _ Hg), (ge_params _ _ Hg). Qed.

Lemma apply_pending_Ok this s :
  generates this s -> generates (apply_pending this) (bl_apply s) /\ untouched this (apply_pending this).
Proof.
  intros Hg. pose proof Hg as [Hfec Hm Hl Hf Hmin Hp Hk Hpend Hty]. unfold apply_pending, bl_apply. rewrite Hpend.
  destruct (bl_pending s) as [params |]; [| done ]. split; [| done ]. split; try done; cbn.
  unfold CurrentParams. cbn. by rewrite Hk.
Qed.

Lemma bl_apply_ok s : blocker_ok s -> blocker_ok (bl_apply s).
Proof.
  intros [Hp Hpend Hf Hn]. unfold bl_apply. destruct (bl_pending s) as [params |] eqn:E; [| by split; rewrite ?E ].
  split; cbn; [ by apply Hpend | done.. ].
Qed.

Lemma bl_current_ok s : blocker_ok s -> fec_params_ok (bl_current s).
Proof. intros [[? ?] _ _ _]. unfold bl_current. by destruct (bl_key s). Qed.

Lemma store_packet_Ok this s t k v :
  generates this s -> holds k (rtp t) v -> v_padding v = 0 ->
  exists this', store_packet this t = Ok this' /\ generates this' (bl_store s v (is_key_frame_ t)) /\ untouched this this'.
Proof.
  intros Hg Ht Hpad. pose proof Hg as [Hfec Hm Hl Hf Hmin Hp Hk Hpend Hty]. unfold store_packet. rewrite Hm, length_map.
  pose proof (ho_fields _ _ _ Ht) as Hfi. pose proof (length_header v) as Hlh.
  assert (Hmark : Marker (rtp t) = v_marker v) by (unfold Marker; by rewrite Hfi).
  assert (Hhs : headers_size (rtp t) = zlen (header v)) by (unfold headers_size; by rewrite Hfi).
  rewrite Hmark, Hhs, (holds_buffer _ _ _ Ht). change kUlpfecMaxMediaPackets with 48. unfold kRtpHeaderSize.
  assert (Hframes : (if v_marker v then num_protected_frames_ this + 1 else num_protected_frames_ this) =
    bl_frames s + Z.b2z (v_marker v)) by (rewrite Hf; destruct (v_marker v); cbn; lia).
  destruct (Z.ltb_spec (Z.of_nat (length (bl_packets s))) 48) as [Hlt | Hge].
  - rewrite RTC_DCHECK_Ok, !bind_Ok by (apply Z.leb_le; lia). eexists. split; [ done |]. split; [| done ].
    split; cbn; try done; unfold bl_store; cbn [bl_packets bl_key bl_frames]; rewrite ?(proj2 (Z.ltb_lt _ _) Hlt); try done.
    + by rewrite map_app.
    + rewrite last_snoc. by exists t, k.
    + by rewrite Hk.
  - rewrite bind_Ok. eexists. split; [ done |]. split; [| done ].
    split; cbn; try done; unfold bl_store; cbn [bl_packets bl_key bl_frames]; rewrite ?(proj2 (Z.ltb_ge _ _) Hge); try done. by rewrite Hk.
Qed.

(** The end of a frame. *)
Lemma ready_Ok this s :
  generates this s -> blocker_ok_after s ->
  (if max_fec_frames (CurrentParams this) <=? num_protected_frames_ this then Ok true
   else below_max ← ExcessOverheadBelowMax this; Ok (below_max && MinimumMediaPacketsReached this)) = Ok (bl_ready s).
Proof.
  intros Hg (Hn & Hf & Hrate). pose proof (current_params _ _ Hg) as Hcur. unfold bl_ready. cbv zeta.
  rewrite (ge_frames _ _ Hg), Hcur. destruct (max_fec_frames (bl_current s) <=? bl_frames s); [ done |]. cbn [orb].
  assert (Hm : Z.of_nat (length (media_packets_ this)) = zlen (bl_packets s)) by (by rewrite (ge_media _ _ Hg), length_map).
  unfold ExcessOverheadBelowMax, Overhead, MinimumMediaPacketsReached. rewrite Hm, Hcur, (ge_frames _ _ Hg), (ge_min _ _ Hg). cbv zeta.
  rewrite RTC_DCHECK_Ok, bind_Ok by (apply Z.ltb_lt; lia).
  destruct (NumFecPackets_Ok (zlen (bl_packets s)) (fec_rate (bl_current s)) ltac:(lia) ltac:(lia)) as (-> & _).
  rewrite bind_Ok, (proj2 (Z.eqb_neq _ _)), !bind_Ok, Z.shiftl_mul_pow2, average_below by lia. change (2 ^ 8) with 256.
  unfold kMaxExcessOverhead. do 2 f_equal.
  - apply eq_true_iff_eq. rewrite !Z.ltb_lt. lia.
  - destruct (Z.ltb_spec (zlen (bl_packets s)) (2 * bl_frames s)), (Z.leb_spec (2 * bl_frames s) (zlen (bl_packets s)));
      try lia; cbn [Z.b2z]; by rewrite ?Z.add_0_r.
Qed.

(** Encoding a block. *)
Lemma encode_total fec ps f garbage :
  media_block media_ssrc ps -> 1 <= zlen ps <= 48 -> 0 <= fec_rate f < 256 -> buffers_ok fec -> buffer 288 garbage ->
  exists ret fecs fec', EncodeFec_upstream fec (map wire ps) (fec_rate f) 0 false (fec_mask_type f) garbage = Ok (ret, fecs, fec') /\
    buffers_ok fec' /\ Forall bytes_ok fecs.
Proof.
  intros Hps Hn Hrate Hfec Hg. destruct (media_block_ok media_ssrc ps (fec_rate f) Hps) as [Hblock Hsrc]; [ intros ->; cbn in Hn; lia | lia | done |].
  assert (Hrun : exists ret fecs fec', EncodeFec_upstream fec (map wire ps) (fec_rate f) 0 false (fec_mask_type f) garbage = Ok (ret, fecs, fec') /\
    Forall bytes_ok fecs); [| destruct Hrun as (ret & fecs & fec' & Hrun & Hb); exists ret, fecs, fec';
      destruct (EncodeFec_buffers _ _ _ _ _ _ _ _ _ _ Hfec Hg Hrun); done ].
  destruct (Z.eq_dec (fec_rate f) 0) as [E0 | Hpf].
  - rewrite E0 in *. exists 0, [], fec. split; [| constructor ]. by apply EncodeFec_no_rate.
  - pose proof (EncodeFec_sends ssrc media_ssrc fec (map wire ps) (fec_rate f) 0 false (fec_mask_type f) garbage Hblock Hsrc Hfec Hg Hpf) as Henc.
    cbv zeta in Henc. rewrite length_map in Henc. destruct (NumFecPackets_Ok (zlen ps) (fec_rate f) ltac:(lia) Hrate) as (_ & Hr & _).
    destruct (_ <=? _).
    + destruct Henc as (fecs & fec' & Hrun & Hlen & Hall). exists 0, fecs, fec'. split; [ done |].
      apply Forall_lookup_2. intros i wire' Hi. pose proof (lookup_lt_Some _ _ _ Hi).
      destruct (Hall (Z.of_nat i) ltac:(lia)) as (w & Hw & Hfw). rewrite Nat2Z.id in Hw. assert (w = wire') as -> by congruence.
      eapply (block_fec_buffer ssrc media_ssrc (map wire ps) _ wire' 1488); [ apply Hblock | | | exact Hfw ].
      * eapply list.Forall_impl; [ apply (block_rtp _ _ _ Hblock) |]. intros m (Hm & _). lia.
      * apply picked_some. rewrite length_map.
        destruct (protects_covers (fec_mask_type f) false (zlen ps) (fec_count (zlen ps) (fec_rate f)) 0 ltac:(lia) ltac:(lia) ltac:(lia)) as (_ & Hsome & _).
        apply Hsome. lia.
    + destruct Henc as (fec' & Hrun). eexists _, _, fec'. split; [ exact Hrun |]. apply Forall_replicate. constructor.
Qed.

Lemma fec_to_red_Ok this t k v fec :
  0 <= red_payload_type_ this < 128 -> 0 <= ulpfec_payload_type_ this < 128 ->
  holds k (rtp t) (w_payload [] v) -> v_padding v = 0 -> bytes_ok fec ->
  exists r, fec_to_red fresh this t fec = Ok r /\ carries_fec this v r fec.
Proof.
  intros Hred Hulp Ht Hpad Hfec. unfold fec_to_red. cbv zeta. rewrite !u8_id by lia.
  destruct (copy_packet_Ok fresh Hfresh k (rtp t) _ Ht) as [Hc _]. cbn [copy_to_send with_rtp rtp].
  destruct (SetPayloadType_Ok k _ _ (red_payload_type_ this) Hc Hred) as (p1 & -> & Hp1 & _). rewrite bind_Ok.
  destruct (SetMarker_Ok k p1 _ false Hp1) as (p2 & -> & Hp2 & _). rewrite bind_Ok. change (kRedForFecHeaderLength + zlen fec) with (1 + zlen fec).
  destruct (SetPayloadSize_Ok fresh Hfresh k p2 _ (1 + zlen fec) Hp2 Hpad ltac:(lia)) as (p3 & old & -> & Hold & Hp3 & _). rewrite bind_Ok.
  destruct (write_red_Ok k p3 _ (ulpfec_payload_type_ this) fec old Hp3 Hold) as (p4 & p5 & -> & E5 & Hp5 & _);
    [ unfold is_byte; lia | done |].
  rewrite bind_Ok, E5, bind_Ok. eexists. split; [ done |]. split; [ by exists k | done.. ].
Qed.

Lemma fecs_to_red_Ok this t k v fecs :
  0 <= red_payload_type_ this < 128 -> 0 <= ulpfec_payload_type_ this < 128 ->
  holds k (rtp t) (w_payload [] v) -> v_padding v = 0 -> Forall bytes_ok fecs ->
  exists rs, fecs_to_red fresh this t fecs = Ok rs /\ Forall2 (carries_fec this v) rs fecs.
Proof.
  intros Hred Hulp Ht Hpad. induction 1 as [| fec fecs Hf _ (rs & Hrs & Hall) ]; cbn [fecs_to_red]; [ by exists [] |].
  destruct (fec_to_red_Ok this t k v fec Hred Hulp Ht Hpad Hf) as (r & -> & Hr). rewrite bind_Ok, Hrs, bind_Ok.
  eexists. split; [ done |]. by constructor.
Qed.

(** The pointers still point to the packets that were generated. *)
Lemma generated_Ok this fecs rest :
  fec_array_ this = fecs ++ rest -> generated_fec_packets_ this = seq 0 (length fecs) -> generated this = Ok fecs.
Proof.
  intros Ha Hg. unfold generated. rewrite Ha, Hg. clear Ha Hg.
  assert (Hrun : forall pre, foldr (fun i l => packet ← get (pre ++ fecs ++ rest) (Z.of_nat i); l ← l; Ok (packet :: l)) (Ok [])
    (seq (length pre) (length fecs)) = Ok fecs); [| exact (Hrun []) ].
  induction fecs as [| fec fecs IH ]; intros pre; [ done |]. cbn [length seq foldr app]. specialize (IH (pre ++ [fec])).
  rewrite length_app, Nat.add_1_r, <- !app_assoc in IH. cbn [app] in IH. rewrite IH.
  by rewrite (get_mid pre _ fec (zlen pre)), !bind_Ok.
Qed.

Lemma carries_fec_types this this' v rs fecs :
  red_payload_type_ this' = red_payload_type_ this -> ulpfec_payload_type_ this' = ulpfec_payload_type_ this ->
  Forall2 (carries_fec this v) rs fecs -> Forall2 (carries_fec this' v) rs fecs.
Proof.
  intros E1 E2 Hrs. eapply list.Forall2_impl; [ exact Hrs |]. intros r fec [Hpk Hty Hfl]. split; [| done.. ]. by rewrite E1, E2.
Qed.

(** Handing the packets out. *)
Lemma GetFecPackets_Ok this s fecs v :
  has_fecs this s fecs -> list.last (bl_packets s) = Some v -> Forall bytes_ok fecs ->
  exists this' rs, GetFecPackets fresh this = Ok (this', rs) /\ Forall2 (carries_fec this v) rs fecs /\
    generates this' (bl_reset s) /\ generated_fec_packets_ this' = [].
Proof.
  intros Hf Hlast Hb. unfold GetFecPackets. destruct fecs as [| fec fecs' ] eqn:E.
  { destruct Hf as [Hg Hnil]. exists this, []. by rewrite bool_decide_eq_true_2. }
  destruct Hf as (Hg & (rest & Ha) & Hidx). rewrite <- E in *. pose proof Hg as [Hfec Hm Hl Hf Hmin Hp Hk Hpend [Hred Hulp]]. rewrite Hlast in Hl.
  destruct Hl as (t & k & El & Ht & Hpad). rewrite bool_decide_eq_false_2, El.
  2:{ rewrite Hidx. by rewrite E. }
  destruct (SetPayloadSize_Ok fresh Hfresh k (rtp t) v 0 Ht Hpad ltac:(lia)) as (p & old & -> & Hold & Hp0 & _).
  destruct old; [| cbn in Hold; lia ]. rewrite bind_Ok, (generated_Ok _ _ _ Ha Hidx), bind_Ok.
  destruct (fecs_to_red_Ok this (with_rtp p t) k v fecs Hred Hulp Hp0 Hpad Hb) as (rs & -> & Hrs). rewrite bind_Ok. cbv zeta.
  eexists _, rs. split_and!; [ done | done | | done ]. split; done.
Qed.

(** Closing a block. *)
Lemma generate_fec_Ok this s garbage :
  generates this s -> blocker_ok_after s -> media_block media_ssrc (bl_packets s) ->
  generated_fec_packets_ this = [] -> buffer 288 garbage ->
  exists ret fecs fec' this1,
    EncodeFec_upstream (fec_ this) (map wire (bl_packets s)) (fec_rate (bl_current s)) 0 false (fec_mask_type (bl_current s)) garbage
      = Ok (ret, fecs, fec') /\
    generate_fec this garbage = Ok this1 /\ has_fecs this1 s fecs /\ Forall bytes_ok fecs.
Proof.
  intros Hg (Hn & Hf & Hrate) Hps Hgen Hbuf. pose proof (current_params _ _ Hg) as Hcur. pose proof Hg as [Hfec Hm Hl ? ? ? ? ? ?].
  destruct (encode_total (fec_ this) (bl_packets s) (bl_current s) garbage Hps Hn Hrate Hfec Hbuf) as (ret & fecs & fec' & Hrun & Hfec' & Hb).
  exists ret, fecs, fec'. unfold generate_fec. cbv zeta. rewrite RTC_DCHECK_Ok, bind_Ok by (by rewrite Hgen).
  rewrite Hcur, Hm, u8_id, Hrun, bind_Ok by lia. cbn [generated_fec_packets_]. rewrite Hgen. cbn [app].
  destruct (decide (fecs = [])) as [-> | Hne].
  - rewrite bool_decide_eq_true_2 by done. eexists. split; [ done |]. split; [ done |]. split; [| done ]. by split.
  - rewrite bool_decide_eq_false_2 by (by destruct fecs). eexists. split; [ done |]. split; [ done |]. split; [| done ].
    unfold has_fecs. destruct fecs as [| f fs ]; [ done |]. split; [ by split |]. split; [ by eexists | done ].
Qed.

Lemma bl_apply_packets s : bl_packets (bl_apply s) = bl_packets s /\ bl_frames (bl_apply s) = bl_frames s.
Proof. unfold bl_apply. by destruct (bl_pending s). Qed.

Lemma bl_store_ok s v key :
  blocker_ok s -> let s' := bl_store s v key in
  1 <= zlen (bl_packets s') <= 48 /\ fec_params_ok (bl_current s') /\ bl_frames s' = bl_frames s + Z.b2z (v_marker v) /\
  params_ok (bl_params s') /\ (forall p, bl_pending s' = Some p -> params_ok p) /\ exists last, list.last (bl_packets s') = Some last.
Proof.
  intros [Hp Hpend Hf Hn] s'. unfold s', bl_store. cbn [bl_packets bl_frames bl_params bl_pending].
  assert (Hsz : 1 <= zlen (if zlen (bl_packets s) <? 48 then bl_packets s ++ [v] else bl_packets s) <= 48)
    by (destruct (Z.ltb_spec (zlen (bl_packets s)) 48); rewrite ?length_app; cbn [length]; lia).
  split_and!; try done; try lia; [ by unfold bl_current; cbn; destruct (bl_key s || key); apply Hp |].
  destruct (list.last _) as [last |] eqn:E; [ by exists last |]. apply last_None in E. rewrite E in Hsz. cbn in Hsz. lia.
Qed.

Lemma bl_step_ok s v key : blocker_ok s -> blocker_ok (bl_step s v key).1.
Proof.
  intros Hs. unfold bl_step. cbv zeta. pose proof (bl_apply_ok s Hs) as Ha.
  destruct (bl_store_ok (bl_apply s) v key Ha) as (Hn & Hcur & Hfr & Hp & Hpend & _). cbv zeta in *.
  set (s' := bl_store (bl_apply s) v key) in *. pose proof (bo_frames _ Ha) as Hf.
  destruct (v_marker v) eqn:Em; cbn [andb Z.b2z fst] in *; [| split; try done; lia ].
  destruct (bl_ready s') eqn:Er; cbn [fst]; [ split; try done; cbn; lia |].
  split; try done; [| lia ]. unfold bl_ready in Er. cbv zeta in Er. apply orb_false_iff in Er as [Er _].
  apply Z.leb_gt in Er. destruct Hcur as [_ Hmf]. lia.
Qed.

(** One packet through [AddPacketAndGenerateFec]. *)
Lemma generator_add this s t k v garbage :
  let s2 := bl_store (bl_apply s) v (is_key_frame_ t) in
  generates this s -> blocker_ok s -> generated_fec_packets_ this = [] -> holds k (rtp t) v -> v_padding v = 0 ->
  media_block media_ssrc (bl_packets s2) -> buffer 288 garbage ->
  exists this1, AddPacketAndGenerateFec this t garbage = Ok this1 /\
    match (bl_step s v (is_key_frame_ t)).2 with
    | None => generates this1 (bl_step s v (is_key_frame_ t)).1 /\ generated_fec_packets_ this1 = []
    | Some (ps, params) => exists last ret fecs fec', list.last ps = Some last /\
        EncodeFec_upstream (fec_ this) (map wire ps) (fec_rate params) 0 false (fec_mask_type params) garbage = Ok (ret, fecs, fec') /\
        Forall bytes_ok fecs /\ has_fecs this1 s2 fecs /\ ps = bl_packets s2 /\ (bl_step s v (is_key_frame_ t)).1 = bl_reset s2
    end.
Proof.
  intros s2 Hg Hs Hgen Ht Hpad Hps Hbuf. unfold AddPacketAndGenerateFec, bl_step. cbv zeta. fold s2.
  rewrite RTC_DCHECK_Ok, bind_Ok by (by rewrite Hgen). destruct (apply_pending_Ok this s Hg) as (Hga & Hgen1 & Hfec1 & Hred1 & Hulp1).
  destruct (store_packet_Ok _ _ t k v Hga Ht Hpad) as (this2 & -> & Hg2 & Hgen2 & Hfec2 & Hred2 & Hulp2). rewrite bind_Ok. fold s2 in Hg2.
  pose proof (bl_apply_ok s Hs) as Ha. pose proof (bo_frames _ Ha) as Hf0.
  destruct (bl_store_ok (bl_apply s) v (is_key_frame_ t) Ha) as (Hn & [Hrate _] & Hfr & _ & _ & (last & Hlast)). cbv zeta in *. fold s2 in Hn, Hrate, Hfr, Hlast.
  replace (Marker (rtp t)) with (v_marker v) by (unfold Marker; by rewrite (ho_fields _ _ _ Ht)).
  assert (Hnone : generates this2 s2 /\ generated_fec_packets_ this2 = []) by (split; [ done | congruence ]).
  destruct (v_marker v); cbn [andb Z.b2z] in *; [| by exists this2 ].
  assert (Hafter : blocker_ok_after s2) by (split_and!; lia).
  rewrite (ready_Ok this2 s2 Hg2 Hafter), bind_Ok. destruct (bl_ready s2); cbn [fst snd]; [| by exists this2 ].
  destruct (generate_fec_Ok this2 s2 garbage Hg2 Hafter Hps (proj2 Hnone) Hbuf) as (ret & fecs & fec' & this3 & Henc & -> & Hhas & Hb).
  exists this3. split; [ done |]. exists last, ret, fecs, fec'. split_and!; try done. congruence.
Qed.

(** One packet through the generator. *)
Lemma generator_step this s t k v garbage :
  generates this s -> blocker_ok s -> generated_fec_packets_ this = [] -> holds k (rtp t) v -> v_padding v = 0 ->
  media_block media_ssrc (bl_packets (bl_store (bl_apply s) v (is_key_frame_ t))) -> buffer 288 garbage ->
  exists this1 this' rs,
    AddPacketAndGenerateFec this t garbage = Ok this1 /\ GetFecPackets fresh this1 = Ok (this', rs) /\
    generates this' (bl_step s v (is_key_frame_ t)).1 /\ generated_fec_packets_ this' = [] /\
    match (bl_step s v (is_key_frame_ t)).2 with
    | None => rs = []
    | Some (ps, params) => exists last ret fecs fec', list.last ps = Some last /\
        EncodeFec_upstream (fec_ this) (map wire ps) (fec_rate params) 0 false (fec_mask_type params) garbage = Ok (ret, fecs, fec') /\
        Forall2 (carries_fec this last) rs fecs
    end.
Proof.
  intros Hg Hs Hgen Ht Hpad Hps Hbuf. destruct (generator_add this s t k v garbage Hg Hs Hgen Ht Hpad Hps Hbuf) as (this1 & Hadd & Hout).
  pose proof (Add_types _ _ _ _ Hadd) as Hty. injection Hty as E1 E2. exists this1.
  destruct ((bl_step s v (is_key_frame_ t)).2) as [[ps params] |].
  - destruct Hout as (last & ret & fecs & fec' & Hlast & Henc & Hb & Hhas & -> & ->).
    destruct (GetFecPackets_Ok this1 _ fecs last Hhas Hlast Hb) as (this' & rs & Hget & Hrs & Hg' & Hnil). exists this', rs.
    split_and!; try done. exists last, ret, fecs, fec'. split_and!; try done. eapply carries_fec_types; [| | exact Hrs ]; congruence.
  - destruct Hout as [Hg' Hnil]. exists this1, []. unfold GetFecPackets. by rewrite bool_decide_eq_true_2.
Qed.

End Spec.

(** ** Theorems *)


(** ** Witness *)

#[local] Instance checks_on : CheckMode := true.

Definition frame_pkt : Pkt := small_pkt true 96 5 [1; 2; 3].
Definition frame_params : GeneratorParams := mkParams (mkFecParams 100 1 kFecMaskRandom) (mkFecParams 100 1 kFecMaskRandom).
Definition frame_generator : UlpfecGenerator :=
  mkGenerator 100 101 (mkBuffers (replicate 288 0) (replicate 288 0) 2) [] [] None [] 0 1 frame_params false None [].
Definition frame_blocker : Blocker := mkBlocker [] 0 false 1 frame_params None.
Definition frame_to_send : RtpPacketToSend :=
  mkToSend (packet_with (RtpHeaderExtensionMap_new false) frame_pkt) MinusInfinity (Some kVideo) true false true false.

Lemma frame_pkt_ok : pkt_ok frame_pkt.
Proof. apply small_pkt_ok; [ lia | lia | repeat constructor; lia ]. Qed.

