(* ===== verification/SenderEgress.v ===== *)
(** * Protection on the way out

    The part of [class RtpSenderEgress] of
    [modules/rtp_rtcp/source/rtp_sender_egress.cc] that feeds the FEC generator:
    the block of [SendPacket] for packets to be protected, which undoes the RED
    encapsulation, [SetFecProtectionParameters] and [FetchFecPackets], over any
    [VideoFecGenerator]. Statistics, packet history and the network are not part of it. *)
From S2P Require Import Prelude.
From S2P Require Import RtpFecCodec.
From S2P Require Import RtpFecAlgebra.
From S2P Require Import RtpFecEncoder.
From S2P Require Import RtpPacket.
From S2P Require Import RedPackets.
From S2P Require Import UlpfecGenerator.
From stdpp Require Import base list list_numbers numbers option tactics.
From Stdlib Require Import ZArith Lia.

#[local] Open Scope Z_scope.

(** [class VideoFecGenerator] of [video_fec_generator.h], as far as the egress
    calls it. *)
Class VideoFecGenerator (G : Type) : Type := {
  SetProtectionParameters_ : G -> FecProtectionParams -> FecProtectionParams -> outcome G;
  AddPacketAndGenerateFec_ : G -> RtpPacketToSend -> list Z -> outcome G;
  GetFecPackets_ : G -> outcome (G * list RtpPacketToSend)
}.

#[export] Instance UlpfecVideoFecGenerator `{CheckMode} `{FecHeaderWriter} (fresh : nat -> list Z) : VideoFecGenerator UlpfecGenerator := {
  SetProtectionParameters_ := SetProtectionParameters;
  AddPacketAndGenerateFec_ := AddPacketAndGenerateFec;
  GetFecPackets_ := GetFecPackets fresh
}.

(** The members of [RtpSenderEgress] for FEC. *)
Record EgressFec (G : Type) : Type := mkEgress {
  fec_generator_ : option G;
  pending_fec_params_ : option (FecProtectionParams * FecProtectionParams)
}.
#[global] Arguments mkEgress {G}.
#[global] Arguments fec_generator_ {G}.
#[global] Arguments pending_fec_params_ {G}.

Definition SetFecProtectionParameters {G} (this : EgressFec G) (delta_params key_params : FecProtectionParams) : EgressFec G :=
  mkEgress (fec_generator_ this) (Some (delta_params, key_params)).

Section Egress.
Context `{CheckMode} {G : Type} `{!VideoFecGenerator G} (fresh : nat -> list Z).

Definition protect_packet (this : EgressFec G) (packet : RtpPacketToSend) (garbage : list Z) : outcome (EgressFec G) :=
  match fec_generator_ this with
  | Some generator =>
      if fec_protect_packet_ packet then
        RTC_DCHECK (bool_decide (packet_type_ packet = Some kVideo));;
        generator ←
          match pending_fec_params_ this with
          | Some (delta_params, key_params) => SetProtectionParameters_ generator delta_params key_params
          | None => Ok generator
          end;
        generator ←
          (if is_red_ packet then
             unpacked_packet ← unpack_red fresh packet;
             AddPacketAndGenerateFec_ generator unpacked_packet garbage
           else AddPacketAndGenerateFec_ generator packet garbage);
        Ok (mkEgress (Some generator) None)
      else Ok this
  | None => Ok this
  end.

Definition FetchFecPackets (this : EgressFec G) : outcome (EgressFec G * list RtpPacketToSend) :=
  match fec_generator_ this with
  | Some generator =>
      '(generator, packets) ← GetFecPackets_ generator;
      Ok (mkEgress (Some generator) (pending_fec_params_ this), packets)
  | None => Ok (this, [])
  end.

(** Packets that are sent one after the other, the FEC packets fetched after
    each. *)
Fixpoint protect_all (this : EgressFec G) (packets : list (RtpPacketToSend * list Z)) : outcome (EgressFec G * list RtpPacketToSend) :=
  match packets with
  | [] => Ok (this, [])
  | (packet, garbage) :: rest =>
      this ← protect_packet this packet garbage;
      '(this, fecs) ← FetchFecPackets this;
      '(this, more) ← protect_all this rest;
      Ok (this, fecs ++ more)
  end.

End Egress.
