(* ===== verification/EgressSpec.v ===== *)
(** * What the egress sends

    A sequence of packets through the protection of the egress, over any
    generator that groups the packets into blocks the way the abstract machine
    of [UlpfecGeneratorSpec] does and hands out the FEC packets of a block once
    it is closed. *)
From S2P Require Import Prelude.
From S2P Require Import Ascending.
From S2P Require Import MaskTable.
From S2P Require Import UnequalProtection.
From S2P Require Import RtpFecCodec.
From S2P Require Import RtpFecAlgebra.
From S2P Require Import RtpFecEncoder.
From S2P Require Import RtpFecColumns.
From S2P Require Import RtpFecBuffers.
From S2P Require Import ExtensionMap.
From S2P Require Import RtpPacket.
From S2P Require Import RtpPacketWire.
From S2P Require Import RtpPacketBuild.
From S2P Require Import RedPackets.
From S2P Require Import UlpfecGenerator.
From S2P Require Import UlpfecGeneratorSpec.
From S2P Require Import SenderEgress.
From stdpp Require Import base list list_numbers numbers option sorting tactics.
From Stdlib Require Import ZArith Lia Sorted.

#[local] Open Scope Z_scope.

(** ** Parts of a block *)

Lemma positions_app g prev a b : exists rest, positions g prev (a ++ b) = positions g prev a ++ rest.
Proof.
  revert g prev. induction a as [| x a IH ]; intros g prev; [ by eexists |]. cbn [app positions].
  destruct (IH (g + u16 (seq_of x - prev)) (seq_of x)) as (rest & ->). by exists rest.
Qed.

Lemma in_order_prefix a b : in_order (a ++ b) -> in_order a.
Proof.
  destruct a as [| m0 a ]; [ split; constructor |]. unfold in_order, offsets. cbn [app].
  destruct (positions_app 0 (seq_of m0) (m0 :: a) b) as (rest & E). cbn [app] in E. rewrite E. intros [Hs Hl].
  apply StronglySorted_app_1_l in Hs. by apply Forall_app in Hl as [Hl _].
Qed.

Lemma media_block_prefix ssrc a b : media_block ssrc (a ++ b) -> media_block ssrc a.
Proof.
  intros [H1 H2 H3 H4]. apply Forall_app in H1 as [H1 _], H2 as [H2 _], H3 as [H3 _]. split; try done.
  rewrite map_app in H4. by eapply in_order_prefix.
Qed.

(** ** The sender *)

(** The machine on several packets, with the key frame flags: the blocks that
    are closed. *)
Fixpoint bl_sends (s : Blocker) (vs : list (Pkt * bool)) : list (list Pkt * FecProtectionParams) :=
  match vs with
  | [] => []
  | (v, key) :: vs =>
      let '(s, closed) := bl_step s v key in
      match closed with None => bl_sends s vs | Some block => block :: bl_sends s vs end
  end.

(** A packet that is to be protected, in a RED packet or not. *)
Record video_packet (t : RtpPacketToSend) (v : Pkt) : Prop := {
  vp_packet : exists k, if is_red_ t then exists red, holds k (rtp t) (red_of red v) else holds k (rtp t) v;
  vp_type : packet_type_ t = Some kVideo /\ fec_protect_packet_ t = true;
  vp_media : v_padding v = 0 /\ 0 <= v_type v < 128
}.

(** ** Generators that make blocks *)

(** [bg_state g s]: between two packets [g] stands where the machine stands in
    [s]. [bg_sent g last rs fecs]: the packets [rs] carry [fecs], the FEC packets
    of a block that ends with [last], when [g] is asked for them. *)
Class BlockGenerator `{CheckMode} `{FecHeaderWriter} (G : Type) `{!VideoFecGenerator G} (media_ssrc : Z) : Type := {
  bg_state : G -> Blocker -> Prop;
  bg_masks : G -> MaskBuffers;
  bg_sent : G -> Pkt -> list RtpPacketToSend -> list (list Z) -> Prop;
  bg_buffers : forall g s, bg_state g s -> buffers_ok (bg_masks g);
  bg_step : forall g s t k v garbage,
    bg_state g s -> blocker_ok s -> holds k (rtp t) v -> v_padding v = 0 -> v_ssrc v = media_ssrc ->
    media_block media_ssrc (bl_packets (bl_store (bl_apply s) v (is_key_frame_ t))) -> buffer 288 garbage ->
    exists g1 g' rs, AddPacketAndGenerateFec_ g t garbage = Ok g1 /\ GetFecPackets_ g1 = Ok (g', rs) /\
      bg_state g' (bl_step s v (is_key_frame_ t)).1 /\
      match (bl_step s v (is_key_frame_ t)).2 with
      | None => rs = [] /\ forall last rs fecs, bg_sent g' last rs fecs -> bg_sent g last rs fecs
      | Some (ps, params) => exists last ret fecs fec', list.last ps = Some last /\
          EncodeFec_upstream (bg_masks g) (map wire ps) (fec_rate params) 0 false (fec_mask_type params) garbage = Ok (ret, fecs, fec') /\
          bg_sent g last rs fecs
      end
}.

Section Sender.
Context `{CheckMode} `{FecHeaderWriter} {G : Type} `{!VideoFecGenerator G} (media_ssrc : Z) `{!BlockGenerator G media_ssrc}.
Context (fresh : nat -> list Z) (Hfresh : fresh_ok fresh).

(** What the generator gets, in a RED packet or not. *)
Lemma protect_unpacks (g : G) t v garbage :
  video_packet t v -> zlen (wire v) <= 1480 ->
  exists u k, protect_packet fresh (mkEgress (Some g) None) t garbage =
      (g ← AddPacketAndGenerateFec_ g u garbage; Ok (mkEgress (Some g) None)) /\
    holds k (rtp u) v /\ v_padding v = 0 /\ is_key_frame_ u = is_key_frame_ t.
Proof.
  intros [(k & Ht) [Hty Hfp] [Hpad Hvt]] Hlen. unfold protect_packet. cbn [fec_generator_ pending_fec_params_].
  rewrite Hfp, RTC_DCHECK_Ok, bind_Ok, bind_Ok by (by apply bool_decide_eq_true).
  destruct (is_red_ t); [| by exists t, k ]. destruct Ht as (red & Ht).
  destruct (unpack_red_Ok fresh Hfresh k t v red Ht Hpad Hvt) as (u & -> & Hu & _ & Ek); [| by exists u, k; rewrite bind_Ok ].
  rewrite length_wire in Hlen by lia. lia.
Qed.

Lemma protect_packet_Ok (g : G) s t v garbage :
  bg_state g s -> blocker_ok s -> video_packet t v -> v_ssrc v = media_ssrc ->
  media_block media_ssrc (bl_packets (bl_store (bl_apply s) v (is_key_frame_ t))) -> buffer 288 garbage -> zlen (wire v) <= 1480 ->
  exists e g' rs,
    protect_packet fresh (mkEgress (Some g) None) t garbage = Ok e /\ FetchFecPackets e = Ok (mkEgress (Some g') None, rs) /\
    bg_state g' (bl_step s v (is_key_frame_ t)).1 /\
    match (bl_step s v (is_key_frame_ t)).2 with
    | None => rs = [] /\ forall last rs fecs, bg_sent g' last rs fecs -> bg_sent g last rs fecs
    | Some (ps, params) => exists last ret fecs fec', list.last ps = Some last /\
        EncodeFec_upstream (bg_masks g) (map wire ps) (fec_rate params) 0 false (fec_mask_type params) garbage = Ok (ret, fecs, fec') /\
        bg_sent g last rs fecs
    end.
Proof.
  intros Hg Hs Hv Hsrc Hps Hbuf Hlen. destruct (protect_unpacks g t v garbage Hv Hlen) as (u & k & -> & Hu & Hpad & Ek). rewrite <- Ek in *.
  destruct (bg_step g s u k v garbage Hg Hs Hu Hpad Hsrc Hps Hbuf) as (g1 & g' & rs & -> & Hget & Hg' & Hout). rewrite bind_Ok.
  eexists _, g', rs. split; [ done |]. unfold FetchFecPackets. cbn [fec_generator_ pending_fec_params_]. by rewrite Hget, bind_Ok.
Qed.

Lemma bl_step_store s v key :
  zlen (bl_packets s) < 48 -> let ps := bl_packets s ++ [v] in
  bl_packets (bl_store (bl_apply s) v key) = ps /\
  match (bl_step s v key).2 with
  | Some (ps', _) => ps' = ps
  | None => bl_packets (bl_step s v key).1 = ps
  end.
Proof.
  intros Hn ps. destruct (bl_apply_packets s) as [Ep _].
  assert (Est : bl_packets (bl_store (bl_apply s) v key) = ps) by (unfold bl_store; cbn; by rewrite Ep, (proj2 (Z.ltb_lt _ _) Hn)).
  split; [ done |]. unfold bl_step. cbv zeta. by destruct (_ && _).
Qed.

(** A block that is closed with the last of the packets. *)
Lemma protect_all_Ok vs : forall (g : G) s l params,
  bg_state g s -> blocker_ok s ->
  Forall2 (fun tg vk => video_packet tg.1 vk.1 /\ is_key_frame_ tg.1 = vk.2 /\ buffer 288 tg.2) l vs ->
  media_block media_ssrc (bl_packets s ++ map fst vs) -> zlen (bl_packets s ++ map fst vs) <= 48 ->
  bl_sends s vs = [(bl_packets s ++ map fst vs, params)] ->
  exists e rs last ret fecs fec fec' garbage,
    protect_all fresh (mkEgress (Some g) None) l = Ok (e, rs) /\ list.last (bl_packets s ++ map fst vs) = Some last /\
    EncodeFec_upstream fec (map wire (bl_packets s ++ map fst vs)) (fec_rate params) 0 false (fec_mask_type params) garbage
      = Ok (ret, fecs, fec') /\
    buffers_ok fec /\ buffer 288 garbage /\ bg_sent g last rs fecs.
Proof.
  induction vs as [| [v key] vs IH ]; intros g s l params Hg Hs Hl Hb Hn Hsends; [ discriminate |].
  apply Forall2_cons_inv_r in Hl as ([t garbage] & l' & (Hv & Ek & Hbuf) & Hl & ->). cbn [fst snd] in *. subst key.
  cbn [map] in *. rewrite length_app in Hn. cbn [fst length] in Hn. rewrite cons_middle, app_assoc in Hb, Hsends |- *.
  destruct (bl_step_store s v (is_key_frame_ t) ltac:(lia)) as [Est Ecl]. cbv zeta in Est, Ecl.
  destruct (protect_packet_Ok g s t v garbage Hg Hs Hv) as (e1 & g' & rs & Hrun1 & Hrun2 & Hg' & Hout); [| | done | |].
  { apply media_block_prefix in Hb. apply mb_source in Hb. apply Forall_app in Hb as [_ Hb%Forall_inv]. done. }
  { rewrite Est. by eapply media_block_prefix. }
  { apply media_block_prefix in Hb. apply mb_sizes in Hb. apply Forall_app in Hb as [_ Hb%Forall_inv]. done. }
  pose proof (bl_step_ok s v (is_key_frame_ t) Hs) as Hs'. cbn [bl_sends] in Hsends.
  destruct (bl_step s v (is_key_frame_ t)) as [s1 closed]. cbn [fst snd] in *. cbn [protect_all]. rewrite Hrun1, bind_Ok, Hrun2, bind_Ok.
  destruct closed as [[ps params1] |].
  - subst ps. injection Hsends as E -> Hmore. assert (vs = []) as ->.
    { apply (f_equal (@length Pkt)) in E. rewrite !length_app, length_map in E. destruct vs; [ done | cbn [length] in E; lia ]. }
    apply Forall2_nil_inv_r in Hl as ->. cbn [map]. rewrite app_nil_r. destruct Hout as (last & ret & fecs & fec' & Hlast & Henc & Hrs).
    cbn [protect_all]. rewrite bind_Ok, app_nil_r. exists (mkEgress (Some g') None), rs, last, ret, fecs, (bg_masks g), fec', garbage.
    split_and!; try done; by apply (bg_buffers g s).
  - destruct Hout as [-> Hback]. rewrite <- Ecl in *.
    destruct (IH g' s1 l' params Hg' Hs' Hl Hb) as (e & rs & last & ret & fecs & fec & fec' & g2 & Hall & Hlast & Henc & Hfec & Hbg & Hrs).
    { rewrite Ecl, !length_app. cbn [length]. lia. }
    { done. }
    rewrite Hall, bind_Ok. exists e, rs, last, ret, fecs, fec, fec', g2. split_and!; try done; try apply Hfec. by apply Hback.
Qed.

End Sender.
