(* ===== verification/UlpfecReceiver.v ===== *)
(** * The ULPFEC receiver

    [class UlpfecReceiver] of [modules/rtp_rtcp/source/ulpfec_receiver.cc]:
    [AddReceivedRedPacket] takes the packet out of a RED packet and keeps it,
    [ProcessReceivedFec] hands media packets to [OnRecoveredPacket], feeds all
    of them to the FEC decoder with their mutable extensions zeroed, and hands
    on what the decoder rebuilt.

    The calls of [OnRecoveredPacket] are collected in the order they are made;
    a callback that calls back into the receiver (RED inside RED) is not
    modelled. The clock is an argument. *)
From S2P Require Import Prelude.
From S2P Require Import RtpFecCodec.
From S2P Require Import RtpFecAlgebra.
From S2P Require Import RtpFecDecoder.
From S2P Require Import ExtensionMap.
From S2P Require Import RtpPacket.
From S2P Require Import RedPackets.
From stdpp Require Import base list list_numbers numbers option tactics.
From Stdlib Require Import ZArith Lia.

#[local] Open Scope Z_scope.

(** [RtpPacketReceived], as far as the receiver looks at it. *)
Record RtpPacketReceived : Type := mkRx { rx : RtpPacket; recovered_ : bool }.

Record FecPacketCounter : Type := mkCounter {
  num_packets : Z;
  num_bytes : Z;
  num_fec_packets : Z;
  num_recovered_packets : Z;
  first_packet_time : Timestamp
}.

(** A [ForwardErrorCorrection::ReceivedPacket] with the members the decoder
    does not look at. *)
Record RedReceivedPacket : Type := mkRed {
  red_packet : ReceivedPacket;
  is_recovered : bool;
  red_extensions : ExtensionMap
}.

Record UlpfecReceiver : Type := mkReceiver {
  receiver_ssrc_ : Z;
  receiver_payload_type_ : Z;
  decoder_ : FecDecoder;
  received_packets_ : list RedReceivedPacket;
  recovered_packets_ : list RecoveredPacket;
  packet_counter_ : FecPacketCounter
}.

Definition kRedHeaderLength : Z := 1.

Section Receiver.
Context `{CheckMode} `{FecHeaderReader} (fresh : nat -> list Z).

Definition UlpfecReceiver_new (ssrc ulpfec_payload_type : Z) : outcome UlpfecReceiver :=
  RTC_DCHECK (-1 <=? ulpfec_payload_type);;
  Ok (mkReceiver ssrc ulpfec_payload_type (mkDecoder ssrc ssrc []) [] [] (mkCounter 0 0 0 0 MinusInfinity)).

(** The packet counter for a packet of [size] bytes. *)
Definition count_packet (size : Z) (is_fec : bool) (now : Z) (c : FecPacketCounter) : FecPacketCounter :=
  mkCounter (u64 (num_packets c + 1)) (u64 (num_bytes c + size))
    (if is_fec then u64 (num_fec_packets c + 1) else num_fec_packets c) (num_recovered_packets c)
    (match first_packet_time c with MinusInfinity => At now | t => t end).

(** The packet inside a RED packet, as the FEC decoder gets it. *)
Definition red_data (rtp_packet : RtpPacket) (is_fec : bool) (payload_type : Z) : outcome (list Z) :=
  if is_fec then
    slice (Buffer rtp_packet) (headers_size rtp_packet + kRedHeaderLength) (payload_size rtp_packet - kRedHeaderLength)
  else
    data ← slice (cow_mem (buffer_ rtp_packet)) 0 (headers_size rtp_packet);
    payload_type_byte ← get data 1;
    data ← put data 1 (u8 (Z.land payload_type_byte 0x80 + payload_type));
    rest ← slice (cow_mem (buffer_ rtp_packet)) (headers_size rtp_packet + kRedHeaderLength)
             (packet_size rtp_packet - headers_size rtp_packet - kRedHeaderLength);
    Ok (data ++ rest).

Definition AddReceivedRedPacket (this : UlpfecReceiver) (packet : RtpPacketReceived) (now : Z)
    : outcome (UlpfecReceiver * bool) :=
  let rtp_packet := rx packet in
  if negb (Ssrc rtp_packet =? receiver_ssrc_ this) then Ok (this, false)
  else if IP_PACKET_SIZE <? packet_size rtp_packet then Ok (this, false)
  else if payload_size rtp_packet =? 0 then Ok (this, false)
  else
    bytes ← payload rtp_packet;
    first ← get bytes 0;
    let payload_type := Z.land first 0x7f in
    let is_fec := payload_type =? receiver_payload_type_ this in
    if negb (Z.land first 0x80 =? 0) then Ok (this, false)
    else
      let counter := count_packet (packet_size rtp_packet) is_fec now (packet_counter_ this) in
      data ← red_data rtp_packet is_fec payload_type;
      let received_packet :=
        mkRed (mkReceived (Ssrc rtp_packet) (SequenceNumber rtp_packet) is_fec data) (recovered_ packet) (extensions_ rtp_packet) in
      let received_packets :=
        if 0 <? Z.of_nat (length data) then received_packets_ this ++ [received_packet] else received_packets_ this in
      Ok (mkReceiver (receiver_ssrc_ this) (receiver_payload_type_ this) (decoder_ this) received_packets
            (recovered_packets_ this) counter, true).

(** What a media packet goes through before the decoder: the packet for the
    callback and the one for the decoder, [None] if it cannot be parsed. *)
Definition parse_media (received_packet : RedReceivedPacket) : outcome (option (RtpPacketReceived * ReceivedPacket)) :=
  let r := red_packet received_packet in
  rtp_packet ← RtpPacket_new fresh (red_extensions received_packet) kDefaultPacketSize;
  '(rtp_packet, ok) ← Parse fresh rtp_packet (mkCow (rp_pkt r) (Z.of_nat (length (rp_pkt r))));
  if (ok : bool) then
    zeroed ← ZeroMutableExtensions rtp_packet;
    Ok (Some (mkRx rtp_packet false, mkReceived (rp_ssrc r) (rp_seq_num r) (rp_is_fec r) (Buffer zeroed)))
  else Ok None.

(** What the first loop of [ProcessReceivedFec] changes. Its counter has 64 bits
    and counts at most the packets in memory. *)
Record Progress : Type := mkProgress {
  pg_decoder : FecDecoder;
  pg_recovered : list RecoveredPacket;
  last_recovered_extension_map : option ExtensionMap;
  pg_num_recovered : Z;
  pg_calls : list RtpPacketReceived
}.

Definition decode_received (received_packet : RedReceivedPacket) (r : ReceivedPacket) (calls : list RtpPacketReceived) (g : Progress)
    : outcome Progress :=
  if is_recovered received_packet
  then Ok (mkProgress (pg_decoder g) (pg_recovered g) (last_recovered_extension_map g) (pg_num_recovered g) (pg_calls g ++ calls))
  else
    '(decoder, recovered, n) ← DecodeFec (pg_decoder g) r (pg_recovered g);
    Ok (mkProgress decoder recovered (Some (red_extensions received_packet)) (pg_num_recovered g + n) (pg_calls g ++ calls)).

Definition process_packet (received_packet : RedReceivedPacket) (g : Progress) : outcome Progress :=
  if rp_is_fec (red_packet received_packet) then decode_received received_packet (red_packet received_packet) [] g
  else
    result ← parse_media received_packet;
    match result with
    | None => Ok g
    | Some (rtp_packet, r) => decode_received received_packet r [rtp_packet] g
    end.

Fixpoint process_packets (received_packets : list RedReceivedPacket) (g : Progress) : outcome Progress :=
  match received_packets with
  | [] => Ok g
  | received_packet :: rest => g ← process_packet received_packet g; process_packets rest g
  end.

(** The second loop: the list with its [returned] flags set, how many it
    counted, and the calls. *)
Fixpoint return_packets (m : ExtensionMap) (recovered_packets : list RecoveredPacket)
    : outcome (list RecoveredPacket * Z * list RtpPacketReceived) :=
  match recovered_packets with
  | [] => Ok ([], 0, [])
  | r :: rest =>
      if returned r then '(rest, n, calls) ← return_packets m rest; Ok (r :: rest, n, calls)
      else
        parsed_packet ← RtpPacket_new fresh m kDefaultPacketSize;
        '(parsed_packet, ok) ← Parse fresh parsed_packet (mkCow (rc_pkt r) (Z.of_nat (length (rc_pkt r))));
        '(rest, n, calls) ← return_packets m rest;
        let r := mkRecovered (was_recovered r) true (rc_ssrc r) (rc_seq_num r) (rc_pkt r) in
        Ok (r :: rest, n + 1, if (ok : bool) then mkRx parsed_packet true :: calls else calls)
  end.

Definition ProcessReceivedFec (this : UlpfecReceiver) : outcome (UlpfecReceiver * list RtpPacketReceived) :=
  g ← process_packets (received_packets_ this) (mkProgress (decoder_ this) (recovered_packets_ this) None 0 []);
  let c := packet_counter_ this in
  if pg_num_recovered g =? 0 then
    Ok (mkReceiver (receiver_ssrc_ this) (receiver_payload_type_ this) (pg_decoder g) [] (pg_recovered g) c, pg_calls g)
  else
    let m := default (RtpHeaderExtensionMap_new false) (last_recovered_extension_map g) in
    '(recovered, n, calls) ← return_packets m (pg_recovered g);
    Ok (mkReceiver (receiver_ssrc_ this) (receiver_payload_type_ this) (pg_decoder g) [] recovered
          (mkCounter (num_packets c) (num_bytes c) (num_fec_packets c) (u64 (num_recovered_packets c + n)) (first_packet_time c)),
        pg_calls g ++ calls).

(** The calls its owner makes: packets are added as they come, and processed
    now and then. *)
Fixpoint add_all (this : UlpfecReceiver) (packets : list (RtpPacketReceived * Z)) : outcome UlpfecReceiver :=
  match packets with
  | [] => Ok this
  | (packet, now) :: rest => '(this, _) ← AddReceivedRedPacket this packet now; add_all this rest
  end.

Fixpoint receive_all (this : UlpfecReceiver) (batches : list (list (RtpPacketReceived * Z)))
    : outcome (UlpfecReceiver * list RtpPacketReceived) :=
  match batches with
  | [] => Ok (this, [])
  | batch :: rest =>
      this ← add_all this batch;
      '(this, calls) ← ProcessReceivedFec this;
      '(this, more) ← receive_all this rest;
      Ok (this, calls ++ more)
  end.

End Receiver.
