(* ===== verification/UlpfecReceiverSpec.v ===== *)
(** * What the ULPFEC receiver does

    Taking packets out of RED packets, and which packets are handed to
    [OnRecoveredPacket]: every packet in the decoder's list is handed on exactly
    when it arrives or when it is rebuilt. *)
From S2P Require Import Prelude.
From S2P Require Import Ascending.
From S2P Require Import RtpFecCodec.
From S2P Require Import RtpFecAlgebra.
From S2P Require Import RtpFecDecoder.
From S2P Require Import RtpFecSound.
From S2P Require Import RtpFecComplete.
From S2P Require Import ExtensionMap.
From S2P Require Import RtpPacket.
From S2P Require Import RtpPacketWire.
From S2P Require Import RtpPacketBuild.
From S2P Require Import RtpPacketExt.
From S2P Require Import RtpPacketOps.
From S2P Require Import RedPackets.
From S2P Require Import UlpfecReceiver.
From stdpp Require Import base list list_numbers numbers option tactics.
From Stdlib Require Import ZArith Lia.

#[local] Open Scope Z_scope.

(** ** Which packets the decoder adds to the list *)

Section Flags.
Context `{CheckMode} `{FecHeaderReader}.

Lemma list_sort_elem {A} (key : A -> Z * Z) l l' x : list_sort key l = Ok l' -> x ∈ l' -> x ∈ l.
Proof.
  unfold list_sort. intros Hs Hx. apply bind_Ok_inv in Hs as (u & _ & [= <-]). by rewrite sorted_perm in Hx.
Qed.

Lemma Discard_elem l x : x ∈ DiscardOldRecoveredPackets l -> x ∈ l.
Proof. intros Hx. destruct (Discard_incl l) as (l1 & ->). apply elem_of_app. by right. Qed.

(** Packets that are rebuilt are counted and not yet returned. *)
Lemma attempt_recovery_flags fuel : forall rest passed rec n fecs' rec' n',
  attempt_recovery fuel passed rest rec n = Ok (fecs', rec', n') ->
  n <= n' /\ forall x, x ∈ rec' -> x ∈ rec \/ n < n' /\ was_recovered x = true /\ returned x = false.
Proof.
  induction fuel as [| fuel IHf ]; induction rest as [| f rest IH ]; intros passed rec n fecs' rec' n' Hrun;
    cbn [attempt_recovery] in Hrun; try (injection Hrun as <- <- <-; split; [ lia | auto ]).
  all: destruct (_ =? 1);
    [| apply bind_Ok_inv in Hrun as ([|] & _ & Hrun); by eapply IH ].
  all: apply bind_Ok_inv in Hrun as ([[[pkt seq_num] ssrc] |] & _ & Hrun); [| by eapply IH ].
  all: cbv zeta in Hrun; apply bind_Ok_inv in Hrun as (rec1 & Hsort & Hrun);
    do 4 (apply bind_Ok_inv in Hrun as (? & _ & Hrun)).
  all: assert (Hnew : forall x, x ∈ DiscardOldRecoveredPackets rec1 -> x ∈ rec \/ was_recovered x = true /\ returned x = false)
    by (intros y Hy%Discard_elem; eapply list_sort_elem in Hy; [| exact Hsort ]; apply elem_of_app in Hy as [Hy | Hy%list_elem_of_singleton];
        [ by left | right; by subst y ]).
  - injection Hrun as <- <- <-. split; [ lia |]. intros y Hy. destruct (Hnew y Hy) as [? | ?]; [ by left | right; split; [ lia | done ] ].
  - apply IHf in Hrun as [Hn Hall]. split; [ lia |]. intros y Hy. destruct (Hall y Hy) as [Hr | (? & ?)]; [| right; split; [ lia | done ] ].
    destruct (Hnew y Hr) as [? | ?]; [ by left | right; split; [ lia | done ] ].
Qed.

(** Every packet in the list after [DecodeFec] was there before, or is the
    media packet that came in, or has just been rebuilt. *)
Lemma DecodeFec_flags this r rec this' rec' n :
  DecodeFec this r rec = Ok (this', rec', n) ->
  0 <= n /\ forall x, x ∈ rec' -> x ∈ rec \/ (rp_is_fec r = false /\ rc_pkt x = rp_pkt r /\ was_recovered x = false /\ returned x = true) \/
    (0 < n /\ was_recovered x = true /\ returned x = false).
Proof.
  unfold DecodeFec. destruct (if Z.of_nat (length rec) =? reader_MaxMediaPackets then _ else _) as [this0 rec0] eqn:E0.
  assert (Hrec0 : forall x, x ∈ rec0 -> x ∈ rec).
  { intros x Hx. destruct (_ =? _); [| by simplify_eq ]. destruct (list.last rec); [| by simplify_eq ].
    destruct (_ =? _); [| by simplify_eq ]. destruct (_ <? _); unfold ResetState in E0; simplify_eq; [ by apply not_elem_of_nil in Hx | done ]. }
  clear E0. intros Hrun. apply bind_Ok_inv in Hrun as ([this1 rec1] & Hins & Hrun). unfold AttemptRecovery in Hrun.
  apply bind_Ok_inv in Hrun as ([[fecs rec2] n2] & Hatt & Hrun). injection Hrun as <- <- <-.
  apply attempt_recovery_flags in Hatt as [Hn Hall]. split; [ done |]. intros x Hx. destruct (Hall x Hx) as [Hx1 | ?]; [| by right; right ].
  unfold InsertPacket in Hins. cbv zeta in Hins. apply bind_Ok_inv in Hins as ([this2 rec3] & Hins & Hdone).
  apply bind_Ok_inv in Hdone as (u & _ & Hdone). injection Hdone as <- <-. apply Discard_elem in Hx1.
  destruct (rp_is_fec r) eqn:Ef.
  - apply bind_Ok_inv in Hins as (this3 & _ & [= <- <-]). left. by apply Hrec0.
  - unfold InsertMediaPacket in Hins. apply bind_Ok_inv in Hins as (u' & _ & Hins). apply bind_Ok_inv in Hins as (dup & _ & Hins).
    destruct dup; [ injection Hins as <- <-; left; by apply Hrec0 |]. cbv zeta in Hins.
    apply bind_Ok_inv in Hins as (rec4 & Hsort & Hins). apply bind_Ok_inv in Hins as (fs & _ & [= <- <-]).
    eapply list_sort_elem in Hx1; [| exact Hsort ]. apply elem_of_app in Hx1 as [Hx1 | Hx1%list_elem_of_singleton]; [ left; by apply Hrec0 |].
    right. left. by subst x.
Qed.

End Flags.

(** ** Taking packets out of RED packets *)

(** The packet inside a RED packet. *)
Definition un_red (w : Pkt) : Pkt :=
  match v_payload w with
  | [] => w
  | b :: bytes => w_type b (w_payload bytes w)
  end.

Lemma un_red_ok w b bytes : pkt_ok w -> v_payload w = b :: bytes -> 0 <= b < 128 -> pkt_ok (un_red w).
Proof.
  intros [] E Hb. unfold un_red. rewrite E in *. split; try done. cbn. by eapply Forall_inv_tail.
Qed.

Lemma un_red_of v red : un_red (red_of red v) = v.
Proof. by destruct v. Qed.

Lemma zero_un_red m w : zero_mutable m (un_red w) = un_red (zero_mutable m w).
Proof. unfold un_red. cbn [zero_mutable w_exts v_payload]. by destruct (v_payload w). Qed.

Lemma marker_bit (mk : bool) t : 0 <= t < 128 -> Z.land (0x80 * Z.b2z mk + t) 0x80 = 0x80 * Z.b2z mk.
Proof.
  intros Ht. assert (Hall : all_between 0 127 (fun t => Z.land (0x80 * Z.b2z mk + t) 0x80 =? 0x80 * Z.b2z mk) = true) by (destruct mk; reflexivity).
  exact (proj1 (Z.eqb_eq _ _) (all_between_spec 0 127 _ Hall t ltac:(lia))).
Qed.

Lemma red_header w b bytes :
  pkt_ok w -> v_payload w = b :: bytes -> 0 <= b < 128 ->
  exists b1, get (header w) 1 = Ok b1 /\ put (header w) 1 (u8 (Z.land b1 0x80 + b)) = Ok (header (un_red w)).
Proof.
  intros Hw E Hb. exists (second_byte w). split; [ done |]. unfold second_byte. rewrite marker_bit, u8_id by (apply Hw || destruct (v_marker w); cbn; lia).
  unfold un_red. rewrite E, put_Ok; [ reflexivity |]. pose proof (length_header w). lia.
Qed.

Lemma red_data_Ok k p w b bytes is_fec :
  holds k p w -> v_payload w = b :: bytes -> 0 <= b < 128 ->
  red_data p is_fec b = Ok (if is_fec then bytes else wire (un_red w)).
Proof.
  intros Hp E Hb. pose proof (ho_ok _ _ _ Hp) as Hok. pose proof (holds_buffer _ _ _ Hp) as Hbuf. pose proof (po_padding _ Hok) as Hpad.
  pose proof (ho_fields _ _ _ Hp) as Hf. destruct (ho_mem _ _ _ Hp) as (tail & Hm & _).
  assert (Hw : wire w = (header w ++ [b]) ++ bytes ++ pad_bytes (v_padding w)) by (unfold wire; rewrite E, <- app_assoc; done).
  unfold red_data, headers_size, payload_size, packet_size, padding_size, payload_size, headers_size. rewrite Hf, Hbuf, Hm.
  cbn [fields_of payload_offset_ payload_size_ padding_size_]. rewrite E. cbn [length]. unfold kRedHeaderLength. destruct is_fec.
  - rewrite Hw. replace (Z.of_nat (S (length bytes)) - 1) with (zlen bytes) by lia. apply slice_mid; [ rewrite length_app; cbn; lia | done ].
  - rewrite Hw. rewrite <- !app_assoc. rewrite (slice_mid [] (header w) _ 0 _ eq_refl eq_refl : slice (header w ++ _) 0 (zlen (header w)) = _), bind_Ok.
    destruct (red_header w b bytes Hok E Hb) as (b1 & -> & Hput). rewrite bind_Ok, Hput, bind_Ok.
    replace (zlen (header w) + Z.of_nat (S (length bytes)) + v_padding w - zlen (header w) - 1) with (zlen (bytes ++ pad_bytes (v_padding w)))
      by (rewrite length_app, Nat2Z.inj_add, length_pad_bytes; lia).
    replace (header w ++ [b] ++ bytes ++ pad_bytes (v_padding w) ++ tail)
      with ((header w ++ [b]) ++ (bytes ++ pad_bytes (v_padding w)) ++ tail) by (by rewrite <- !app_assoc).
    rewrite slice_mid, bind_Ok by (rewrite ?length_app; cbn [length]; (done || lia)). unfold wire at 1, un_red. by rewrite E.
Qed.

(** ** The receiver on the packets of a block *)

Section Run.
Context `{CheckMode} `{FecHeaderReader} (fresh : nat -> list Z) (Hfresh : fresh_ok fresh).
Context (ssrc ulpfec_payload_type : Z) (m : ExtensionMap) (Hmap : map_ok m).

(** A RED packet [w] with payload type [b] and the rest [bytes] in it arrives. *)
Record arrives (q : RtpPacketReceived) (w : Pkt) (b : Z) (bytes : list Z) : Prop := {
  ar_packet : exists k, holds k (rx q) w;
  ar_map : extensions_ (rx q) = m;
  ar_new : recovered_ q = false;
  ar_payload : v_payload w = b :: bytes;
  ar_type : 0 <= b < 128;
  ar_ssrc : v_ssrc w = ssrc;
  ar_size : zlen (wire w) <= 1500;
  ar_some : b = ulpfec_payload_type -> bytes <> []
}.

(** What is kept of it, and what the decoder gets. *)
Definition kept (w : Pkt) (b : Z) (bytes : list Z) : RedReceivedPacket :=
  let is_fec := b =? ulpfec_payload_type in
  mkRed (mkReceived ssrc (v_seq w) is_fec (if is_fec then bytes else wire (un_red w))) false m.
Definition decoded (w : Pkt) (b : Z) (bytes : list Z) : ReceivedPacket :=
  let is_fec := b =? ulpfec_payload_type in
  mkReceived ssrc (v_seq w) is_fec (if is_fec then bytes else wire (zero_mutable m (un_red w))).

Lemma plain_byte b : 0 <= b < 128 -> Z.land b 0x7f = b /\ Z.land b 0x80 = 0.
Proof.
  intros Hb. assert (Hall : all_between 0 127 (fun b => (Z.land b 0x7f =? b) && (Z.land b 0x80 =? 0)) = true) by reflexivity.
  pose proof (all_between_spec 0 127 _ Hall b ltac:(lia)) as E. apply andb_true_iff in E as [E1 E2]. split; by apply Z.eqb_eq.
Qed.

Lemma wire_some v : wire v <> [].
Proof. rewrite wire_split. unfold fixed_header. done. Qed.

Lemma AddReceivedRedPacket_Ok this q w b bytes now :
  receiver_ssrc_ this = ssrc -> receiver_payload_type_ this = ulpfec_payload_type -> arrives q w b bytes ->
  exists c, AddReceivedRedPacket this q now =
    Ok (mkReceiver ssrc ulpfec_payload_type (decoder_ this) (received_packets_ this ++ [kept w b bytes]) (recovered_packets_ this) c, true).
Proof.
  intros Hs Ht [(k & Hp) Hm Hrec Hpay Hb Hss Hsz Hsome]. pose proof (ho_fields _ _ _ Hp) as Hf. pose proof (ho_ok _ _ _ Hp) as Hok.
  pose proof (po_padding _ Hok) as Hpad. unfold AddReceivedRedPacket. cbv zeta.
  assert (Hsize : packet_size (rx q) = zlen (wire w)).
  { unfold packet_size, headers_size, payload_size, padding_size. rewrite Hf, length_wire by lia. done. }
  assert (Hfields : Ssrc (rx q) = ssrc /\ payload_size (rx q) = zlen (b :: bytes) /\ SequenceNumber (rx q) = v_seq w).
  { unfold Ssrc, payload_size, SequenceNumber. rewrite Hf. cbn [fields_of rtp_ssrc_ payload_size_ sequence_number_]. by rewrite Hpay. }
  destruct Hfields as (-> & -> & ->). rewrite Hs, Z.eqb_refl, Hsize. cbn [negb]. unfold IP_PACKET_SIZE.
  rewrite (proj2 (Z.ltb_ge _ _)), (proj2 (Z.eqb_neq _ _)) by (cbn [length]; lia).
  rewrite (payload_view _ _ _ Hp), bind_Ok, Hpay. change (get (b :: bytes) 0) with (Ok b). rewrite bind_Ok.
  destruct (plain_byte b Hb) as [-> ->]. cbn [Z.eqb negb]. rewrite (red_data_Ok k _ w b bytes _ Hp Hpay Hb), bind_Ok, Hrec, Hm, Ht.
  unfold kept. cbv zeta. rewrite (proj2 (Z.ltb_lt _ _)); [ by eexists |].
  destruct (Z.eqb_spec b ulpfec_payload_type) as [E |]; [ specialize (Hsome E) | clear Hsome; pose proof (wire_some (un_red w)) as Hsome ];
    (match goal with |- 0 < zlen ?l => destruct l end; [ done | cbn [length]; lia ]).
Qed.

(** A packet parsed from bytes that are the wire format of [v]. *)
Lemma parse_wire v :
  pkt_ok v -> exists p0 p, RtpPacket_new fresh m kDefaultPacketSize = Ok p0 /\
    Parse fresh p0 (mkCow (wire v) (zlen (wire v))) = Ok (p, true) /\ parsed p v /\ extensions_ p = m.
Proof.
  intros Hv. destruct (RtpPacket_new_Ok fresh Hfresh m kDefaultPacketSize ltac:(done)) as (p0 & -> & _ & Em & _).
  destruct (Parse_Ok fresh p0 v (mkCow (wire v) (zlen (wire v))) Hv) as (p & Hp & Hpv & Emp & _); cbn [cow_size cow_mem];
    [ unfold contents; cbn [cow_size cow_mem]; by rewrite Nat2Z.id, take_ge | unfold capacity; cbn [cow_mem]; lia | lia | by apply wire_bytes_ok |].
  exists p0, p. split_and!; [ done | done | done | congruence ].
Qed.

Lemma parse_media_Ok w b bytes :
  pkt_ok w -> v_payload w = b :: bytes -> 0 <= b < 128 -> b <> ulpfec_payload_type ->
  exists p, parse_media fresh (kept w b bytes) = Ok (Some (mkRx p false, decoded w b bytes)) /\
    parsed p (un_red w) /\ extensions_ p = m.
Proof.
  intros Hw Hpay Hb Hne. unfold parse_media, kept, decoded. cbv zeta. rewrite (proj2 (Z.eqb_neq _ _) Hne).
  cbn [red_packet red_extensions rp_pkt rp_ssrc rp_seq_num rp_is_fec].
  destruct (parse_wire (un_red w) (un_red_ok w b bytes Hw Hpay Hb)) as (p0 & p & -> & Hparse & Hp & Em).
  rewrite bind_Ok, Hparse, bind_Ok.
  destruct (ZeroMutableExtensions_Ok _ p (un_red w) Hp) as (z & -> & Hz & _); [ by rewrite Em |]. rewrite bind_Ok, (holds_buffer _ _ _ Hz), Em.
  by exists p.
Qed.

(** What the callback learns of the media packet [bytes]: the packet as it was
    sent, or the packet itself if it was rebuilt. *)
Definition hands (c : RtpPacketReceived) (bytes : list Z) : Prop :=
  exists v, parsed (rx c) v /\ extensions_ (rx c) = m /\ wire (zero_mutable m v) = bytes /\ (recovered_ c = true -> wire v = bytes).
Definition handed (bytes : list Z) (calls : list RtpPacketReceived) : Prop := exists c, c ∈ calls /\ hands c bytes.

Lemma handed_app bytes calls calls' : handed bytes calls \/ handed bytes calls' -> handed bytes (calls ++ calls').
Proof. intros [(c & Hc & Hh) | (c & Hc & Hh)]; exists c; (split; [| done ]); apply elem_of_app; auto. Qed.

(** The list with all flags set. *)
Definition set_returned (r : RecoveredPacket) : RecoveredPacket :=
  mkRecovered (was_recovered r) true (rc_ssrc r) (rc_seq_num r) (rc_pkt r).

Lemma return_packets_Ok rec :
  Forall (fun x => exists v, pkt_ok v /\ rc_pkt x = wire v /\ zero_mutable m v = v) rec ->
  exists n calls, return_packets fresh m rec = Ok (map set_returned rec, n, calls) /\
    (forall x, x ∈ rec -> returned x = false -> handed (rc_pkt x) calls) /\
    (forall c, c ∈ calls -> exists x, x ∈ rec /\ returned x = false /\ recovered_ c = true /\ hands c (rc_pkt x)).
Proof.
  induction 1 as [| x rec (v & Hv & Hx & Hz) _ (n & calls & Hrun & Hback & Hcalls) ].
  { exists 0, []. split_and!; [ done | by intros ? ?%not_elem_of_nil | by intros ? ?%not_elem_of_nil ]. }
  cbn [return_packets map]. rewrite Hrun. destruct (returned x) eqn:Er.
  - rewrite bind_Ok. exists n, calls. split_and!.
    + do 4 f_equal. destruct x. cbn in Er. by subst.
    + intros y [-> | Hy]%elem_of_cons Hf; [ congruence | by apply Hback ].
    + intros c Hc. destruct (Hcalls c Hc) as (y & Hy & Hrest). exists y. split; [ by right | done ].
  - destruct (parse_wire v Hv) as (p0 & p & -> & Hparse & Hp & Em). rewrite bind_Ok, Hx, Hparse, !bind_Ok. rewrite <- Hx.
    assert (Hh : hands (mkRx p true) (rc_pkt x)) by (exists v; rewrite Hz; split_and!; (done || by symmetry)).
    exists (n + 1), (mkRx p true :: calls). split_and!; [ done | |].
    + intros y [-> | Hy]%elem_of_cons Hf; [ exists (mkRx p true); split; [ left | done ] |].
      apply (handed_app _ [_] calls). right. by apply Hback.
    + intros c [-> | Hc]%elem_of_cons; [ exists x; split_and!; [ left | done.. ] |].
      destruct (Hcalls c Hc) as (y & Hy & Hrest). exists y. split; [ by right | done ].
Qed.

(** *** The decoder and the callback together *)

Context (sent : list Z -> Prop) (base W fbase V : Z) (cov : Z -> list (list Z)).
Context (Hwin : block_window ssrc ssrc sent base W fbase V).
Context (Hsent : forall bytes, sent bytes -> exists v, pkt_ok v /\ bytes = wire v /\ zero_mutable m v = v).

(** In the first loop of [ProcessReceivedFec], after the calls [calls0] of
    earlier calls. *)
Record progress_ok (calls0 : list RtpPacketReceived) (seen : list ReceivedPacket) (g : Progress) : Prop := {
  pr_tracks : tracks ssrc ssrc sent base fbase V cov seen (pg_decoder g) (pg_recovered g);
  pr_count : 0 <= pg_num_recovered g;
  pr_none : pg_num_recovered g = 0 -> Forall (fun x => returned x = true) (pg_recovered g);
  pr_map : pg_num_recovered g <> 0 -> last_recovered_extension_map g = Some m;
  pr_handed : forall x, x ∈ pg_recovered g -> returned x = true -> handed (rc_pkt x) (calls0 ++ pg_calls g);
  pr_calls : forall c, c ∈ calls0 ++ pg_calls g -> exists bytes, hands c bytes /\ derivable cov seen bytes
}.

Lemma decode_received_Ok calls0 seen g k r calls :
  progress_ok calls0 seen g -> is_recovered k = false -> red_extensions k = m -> of_block ssrc ssrc sent cov fbase V r ->
  (if rp_is_fec r then calls = [] else exists c, calls = [c] /\ hands c (rp_pkt r)) ->
  exists g', decode_received k r calls g = Ok g' /\ progress_ok calls0 (r :: seen) g'.
Proof.
  intros [Htr Hcnt Hnone Hpm Hhand Hcalls] Hk Hkm Hr Hnew. unfold decode_received. rewrite Hk.
  destruct (tracks_step ssrc ssrc sent base W fbase V cov Hwin seen _ _ r Htr Hr) as (dec' & rec' & n & Hdec & Htr'). rewrite Hdec, bind_Ok.
  destruct (DecodeFec_flags _ _ _ _ _ _ Hdec) as [Hn Hflags]. eexists. split; [ done |].
  assert (Hmono : forall bytes, derivable cov seen bytes -> derivable cov (r :: seen) bytes).
  { intros bytes. apply derivable_mono. intros y Hy. by right. }
  split; cbn [pg_decoder pg_recovered pg_num_recovered last_recovered_extension_map pg_calls].
  - done.
  - lia.
  - intros Hz. apply list.Forall_forall. intros x Hx. destruct (Hflags x Hx) as [Hold | [(_ & _ & _ & ?) | (? & _)]]; [| done | lia ].
    exact (proj1 (list.Forall_forall _ _) (Hnone ltac:(lia)) x Hold).
  - by rewrite Hkm.
  - intros x Hx Hret. rewrite app_assoc. apply handed_app.
    destruct (Hflags x Hx) as [Hold | [(Hf & -> & _) | (_ & _ & ?)]]; [ left; by apply Hhand | | congruence ].
    right. rewrite Hf in Hnew. destruct Hnew as (c & -> & Hh). exists c. split; [ left | done ].
  - intros c Hc. rewrite app_assoc in Hc. apply elem_of_app in Hc as [Hc | Hc].
    + destruct (Hcalls c Hc) as (bytes & Hh & Hd). exists bytes. auto.
    + destruct (rp_is_fec r) eqn:Ef; [ subst calls; by apply not_elem_of_nil in Hc |].
      destruct Hnew as (c' & -> & Hh). apply list_elem_of_singleton in Hc as ->. exists (rp_pkt r). split; [ done |].
      apply derive_received; [ left | done ].
Qed.

(** A packet that can be kept, with its payload type and the rest. *)
Definition keepable (x : Pkt * Z * list Z) : Prop :=
  let '(w, b, bytes) := x in pkt_ok w /\ v_payload w = b :: bytes /\ 0 <= b < 128 /\
    of_block ssrc ssrc sent cov fbase V (decoded w b bytes).
Definition kept_of (x : Pkt * Z * list Z) : RedReceivedPacket := let '(w, b, bytes) := x in kept w b bytes.
Definition decoded_of (x : Pkt * Z * list Z) : ReceivedPacket := let '(w, b, bytes) := x in decoded w b bytes.

Lemma process_packet_Ok calls0 seen g x :
  progress_ok calls0 seen g -> keepable x ->
  exists g', process_packet fresh (kept_of x) g = Ok g' /\ progress_ok calls0 (decoded_of x :: seen) g'.
Proof.
  destruct x as [[w b] bytes]. intros Hg (Hw & Hpay & Hb & Hr). cbn [kept_of decoded_of]. unfold process_packet.
  destruct (Z.eq_dec b ulpfec_payload_type) as [E | Hne].
  - assert (Hk : red_packet (kept w b bytes) = decoded w b bytes) by (unfold kept, decoded; by rewrite E, Z.eqb_refl).
    rewrite Hk. assert (Hf : rp_is_fec (decoded w b bytes) = true) by (by unfold decoded; apply Z.eqb_eq). rewrite Hf.
    apply decode_received_Ok; try done. by rewrite Hf.
  - assert (Hf : forall b', b' = (b =? ulpfec_payload_type) -> b' = false) by (intros ? ->; by apply Z.eqb_neq).
    rewrite (Hf (rp_is_fec (red_packet (kept w b bytes))) eq_refl).
    destruct (parse_media_Ok w b bytes Hw Hpay Hb Hne) as (p & -> & Hp & Em). rewrite bind_Ok.
    apply decode_received_Ok; try done. rewrite (Hf (rp_is_fec (decoded w b bytes)) eq_refl). eexists. split; [ done |].
    exists (un_red w). split_and!; [ done | done | | done ]. unfold decoded. cbv zeta. by rewrite (proj2 (Z.eqb_neq _ _) Hne).
Qed.

Lemma process_packets_Ok calls0 xs : forall seen g,
  progress_ok calls0 seen g -> Forall keepable xs ->
  exists g', process_packets fresh (map kept_of xs) g = Ok g' /\ progress_ok calls0 (rev (map decoded_of xs) ++ seen) g'.
Proof.
  induction xs as [| x xs IH ]; intros seen g Hg Hxs; cbn [map process_packets rev]; [ by exists g |].
  apply Forall_cons_1 in Hxs as [Hx Hxs]. destruct (process_packet_Ok calls0 seen g x Hg Hx) as (g1 & -> & Hg1).
  rewrite bind_Ok, <- app_assoc. by apply IH.
Qed.

(** Between calls of [ProcessReceivedFec], after the calls [calls]. *)
Record serves (this : UlpfecReceiver) (calls : list RtpPacketReceived) (seen : list ReceivedPacket) : Prop := {
  sv_setup : receiver_ssrc_ this = ssrc /\ receiver_payload_type_ this = ulpfec_payload_type;
  sv_tracks : tracks ssrc ssrc sent base fbase V cov seen (decoder_ this) (recovered_packets_ this);
  sv_returned : Forall (fun x => returned x = true) (recovered_packets_ this);
  sv_handed : forall x, x ∈ recovered_packets_ this -> handed (rc_pkt x) calls;
  sv_calls : forall c, c ∈ calls -> exists bytes, hands c bytes /\ derivable cov seen bytes
}.

Lemma ProcessReceivedFec_Ok this calls seen xs :
  serves this calls seen -> received_packets_ this = map kept_of xs -> Forall keepable xs ->
  exists this' calls', ProcessReceivedFec fresh this = Ok (this', calls') /\ received_packets_ this' = [] /\
    serves this' (calls ++ calls') (rev (map decoded_of xs) ++ seen).
Proof.
  intros [Hset Htr Hret Hh Hc] Hrx Hxs. unfold ProcessReceivedFec. rewrite Hrx.
  destruct (process_packets_Ok calls xs seen (mkProgress (decoder_ this) (recovered_packets_ this) None 0 [])) as (g & -> & Hg); [| done |].
  { split; cbn [pg_decoder pg_recovered pg_num_recovered last_recovered_extension_map pg_calls]; rewrite ?app_nil_r; try (done || lia). auto. }
  rewrite bind_Ok. destruct Hg as [Gt Gc Gn Gm Gh Ga]. destruct (Z.eqb_spec (pg_num_recovered g) 0) as [E0 | Hne].
  - eexists _, _. split; [ done |]. split; [ done |]. pose proof (Gn E0) as Hall. split; cbn; try done. intros x Hx. apply Gh; [ done |].
    exact (proj1 (list.Forall_forall _ _) Hall x Hx).
  - rewrite (Gm Hne). change (default (RtpHeaderExtensionMap_new false) (Some m)) with m. cbv zeta.
    assert (Hwf : Forall (fun x => exists v, pkt_ok v /\ rc_pkt x = wire v /\ zero_mutable m v = v) (pg_recovered g)).
    { eapply list.Forall_impl; [ exact (ok_recovered _ _ _ _ _ (tr_decoder _ _ _ _ _ _ _ _ _ _ Gt)) |]. intros x (Hx & _). by apply Hsent. }
    destruct (return_packets_Ok (pg_recovered g) Hwf) as (n & calls1 & -> & Hback & Hcalls1). rewrite bind_Ok.
    eexists _, _. split; [ done |]. split; [ done |]. rewrite app_assoc. split; cbn [receiver_ssrc_ receiver_payload_type_ decoder_ recovered_packets_].
    + done.
    + eapply tracks_flags; [| exact Gt ]. clear. induction (pg_recovered g); constructor; done.
    + apply Forall_map, Forall_true. done.
    + intros y (x & -> & Hx)%list_elem_of_fmap. cbn [set_returned rc_pkt]. apply handed_app. destruct (returned x) eqn:Er; [ left; by apply Gh | right; by apply Hback ].
    + intros c [Hc' | Hc']%elem_of_app; [ by apply Ga |]. destruct (Hcalls1 c Hc') as (x & Hx & _ & _ & Hh'). exists (rc_pkt x). split; [ done |].
      apply (tracks_exact ssrc ssrc sent base W fbase V cov Hwin _ _ _ _ Gt). by apply list_elem_of_fmap_2.
Qed.

(** *** Batches *)

Definition arrives_as (qn : RtpPacketReceived * Z) (x : Pkt * Z * list Z) : Prop :=
  let '(w, b, bytes) := x in arrives qn.1 w b bytes.

Lemma add_all_Ok qs xs : Forall2 arrives_as qs xs -> forall this,
  receiver_ssrc_ this = ssrc -> receiver_payload_type_ this = ulpfec_payload_type ->
  exists c, add_all this qs = Ok (mkReceiver ssrc ulpfec_payload_type (decoder_ this) (received_packets_ this ++ map kept_of xs)
    (recovered_packets_ this) c).
Proof.
  induction 1 as [| [q now] [[w b] bytes] qs xs Hq _ IH ]; intros this Hs Ht; cbn [add_all map].
  { exists (packet_counter_ this). rewrite app_nil_r, <- Hs, <- Ht. by destruct this. }
  destruct (AddReceivedRedPacket_Ok this q w b bytes now Hs Ht Hq) as (c & ->). rewrite bind_Ok.
  destruct (IH (mkReceiver ssrc ulpfec_payload_type (decoder_ this) (received_packets_ this ++ [kept w b bytes]) (recovered_packets_ this) c)
    eq_refl eq_refl) as (c' & ->). exists c'. cbn [decoder_ received_packets_ recovered_packets_]. by rewrite <- app_assoc.
Qed.

Lemma receive_all_Ok batches xss : Forall2 (Forall2 arrives_as) batches xss -> forall this calls seen,
  Forall (Forall keepable) xss -> serves this calls seen -> received_packets_ this = [] ->
  exists this' calls', receive_all fresh this batches = Ok (this', calls') /\
    serves this' (calls ++ calls') (rev (map decoded_of (concat xss)) ++ seen).
Proof.
  induction 1 as [| qs xs batches xss Hqs _ IH ]; intros this calls seen Hkeep Hsv Hrx; cbn [receive_all concat].
  { exists this, []. by rewrite app_nil_r. }
  apply Forall_cons_1 in Hkeep as [Hx Hkeep]. pose proof (sv_setup _ _ _ Hsv) as [Hs Ht].
  destruct (add_all_Ok qs xs Hqs this Hs Ht) as (c & ->). rewrite bind_Ok, Hrx. cbn [app].
  set (this1 := mkReceiver _ _ _ _ _ _). assert (Hsv1 : serves this1 calls seen) by (destruct Hsv; by split).
  destruct (ProcessReceivedFec_Ok this1 calls seen xs Hsv1 eq_refl Hx) as (this2 & calls2 & -> & Hrx2 & Hsv2). rewrite bind_Ok.
  destruct (IH this2 (calls ++ calls2) _ Hkeep Hsv2 Hrx2) as (this3 & calls3 & -> & Hsv3). rewrite bind_Ok.
  exists this3, (calls2 ++ calls3). split; [ done |]. by rewrite map_app, rev_app_distr, <- !app_assoc in *.
Qed.

(** A call is about one packet. *)
Lemma hands_unique c bytes bytes' : hands c bytes -> hands c bytes' -> bytes = bytes'.
Proof.
  intros (v & Hp & Em & Hz & _) (v' & Hp' & _ & Hz' & _).
  destruct (ZeroMutableExtensions_Ok _ (rx c) v Hp) as (p1 & E1 & Hh1 & _); [ by rewrite Em |].
  destruct (ZeroMutableExtensions_Ok _ (rx c) v' Hp') as (p2 & E2 & Hh2 & _); [ by rewrite Em |].
  assert (p2 = p1) as -> by congruence. rewrite Em in *. by rewrite <- Hz, <- Hz', <- (holds_buffer _ _ _ Hh1), <- (holds_buffer _ _ _ Hh2).
Qed.

Lemma serves_exact this calls seen bytes : serves this calls seen -> handed bytes calls <-> derivable cov seen bytes.
Proof.
  intros [_ Htr _ Hh Hc]. split.
  - intros (c & Hin & Hb). destruct (Hc c Hin) as (bytes' & Hb' & Hd). by rewrite (hands_unique c bytes bytes' Hb Hb').
  - intros Hd. apply (tracks_exact ssrc ssrc sent base W fbase V cov Hwin _ _ _ _ Htr) in Hd as (x & -> & Hx)%list_elem_of_fmap. by apply Hh.
Qed.

Lemma serves_sent this calls seen c : serves this calls seen -> c ∈ calls -> exists bytes, hands c bytes /\ sent bytes.
Proof.
  intros [_ Htr _ _ Hc] Hin. destruct (Hc c Hin) as (bytes & Hb & Hd). exists bytes. split; [ done |].
  apply (tracks_exact ssrc ssrc sent base W fbase V cov Hwin _ _ _ _ Htr) in Hd as (x & -> & Hx)%list_elem_of_fmap.
  by apply (proj1 (list.Forall_forall _ _) (ok_recovered _ _ _ _ _ (tr_decoder _ _ _ _ _ _ _ _ _ _ Htr)) x Hx).
Qed.

Lemma serves_new this : UlpfecReceiver_new ssrc ulpfec_payload_type = Ok this -> serves this [] [] /\ received_packets_ this = [].
Proof.
  unfold UlpfecReceiver_new. intros Hrun. apply bind_Ok_inv in Hrun as (u & _ & [= <-]). split; [| done ].
  split; cbn [receiver_ssrc_ receiver_payload_type_ decoder_ recovered_packets_]; try done; try by intros ? ?%not_elem_of_nil.
  by apply (tracks_new ssrc ssrc sent base W fbase V cov).
Qed.

End Run.
