(* ===== verification/UlpfecReceiverSafe.v ===== *)
(** * The ULPFEC receiver on arbitrary packets

    Nothing is assumed of what arrives but that it parsed as RTP: RED packets
    with any payload, FEC packets with any header. [UlpfecReceiver] never leaves
    a buffer and never trips over one of its checks. *)
From S2P Require Import Prelude.
From S2P Require Import RtpFecCodec.
From S2P Require Import RtpFecAlgebra.
From S2P Require Import UlpfecHeader.
From S2P Require Import RtpFecDecoder.
From S2P Require Import RtpFecSafe.
From S2P Require Import ExtensionMap.
From S2P Require Import RtpPacket.
From S2P Require Import RtpPacketWire.
From S2P Require Import RtpPacketBuild.
From S2P Require Import RtpPacketCalls.
From S2P Require Import RedPackets.
From S2P Require Import UlpfecReceiver.
From stdpp Require Import base list list_numbers numbers option tactics.
From Stdlib Require Import ZArith Lia.

#[local] Open Scope Z_scope.

(** ** Packets that have been parsed *)

(** A packet as [Parse] leaves it: fields that describe its bytes. *)
Record well_parsed (p : RtpPacket) : Prop := {
  wp_map : map_ok (extensions_ p);
  wp_bytes : Forall is_byte (cow_mem (buffer_ p));
  wp_size : cow_size (buffer_ p) = zlen (cow_mem (buffer_ p));
  wp_fields : fields_in (zlen (cow_mem (buffer_ p))) (fields p)
}.

Section Parsed.
Context `{CheckMode} (fresh : nat -> list Z) (Hfresh : fresh_ok fresh).

Lemma contents_all mem : contents (mkCow mem (zlen mem)) = mem.
Proof. unfold contents. cbn. rewrite Nat2Z.id. apply firstn_all. Qed.

(** A new packet parses any bytes, or says it cannot. *)
Lemma parse_any m mem :
  map_ok m -> Forall is_byte mem ->
  exists p0 p b, RtpPacket_new fresh m kDefaultPacketSize = Ok p0 /\ Parse fresh p0 (mkCow mem (zlen mem)) = Ok (p, b) /\
    (b = true -> well_parsed p /\ Buffer p = mem).
Proof.
  intros Hm Hb. destruct (RtpPacket_new_Ok fresh Hfresh m kDefaultPacketSize) as (p0 & Enew & Hp0 & Em & Hcap); [ done |].
  destruct (ParseBuffer_safe mem Hb) as ([f |] & E & Hr).
  - specialize (Hr f eq_refl). exists p0, (mkPacket f (extensions_ p0) (mkCow mem (zlen mem))), true. split; [ done |]. split.
    + unfold Parse. rewrite contents_all, E, bind_Ok, RTC_DCHECK_Ok, bind_Ok; [ done |]. apply Z.eqb_eq. exact (fi_total _ _ Hr).
    + intros _. split; [ split; cbn; [ by rewrite Em | done | done | done ] | apply contents_all ].
  - assert (Hmem : Forall is_byte (cow_mem (buffer_ p0))).
    { destruct (ho_mem _ _ _ Hp0) as (tail & -> & Ht). apply Forall_app_2; [ apply wire_bytes_ok, Hp0 | done ]. }
    pose proof (holds_capacity _ _ _ Hp0). pose proof (ho_size _ _ _ Hp0) as Hs0. unfold kDefaultPacketSize in Hcap.
    destruct (Clear_Ok fresh Hfresh p0) as (p & Ec & _); [ lia | lia | done |]. exists p0, p, false. split; [ done |]. split; [| done ].
    unfold Parse. by rewrite contents_all, E, bind_Ok, Ec, bind_Ok.
Qed.

(** Zeroing stays inside the buffer. *)
Lemma zero_extension_safe p e n :
  map_ok (extensions_ p) -> buffer n (cow_mem (buffer_ p)) -> entry_in (Z.of_nat n) e ->
  exists p', zero_extension p e = Ok p' /\ buffer n (cow_mem (buffer_ p')) /\ extensions_ p' = extensions_ p /\
    cow_size (buffer_ p') = cow_size (buffer_ p).
Proof.
  intros Hm Hb He. pose proof He as [Hid Hl Ho Hend]. unfold zero_extension, write_mem.
  destruct (GetType_Ok (extensions_ p) (ei_id e) Hm Hid) as (t & -> & _). rewrite bind_Ok.
  assert (Hset : forall off len, 0 <= off -> 0 <= len -> off + len <= Z.of_nat n -> exists mem, memset (cow_mem (buffer_ p)) off 0 len = Ok mem /\ buffer n mem).
  { intros off len H1 H2 H3. destruct (memset (cow_mem (buffer_ p)) off 0 len) as [mem |] eqn:E;
      [ exists mem; split; [ done | eapply memset_buffer in E; [ done | done | lia ] ] |].
    rewrite memset_Ok in E by (rewrite ?(proj1 Hb); lia). discriminate. }
  unfold kPacerExitDeltaOffset. destruct t; try (by exists p).
  all: try (destruct (Z.ltb_spec 7 (ei_length e)); [| by exists p ]).
  all: match goal with |- context [memset _ ?o 0 ?l] => destruct (Hset o l) as (mem & -> & Hmem); [ lia | lia | lia |] end;
    rewrite bind_Ok; eexists; split; [ done |]; by split_and!.
Qed.

Lemma zero_extensions_safe n es : Forall (entry_in (Z.of_nat n)) es -> forall p,
  map_ok (extensions_ p) -> buffer n (cow_mem (buffer_ p)) ->
  exists p', zero_extensions p es = Ok p' /\ buffer n (cow_mem (buffer_ p')) /\ cow_size (buffer_ p') = cow_size (buffer_ p).
Proof.
  induction 1 as [| e es He _ IH ]; intros p Hm Hb; cbn [zero_extensions]; [ by exists p |].
  destruct (zero_extension_safe p e n Hm Hb He) as (p1 & -> & Hb1 & Em1 & Es1). rewrite bind_Ok.
  destruct (IH p1) as (p2 & E2 & Hb2 & Es2); [ by rewrite Em1 | done |]. exists p2. split; [ done |]. split; [ done | congruence ].
Qed.

Lemma zero_mutable_safe p :
  well_parsed p -> exists p', ZeroMutableExtensions p = Ok p' /\ bytes_ok (Buffer p') /\ length (Buffer p') = length (cow_mem (buffer_ p)).
Proof.
  intros [Hm Hb Hs Hf]. unfold ZeroMutableExtensions.
  destruct (zero_extensions_safe (length (cow_mem (buffer_ p))) (extension_entries_ (fields p))) with (p := p) as (p' & -> & [Hl' Hb'] & Hs'); [ | done | by split |].
  { eapply list.Forall_impl; [ exact (fi_entries _ _ Hf) |]. intros e [H1 H2 H3 H4]. split; try done.
    pose proof (fi_total _ _ Hf). pose proof (fi_payload _ _ Hf). pose proof (fi_padding _ _ Hf). lia. }
  exists p'. split; [ done |]. unfold Buffer, contents. rewrite Hs', Hs, Nat2Z.id, take_ge by lia. by split.
Qed.

End Parsed.

(** ** The receiver *)

Section Receiver.
Context `{CheckMode} `{FecHeaderReader} `{!ReaderSafe} (fresh : nat -> list Z) (Hfresh : fresh_ok fresh) (ssrc : Z).

Record red_sane (r : RedReceivedPacket) : Prop := {
  rs_map : map_ok (red_extensions r);
  rs_packet : received_sane ssrc ssrc (red_packet r)
}.

Record receiver_sane (this : UlpfecReceiver) : Prop := {
  rcv_ssrc : receiver_ssrc_ this = ssrc;
  rcv_packets : Forall red_sane (received_packets_ this);
  rcv_decoder : decoder_sane ssrc ssrc (decoder_ this) (recovered_packets_ this);
  rcv_bound : Z.of_nat (length (recovered_packets_ this)) <= reader_MaxMediaPackets
}.

(** What a packet handed up looks like. *)
Definition call_sane (c : RtpPacketReceived) : Prop := well_parsed (rx c) /\ (12 <= length (Buffer (rx c)) <= 1500)%nat.

Lemma slice_safe n d off len :
  buffer n d -> 0 <= off -> 0 <= len -> off + len <= Z.of_nat n -> exists l, slice d off len = Ok l /\ buffer (Z.to_nat len) l.
Proof.
  intros [Hl Hb] K1 K2 K3. rewrite slice_Ok by lia. eexists. split; [ done |]. split; [| by apply Forall_take, Forall_drop ].
  rewrite length_take, length_drop. lia.
Qed.

Lemma red_data_safe p is_fec payload_type :
  well_parsed p -> payload_size p <> 0 -> packet_size p <= 1500 -> 0 <= payload_type < 128 ->
  exists data, red_data p is_fec payload_type = Ok data /\ bytes_ok data /\ (is_fec = false -> media_ok data).
Proof.
  intros Hp Hne Hsz Hpt. pose proof Hp as [Hm Hb Hs Hf]. pose proof Hf as [_ _ _ _ Hh Hpay Hpad Htot _ _].
  unfold packet_size, headers_size, payload_size, padding_size, kFixedHeaderSize in *.
  set (mem := cow_mem (buffer_ p)) in *. assert (Hbuf : buffer (length mem) mem) by done. unfold red_data, packet_size, headers_size, payload_size, padding_size, kRedHeaderLength.
  assert (Hall : Buffer p = mem) by (unfold Buffer, contents; rewrite Hs, Nat2Z.id, take_ge by done; done).
  destruct is_fec.
  { rewrite Hall. destruct (slice_safe _ _ (payload_offset_ (fields p) + 1) (payload_size_ (fields p) - 1) Hbuf) as (l & -> & Hl); [ lia | lia | lia |].
    exists l. by split_and!; [| apply Hl |]. }
  fold mem. destruct (slice_safe _ _ 0 (payload_offset_ (fields p)) Hbuf) as (l & -> & Hl); [ lia | lia | lia |]. rewrite bind_Ok.
  destruct (get_safe _ l 1 Hl) as (b & -> & Hbb); [ lia |]. rewrite bind_Ok. rewrite put_Ok, bind_Ok by (rewrite (proj1 Hl); lia).
  match goal with |- context [slice mem ?o ?n] => destruct (slice_safe _ _ o n Hbuf) as (l2 & -> & Hl2); [ lia | lia | lia |] end. rewrite bind_Ok.
  eexists. split; [ done |]. set (data := _ ++ _).
  assert (Hd : bytes_ok data) by (apply Forall_app_2; [ apply Forall_insert; [ apply Hl | apply u8_range ] | apply Hl2 ]).
  split; [ done |]. intros _. split; [ done |]. unfold data. rewrite length_app, length_insert, (proj1 Hl), (proj1 Hl2). lia.
Qed.

Lemma AddReceived_safe this packet now :
  receiver_sane this -> well_parsed (rx packet) ->
  exists this' b, AddReceivedRedPacket this packet now = Ok (this', b) /\ receiver_sane this'.
Proof.
  intros Hok Hp. pose proof Hp as [Hm Hb Hs Hf]. unfold AddReceivedRedPacket. cbv zeta.
  destruct (Z.eqb_spec (Ssrc (rx packet)) (receiver_ssrc_ this)) as [Es |]; cbn [negb]; [| by exists this, false ].
  unfold IP_PACKET_SIZE. destruct (Z.ltb_spec 1500 (packet_size (rx packet))); [ by exists this, false |].
  destruct (Z.eqb_spec (payload_size (rx packet)) 0) as [| Hne]; [ by exists this, false |].
  pose proof Hf as [_ _ _ _ Hh Hpay Hpad Htot _ _]. unfold payload, headers_size. unfold kFixedHeaderSize in Hh.
  destruct (slice_safe (length (cow_mem (buffer_ (rx packet)))) (cow_mem (buffer_ (rx packet))) (payload_offset_ (fields (rx packet))) (payload_size (rx packet)))
    as (l & -> & Hl); [ done | lia | done | unfold payload_size; lia |]. rewrite bind_Ok.
  destruct (get_safe _ l 0 Hl) as (b & -> & Hbb); [ unfold payload_size in *; lia |]. rewrite bind_Ok.
  destruct (negb _); [ by exists this, false |].
  assert (Hpt : 0 <= Z.land b 127 < 128) by (change 127 with (Z.ones 7); rewrite Z.land_ones by lia; apply Z.mod_pos_bound; lia).
  set (is_fec := Z.land b 127 =? _). destruct (red_data_safe (rx packet) is_fec (Z.land b 127) Hp Hne ltac:(lia) Hpt) as (data & -> & Hd & Hmed).
  rewrite bind_Ok. eexists _, true. split; [ done |]. destruct Hok as [K1 K3 K4 K5]. split; try done.
  cbn [received_packets_]. destruct (_ <? _); [| done ]. apply Forall_app_2; [ done |]. apply Forall_singleton. split; [ done |].
  unfold received_sane. cbn. destruct is_fec; split; [ congruence | done | congruence | by apply Hmed ].
Qed.

Record progress_sane (g : Progress) : Prop := {
  pgs_decoder : decoder_sane ssrc ssrc (pg_decoder g) (pg_recovered g);
  pgs_bound : Z.of_nat (length (pg_recovered g)) <= reader_MaxMediaPackets;
  pgs_map : forall m, last_recovered_extension_map g = Some m -> map_ok m;
  pgs_calls : Forall call_sane (pg_calls g)
}.

Lemma decode_received_safe p r calls g :
  progress_sane g -> map_ok (red_extensions p) -> received_sane ssrc ssrc r -> Forall call_sane calls ->
  exists g', decode_received p r calls g = Ok g' /\ progress_sane g'.
Proof.
  intros [K1 K2 K3 K4] Hm Hr Hc. assert (Hcs : Forall call_sane (pg_calls g ++ calls)) by (by apply Forall_app_2).
  unfold decode_received. destruct (is_recovered p); [ eexists; split; [ done |]; by split |].
  destruct (DecodeFec_safe ssrc ssrc (pg_decoder g) (pg_recovered g) r K1 Hr) as (d & rec & n & -> & Hd & Hbnd). rewrite bind_Ok.
  eexists. split; [ done |]. split; try done. by intros m [= <-].
Qed.

Lemma parse_media_safe p :
  red_sane p -> rp_is_fec (red_packet p) = false ->
  exists res, parse_media fresh p = Ok res /\ forall q r, res = Some (q, r) -> call_sane q /\ received_sane ssrc ssrc r.
Proof.
  intros [Hm Hr] Hf. unfold received_sane in Hr. rewrite Hf in Hr. destruct Hr as [Hs [Hb Hl]]. unfold parse_media. cbv zeta.
  destruct (parse_any fresh Hfresh (red_extensions p) (rp_pkt (red_packet p)) Hm Hb) as (p0 & q & b & -> & E & Hq).
  rewrite bind_Ok, E, bind_Ok. destruct b; [| by exists None ]. destruct (Hq eq_refl) as [Hwp Hbuf].
  destruct (zero_mutable_safe q Hwp) as (z & -> & Hzb & Hzl). rewrite bind_Ok. eexists. split; [ done |]. intros q' r' [= <- <-].
  assert (Hlen : length (cow_mem (buffer_ q)) = length (rp_pkt (red_packet p))).
  { rewrite <- Hbuf. unfold Buffer, contents. rewrite (wp_size _ Hwp), Nat2Z.id, take_ge by done. done. }
  split; [ split; [ done |]; cbn [rx]; by rewrite Hbuf |]. unfold received_sane. cbn. rewrite Hf. split; [ done |]. split; [ done |]. lia.
Qed.

Lemma process_packets_safe ps : Forall red_sane ps -> forall g, progress_sane g ->
  exists g', process_packets fresh ps g = Ok g' /\ progress_sane g'.
Proof.
  induction 1 as [| p ps Hp _ IH ]; intros g Hg; cbn [process_packets]; [ by exists g |].
  assert (Hstep : exists g', process_packet fresh p g = Ok g' /\ progress_sane g').
  { unfold process_packet. destruct (rp_is_fec (red_packet p)) eqn:Ef; [ apply decode_received_safe; [ done | apply Hp | apply Hp | constructor ] |].
    destruct (parse_media_safe p Hp Ef) as (res & -> & Hres). rewrite bind_Ok. destruct res as [[q r] |]; [| by exists g ].
    destruct (Hres q r eq_refl) as [Hq Hr]. apply decode_received_safe; [ done | apply Hp | done | by apply Forall_singleton ]. }
  destruct Hstep as (g' & -> & Hg'). rewrite bind_Ok. by apply IH.
Qed.

Lemma return_packets_safe m rec : map_ok m -> Forall (rc_sane ssrc) rec ->
  exists rec' n calls, return_packets fresh m rec = Ok (rec', n, calls) /\ Forall (rc_sane ssrc) rec' /\ length rec' = length rec /\ Forall call_sane calls.
Proof.
  intros Hm. induction 1 as [| r rec Hr _ (rec' & n & calls & E & Hrec & Hl & Hc) ]; cbn [return_packets]; [ by exists [], 0, [] |].
  destruct (returned r).
  { rewrite E, bind_Ok. exists (r :: rec'), n, calls. split_and!; [ done | by constructor | cbn; congruence | done ]. }
  pose proof Hr as [Hs [Hb Hlen]]. destruct (parse_any fresh Hfresh m (rc_pkt r) Hm Hb) as (p0 & q & b & -> & Ep & Hq).
  rewrite bind_Ok, Ep, bind_Ok, E, bind_Ok. eexists _, _, _. split; [ done |].
  split_and!; [ constructor; [ by split | done ] | cbn; congruence |]. destruct b; [| done ]. constructor; [| done ].
  destruct (Hq eq_refl) as [Hwp Hbuf]. split; [ done |]. cbn [rx]. by rewrite Hbuf.
Qed.

Lemma ProcessReceived_safe this :
  receiver_sane this -> exists this' calls, ProcessReceivedFec fresh this = Ok (this', calls) /\ receiver_sane this' /\ Forall call_sane calls.
Proof.
  intros [K1 K3 K4 K5]. unfold ProcessReceivedFec.
  destruct (process_packets_safe _ K3 (mkProgress (decoder_ this) (recovered_packets_ this) None 0 [])) as (g & -> & [G1 G2 G3 G4]); [ by split |].
  rewrite bind_Ok. cbv zeta. destruct (_ =? 0); [ eexists _, _; split; [ done |]; split; [ split; cbn; (done || constructor) | done ] |].
  assert (Hm : map_ok (default (RtpHeaderExtensionMap_new false) (last_recovered_extension_map g))).
  { destruct (last_recovered_extension_map g) as [m |]; [ exact (G3 m eq_refl) | apply new_map_ok ]. }
  pose proof G1 as [D1 D2 D3 D4]. destruct (return_packets_safe _ _ Hm D3) as (rec & n & calls & -> & Hrec & Hl & Hc). rewrite bind_Ok.
  eexists _, _. split; [ done |]. split; [| by apply Forall_app_2 ]. split; cbn; (done || constructor || lia || idtac); done.
Qed.

Lemma add_all_safe ps : Forall (fun pn => well_parsed (rx pn.1)) ps -> forall this,
  receiver_sane this -> exists this', add_all this ps = Ok this' /\ receiver_sane this'.
Proof.
  induction 1 as [| [p now] ps Hp _ IH ]; intros this Hok; cbn [add_all]; [ by exists this |].
  destruct (AddReceived_safe this p now Hok Hp) as (this1 & b & -> & Hok1). rewrite bind_Ok. by apply IH.
Qed.

Lemma receive_all_safe batches : Forall (Forall (fun pn => well_parsed (rx pn.1))) batches -> forall this,
  receiver_sane this -> exists this' calls, receive_all fresh this batches = Ok (this', calls) /\ receiver_sane this' /\ Forall call_sane calls.
Proof.
  induction 1 as [| b bs Hb _ IH ]; intros this Hok; cbn [receive_all]; [ by exists this, [] |].
  destruct (add_all_safe b Hb this Hok) as (this1 & -> & Hok1). rewrite bind_Ok.
  destruct (ProcessReceived_safe this1 Hok1) as (this2 & calls & -> & Hok2 & Hc). rewrite bind_Ok.
  destruct (IH this2 Hok2) as (this3 & more & -> & Hok3 & Hmore). rewrite bind_Ok. eexists _, _. split; [ done |]. split; [ done |]. by apply Forall_app_2.
Qed.

End Receiver.

(** ** Theorems *)

(** What comes off the network: bytes that parsed as RTP. *)
Definition off_the_network `{CheckMode} (fresh : nat -> list Z) (packet : RtpPacketReceived) : Prop :=
  exists m bytes p0, map_ok m /\ Forall is_byte bytes /\ RtpPacket_new fresh m kDefaultPacketSize = Ok p0 /\
    Parse fresh p0 (mkCow bytes (zlen bytes)) = Ok (rx packet, true).

Lemma off_the_network_parsed `{CheckMode} fresh packet :
  fresh_ok fresh -> off_the_network fresh packet -> well_parsed (rx packet).
Proof.
  intros Hfresh (m & bytes & p0 & Hm & Hb & E0 & E). destruct (parse_any fresh Hfresh m bytes Hm Hb) as (p1 & p & b & E1 & E2 & Hp).
  assert (p1 = p0) as -> by congruence. rewrite E2 in E. injection E as -> ->. by apply Hp.
Qed.

Lemma new_receiver_sane `{CheckMode} `{FecHeaderReader} `{!ReaderSafe} ssrc pt :
  receiver_sane ssrc (mkReceiver ssrc pt (mkDecoder ssrc ssrc []) [] [] (mkCounter 0 0 0 0 MinusInfinity)).
Proof. pose proof tracked_nonneg. split; cbn; [ done | constructor | apply new_decoder_sane | lia ]. Qed.

(** C3. The ULPFEC receiver survives any input: whatever RED packets arrive, with
    any FEC headers, any media headers and any number of them, the receiver
    stays inside its buffers and passes its own checks; it tracks no more FEC
    and media packets than its limits, and everything it hands to its callback
    is an RTP packet of at most 1500 bytes whose fields, extensions included,
    lie inside its bytes. *)
Theorem receiver_survives_any_input `{CheckMode} fresh ssrc ulpfec_payload_type batches :
  fresh_ok fresh -> -1 <= ulpfec_payload_type ->
  Forall (Forall (fun pn => off_the_network fresh pn.1)) batches ->
  exists this0 this calls,
    UlpfecReceiver_new ssrc ulpfec_payload_type = Ok this0 /\ receive_all fresh this0 batches = Ok (this, calls) /\
    Z.of_nat (length (received_fec_packets_ (decoder_ this))) <= kMaxFecPackets /\
    Z.of_nat (length (recovered_packets_ this)) <= kMaxTrackedMediaPackets /\
    Forall (fun c => fields_in (zlen (Buffer (rx c))) (fields (rx c)) /\ zlen (Buffer (rx c)) <= 1500) calls.
Proof.
  intros Hfresh Hpt Hall. unfold UlpfecReceiver_new. rewrite RTC_DCHECK_Ok, bind_Ok by (by apply Z.leb_le).
  destruct (receive_all_safe fresh Hfresh ssrc batches) with (this := mkReceiver ssrc ulpfec_payload_type (mkDecoder ssrc ssrc []) [] []
    (mkCounter 0 0 0 0 MinusInfinity)) as (this & calls & Hrun & Hok & Hc); [ | apply new_receiver_sane |].
  { eapply list.Forall_impl; [ exact Hall |]. intros b Hb. eapply list.Forall_impl; [ exact Hb |]. intros [p now] Hp.
    by apply (off_the_network_parsed fresh). }
  eexists _, this, calls. split; [ done |]. split; [ exact Hrun |]. split; [ apply (ds_capacity _ _ _ _ (rcv_decoder _ _ Hok)) |].
  split; [ exact (rcv_bound _ _ Hok) |]. eapply list.Forall_impl; [ exact Hc |]. intros c [Hwp Hl]. cbn beta. split; [| lia ].
  pose proof (wp_fields _ Hwp) as Hf. unfold Buffer, contents. by rewrite (wp_size _ Hwp), Nat2Z.id, take_ge.
Qed.

(** A RED packet around a FEC packet that claims to protect packets it does not
    hold, and one around a media packet. *)
Definition hostile_fec : list Z := [128; 100; 0; 9; 0; 0; 0; 0; 0; 0; 0; 7; 101; 64; 0; 0; 5; 0; 0; 0; 0; 0; 0; 255; 255; 255; 255].
Definition hostile_media : list Z := [128; 100; 0; 5; 0; 0; 0; 0; 0; 0; 0; 7; 96; 1; 2].
Definition receive_bytes (bytes : list Z) : RtpPacketReceived :=
  match (p0 ← @RtpPacket_new true zero_fresh sample_map kDefaultPacketSize; @Parse true zero_fresh p0 (mkCow bytes (zlen bytes))) with
  | Ok (p, _) => mkRx p false
  | Fail _ => mkRx (mkPacket (mkFields false 0 0 0 0 0 0 0 [] 0) sample_map (mkCow [] 0)) false
  end.

Lemma receiver_survives_any_input_witness :
  exists this0 this calls, @UlpfecReceiver_new true 7 101 = Ok this0 /\
    @receive_all true (@UlpfecHeaderReader true) zero_fresh this0 [[(receive_bytes hostile_fec, 5); (receive_bytes hostile_media, 6)]] = Ok (this, calls) /\
    Z.of_nat (length (received_fec_packets_ (decoder_ this))) <= kMaxFecPackets /\
    Z.of_nat (length (recovered_packets_ this)) <= kMaxTrackedMediaPackets /\
    Forall (fun c => fields_in (zlen (Buffer (rx c))) (fields (rx c)) /\ zlen (Buffer (rx c)) <= 1500) calls.
Proof.
  apply (@receiver_survives_any_input true zero_fresh 7 101); [ exact zero_fresh_ok | lia |].
  repeat constructor; eexists sample_map, _, _; split; try exact sample_map_ok.
  - split; [| split; [ vm_compute; reflexivity | instantiate (1 := hostile_fec); vm_compute; reflexivity ] ]. repeat (constructor; [ unfold is_byte; lia |]). constructor.
  - split; [| split; [ vm_compute; reflexivity | instantiate (1 := hostile_media); vm_compute; reflexivity ] ]. repeat (constructor; [ unfold is_byte; lia |]). constructor.
Defined.
