(* ===== verification/UlpfecEndToEnd.v ===== *)
(** * From sender to receiver

    One block of video packets through the whole chain: the egress takes them
    out of their RED packets and protects them, the sequencer numbers the FEC
    packets, the sender stamps the mutable header extensions, the network
    loses, repeats and reorders packets, the receiver takes them out of their
    RED packets, zeroes the mutable extensions and decodes. *)
From S2P Require Import Prelude.
From S2P Require Import Ascending.
From S2P Require Import MaskTable.
From S2P Require Import UnequalProtection.
From S2P Require Import RtpFecCodec.
From S2P Require Import RtpFecAlgebra.
From S2P Require Import UlpfecHeader.
From S2P Require Import RtpFecDecoder.
From S2P Require Import RtpFecSound.
From S2P Require Import RtpFecComplete.
From S2P Require Import RtpFecEncoder.
From S2P Require Import RtpFecColumns.
From S2P Require Import RtpFecBuffers.
From S2P Require Import RtpFecBlocks.
From S2P Require Import RtpFecEndToEnd.
From S2P Require Import ExtensionMap.
From S2P Require Import RtpPacket.
From S2P Require Import RtpPacketWire.
From S2P Require Import RtpPacketBuild.
From S2P Require Import RtpPacketExt.
From S2P Require Import RtpPacketOps.
From S2P Require Import RtpPacketCalls.
From S2P Require Import RedPackets.
From S2P Require Import PacketSequencer.
From S2P Require Import UlpfecGenerator.
From S2P Require Import UlpfecGeneratorSpec.
From S2P Require Import SenderEgress.
From S2P Require Import EgressSpec.
From S2P Require Import UlpfecReceiver.
From S2P Require Import UlpfecReceiverSpec.
From stdpp Require Import base list list_numbers numbers option sorting tactics.
From Stdlib Require Import ZArith Lia Sorted.

#[local] Open Scope Z_scope.

(** ** The sender *)

Section Sender.
Context `{CheckMode} (ssrc : Z) (fresh : nat -> list Z) (Hfresh : fresh_ok fresh).

(** The ULPFEC generator with its RED packets makes blocks. *)
Lemma ulpfec_generator_step this s t k v garbage :
  generates this s /\ generated_fec_packets_ this = [] -> blocker_ok s -> holds k (rtp t) v -> v_padding v = 0 -> v_ssrc v = ssrc ->
  media_block ssrc (bl_packets (bl_store (bl_apply s) v (is_key_frame_ t))) -> buffer 288 garbage ->
  exists this1 this' rs, AddPacketAndGenerateFec this t garbage = Ok this1 /\ GetFecPackets fresh this1 = Ok (this', rs) /\
    (generates this' (bl_step s v (is_key_frame_ t)).1 /\ generated_fec_packets_ this' = []) /\
    match (bl_step s v (is_key_frame_ t)).2 with
    | None => rs = [] /\ forall last rs fecs, Forall2 (carries_fec this' last) rs fecs -> Forall2 (carries_fec this last) rs fecs
    | Some (ps, params) => exists last ret fecs fec', list.last ps = Some last /\
        EncodeFec_upstream (fec_ this) (map wire ps) (fec_rate params) 0 false (fec_mask_type params) garbage = Ok (ret, fecs, fec') /\
        Forall2 (carries_fec this last) rs fecs
    end.
Proof.
  intros [Hg Hgen] Hs Hu Hpad _ Hps Hbuf.
  destruct (@generator_step _ _ _ ssrc ssrc (UlpfecLaws ssrc) fresh Hfresh eq_refl this s t k v garbage Hg Hs Hgen Hu Hpad Hps Hbuf)
    as (this1 & this' & rs & Hadd & Hget & Hg' & Hnil & Hout). exists this1, this', rs. split_and!; try done.
  destruct (bl_step s v (is_key_frame_ t)).2; [ done |]. split; [ done |]. intros last rs' fecs Hrs.
  pose proof (Get_types _ _ _ _ Hget) as Ht. rewrite (Add_types _ _ _ _ Hadd) in Ht. injection Ht as E1 E2. by eapply carries_fec_types.
Qed.

#[export] Instance UlpfecBlocks : BlockGenerator (VideoFecGenerator0 := UlpfecVideoFecGenerator fresh) UlpfecGenerator ssrc := {
  bg_state := fun this s => generates this s /\ generated_fec_packets_ this = [];
  bg_masks := fec_;
  bg_sent := fun this last rs fecs => Forall2 (carries_fec this last) rs fecs;
  bg_buffers := fun this s Hg => ge_fec this s (proj1 Hg);
  bg_step := ulpfec_generator_step
}.

End Sender.

(** ** The network *)

(** [w] is what goes out when [u] is sent: the sender may fill in the mutable
    extensions. *)
Definition stamped (m : ExtensionMap) (u w : Pkt) : Prop := pkt_ok w /\ zero_mutable m w = zero_mutable m u.

Lemma length_zero_exts m wide es : zlen (exts_bytes wide (zero_exts m es)) = zlen (exts_bytes wide es).
Proof.
  induction es as [| e es IH ]; [ done |]. cbn [zero_exts map]. rewrite !exts_bytes_cons, !length_app, !Nat2Z.inj_add, !length_ext_bytes.
  cbn [snd]. unfold zero_exts in IH. rewrite IH, length_zero_value. done.
Qed.

Lemma length_zero_header m v : zlen (header (zero_mutable m v)) = zlen (header v).
Proof.
  unfold header. rewrite !length_app, !Nat2Z.inj_add, !length_fixed_header. cbn [zero_mutable w_exts v_csrcs v_wide v_exts].
  do 2 f_equal. rewrite !length_ext_block. destruct (v_exts v) as [| e es ]; [ done |].
  cbn [zero_exts map]. change (_ :: map _ es) with (zero_exts m (e :: es)). by rewrite length_zero_exts.
Qed.

Lemma stamped_same m u w :
  stamped m u w -> v_payload w = v_payload u /\ v_seq w = v_seq u /\ v_ssrc w = v_ssrc u /\ v_padding w = v_padding u /\
    zlen (header w) = zlen (header u).
Proof.
  intros [_ E]. split_and!; try (by injection E). by rewrite <- (length_zero_header m w), E, length_zero_header.
Qed.

Lemma stamped_media m red v w : stamped m (red_of red v) w -> zero_mutable m v = v -> zero_mutable m (un_red w) = v.
Proof.
  intros [_ E] Hv. rewrite zero_un_red, E. assert (Hc : zero_mutable m (red_of red v) = red_of red (zero_mutable m v)) by (by destruct v).
  by rewrite Hc, Hv, un_red_of.
Qed.

(** Two descriptions of one packet. *)
Lemma holds_same k k' p u u' :
  holds k p u -> holds k' p u' -> v_payload u' = v_payload u /\ v_seq u' = v_seq u /\ v_ssrc u' = v_ssrc u /\
    v_padding u' = v_padding u /\ zlen (header u') = zlen (header u).
Proof.
  intros Hu Hu'. pose proof (payload_view _ _ _ Hu) as E. rewrite (payload_view _ _ _ Hu') in E. injection E as E.
  pose proof (ho_fields _ _ _ Hu) as F. rewrite (ho_fields _ _ _ Hu') in F.
  exact (conj E (conj (f_equal sequence_number_ F) (conj (f_equal rtp_ssrc_ F) (conj (f_equal padding_size_ F) (f_equal payload_offset_ F))))).
Qed.

Lemma Forall2_choose {A B C} (P : A -> B -> Prop) (Q : B -> C -> Prop) la lc :
  Forall2 (fun a c => exists b, P a b /\ Q b c) la lc -> exists lb, Forall2 P la lb /\ Forall2 Q lb lc.
Proof.
  induction 1 as [| a c la lc (b & Hp & Hq) _ (lb & Hp' & Hq') ]; [ by exists [] |]. exists (b :: lb). by split; constructor.
Qed.

(** The numbers of packets that all go to the media stream. *)
Lemma count_all f l : Forall (fun tn => f tn.1 = true) l -> count_packets f l = zlen l.
Proof. induction 1 as [| [t now] l Ht _ IH ]; [ done |]. cbn [count_packets length fst] in *. rewrite Ht, IH. cbn [Z.b2z]. lia. Qed.

Section Network.
Context (m : ExtensionMap) (ssrc red_payload_type : Z) (ps : list Pkt) (fec_packets : list RtpPacketToSend).

(** Packet [q] arrives, a stamped copy of a RED packet with a packet of the
    block or with a FEC packet; [r] is what of it matters to the decoder. *)
Definition arrives_from (q : RtpPacketReceived) (r : ReceivedPacket) : Prop :=
  extensions_ (rx q) = m /\ recovered_ q = false /\ exists k w, holds k (rx q) w /\
    ((exists v, v ∈ ps /\ stamped m (red_of red_payload_type v) w /\ r = mkReceived ssrc (v_seq v) false (wire v)) \/
     (exists t k' u, t ∈ fec_packets /\ holds k' (rtp t) u /\ stamped m u w /\
        r = mkReceived ssrc (v_seq u) true (tail (v_payload u)))).
End Network.

(** ** A block that goes through *)

(** Packets of one source in sequence, close enough together, with room for a
    FEC packet in a RED packet, their mutable extensions zero. *)
Record chain_ok (m : ExtensionMap) (ssrc ulpfec_payload_type : Z) (ps : list Pkt) (params : FecProtectionParams) : Prop := {
  ch_block : media_block ssrc ps;
  ch_size : zlen ps <= 48;
  ch_width : width (map wire ps) <= 48;
  ch_rate : 0 < fec_rate params <= 255;
  ch_zero : Forall (fun v => zero_mutable m v = v) ps;
  ch_types : Forall (fun v => v_type v <> ulpfec_payload_type) ps;
  ch_room : forall v last, v ∈ ps -> list.last ps = Some last -> zlen (wire v) + zlen (header last) <= 1479
}.

Section Chain.
Context `{CheckMode} `{FecHeaderWriter} `{FecHeaderReader} (ssrc : Z) `{!FecHeaderLaws ssrc ssrc}.
Context (fresh : nat -> list Z) (Hfresh : fresh_ok fresh) (m : ExtensionMap) (Hmap : map_ok m).
Context (Hmax : writer_MaxMediaPackets = 48) (Hread : 48 <= reader_MaxMediaPackets /\ 48 <= reader_MaxFecPackets).
Context (ulp : Z) (ps : list Pkt) (params : FecProtectionParams) (Hps : ps <> []) (Hch : chain_ok m ssrc ulp ps params).

Let media := map wire ps.
Let rate := fec_rate params.
Definition chain_base : Z := u16 (block_base (map wire ps) + width (map wire ps)).

Lemma chain_session : session_ok ssrc ssrc media rate 0 chain_base.
Proof.
  destruct Hch as [Hb Hn Hw Hr _ _ _]. destruct (media_block_ok ssrc ps rate Hb Hps) as [Hblock Hsrc]; [ lia | unfold rate; lia |].
  split; try done; unfold rate; try lia. unfold media. lia.
Qed.

(** The FEC packets of the block. *)
Lemma chain_fecs fec garbage ret fecs fec' :
  buffers_ok fec -> buffer 288 garbage ->
  EncodeFec_upstream fec media rate 0 false (fec_mask_type params) garbage = Ok (ret, fecs, fec') ->
  zlen fecs = fec_count (zlen ps) rate /\
  (forall r, delivered ssrc ssrc media chain_base fecs r ->
     of_block ssrc ssrc (fun x => x ∈ media) (block_cov media rate 0 chain_base false (fec_mask_type params)) chain_base (block_fecs media rate) r) /\
  forall last, list.last ps = Some last -> Forall (fun f => bytes_ok f /\ f <> [] /\ zlen (header last) + 1 + zlen f <= 1500) fecs.
Proof.
  intros Hfec Hg Hrun. pose proof chain_session as Hses.
  destruct (session_encoded ssrc ssrc media rate 0 chain_base false (fec_mask_type params) Hses fec garbage Hfec Hg)
    as (fecs' & fec2 & Hrun' & Hlen & _ & Hdel & _). assert (fecs' = fecs) as -> by congruence. split; [| split; [ exact Hdel |] ].
  { rewrite Hlen. unfold block_fecs, media. by rewrite length_map. }
  intros last Hlast. pose proof (ch_room _ _ _ _ _ Hch) as Hroom. set (n := Z.to_nat (1479 - zlen (header last))).
  assert (Hsz : Forall (fun x => (length x <= n)%nat) media).
  { unfold media. apply Forall_map, list.Forall_forall. intros v Hv. specialize (Hroom v last Hv Hlast). unfold n. lia. }
  pose proof (Hroom last last (last_Some_elem_of _ _ Hlast) Hlast). pose proof (length_header last) as Hlh.
  eapply list.Forall_impl; [ eapply (session_sizes ssrc ssrc media rate 0 chain_base false (fec_mask_type params) Hses fec garbage ret fecs fec' 0 n);
    (done || intros; lia) |].
  intros f (Hb & Hl & Hle). unfold n in Hle. split_and!; [ done | intros ->; cbn in Hl; lia | lia ].
Qed.

(** The numbered FEC packets. *)
Lemma chain_numbered sq l gen last fecs :
  numbers_ok sq -> media_ssrc_ sq = ssrc -> media_sequence_number_ sq = chain_base -> list.last ps = Some last ->
  Forall2 (carries_fec gen last) (map fst l) fecs ->
  exists sq' out, sequence_all sq l = Ok (sq', out) /\ length out = length fecs /\
    forall t, t ∈ out -> exists i k fec, fecs !! i = Some fec /\ holds k (rtp t)
      (w_seq (u16 (chain_base + Z.of_nat i)) (fec_red (red_payload_type_ gen) (ulpfec_payload_type_ gen) last fec)).
Proof.
  intros Hsq Hss Hnum Hlast Hcar. pose proof (mb_source _ _ (ch_block _ _ _ _ _ Hch)) as Hsrc.
  assert (Hls : v_ssrc last = ssrc) by exact (proj1 (list.Forall_forall _ _) Hsrc last (last_Some_elem_of _ _ Hlast)).
  set (us := map (fec_red (red_payload_type_ gen) (ulpfec_payload_type_ gen) last) fecs).
  assert (Hsend : Forall2 (fun tn v => numberable sq tn.1 v) l us).
  { unfold us. apply Forall2_fmap_r. apply (Forall2_fmap_l _ _ l fecs) in Hcar. eapply list.Forall2_impl; [ exact Hcar |].
    intros [t now] fec [Hpk [Hty Hred] _]. cbn [fst] in *. split; [ done | left; cbn; congruence | congruence | done ]. }
  assert (Hmedia : Forall (fun tn => media_numbered sq tn.1 = true) l).
  { eapply Forall2_Forall_l; [ exact (proj1 (Forall2_fmap_l _ _ l fecs) Hcar) |]. apply Forall_true.
    intros fec [t now] [(k & Hh) [Hty _] _]. cbn [fst] in *. unfold media_numbered, Ssrc. rewrite (ho_fields _ _ _ Hh), Hty.
    apply andb_true_iff. split; [ apply Z.eqb_eq; cbn; congruence | done ]. }
  destruct (sequence_all_numbers sq l us Hsq Hsend) as (sq' & out & Hrun & Hlen & Hall). exists sq', out.
  pose proof (list.Forall2_length _ _ _ Hcar) as Hl. rewrite length_map in Hl. split_and!; [ done | lia |].
  intros t (i & Hi)%list_elem_of_lookup_1. pose proof (lookup_lt_Some _ _ _ Hi) as Hlt.
  destruct (lookup_lt_is_Some_2 l i) as [[t0 now] Ht0]; [ lia |]. destruct (lookup_lt_is_Some_2 fecs i) as [fec Hfec]; [ lia |].
  assert (Hu : us !! i = Some (fec_red (red_payload_type_ gen) (ulpfec_payload_type_ gen) last fec)) by (unfold us; by rewrite list_lookup_fmap, Hfec).
  destruct (Hall i t0 now _ Ht0 Hu) as (t' & k & Ho & Hh). rewrite Hi in Ho. injection Ho as <-. exists i, k, fec. split; [ done |].
  unfold number_at in Hh. rewrite (proj1 (Forall_lookup _ _) Hmedia i _ Ht0 : media_numbered sq t0 = true) in Hh.
  rewrite count_all, length_take, Hnum, Nat.min_l in Hh; [ exact Hh | lia | by apply Forall_take ].
Qed.

(** What arrives is what the receiver expects of the block. *)
Let cov := block_cov media rate 0 chain_base false (fec_mask_type params).
Let sent := fun x => x ∈ media.

Lemma media_arrives red q now k w v :
  holds k (rx q) w -> extensions_ (rx q) = m -> recovered_ q = false -> v ∈ ps -> stamped m (red_of red v) w ->
  (forall r, r = mkReceived ssrc (v_seq v) false (wire v) -> of_block ssrc ssrc sent cov chain_base (block_fecs media rate) r) ->
  exists x, arrives_as ssrc ulp m (q, now) x /\
    keepable ssrc ulp m sent chain_base (block_fecs media rate) cov x /\ decoded_of ssrc ulp m x = mkReceived ssrc (v_seq v) false (wire v).
Proof.
  intros Hh Em Hrec Hv Hst Hof. destruct Hch as [[Bok Bsz Bsrc _] _ _ _ Hzero Htypes _]. destruct (stamped_same _ _ _ Hst) as (Ep & Es & Ess & Epad & Ehd).
  pose proof (proj1 (list.Forall_forall _ _) Bok v Hv) as Hvok. pose proof (proj1 (list.Forall_forall _ _) Bsz v Hv) as Hvsz.
  pose proof (proj1 (list.Forall_forall _ _) Bsrc v Hv) as Hvs. pose proof (proj1 (list.Forall_forall _ _) Hzero v Hv) as Hvz.
  pose proof (proj1 (list.Forall_forall _ _) Htypes v Hv) as Hvt. cbn beta in *. pose proof (po_padding _ Hvok) as Hpv.
  assert (Hd : decoded ssrc ulp m w (v_type v) (v_payload v) = mkReceived ssrc (v_seq v) false (wire v)).
  { unfold decoded. cbv zeta. rewrite (proj2 (Z.eqb_neq _ _) Hvt), (stamped_media m red v w Hst Hvz). by rewrite Es. }
  assert (Ehv : zlen (header (red_of red v)) = zlen (header v)) by (rewrite !length_header; done).
  exists (w, v_type v, v_payload v). cbn [arrives_as keepable decoded_of]. rewrite Hd. split_and!; try done.
  - split; try done; [ by exists k | apply (po_type _ Hvok) | by rewrite Ess |].
    rewrite length_wire in Hvsz |- * by (rewrite ?Epad; cbn; lia). rewrite Ehd, Ehv, Ep, Epad. cbn [red_of w_type w_payload v_payload v_padding length]. lia.
  - by apply (ho_ok _ _ _ Hh).
  - apply (po_type _ Hvok).
  - apply (po_type _ Hvok).
  - by apply Hof.
Qed.

Lemma fec_arrives red q now k w last fec :
  holds k (rx q) w -> extensions_ (rx q) = m -> recovered_ q = false -> list.last ps = Some last -> 0 <= ulp < 128 ->
  v_payload w = ulp :: fec -> v_ssrc w = ssrc -> v_padding w = 0 ->
  zlen (header w) = zlen (header (fec_red red ulp last fec)) -> fec <> [] -> zlen (header last) + 1 + zlen fec <= 1500 ->
  (forall r, r = mkReceived ssrc (v_seq w) true fec -> of_block ssrc ssrc sent cov chain_base (block_fecs media rate) r) ->
  exists x, arrives_as ssrc ulp m (q, now) x /\
    keepable ssrc ulp m sent chain_base (block_fecs media rate) cov x /\ decoded_of ssrc ulp m x = mkReceived ssrc (v_seq w) true fec.
Proof.
  intros Hh Em Hrec Hlast Hulp Ep Ess Epad Ehd Hne Hsz Hof.
  assert (Hd : decoded ssrc ulp m w ulp fec = mkReceived ssrc (v_seq w) true fec) by (unfold decoded; by rewrite Z.eqb_refl).
  assert (Ehv : zlen (header (fec_red red ulp last fec)) = zlen (header last)) by (rewrite !length_header; done).
  exists (w, ulp, fec). cbn [arrives_as keepable decoded_of]. rewrite Hd. split_and!; try done.
  - split; try done; [ by exists k |]. rewrite length_wire, Epad, Ehd, Ehv, Ep by lia. cbn [length]. lia.
  - by apply (ho_ok _ _ _ Hh).
  - lia.
  - lia.
  - by apply Hof.
Qed.

Lemma chain_arrives red last fecs out q now r :
  list.last ps = Some last -> v_padding last = 0 -> 0 <= ulp < 128 ->
  (forall r, delivered ssrc ssrc media chain_base fecs r -> of_block ssrc ssrc sent cov chain_base (block_fecs media rate) r) ->
  Forall (fun f => bytes_ok f /\ f <> [] /\ zlen (header last) + 1 + zlen f <= 1500) fecs ->
  (forall t, t ∈ out -> exists i k fec, fecs !! i = Some fec /\
     holds k (rtp t) (w_seq (u16 (chain_base + Z.of_nat i)) (fec_red red ulp last fec))) ->
  arrives_from m ssrc red ps out q r ->
  exists x, arrives_as ssrc ulp m (q, now) x /\
    keepable ssrc ulp m sent chain_base (block_fecs media rate) cov x /\ decoded_of ssrc ulp m x = r.
Proof.
  intros Hlast Hpad Hulp Hdel Hfecs Hout (Em & Hrec & k & w & Hh & [(v & Hv & Hst & ->) | (t & k' & u & Ht & Hu & Hst & ->)]).
  - eapply media_arrives; try done. intros r ->. apply Hdel. unfold delivered. cbn [rp_is_fec]. exists (wire v).
    split; [ by apply list_elem_of_fmap_2 |]. rewrite wire_seq; [ done |].
    exact (proj1 (list.Forall_forall _ _) (mb_ok _ _ (ch_block _ _ _ _ _ Hch)) v Hv).
  - destruct (Hout t Ht) as (i & k2 & fec & Hi & Hh2). destruct (holds_same _ _ _ _ _ Hh2 Hu) as (Ep & Es & Ess & Epad & Ehd).
    destruct (stamped_same _ _ _ Hst) as (Ep' & Es' & Ess' & Epad' & Ehd'). pose proof (Forall_lookup_1 _ _ _ _ Hfecs Hi) as (_ & Hne & Hsz).
    rewrite Ep, <- Es'. cbn [w_seq fec_red w_payload w_marker w_type v_payload tail].
    apply (fec_arrives red q now k w last fec); try done.
    + by rewrite Ep', Ep.
    + rewrite Ess', Ess. exact (proj1 (list.Forall_forall _ _) (mb_source _ _ (ch_block _ _ _ _ _ Hch)) last (last_Some_elem_of _ _ Hlast)).
    + by rewrite Epad', Epad.
    + by rewrite Ehd', Ehd, !length_header.
    + intros r ->. apply Hdel. unfold delivered. cbn [rp_is_fec]. exists i, fec. split; [ done |]. by rewrite Es', Es.
Qed.

(** Everything that arrives, through the receiver. *)
Lemma chain_received red last fecs out batches rss :
  list.last ps = Some last -> v_padding last = 0 -> 0 <= ulp < 128 ->
  (forall r, delivered ssrc ssrc media chain_base fecs r -> of_block ssrc ssrc sent cov chain_base (block_fecs media rate) r) ->
  Forall (fun f => bytes_ok f /\ f <> [] /\ zlen (header last) + 1 + zlen f <= 1500) fecs ->
  (forall t, t ∈ out -> exists i k fec, fecs !! i = Some fec /\
     holds k (rtp t) (w_seq (u16 (chain_base + Z.of_nat i)) (fec_red red ulp last fec))) ->
  Forall2 (Forall2 (fun qn r => arrives_from m ssrc red ps out qn.1 r)) batches rss ->
  exists this rcv calls, UlpfecReceiver_new ssrc ulp = Ok this /\ receive_all fresh this batches = Ok (rcv, calls) /\
    (forall bytes, handed m bytes calls <-> derivable cov (concat rss) bytes) /\
    (forall c, c ∈ calls -> exists v, v ∈ ps /\ hands m c (wire v)).
Proof.
  intros Hlast Hpad Hulp Hdel Hfecs Hout Hrs. pose proof (session_window ssrc ssrc media rate 0 chain_base chain_session) as Hwin.
  assert (Hsent : forall bytes, sent bytes -> exists v, pkt_ok v /\ bytes = wire v /\ zero_mutable m v = v).
  { intros bytes (v & -> & Hv)%list_elem_of_fmap. exists v. destruct Hch as [[Bok _ _ _] _ _ _ Hzero _ _].
    split_and!; [ exact (proj1 (list.Forall_forall _ _) Bok v Hv) | done | exact (proj1 (list.Forall_forall _ _) Hzero v Hv) ]. }
  assert (Hxss : exists xss, Forall2 (Forall2 (arrives_as ssrc ulp m)) batches xss /\
    Forall2 (Forall2 (fun x r => keepable ssrc ulp m sent chain_base (block_fecs media rate) cov x /\ decoded_of ssrc ulp m x = r)) xss rss).
  { apply Forall2_choose. eapply list.Forall2_impl; [ exact Hrs |]. intros qs rs Hqs. apply Forall2_choose. eapply list.Forall2_impl; [ exact Hqs |].
    intros [q now] r Hq. eapply (chain_arrives red last fecs out); done. }
  destruct Hxss as (xss & Harr & Hdec).
  assert (Hkeep : Forall (Forall (keepable ssrc ulp m sent chain_base (block_fecs media rate) cov)) xss).
  { eapply Forall2_Forall_l; [ exact Hdec |]. apply Forall_true. intros rs xs Hxs. eapply Forall2_Forall_l; [ exact Hxs |].
    apply Forall_true. intros r x [Hx _]. exact Hx. }
  assert (Hmap' : map (decoded_of ssrc ulp m) (concat xss) = concat rss).
  { clear -Hdec. induction Hdec as [| xs rs xss rss Hx _ IH ]; [ done |]. cbn [concat]. rewrite map_app, IH. f_equal.
    induction Hx as [| x r xs rs [_ <-] _ IHx ]; [ done |]. cbn [map]. by rewrite IHx. }
  assert (Hnew : exists this, UlpfecReceiver_new ssrc ulp = Ok this).
  { unfold UlpfecReceiver_new. rewrite RTC_DCHECK_Ok, bind_Ok by (apply Z.leb_le; lia). by eexists. }
  destruct Hnew as (this & Hnew). destruct (serves_new ssrc ulp m sent _ _ _ _ cov Hwin this Hnew) as [Hsv Hrx].
  destruct (receive_all_Ok fresh Hfresh ssrc ulp m Hmap sent _ _ _ _ cov Hwin Hsent batches xss Harr this [] [] Hkeep Hsv Hrx)
    as (rcv & calls & Hrun & Hsv'). cbn [app] in Hsv'. rewrite app_nil_r, Hmap' in Hsv'. exists this, rcv, calls. split_and!; [ done | done | |].
  - intros bytes. rewrite (serves_exact ssrc ulp m Hmap sent _ _ _ _ cov Hwin rcv calls _ bytes Hsv').
    split; apply derivable_mono; intros r; by rewrite !list_elem_of_In, <- in_rev.
  - intros c Hc. destruct (serves_sent ssrc ulp m sent _ _ _ _ cov Hwin rcv calls _ c Hsv' Hc) as (bytes & Hb & (v & -> & Hv)%list_elem_of_fmap).
    by exists v.
Qed.

End Chain.

(** ** Theorems *)


(** ** A block of two packets *)

#[local] Instance checks_on : CheckMode := true.

(** Two packets of one frame, numbered 65535 and 0, with a place for the time
    they are sent. *)
Definition demo_video (marker : bool) (seq : Z) (payload : list Z) : Pkt :=
  mkPkt marker 96 seq 90000 7 [] false [(3, [0; 0; 0])] payload 0.
Definition video_block : list Pkt := [demo_video false 65535 [1; 2; 3]; demo_video true 0 [4]].
Definition demo_params : FecProtectionParams := mkFecParams 255 1 kFecMaskRandom.
Definition demo_to_send (v : Pkt) : RtpPacketToSend :=
  mkToSend (packet_with sample_map (red_of 100 v)) MinusInfinity (Some kVideo) true false true true.
Definition demo_generator : UlpfecGenerator :=
  mkGenerator 100 101 demo_buffers [] [] None [] 0 1 (mkParams demo_params demo_params) false None [].
Definition demo_blocker : Blocker := mkBlocker [] 0 false 1 (mkParams demo_params demo_params) None.
Definition demo_sequencer : PacketSequencer := PacketSequencer_new 7 None true 1 1.

Lemma demo_video_ok marker seq payload type :
  0 <= seq < 2 ^ 16 -> 0 <= type < 128 -> Forall is_byte payload -> pkt_ok (w_type type (demo_video marker seq payload)).
Proof.
  intros Hs Ht Hp. split; cbn; try done; try lia; try (split; [ lia | constructor ]).
  - constructor; [| constructor ]. repeat split; cbn; try lia. repeat constructor; lia.
  - apply NoDup_singleton.
Qed.

Lemma demo_to_send_ok marker seq payload :
  0 <= seq < 2 ^ 16 -> Forall is_byte payload -> video_packet (demo_to_send (demo_video marker seq payload)) (demo_video marker seq payload).
Proof.
  intros Hs Hp. split; [| done | done ]. exists (built_size (red_of 100 (demo_video marker seq payload))), 100.
  apply packet_with_built. apply (demo_video_ok marker seq (96 :: payload) 100); [ done | lia |]. constructor; [ unfold is_byte; lia | done ].
Qed.

Lemma demo_chain : chain_ok sample_map 7 101 video_block demo_params.
Proof.
  split.
  - split; [ | repeat (constructor; [ vm_compute; discriminate |]); constructor | repeat (constructor; [ reflexivity |]); constructor |].
    + repeat (constructor; [ apply (demo_video_ok _ _ _ 96); [ lia | lia | repeat constructor; lia ] |]). constructor.
    + assert (E : offsets (map wire video_block) = [0; 1]) by (vm_compute; reflexivity). unfold in_order. rewrite E. split; repeat constructor; lia.
  - cbn. lia.
  - vm_compute. discriminate.
  - cbn. lia.
  - repeat (constructor; [ reflexivity |]). constructor.
  - repeat (constructor; [ cbn; lia |]). constructor.
  - intros v last Hv Hlast. injection Hlast as <-. apply elem_of_cons in Hv as [-> | Hv]; [ vm_compute; discriminate |].
    apply list_elem_of_singleton in Hv as ->. vm_compute. discriminate.
Qed.

Lemma demo_generates : generates demo_generator demo_blocker /\ blocker_ok demo_blocker.
Proof.
  split; [ split; try done; exact demo_buffers_ok |].
  assert (Hp : fec_params_ok demo_params) by (split; cbn; lia). split; [ by split | done | cbn; lia | cbn; lia ].
Qed.


(** The first packet is lost, the second arrives with its send time filled in,
    and one FEC packet. *)
Definition demo_stamped (v : Pkt) : Pkt := w_exts false [(3, [1; 2; 3])] v.

Definition demo_run : outcome (list (bool * list Z)) :=
  '(_, reds) ← @protect_all true UlpfecGenerator (@UlpfecVideoFecGenerator true UlpfecHeaderWriter zero_fresh) zero_fresh (mkEgress (Some demo_generator) None)
                 (map (fun v => (demo_to_send v, replicate 288 7)) video_block);
  '(_, out) ← sequence_all demo_sequencer (map (fun t => (t, 5)) reds);
  let arrived := mkRx (packet_with sample_map (demo_stamped (red_of 100 (demo_video true 0 [4])))) false in
  rcv ← UlpfecReceiver_new 7 101;
  '(_, calls) ← @receive_all true UlpfecHeaderReader zero_fresh rcv
                  [[(arrived, 10)]; map (fun t => (mkRx (rtp t) false, 11)) (take 1 out)];
  Ok (map (fun c => (recovered_ c, Buffer (rx c))) calls).

Example demo_recovers :
  demo_run = Ok [(false, wire (demo_stamped (demo_video true 0 [4]))); (true, wire (demo_video false 65535 [1; 2; 3]))].
Proof. vm_compute. reflexivity. Qed.
