(* ===== verification/FlexfecSender.v ===== *)
(** * The FlexFEC sender

    [class FlexfecSender] of [modules/rtp_rtcp/source/flexfec_sender.cc]: media
    packets go to a [UlpfecGenerator] with the FlexFEC header format, and each
    FEC packet it makes is sent in an RTP packet of its own stream.

    The clock is not part of the vendored sources: its readings to come are
    members, [time_in_ms_] for [TimeInMilliseconds] and [current_time_] for
    [CurrentTime]. Of [fec_bitrate_] the model keeps what was passed to
    [Update]; the time of the last log line is left out. *)
From S2P Require Import Prelude.
From S2P Require Import MaskTable.
From S2P Require Import UnequalProtection.
From S2P Require Import RtpFecCodec.
From S2P Require Import RtpFecAlgebra.
From S2P Require Import RtpFecEncoder.
From S2P Require Import ExtensionMap.
From S2P Require Import RtpPacket.
From S2P Require Import RedPackets.
From S2P Require Import UlpfecGenerator.
From S2P Require Import SenderEgress.
From stdpp Require Import base list list_numbers numbers option strings tactics.
From Stdlib Require Import ZArith Lia.

#[local] Open Scope Z_scope.

(** ** Sizes of header extensions *)

(** [RtpExtensionSize] is a kind of extension with the size of its value;
    [sum_extensions] is the loop of [RtpHeaderExtensionSize]: the sum of the
    values, the number of extensions and the size of the header of each. *)
Fixpoint sum_extensions `{CheckMode} (extensions : list (RTPExtensionType * Z)) (registered_extensions : ExtensionMap)
    (values_size num_extensions each_extension_header_size : Z) : outcome (Z * Z * Z) :=
  match extensions with
  | [] => Ok (values_size, num_extensions, each_extension_header_size)
  | (type, value_size) :: extensions =>
      id ← GetId registered_extensions type;
      if id =? kInvalidId then sum_extensions extensions registered_extensions values_size num_extensions each_extension_header_size
      else
        let each_extension_header_size :=
          if (kOneByteHeaderExtensionMaxId <? id) || (kOneByteHeaderExtensionMaxValueSize <? value_size) then 2
          else each_extension_header_size in
        sum_extensions extensions registered_extensions (values_size + value_size) (num_extensions + 1) each_extension_header_size
  end.
Definition RtpHeaderExtensionSize `{CheckMode} (extensions : list (RTPExtensionType * Z)) (registered_extensions : ExtensionMap)
    : outcome Z :=
  '(values_size, num_extensions, each_extension_header_size) ← sum_extensions extensions registered_extensions 0 0 1;
  if values_size =? 0 then Ok 0
  else
    let size := 4 + each_extension_header_size * num_extensions + values_size in
    Ok (size + 3 - (size + 3) mod 4).

(** [RTPSender::FecExtensionSizes]. *)
Definition kFecOrPaddingExtensionSizes : list (RTPExtensionType * Z) :=
  [(kRtpExtensionAbsoluteSendTime, 3); (kRtpExtensionTransmissionTimeOffset, 3); (kRtpExtensionTransportSequenceNumber, 2);
   (kRtpExtensionPlayoutDelay, 3); (kRtpExtensionMid, 16); (kRtpExtensionVideoTiming, 13)].

(** [SetExtension] with one of the extensions whose value is a string. *)
Definition SetStringExtension `{CheckMode} (fresh : nat -> list Z) (p : RtpPacket) (type : RTPExtensionType) (str : list Z)
    : outcome (RtpPacket * bool) :=
  '(p, view) ← AllocateExtension fresh p type (Z.of_nat (length str));
  match view with
  | None => Ok (p, false)
  | Some (offset, n) =>
      if 16 <? Z.of_nat (length str) then Ok (p, false)
      else
        RTC_DCHECK (n =? Z.of_nat (length str));;
        RTC_DCHECK (1 <=? Z.of_nat (length str));;
        p ← write_mem p (fun mem => memcpy mem offset str 0 (Z.of_nat (length str)));
        Ok (p, true)
  end.

(** ** The sender *)

(** [Uri()] of a kind of extension. *)
Definition extension_uri (type : RTPExtensionType) : string :=
  default EmptyString (snd ∘ snd <$> list_find (fun e => e.1 = type) kExtensions).

Record FlexfecSender : Type := mkFlexSender {
  fx_payload_type_ : Z;
  timestamp_offset_ : Z;
  fx_ssrc_ : Z;
  fx_media_ssrc_ : Z;
  mid_ : list Z;
  seq_num_ : Z;
  ulpfec_generator_ : UlpfecGenerator;
  rtp_header_extension_map_ : ExtensionMap;
  header_extensions_size_ : Z;
  fx_bitrate_ : list Z;
  time_in_ms_ : nat -> Z;
  current_time_ : nat -> Z
}.

Section Sender.
Context `{CheckMode} `{FecHeaderWriter} (fresh : nat -> list Z).

(** The loop of [RegisterSupportedExtensions], from the map [m] on. *)
Fixpoint RegisterSupportedExtensions (m : ExtensionMap) (extensions : list (Z * string)) : outcome ExtensionMap :=
  match extensions with
  | [] => Ok m
  | (id, uri) :: extensions =>
      '(m, _) ←
        (if decide (uri = extension_uri kRtpExtensionTransportSequenceNumber) then Register m id kRtpExtensionTransportSequenceNumber
         else if decide (uri = extension_uri kRtpExtensionAbsoluteSendTime) then Register m id kRtpExtensionAbsoluteSendTime
         else if decide (uri = extension_uri kRtpExtensionTransmissionTimeOffset) then Register m id kRtpExtensionTransmissionTimeOffset
         else if decide (uri = extension_uri kRtpExtensionMid) then Register m id kRtpExtensionMid
         else Ok (m, false));
      RegisterSupportedExtensions m extensions
  end.

(** [rtp_state] is the sequence number and the start time of an earlier sender;
    without it they are [random_seq_num] and [random_offset]. *)
Definition FlexfecSender_new (payload_type ssrc protected_media_ssrc : Z) (mid : list Z) (extensions : list (Z * string))
    (extension_sizes : list (RTPExtensionType * Z)) (rtp_state : option (Z * Z)) (random_seq_num random_offset : Z) (fec : MaskBuffers) (time_in_ms current_time : nat -> Z)
    : outcome FlexfecSender :=
  m ← RegisterSupportedExtensions (RtpHeaderExtensionMap_new false) extensions;
  header_extensions_size ← RtpHeaderExtensionSize extension_sizes m;
  RTC_DCHECK (0 <=? payload_type);;
  RTC_DCHECK (payload_type <=? 127);;
  let state := default (random_seq_num, random_offset) rtp_state in
  Ok (mkFlexSender payload_type state.2 ssrc protected_media_ssrc mid state.1 (UlpfecGenerator_new 0 0 fec) m
        header_extensions_size []
        time_in_ms current_time).

Definition with_generator (g : UlpfecGenerator) (this : FlexfecSender) : FlexfecSender :=
  mkFlexSender (fx_payload_type_ this) (timestamp_offset_ this) (fx_ssrc_ this) (fx_media_ssrc_ this) (mid_ this) (seq_num_ this)
    g (rtp_header_extension_map_ this) (header_extensions_size_ this) (fx_bitrate_ this) (time_in_ms_ this) (current_time_ this).

Definition Flexfec_SetProtectionParameters (this : FlexfecSender) (delta_params key_params : FecProtectionParams)
    : outcome FlexfecSender :=
  g ← SetProtectionParameters (ulpfec_generator_ this) delta_params key_params; Ok (with_generator g this).

Definition Flexfec_AddPacketAndGenerateFec (this : FlexfecSender) (packet : RtpPacketToSend) (garbage : list Z)
    : outcome FlexfecSender :=
  RTC_DCHECK (Ssrc (rtp packet) =? fx_media_ssrc_ this);;
  g ← AddPacketAndGenerateFec (ulpfec_generator_ this) packet garbage; Ok (with_generator g this).

(** One turn of the loop of [GetFecPackets]; the first member that changes is
    [seq_num_]. *)
Definition fec_to_flexfec (this : FlexfecSender) (fec_packet : list Z) : outcome (FlexfecSender * RtpPacketToSend) :=
  p ← RtpPacket_new fresh (rtp_header_extension_map_ this) kDefaultPacketSize;
  p ← SetMarker p false;
  p ← SetPayloadType p (u8 (fx_payload_type_ this));
  p ← SetSequenceNumber p (seq_num_ this);
  p ← SetTimestamp p (u32 (timestamp_offset_ this + u32 (90000 / 1000 * time_in_ms_ this 0%nat)));
  p ← SetSsrc p (fx_ssrc_ this);
  '(p, _) ← ReserveExtension fresh p kRtpExtensionAbsoluteSendTime 3;
  '(p, _) ← ReserveExtension fresh p kRtpExtensionTransmissionTimeOffset 3;
  '(p, _) ← ReserveExtension fresh p kRtpExtensionTransportSequenceNumber 2;
  p ← (match mid_ this with [] => Ok p | _ => '(p, _) ← SetStringExtension fresh p kRtpExtensionMid (mid_ this); Ok p end);
  p ← AllocatePayload fresh p (Z.of_nat (length fec_packet));
  p ← write_payload p 0 fec_packet;
  let packet := mkToSend p (At (current_time_ this 0%nat)) (Some kForwardErrorCorrection) false false false false in
  Ok (mkFlexSender (fx_payload_type_ this) (timestamp_offset_ this) (fx_ssrc_ this) (fx_media_ssrc_ this) (mid_ this)
        (u16 (seq_num_ this + 1)) (ulpfec_generator_ this) (rtp_header_extension_map_ this) (header_extensions_size_ this) (fx_bitrate_ this)
        (fun i => time_in_ms_ this (S i)) (fun i => current_time_ this (S i)), packet).

Fixpoint fecs_to_flexfec (this : FlexfecSender) (fec_packets : list (list Z)) : outcome (FlexfecSender * list RtpPacketToSend) :=
  match fec_packets with
  | [] => Ok (this, [])
  | fec_packet :: fec_packets =>
      '(this, packet) ← fec_to_flexfec this fec_packet;
      '(this, packets) ← fecs_to_flexfec this fec_packets;
      Ok (this, packet :: packets)
  end.

Definition Flexfec_GetFecPackets (this : FlexfecSender) : outcome (FlexfecSender * list RtpPacketToSend) :=
  fec_packets ← generated (ulpfec_generator_ this);
  '(this, fec_packets_to_send) ← fecs_to_flexfec this fec_packets;
  let total_fec_data_bytes := foldr Z.add 0 (map (fun t => packet_size (rtp t)) fec_packets_to_send) in
  let g := match fec_packets_to_send with [] => ulpfec_generator_ this | _ => ResetState (ulpfec_generator_ this) end in
  Ok (mkFlexSender (fx_payload_type_ this) (timestamp_offset_ this) (fx_ssrc_ this) (fx_media_ssrc_ this) (mid_ this)
        (seq_num_ this) g (rtp_header_extension_map_ this) (header_extensions_size_ this) (fx_bitrate_ this ++ [total_fec_data_bytes])
        (time_in_ms_ this) (fun i => current_time_ this (S i)), fec_packets_to_send).

(** The BWE header extensions and the largest FlexFEC header. *)
Definition Flexfec_MaxPacketOverhead (this : FlexfecSender) : Z := header_extensions_size_ this + 32.

(** [GetRtpState]: sequence number and start time. *)
Definition Flexfec_GetRtpState (this : FlexfecSender) : Z * Z := (seq_num_ this, timestamp_offset_ this).

#[export] Instance FlexfecVideoFecGenerator : VideoFecGenerator FlexfecSender := {
  SetProtectionParameters_ := Flexfec_SetProtectionParameters;
  AddPacketAndGenerateFec_ := Flexfec_AddPacketAndGenerateFec;
  GetFecPackets_ := Flexfec_GetFecPackets
}.

End Sender.
