(* ===== verification/FlexfecSenderSpec.v ===== *)
(** * What the FlexFEC sender sends

    The extensions of a FlexFEC packet, the packet [GetFecPackets] makes for a
    FEC packet, and a sequence of media packets through [FlexfecSender]: the
    same grouping into blocks as with ULPFEC, each FEC packet in an RTP packet
    of its own stream, numbered one after the other. *)
From S2P Require Import Prelude.
From S2P Require Import MaskTable.
From S2P Require Import UnequalProtection.
From S2P Require Import RtpFecCodec.
From S2P Require Import RtpFecAlgebra.
From S2P Require Import FlexfecHeader.
From S2P Require Import RtpFecEncoder.
From S2P Require Import RtpFecBuffers.
From S2P Require Import ExtensionMap.
From S2P Require Import RtpPacket.
From S2P Require Import RtpPacketWire.
From S2P Require Import RtpPacketBuild.
From S2P Require Import RtpPacketExt.
From S2P Require Import RtpPacketOps.
From S2P Require Import RedPackets.
From S2P Require Import UlpfecGenerator.
From S2P Require Import UlpfecGeneratorSpec.
From S2P Require Import SenderEgress.
From S2P Require Import EgressSpec.
From S2P Require Import FlexfecSender.
From stdpp Require Import base list list_numbers numbers option strings tactics.
From Stdlib Require Import ZArith Lia.

#[local] Open Scope Z_scope.

(** ** Extensions *)

(** An extension goes into a packet with one-byte extension headers if it has
    an id and both fit. *)
Definition usable (m : ExtensionMap) (e : RTPExtensionType * list Z) : bool :=
  negb (id_of m e.1 =? kInvalidId) && negb (needs_wide (id_of m e.1) (zlen e.2)).
Definition exts_of (m : ExtensionMap) (es : list (RTPExtensionType * list Z)) : list (Z * list Z) :=
  map (fun e => (id_of m e.1, e.2)) (List.filter (usable m) es).

Lemma exts_of_snoc m es e :
  exts_of m (es ++ [e]) = exts_of m es ++ (if usable m e then [(id_of m e.1, e.2)] else []).
Proof.
  unfold exts_of. rewrite List.filter_app, map_app. f_equal. cbn [List.filter]. by destruct (usable m e).
Qed.

Lemma exts_of_size m es : zlen (exts_bytes false (exts_of m es)) <= 17 * zlen es.
Proof.
  induction es as [| e es IH ] using rev_ind; [ cbn; lia |]. rewrite exts_of_snoc.
  unfold exts_bytes in *. rewrite map_app, concat_app, !length_app. cbn [length]. destruct (usable m e) eqn:E; [| cbn [map concat length]; lia ].
  unfold usable in E. apply andb_true_iff in E as [_ E]. unfold needs_wide in E. cbn [map concat]. rewrite app_nil_r.
  pose proof (length_ext_bytes false (id_of m e.1, e.2)) as Hl. cbn [ext_header snd] in Hl. lia.
Qed.

Lemma exts_of_new m es e :
  map_ok m -> e.1 ∉ map fst es -> usable m e = true -> id_of m e.1 ∉ map fst (exts_of m es).
Proof.
  intros Hm Hnew Hu Hin. unfold exts_of in Hin. rewrite map_map in Hin.
  apply list_elem_of_fmap in Hin as (e' & E & Hin). cbn in E. apply list_elem_of_In, filter_In in Hin as [Hin%list_elem_of_In _]. apply Hnew.
  assert (e.1 = e'.1) as ->; [| by apply list_elem_of_fmap_2 ]. apply (mo_unique _ Hm); [ done |].
  unfold usable in Hu. apply andb_true_iff in Hu as [Hu _]. intros E0. by rewrite E0 in Hu.
Qed.

Section Extensions.
Context `{CheckMode} (fresh : nat -> list Z) (Hfresh : fresh_ok fresh).
Context (m : ExtensionMap) (Hmap : map_ok m) (Hnarrow : extmap_allow_mixed_ m = false).
Context (v : Pkt) (Hbare : v_csrcs v = [] /\ v_payload v = [] /\ v_padding v = 0).

(** The packet [v] with the extensions [es], those that are usable. *)
Definition extended (p : RtpPacket) (es : list (RTPExtensionType * list Z)) : Prop :=
  built p (w_exts false (exts_of m es) v) /\ extensions_ p = m /\ 1500 <= capacity (buffer_ p).

Lemma add_usable es e :
  usable m e = true -> add_ext (id_of m e.1) e.2 (w_exts false (exts_of m es) v) = w_exts false (exts_of m (es ++ [e])) v.
Proof.
  intros Hu. rewrite exts_of_snoc, Hu. unfold add_ext, add_wide. unfold usable in Hu. apply andb_true_iff in Hu as [_ Hu%negb_true_iff].
  rewrite Hu. cbn [w_exts v_exts v_wide]. by destruct (exts_of m es).
Qed.

Lemma room_usable es e cap :
  usable m e = true -> zlen es <= 8 -> 1500 <= cap -> room_for (w_exts false (exts_of m es) v) (id_of m e.1) (zlen e.2) cap.
Proof.
  intros Hu Hes Hcap. unfold room_for, add_wide, exts_start. unfold usable in Hu. apply andb_true_iff in Hu as [_ Hu%negb_true_iff]. rewrite Hu.
  cbn [w_exts v_exts v_wide v_csrcs]. destruct Hbare as (-> & _ & _). cbn [length]. unfold needs_wide in Hu. pose proof (exts_of_size m es).
  assert (Hw : (match exts_of m es with [] => false | _ => false end) || false = false) by (by destruct (exts_of m es)). rewrite Hw. cbn [ext_header].
  pose proof (words_bounds (zlen (exts_bytes false (exts_of m es)) + 1 + zlen e.2)). lia.
Qed.

Lemma refused p es e :
  extended p es -> e.1 <> kRtpExtensionNone -> usable m e = false ->
  AllocateExtension fresh p e.1 (zlen e.2) = Ok (p, None) /\ extended p (es ++ [e]).
Proof.
  intros (Hp & Em & Hc) Ht Hu. split; [| split; [| done ]; by rewrite exts_of_snoc, Hu, app_nil_r ].
  apply AllocateExtension_refused; rewrite ?Em; try done. unfold usable in Hu. apply andb_false_iff in Hu as [Hu%negb_false_iff | Hu%negb_false_iff].
  - left. by apply Z.eqb_eq.
  - right. done.
Qed.

(** The hypotheses of the lemmas on new extensions. *)
Lemma usable_new p es e :
  extended p es -> e.1 ∉ map fst es -> zlen es <= 8 -> usable m e = true ->
  id_of (extensions_ p) e.1 <> kInvalidId /\ (id_of (extensions_ p) e.1 ∉ map fst (v_exts (w_exts false (exts_of m es) v))) /\
  (needs_wide (id_of (extensions_ p) e.1) (zlen e.2) = true -> extmap_allow_mixed_ (extensions_ p) = true) /\
  zlen e.2 <= 16 /\ room_for (w_exts false (exts_of m es) v) (id_of (extensions_ p) e.1) (zlen e.2) (capacity (buffer_ p)).
Proof.
  intros (_ & -> & Hc) Hnew Hes Hu. pose proof Hu as Hu'. unfold usable in Hu'. apply andb_true_iff in Hu' as [H1%negb_true_iff H2%negb_true_iff].
  split_and!; [ by apply Z.eqb_neq | by apply exts_of_new | by rewrite H2 | unfold needs_wide in H2; lia | by apply room_usable ].
Qed.

Lemma reserve_step p es type len :
  extended p es -> type <> kRtpExtensionNone -> type ∉ map fst es -> zlen es <= 8 -> 1 <= len ->
  exists p' b, ReserveExtension fresh p type len = Ok (p', b) /\ extended p' (es ++ [(type, replicate (Z.to_nat len) 0)]).
Proof.
  intros Hp Ht Hnew Hes Hlen. set (e := (type, replicate (Z.to_nat len) 0)). assert (El : zlen e.2 = len) by (cbn; rewrite length_replicate; lia).
  destruct Hbare as (_ & Hpl & Hpad). destruct (usable m e) eqn:Hu.
  - destruct (usable_new p es e Hp Hnew Hes Hu) as (H1 & H2 & H3 & H4 & H5). rewrite El in *. pose proof Hp as (Hb & Em & Hc).
    destruct (ReserveExtension_new fresh p _ type len Hb) as (p' & -> & Hb' & [Hr1 Hr2]); try done; [ by rewrite Em | lia |].
    exists p', true. split; [ done |]. rewrite Em in Hb'. pose proof (add_usable es e Hu) as Ea. cbn [e fst snd] in Ea. rewrite Ea in Hb'.
    split_and!; [ done | congruence | lia ].
  - destruct (refused p es e Hp Ht Hu) as [E Hp']. rewrite El in E. cbn [e fst] in E. unfold ReserveExtension. rewrite E, bind_Ok. by exists p, false.
Qed.

Lemma set_string_step p es type str :
  extended p es -> type <> kRtpExtensionNone -> type ∉ map fst es -> zlen es <= 8 -> str <> [] -> Forall is_byte str ->
  exists p' b, SetStringExtension fresh p type str = Ok (p', b) /\ extended p' (es ++ [(type, str)]).
Proof.
  intros Hp Ht Hnew Hes Hne Hb. set (e := (type, str)). assert (Hlen : 1 <= zlen str) by (destruct str; [ done | cbn [length]; lia ]).
  destruct Hbare as (_ & Hpl & Hpad). unfold SetStringExtension. destruct (usable m e) eqn:Hu.
  - destruct (usable_new p es e Hp Hnew Hes Hu) as (H1 & H2 & H3 & H4 & H5). cbn [e fst snd] in *. pose proof Hp as (Hbu & Em & Hc).
    destruct (SetRawExtension_new fresh p _ type str Hbu) as (p' & Hraw & Hb' & [Hr1 Hr2]); try done; [ by rewrite Em | lia |].
    destruct (AllocateExtension_new fresh p _ type (zlen str) Hbu) as (p1 & old & _ & _ & _ & E); try done; [ by rewrite Em | lia |].
    unfold SetRawExtension in Hraw. rewrite E, bind_Ok in Hraw |- *. rewrite (proj2 (Z.ltb_ge _ _) H4).
    rewrite !RTC_DCHECK_Ok, !bind_Ok by (lia || apply Z.leb_le; lia).
    exists p', true. split; [ done |]. rewrite Em in Hb'. pose proof (add_usable es e Hu) as Ea. cbn [e fst snd] in Ea. rewrite Ea in Hb'.
    split_and!; [ done | congruence | lia ].
  - destruct (refused p es e Hp Ht Hu) as [E Hp']. cbn [e snd fst] in E. rewrite E, bind_Ok. by exists p, false.
Qed.

End Extensions.

(** ** The packets *)

(** The extensions a FlexFEC packet is given. *)
Definition flexfec_values (mid : list Z) : list (RTPExtensionType * list Z) :=
  [(kRtpExtensionAbsoluteSendTime, [0; 0; 0]); (kRtpExtensionTransmissionTimeOffset, [0; 0; 0]);
   (kRtpExtensionTransportSequenceNumber, [0; 0])] ++ match mid with [] => [] | _ => [(kRtpExtensionMid, mid)] end.

(** The [i]-th packet from now on, with the FEC packet [fec]. *)
Definition flexfec_pkt (this : FlexfecSender) (i : nat) (fec : list Z) : Pkt :=
  mkPkt false (fx_payload_type_ this) (u16 (seq_num_ this + Z.of_nat i))
    (u32 (timestamp_offset_ this + u32 (90 * time_in_ms_ this i))) (fx_ssrc_ this) [] false
    (exts_of (rtp_header_extension_map_ this) (flexfec_values (mid_ this))) fec 0.

Record flex_ok (this : FlexfecSender) : Prop := {
  fo_type : 0 <= fx_payload_type_ this < 128;
  fo_ssrc : 0 <= fx_ssrc_ this < 2 ^ 32;
  fo_seq : 0 <= seq_num_ this < 2 ^ 16;
  fo_mid : Forall is_byte (mid_ this);
  fo_map : map_ok (rtp_header_extension_map_ this) /\ extmap_allow_mixed_ (rtp_header_extension_map_ this) = false
}.

(** The sender after [n] packets. *)
Definition advance (n : nat) (this : FlexfecSender) : FlexfecSender :=
  mkFlexSender (fx_payload_type_ this) (timestamp_offset_ this) (fx_ssrc_ this) (fx_media_ssrc_ this) (mid_ this)
    (u16 (seq_num_ this + Z.of_nat n)) (ulpfec_generator_ this) (rtp_header_extension_map_ this) (header_extensions_size_ this)
    (fx_bitrate_ this) (fun i => time_in_ms_ this (n + i)%nat) (fun i => current_time_ this (n + i)%nat).

Lemma advance_ok n this : flex_ok this -> flex_ok (advance n this).
Proof. intros [H1 H2 H3 H4 H5]. split; try done. apply u16_range. Qed.

Lemma flexfec_pkt_advance n this i fec : flexfec_pkt (advance n this) i fec = flexfec_pkt this (n + i) fec.
Proof.
  unfold flexfec_pkt, advance. cbn. f_equal. unfold u16. rewrite Zplus_mod_idemp_l. f_equal. lia.
Qed.

Record carries_flexfec (this : FlexfecSender) (i : nat) (t : RtpPacketToSend) (fec : list Z) : Prop := {
  cx_packet : exists k, holds k (rtp t) (flexfec_pkt this i fec);
  cx_type : packet_type_ t = Some kForwardErrorCorrection /\ is_red_ t = false;
  cx_flags : allow_retransmission_ t = false /\ fec_protect_packet_ t = false
}.

Section Spec.
Context `{CheckMode} `{FecHeaderWriter} (fresh : nat -> list Z) (Hfresh : fresh_ok fresh).

(** The fixed header, ... *)
Lemma flexfec_fixed this :
  flex_ok this ->
  exists p, (forall A (f : RtpPacket -> outcome A),
      (p ← RtpPacket_new fresh (rtp_header_extension_map_ this) kDefaultPacketSize;
       p ← SetMarker p false;
       p ← SetPayloadType p (u8 (fx_payload_type_ this));
       p ← SetSequenceNumber p (seq_num_ this);
       p ← SetTimestamp p (u32 (timestamp_offset_ this + u32 (90000 / 1000 * time_in_ms_ this 0%nat)));
       p ← SetSsrc p (fx_ssrc_ this); f p) = f p) /\
    extended (rtp_header_extension_map_ this) (flexfec_pkt this 0 []) p [].
Proof.
  intros [Ht Hs Hq Hmid _]. rewrite u8_id by lia.
  destruct (RtpPacket_new_Ok fresh Hfresh (rtp_header_extension_map_ this) kDefaultPacketSize ltac:(done)) as (q0 & F0 & P0 & Em & Hc).
  destruct (SetMarker_Ok _ q0 _ false P0) as (q1 & F1 & P1 & K1).
  destruct (SetPayloadType_Ok _ q1 _ (fx_payload_type_ this) P1 Ht) as (q2 & F2 & P2 & K2).
  destruct (SetSequenceNumber_Ok _ q2 _ (seq_num_ this) P2 Hq) as (q3 & F3 & P3 & K3).
  destruct (SetTimestamp_Ok _ q3 _ (u32 (timestamp_offset_ this + u32 (90000 / 1000 * time_in_ms_ this 0%nat))) P3 (Z.mod_pos_bound _ (2 ^ 32) ltac:(lia)))
    as (q4 & F4 & P4 & K4).
  destruct (SetSsrc_Ok _ q4 _ (fx_ssrc_ this) P4 Hs) as (q5 & F5 & P5 & K5). exists q5. split.
  { intros A f. by rewrite F0, bind_Ok, F1, bind_Ok, F2, bind_Ok, F3, bind_Ok, F4, bind_Ok, F5, bind_Ok. }
  assert (Hk : keeps q0 q5) by (by repeat (etransitivity; [ eassumption |])). destruct Hk as [Hk1 Hk2].
  split_and!; [| congruence | unfold kDefaultPacketSize in Hc; lia ]. unfold flexfec_pkt. cbn [exts_of map List.filter Z.of_nat].
  rewrite Z.add_0_r, (u16_id (seq_num_ this)) by lia. exact P5.
Qed.

(** ... the extensions, ... *)
Lemma flexfec_extensions m v p mid :
  map_ok m -> extmap_allow_mixed_ m = false -> v_csrcs v = [] /\ v_payload v = [] /\ v_padding v = 0 -> Forall is_byte mid ->
  extended m v p [] ->
  exists p', (forall A (f : RtpPacket -> outcome A),
      ('(p, _) ← ReserveExtension fresh p kRtpExtensionAbsoluteSendTime 3;
       '(p, _) ← ReserveExtension fresh p kRtpExtensionTransmissionTimeOffset 3;
       '(p, _) ← ReserveExtension fresh p kRtpExtensionTransportSequenceNumber 2;
       p ← (match mid with [] => Ok p | _ => '(p, _) ← SetStringExtension fresh p kRtpExtensionMid mid; Ok p end); f p) = f p') /\
    extended m v p' (flexfec_values mid).
Proof.
  intros Hmap Hnarrow Hbare Hmid Hp0.
  destruct (reserve_step fresh m Hmap Hnarrow v Hbare p [] kRtpExtensionAbsoluteSendTime 3 Hp0) as (p1 & b1 & E1 & Hp1);
    [ done | apply (bool_decide_unpack _); vm_compute; exact I | cbn; lia | done |].
  destruct (reserve_step fresh m Hmap Hnarrow v Hbare p1 _ kRtpExtensionTransmissionTimeOffset 3 Hp1) as (p2 & b2 & E2 & Hp2);
    [ done | apply (bool_decide_unpack _); vm_compute; exact I | cbn; lia | done |].
  destruct (reserve_step fresh m Hmap Hnarrow v Hbare p2 _ kRtpExtensionTransportSequenceNumber 2 Hp2) as (p3 & b3 & E3 & Hp3);
    [ done | apply (bool_decide_unpack _); vm_compute; exact I | cbn; lia | done |].
  unfold flexfec_values. destruct mid as [| x mid ].
  - exists p3. split; [ by intros; rewrite E1, bind_Ok, E2, bind_Ok, E3, bind_Ok, bind_Ok | exact Hp3 ].
  - destruct (set_string_step fresh m Hmap Hnarrow v Hbare p3 _ kRtpExtensionMid (x :: mid) Hp3) as (p4 & b4 & E4 & Hp4);
      [ done | apply (bool_decide_unpack _); vm_compute; exact I | cbn; lia | done | done |].
    exists p4. split; [ by intros; rewrite E1, bind_Ok, E2, bind_Ok, E3, bind_Ok, E4, !bind_Ok | exact Hp4 ].
Qed.

(** ... and the payload. *)
Lemma fec_to_flexfec_Ok this fec :
  flex_ok this -> bytes_ok fec ->
  exists t, fec_to_flexfec fresh this fec = Ok (advance 1 this, t) /\ carries_flexfec this 0 t fec.
Proof.
  intros Hok Hfec. pose proof Hok as [_ _ _ Hmid [Hmap Hnarrow]]. unfold fec_to_flexfec.
  destruct (flexfec_fixed this Hok) as (p & -> & Hp).
  destruct (flexfec_extensions _ (flexfec_pkt this 0 []) p (mid_ this) Hmap Hnarrow) as (p' & -> & Hp' & _); [ done.. |].
  destruct (AllocatePayload_Ok fresh Hfresh _ p' _ fec Hp' eq_refl Hfec) as (p1 & p2 & -> & E2 & Hp2 & _). rewrite bind_Ok, E2, bind_Ok.
  eexists. split; [ done |]. split; [| done.. ]. eexists. exact Hp2.
Qed.

Lemma fecs_to_flexfec_Ok fecs : forall this,
  flex_ok this -> Forall bytes_ok fecs ->
  exists ts, fecs_to_flexfec fresh this fecs = Ok (advance (length fecs) this, ts) /\ length ts = length fecs /\
    forall i t fec, ts !! i = Some t -> fecs !! i = Some fec -> carries_flexfec this i t fec.
Proof.
  induction fecs as [| fec fecs IH ]; intros this Hok Hb; cbn [fecs_to_flexfec].
  { exists []. split_and!; [| done | done ]. unfold advance. cbn. rewrite Z.add_0_r, u16_id by (apply Hok). by destruct this. }
  apply Forall_cons_1 in Hb as [Hf Hb]. destruct (fec_to_flexfec_Ok this fec Hok Hf) as (t & -> & Ht). rewrite bind_Ok.
  destruct (IH (advance 1 this) (advance_ok 1 this Hok) Hb) as (ts & -> & Hl & Hall). rewrite bind_Ok.
  exists (t :: ts). split_and!; [| cbn; lia |].
  - do 2 f_equal. unfold advance. cbn. f_equal. unfold u16. rewrite Zplus_mod_idemp_l. f_equal. lia.
  - intros [| i ] t' fec' Hi Hi'; cbn in Hi, Hi'; [ by simplify_eq |]. destruct (Hall i t' fec' Hi Hi') as [(k & Hk) Hty Hfl].
    split; [| done.. ]. exists k. by rewrite flexfec_pkt_advance in Hk.
Qed.

(** [rs] are the next packets of the sender and carry [fecs]. *)
Definition sends_flexfec (this : FlexfecSender) (rs : list RtpPacketToSend) (fecs : list (list Z)) : Prop :=
  length rs = length fecs /\ forall i t fec, rs !! i = Some t -> fecs !! i = Some fec -> carries_flexfec this i t fec.

(** Handing the packets out. *)
Lemma Flexfec_GetFecPackets_Ok this s fecs :
  flex_ok this -> has_fecs (ulpfec_generator_ this) s fecs -> Forall bytes_ok fecs ->
  exists this' rs, Flexfec_GetFecPackets fresh this = Ok (this', rs) /\ sends_flexfec this rs fecs /\
    generates (ulpfec_generator_ this') (bl_reset s) /\ generated_fec_packets_ (ulpfec_generator_ this') = [] /\ flex_ok this' /\
    fx_media_ssrc_ this' = fx_media_ssrc_ this.
Proof.
  intros Hok Hf Hb. unfold Flexfec_GetFecPackets.
  assert (Hgen : generated (ulpfec_generator_ this) = Ok fecs).
  { destruct fecs as [| fec fecs ]; [ destruct Hf as [_ Hnil]; unfold generated; by rewrite Hnil |].
    destruct Hf as (_ & (rest & Ha) & Hi). by eapply generated_Ok. }
  rewrite Hgen, bind_Ok. destruct (fecs_to_flexfec_Ok fecs this Hok Hb) as (ts & -> & Hl & Hall). rewrite bind_Ok. cbv zeta.
  eexists _, ts. split; [ done |]. split; [ by split |]. cbn [ulpfec_generator_ fx_media_ssrc_ advance].
  assert (Hok' : flex_ok (advance (length fecs) this)) by (by apply advance_ok).
  destruct fecs as [| fec fecs ]; destruct ts as [| t ts ]; try done.
  - destruct Hf as [Hg Hnil]. split_and!; try done. destruct Hok'. by split.
  - destruct Hf as (Hg & _ & _). split_and!; try done; [ destruct Hg; by split | destruct Hok'; by split ].
Qed.

(** No FEC packet, no change of the stream. *)
Lemma Flexfec_GetFecPackets_none this :
  flex_ok this -> generated_fec_packets_ (ulpfec_generator_ this) = [] ->
  exists this', Flexfec_GetFecPackets fresh this = Ok (this', []) /\ ulpfec_generator_ this' = ulpfec_generator_ this /\ flex_ok this' /\
    fx_media_ssrc_ this' = fx_media_ssrc_ this /\ forall rs fecs, sends_flexfec this' rs fecs -> sends_flexfec this rs fecs.
Proof.
  intros Hok Hnil. unfold Flexfec_GetFecPackets, generated. rewrite Hnil. cbn [foldr]. rewrite bind_Ok. cbn [fecs_to_flexfec]. rewrite bind_Ok.
  eexists. split; [ done |]. split_and!; try done; [ destruct Hok; by split |].
  intros rs fecs [Hl Hall]. split; [ done |]. intros i t fec Ht Hf. destruct (Hall i t fec Ht Hf). by split.
Qed.
End Spec.

(** ** Blocks *)

Section Blocks.
Context `{CheckMode} (ssrc media_ssrc : Z) (Hmedia : 0 <= media_ssrc < 2 ^ 32).
Context (fresh : nat -> list Z) (Hfresh : fresh_ok fresh).

#[local] Existing Instance Flexfec03.Flexfec03HeaderWriter.

(** Between two packets. *)
Record flexfec_at (this : FlexfecSender) (s : Blocker) : Prop := {
  fa_generates : generates (ulpfec_generator_ this) s;
  fa_none : generated_fec_packets_ (ulpfec_generator_ this) = [];
  fa_ok : flex_ok this;
  fa_source : fx_media_ssrc_ this = media_ssrc
}.

Lemma flexfec_step this s t k v garbage :
  flexfec_at this s -> blocker_ok s -> holds k (rtp t) v -> v_padding v = 0 -> v_ssrc v = media_ssrc ->
  media_block media_ssrc (bl_packets (bl_store (bl_apply s) v (is_key_frame_ t))) -> buffer 288 garbage ->
  exists this1 this' rs, Flexfec_AddPacketAndGenerateFec this t garbage = Ok this1 /\
    Flexfec_GetFecPackets fresh this1 = Ok (this', rs) /\ flexfec_at this' (bl_step s v (is_key_frame_ t)).1 /\
    match (bl_step s v (is_key_frame_ t)).2 with
    | None => rs = [] /\ forall (last : Pkt) rs fecs, sends_flexfec this' rs fecs -> sends_flexfec this rs fecs
    | Some (ps, params) => exists last ret fecs fec', list.last ps = Some last /\
        EncodeFec_upstream (fec_ (ulpfec_generator_ this)) (map wire ps) (fec_rate params) 0 false (fec_mask_type params) garbage
          = Ok (ret, fecs, fec') /\
        sends_flexfec this rs fecs
    end.
Proof.
  intros [Hg Hgen Hok Hsrc] Hs Ht Hpad Hss Hps Hbuf. unfold Flexfec_AddPacketAndGenerateFec.
  assert (Hv : Ssrc (rtp t) = fx_media_ssrc_ this) by (unfold Ssrc; rewrite (ho_fields _ _ _ Ht); cbn; congruence).
  rewrite RTC_DCHECK_Ok, bind_Ok by (by apply Z.eqb_eq).
  destruct (@generator_add _ _ _ ssrc media_ssrc (Flexfec03.FlexfecLaws ssrc media_ssrc Hmedia) eq_refl
    (ulpfec_generator_ this) s t k v garbage Hg Hs Hgen Ht Hpad Hps Hbuf) as (g1 & -> & Hout). rewrite bind_Ok.
  assert (Hok1 : flex_ok (with_generator g1 this)) by (destruct Hok; by split).
  assert (Hback : forall rs fecs, sends_flexfec (with_generator g1 this) rs fecs -> sends_flexfec this rs fecs).
  { intros rs fecs [Hl Hall]. split; [ done |]. intros i t' fec Ht' Hf. destruct (Hall i t' fec Ht' Hf). by split. }
  destruct (bl_step s v (is_key_frame_ t)) as [s1 closed]. cbn [fst snd] in *. destruct closed as [[ps params] |].
  - destruct Hout as (last & ret & fecs & fec' & Hlast & Henc & Hb & Hhas & _ & ->).
    destruct (Flexfec_GetFecPackets_Ok fresh Hfresh (with_generator g1 this) _ fecs Hok1 Hhas Hb) as (this' & rs & Hget & Hrs & Hg' & Hnil & Hok' & Hsrc').
    exists (with_generator g1 this), this', rs. split_and!; [ done | done | split; rewrite ?Hsrc'; done |].
    exists last, ret, fecs, fec'. split_and!; [ done | done | by apply Hback ].
  - destruct Hout as [Hg1 Hnil].
    destruct (Flexfec_GetFecPackets_none fresh (with_generator g1 this) Hok1 Hnil) as (this' & Hget & Eg & Hok' & Hsrc' & Hsame).
    exists (with_generator g1 this), this', []. split_and!; [ done | done | split; rewrite ?Eg, ?Hsrc'; done | done |].
    intros last rs fecs Hrs. by apply Hback, Hsame.
Qed.

#[export] Instance FlexfecBlocks : BlockGenerator (VideoFecGenerator0 := FlexfecVideoFecGenerator fresh) FlexfecSender media_ssrc := {
  bg_state := flexfec_at;
  bg_masks := fun this => fec_ (ulpfec_generator_ this);
  bg_sent := fun this _ rs fecs => sends_flexfec this rs fecs;
  bg_buffers := fun this s Hg => ge_fec _ _ (fa_generates _ _ Hg);
  bg_step := flexfec_step
}.

End Blocks.

(** ** A new sender *)

Section New.
Context `{CheckMode}.

Lemma RegisterSupportedExtensions_Ok exts : forall m,
  map_ok m -> exists m', RegisterSupportedExtensions m exts = Ok m' /\ map_ok m' /\ extmap_allow_mixed_ m' = extmap_allow_mixed_ m.
Proof.
  induction exts as [| [id uri] exts IH ]; intros m Hm; cbn [RegisterSupportedExtensions]; [ by exists m |].
  assert (Hstep : forall o : outcome (ExtensionMap * bool),
    (exists m' b, o = Ok (m', b) /\ map_ok m' /\ extmap_allow_mixed_ m' = extmap_allow_mixed_ m) ->
    exists m', ('(m, _) ← o; RegisterSupportedExtensions m exts) = Ok m' /\ map_ok m' /\ extmap_allow_mixed_ m' = extmap_allow_mixed_ m).
  { intros o (m1 & b & -> & Hm1 & E1). rewrite bind_Ok. destruct (IH m1 Hm1) as (m' & ? & ? & ?). exists m'. split_and!; (done || congruence). }
  assert (Hreg : forall t, t <> kRtpExtensionNone -> exists m' b, Register m id t = Ok (m', b) /\ map_ok m' /\ extmap_allow_mixed_ m' = extmap_allow_mixed_ m).
  { intros t Ht. destruct (Register_Ok m id t Hm Ht) as (m' & b & ? & ? & ? & _). by exists m', b. }
  apply Hstep. repeat (destruct (decide _); [ by apply Hreg |]). by exists m, false.
Qed.

Lemma sum_extensions_Ok exts m : map_ok m -> Forall (fun e => e.1 <> kRtpExtensionNone) exts -> forall a b c,
  exists r, sum_extensions exts m a b c = Ok r.
Proof.
  intros Hm. induction 1 as [| [t n] exts Ht _ IH ]; intros a b c; cbn [sum_extensions]; [ by eexists |].
  rewrite GetId_Ok, bind_Ok by done. destruct (_ =? _); apply IH.
Qed.

Lemma RtpHeaderExtensionSize_Ok exts m :
  map_ok m -> Forall (fun e => e.1 <> kRtpExtensionNone) exts -> exists n, RtpHeaderExtensionSize exts m = Ok n.
Proof.
  intros Hm He. unfold RtpHeaderExtensionSize. destruct (sum_extensions_Ok exts m Hm He 0 0 1) as ([[a b] c] & ->). rewrite bind_Ok.
  destruct (a =? 0); by eexists.
Qed.

(** A new sender protects nothing until it is given a rate. *)
Definition new_blocker : Blocker := mkBlocker [] 0 false 1 default_params None.

Lemma FlexfecSender_new_Ok payload_type ssrc media_ssrc mid exts sizes state seq offset fec time_in_ms current_time :
  0 <= payload_type < 128 -> 0 <= ssrc < 2 ^ 32 -> Forall is_byte mid -> Forall (fun e => e.1 <> kRtpExtensionNone) sizes ->
  0 <= (default (seq, offset) state).1 < 2 ^ 16 -> buffers_ok fec ->
  exists this, FlexfecSender_new payload_type ssrc media_ssrc mid exts sizes state seq offset fec time_in_ms current_time = Ok this /\
    flexfec_at media_ssrc this new_blocker /\ fx_ssrc_ this = ssrc /\ Flexfec_GetRtpState this = default (seq, offset) state /\
    RtpHeaderExtensionSize sizes (rtp_header_extension_map_ this) = Ok (header_extensions_size_ this).
Proof.
  intros Ht Hs Hmid Hsizes Hq Hfec. unfold FlexfecSender_new.
  destruct (RegisterSupportedExtensions_Ok exts _ (new_map_ok false)) as (m & -> & Hm & Em). rewrite bind_Ok.
  destruct (RtpHeaderExtensionSize_Ok sizes m Hm Hsizes) as (n & En). rewrite En, bind_Ok, !RTC_DCHECK_Ok, !bind_Ok by (apply Z.leb_le; lia).
  eexists. split; [ done |]. split; [| split_and!; by destruct state as [[? ?] |] ].
  by split.
Qed.

(** New rates come into force with the next packet. *)
Definition with_pending (delta_params key_params : FecProtectionParams) (s : Blocker) : Blocker :=
  mkBlocker (bl_packets s) (bl_frames s) (bl_key s) (bl_min s) (bl_params s) (Some (mkParams delta_params key_params)).

Lemma with_pending_ok d k s : fec_params_ok d -> fec_params_ok k -> blocker_ok s -> blocker_ok (with_pending d k s).
Proof. intros Hd Hk [H1 H2 H3 H4]. split; try done. by intros p [= <-]. Qed.

Lemma Flexfec_SetProtectionParameters_Ok media_ssrc this s d k :
  fec_params_ok d -> fec_params_ok k -> flexfec_at media_ssrc this s ->
  exists g, Flexfec_SetProtectionParameters this d k = Ok (with_generator g this) /\
    flexfec_at media_ssrc (with_generator g this) (with_pending d k s).
Proof.
  intros [Hd _] [Hk _] [Hg Hn Hok Hsrc]. unfold Flexfec_SetProtectionParameters, SetProtectionParameters.
  rewrite !RTC_DCHECK_Ok, !bind_Ok by (apply Z.leb_le; lia). eexists. split; [ done |]. split; [ | done | destruct Hok; by split | done ].
  destruct Hg. by split.
Qed.
End New.

(** ** Overhead *)

(** An extension block is no larger than announced. *)
Lemma round_up a b : 0 <= a <= b -> 4 + 4 * words a <= 4 + b + 3 - (4 + b + 3) mod 4.
Proof.
  intros Hab. unfold words. pose proof (Z.div_mod (4 + b + 3) 4). pose proof (Z.div_le_mono (a + 3) (b + 3) 4).
  replace (4 + b + 3) with (b + 3 + 1 * 4) in * by lia. rewrite Z.div_add in * by lia. lia.
Qed.

(** Every extension of a packet is among those announced, and no larger. *)
Lemma sum_extensions_bound `{CheckMode} m exts : forall a b c r,
  sum_extensions exts m a b c = Ok r -> map_ok m -> Forall (fun e => e.1 <> kRtpExtensionNone) exts -> 1 <= c -> 
  r.1.1 = a + foldr Z.add 0 (map (fun e => if id_of m e.1 =? kInvalidId then 0 else e.2) exts) /\
  r.1.2 = b + foldr Z.add 0 (map (fun e => if id_of m e.1 =? kInvalidId then 0 else 1) exts) /\ 1 <= r.2.
Proof.
  induction exts as [| [t n] exts IH ]; intros a b c r Hrun Hm He Hc; cbn [sum_extensions map foldr] in *.
  { injection Hrun as <-. cbn. lia. }
  apply Forall_cons_1 in He as [Ht He]. rewrite GetId_Ok, bind_Ok in Hrun by done. cbn [fst snd] in *.
  destruct (id_of m t =? kInvalidId).
  - destruct (IH _ _ _ _ Hrun Hm He Hc) as (-> & -> & ?). lia.
  - destruct (IH _ _ _ _ Hrun Hm He) as (-> & -> & ?); [ destruct (_ || _); lia |]. lia.
Qed.

Lemma exts_of_length m es :
  zlen (exts_bytes false (exts_of m es)) = foldr Z.add 0 (map (fun e => if usable m e then 1 + zlen e.2 else 0) es).
Proof.
  induction es as [| e es IH ]; [ done |]. unfold exts_of in *. cbn [List.filter map foldr]. destruct (usable m e); [| by rewrite IH ].
  cbn [map]. rewrite exts_bytes_cons, length_app, Nat2Z.inj_add, length_ext_bytes, IH. done.
Qed.

Lemma usable_bound m t val n :
  (zlen val <= 16 -> zlen val <= n) -> 0 <= n ->
  (if usable m (t, val) then 1 + zlen val else 0) <=
    (if id_of m t =? kInvalidId then 0 else 1) + (if id_of m t =? kInvalidId then 0 else n).
Proof.
  intros Hn H0. unfold usable, needs_wide. cbn [fst snd]. destruct (id_of m t =? kInvalidId); [ done |]. cbn [negb andb].
  destruct (14 <? _); [ cbn; lia |]. cbn [orb]. destruct (Z.ltb_spec 16 (zlen val)); cbn [negb]; lia.
Qed.

Lemma flexfec_exts_size `{CheckMode} m mid n :
  map_ok m -> RtpHeaderExtensionSize kFecOrPaddingExtensionSizes m = Ok n ->
  zlen (ext_block false (exts_of m (flexfec_values mid))) <= n.
Proof.
  intros Hm Hrun. unfold RtpHeaderExtensionSize in Hrun. apply bind_Ok_inv in Hrun as ([[a b] c] & Hsum & Hrun).
  apply sum_extensions_bound in Hsum as (Ha & Hb & Hc); [| done | repeat constructor; done | lia ]. cbn [fst snd] in Ha, Hb, Hc.
  set (size := zlen (exts_bytes false (exts_of m (flexfec_values mid)))).
  assert (Hle : size <= b + a /\ 0 <= b <= a).
  { split; [| subst a b; cbn [kFecOrPaddingExtensionSizes map foldr fst snd]; repeat case_match; lia ].
    pose proof (usable_bound m kRtpExtensionAbsoluteSendTime [0; 0; 0] 3 ltac:(done) ltac:(lia)).
    pose proof (usable_bound m kRtpExtensionTransmissionTimeOffset [0; 0; 0] 3 ltac:(done) ltac:(lia)).
    pose proof (usable_bound m kRtpExtensionTransportSequenceNumber [0; 0] 2 ltac:(done) ltac:(lia)).
    pose proof (usable_bound m kRtpExtensionMid mid 16 ltac:(done) ltac:(lia)).
    unfold size. rewrite exts_of_length. subst a b. unfold flexfec_values. cbn [kFecOrPaddingExtensionSizes map foldr fst snd app].
    destruct (id_of m kRtpExtensionPlayoutDelay =? _), (id_of m kRtpExtensionVideoTiming =? _), (id_of m kRtpExtensionMid =? _), mid; cbn [map foldr fst snd]; lia. }
  rewrite length_ext_block. fold size. assert (Hs0 : 0 <= size) by (unfold size; lia). destruct (Z.eqb_spec a 0) as [E |].
  - injection Hrun as <-. assert (Hnone : exts_of m (flexfec_values mid) = []); [| by rewrite Hnone ].
    destruct (exts_of m (flexfec_values mid)) as [| e es ] eqn:Ee; [ done | exfalso ].
    unfold size in Hle. rewrite exts_bytes_cons, length_app, Nat2Z.inj_add, length_ext_bytes in Hle. cbn [ext_header] in Hle. lia.
  - injection Hrun as <-. assert (b <= c * b) by nia. pose proof (round_up size (c * b + a) ltac:(lia)) as Hr.
    replace (4 + c * b + a) with (4 + (c * b + a)) by lia. pose proof (words_bounds size Hs0). destruct (exts_of m (flexfec_values mid)); lia.
Qed.

(** The size of a FlexFEC packet. *)
Lemma flexfec_pkt_size this i fec :
  zlen (wire (flexfec_pkt this i fec)) =
    12 + zlen (ext_block false (exts_of (rtp_header_extension_map_ this) (flexfec_values (mid_ this)))) + zlen fec.
Proof. rewrite length_wire, length_header by done. cbn [flexfec_pkt v_csrcs v_wide v_exts v_payload v_padding length]. lia. Qed.
