(* ===== verification/FlexfecReceiver.v ===== *)
(** * The FlexFEC receiver

    [class FlexfecReceiver] of [modules/rtp_rtcp/source/flexfec_receiver.cc]:
    media packets and FlexFEC packets, told apart by their source, go to the
    FEC decoder; packets that it rebuilds are handed to [OnRecoveredPacket].

    The calls of [OnRecoveredPacket] are collected in the order they are made;
    the time of the last log line is left out. *)
From S2P Require Import Prelude.
From S2P Require Import RtpFecCodec.
From S2P Require Import RtpFecAlgebra.
From S2P Require Import RtpFecDecoder.
From S2P Require Import ExtensionMap.
From S2P Require Import RtpPacket.
From S2P Require Import RedPackets.
From S2P Require Import UlpfecReceiver.
From stdpp Require Import base list list_numbers numbers option tactics.
From Stdlib Require Import ZArith Lia.

#[local] Open Scope Z_scope.

Definition kMinFlexfecHeaderSize : Z := 20.

Record FlexfecReceiver : Type := mkFlexReceiver {
  fxr_ssrc_ : Z;
  fxr_media_ssrc_ : Z;
  erasure_code_ : FecDecoder;
  fxr_recovered_packets_ : list RecoveredPacket;
  fxr_counter_ : FecPacketCounter
}.

Definition FlexfecReceiver_new (ssrc protected_media_ssrc : Z) : FlexfecReceiver :=
  mkFlexReceiver ssrc protected_media_ssrc (mkDecoder ssrc protected_media_ssrc []) [] (mkCounter 0 0 0 0 MinusInfinity).

Section Receiver.
Context `{CheckMode} `{FecHeaderReader} (fresh : nat -> list Z).

(** [AddReceivedPacket]; [None] is the null pointer. *)
Definition AddReceivedPacket (this : FlexfecReceiver) (packet : RtpPacketReceived)
    : outcome (FlexfecReceiver * option RedReceivedPacket) :=
  let p := rx packet in
  RTC_DCHECK (kRtpHeaderSize <=? packet_size p);;
  let c := fxr_counter_ this in
  let added (num_fec : Z) (is_fec : bool) (data : list Z) :=
    (mkFlexReceiver (fxr_ssrc_ this) (fxr_media_ssrc_ this) (erasure_code_ this) (fxr_recovered_packets_ this)
       (mkCounter (u64 (num_packets c + 1)) (num_bytes c) num_fec (num_recovered_packets c) (first_packet_time c)),
     Some (mkRed (mkReceived (Ssrc p) (SequenceNumber p) is_fec data) false (extensions_ p))) in
  if Ssrc p =? fxr_ssrc_ this then
    if payload_size p <? kMinFlexfecHeaderSize then Ok (this, None)
    else
      data ← slice (Buffer p) (headers_size p) (payload_size p);
      Ok (added (u64 (num_fec_packets c + 1)) true data)
  else if negb (Ssrc p =? fxr_media_ssrc_ this) then Ok (this, None)
  else
    packet_copy ← ZeroMutableExtensions (copy_packet fresh p);
    Ok (added (num_fec_packets c) false (Buffer packet_copy)).

(** The loop of [ProcessReceivedPacket]: the list with its [returned] flags set,
    how many it counted, and the calls. *)
Fixpoint return_recovered (m : ExtensionMap) (recovered_packets : list RecoveredPacket)
    : outcome (list RecoveredPacket * Z * list RtpPacketReceived) :=
  match recovered_packets with
  | [] => Ok ([], 0, [])
  | r :: rest =>
      if returned r then '(rest, n, calls) ← return_recovered m rest; Ok (r :: rest, n, calls)
      else
        RTC_CHECK (kRtpHeaderSize <=? Z.of_nat (length (rc_pkt r)));;
        parsed_packet ← RtpPacket_new fresh m kDefaultPacketSize;
        '(parsed_packet, ok) ← Parse fresh parsed_packet (mkCow (rc_pkt r) (Z.of_nat (length (rc_pkt r))));
        '(rest, n, calls) ← return_recovered m rest;
        let r := mkRecovered (was_recovered r) true (rc_ssrc r) (rc_seq_num r) (rc_pkt r) in
        Ok (r :: rest, n + 1, if (ok : bool) then mkRx parsed_packet true :: calls else calls)
  end.

Definition ProcessReceivedPacket (this : FlexfecReceiver) (received_packet : RedReceivedPacket)
    : outcome (FlexfecReceiver * list RtpPacketReceived) :=
  '(decoder, recovered, num_recovered_packets_) ← DecodeFec (erasure_code_ this) (red_packet received_packet) (fxr_recovered_packets_ this);
  let c := fxr_counter_ this in
  if num_recovered_packets_ =? 0 then
    Ok (mkFlexReceiver (fxr_ssrc_ this) (fxr_media_ssrc_ this) decoder recovered c, [])
  else
    '(recovered, n, calls) ← return_recovered (red_extensions received_packet) recovered;
    Ok (mkFlexReceiver (fxr_ssrc_ this) (fxr_media_ssrc_ this) decoder recovered
          (mkCounter (num_packets c) (num_bytes c) (num_fec_packets c) (u64 (num_recovered_packets c + n)) (first_packet_time c)),
        calls).

Definition OnRtpPacket (this : FlexfecReceiver) (packet : RtpPacketReceived) : outcome (FlexfecReceiver * list RtpPacketReceived) :=
  if recovered_ packet then Ok (this, [])
  else
    '(this, received_packet) ← AddReceivedPacket this packet;
    match received_packet with
    | None => Ok (this, [])
    | Some received_packet => ProcessReceivedPacket this received_packet
    end.

(** Packets one after the other. *)
Fixpoint on_packets (this : FlexfecReceiver) (packets : list RtpPacketReceived) : outcome (FlexfecReceiver * list RtpPacketReceived) :=
  match packets with
  | [] => Ok (this, [])
  | packet :: rest =>
      '(this, calls) ← OnRtpPacket this packet;
      '(this, more) ← on_packets this rest;
      Ok (this, calls ++ more)
  end.

End Receiver.
