(* ===== verification/FlexfecReceiverSpec.v ===== *)
(** * What the FlexFEC receiver hands on

    The receiver on the packets of one block and of their FEC packets, among
    packets that are none of its business: after every packet the packets that
    arrived and those handed to the callback are together exactly those that
    can be derived from what arrived. *)
From S2P Require Import Prelude.
From S2P Require Import RtpFecCodec.
From S2P Require Import RtpFecAlgebra.
From S2P Require Import RtpFecDecoder.
From S2P Require Import RtpFecSound.
From S2P Require Import RtpFecComplete.
From S2P Require Import ExtensionMap.
From S2P Require Import RtpPacket.
From S2P Require Import RtpPacketWire.
From S2P Require Import RtpPacketBuild.
From S2P Require Import RtpPacketExt.
From S2P Require Import RtpPacketOps.
From S2P Require Import RedPackets.
From S2P Require Import UlpfecReceiver.
From S2P Require Import UlpfecReceiverSpec.
From S2P Require Import FlexfecReceiver.
From stdpp Require Import base list list_numbers numbers option tactics.
From Stdlib Require Import ZArith Lia.

#[local] Open Scope Z_scope.

Section Run.
Context `{CheckMode} `{FecHeaderReader} (fresh : nat -> list Z) (Hfresh : fresh_ok fresh).
Context (ssrc media_ssrc : Z) (Hdiff : ssrc <> media_ssrc) (m : ExtensionMap) (Hmap : map_ok m).

(** What of a packet that arrives matters to the decoder, if anything. *)
Definition decoded_as (w : Pkt) : option ReceivedPacket :=
  if v_ssrc w =? ssrc then
    if zlen (v_payload w) <? 20 then None else Some (mkReceived ssrc (v_seq w) true (v_payload w))
  else if v_ssrc w =? media_ssrc then Some (mkReceived media_ssrc (v_seq w) false (wire (zero_mutable m w)))
  else None.
Definition arrives_as_flexfec (q : RtpPacketReceived) (o : option ReceivedPacket) : Prop :=
  extensions_ (rx q) = m /\ exists k w, holds k (rx q) w /\ o = if recovered_ q then None else decoded_as w.

Lemma AddReceivedPacket_Ok this q k w :
  fxr_ssrc_ this = ssrc -> fxr_media_ssrc_ this = media_ssrc -> holds k (rx q) w -> extensions_ (rx q) = m ->
  exists c, AddReceivedPacket fresh this q = Ok
    (mkFlexReceiver ssrc media_ssrc (erasure_code_ this) (fxr_recovered_packets_ this) c,
     (fun r => mkRed r false m) <$> decoded_as w).
Proof.
  intros Hs Hm Hq Em. pose proof (ho_fields _ _ _ Hq) as Hf. pose proof (po_padding _ (ho_ok _ _ _ Hq)) as Hpad.
  pose proof (length_header w) as Hlh. unfold AddReceivedPacket. cbv zeta.
  assert (Hsize : 12 <= packet_size (rx q)) by (unfold packet_size, headers_size, payload_size, padding_size; rewrite Hf; cbn; lia).
  assert (Hfields : Ssrc (rx q) = v_ssrc w /\ payload_size (rx q) = zlen (v_payload w) /\ SequenceNumber (rx q) = v_seq w /\
    headers_size (rx q) = zlen (header w)).
  { unfold Ssrc, payload_size, SequenceNumber, headers_size. by rewrite Hf. }
  destruct Hfields as (-> & -> & -> & ->). rewrite RTC_DCHECK_Ok, bind_Ok by (by apply Z.leb_le). unfold decoded_as, kMinFlexfecHeaderSize. rewrite Hs, Hm.
  assert (Hthis : forall c, c = fxr_counter_ this -> this = mkFlexReceiver ssrc media_ssrc (erasure_code_ this) (fxr_recovered_packets_ this) c)
    by (intros c ->; subst; by destruct this).
  destruct (Z.eqb_spec (v_ssrc w) ssrc) as [-> |].
  - destruct (_ <? 20); [ by eexists; rewrite <- (Hthis _ eq_refl) |]. rewrite (holds_buffer _ _ _ Hq). unfold wire.
    rewrite slice_mid, bind_Ok, Em by done. by eexists.
  - destruct (Z.eqb_spec (v_ssrc w) media_ssrc) as [-> |]; cbn [negb]; [| by eexists; rewrite <- (Hthis _ eq_refl) ].
    destruct (copy_packet_Ok fresh Hfresh k (rx q) w Hq) as [Hc [Ec _]]. rewrite Em in Ec.
    destruct (ZeroMutableExtensions_Ok k _ w Hc) as (z & -> & Hz & _); [ by rewrite Ec |].
    rewrite bind_Ok, (holds_buffer _ _ _ Hz), Ec, Em. by eexists.
Qed.

(** The loop that returns packets. *)
Lemma return_recovered_Ok rec :
  Forall (fun x => exists v, pkt_ok v /\ rc_pkt x = wire v /\ zero_mutable m v = v) rec ->
  exists n calls, return_recovered fresh m rec = Ok (map set_returned rec, n, calls) /\
    (forall x, x ∈ rec -> returned x = false -> handed m (rc_pkt x) calls) /\
    (forall c, c ∈ calls -> recovered_ c = true /\ exists x, x ∈ rec /\ hands m c (rc_pkt x)).
Proof.
  induction 1 as [| x rec (v & Hv & Hx & Hz) _ (n & calls & Hrun & Hback & Hcalls) ].
  { exists 0, []. split_and!; [ done | by intros ? ?%not_elem_of_nil | by intros ? ?%not_elem_of_nil ]. }
  cbn [return_recovered map]. rewrite Hrun. destruct (returned x) eqn:Er.
  - rewrite bind_Ok. exists n, calls. split_and!.
    + do 4 f_equal. destruct x. cbn in Er. by subst.
    + intros y [-> | Hy]%elem_of_cons Hf; [ congruence | by apply Hback ].
    + intros c Hc. destruct (Hcalls c Hc) as (Hr & y & Hy & Hrest). split; [ done |]. exists y. split; [ by right | done ].
  - assert (Hl : 12 <= zlen (rc_pkt x)).
    { rewrite Hx, length_wire, length_header by (apply (po_padding _ Hv)). pose proof (po_padding _ Hv). lia. }
    rewrite RTC_CHECK_Ok, bind_Ok by (by apply Z.leb_le).
    destruct (parse_wire fresh Hfresh m v Hv) as (p0 & p & -> & Hparse & Hp & Em). rewrite bind_Ok, Hx, Hparse, !bind_Ok. rewrite <- Hx.
    assert (Hh : hands m (mkRx p true) (rc_pkt x)) by (exists v; rewrite Hz; split_and!; (done || by symmetry)).
    exists (n + 1), (mkRx p true :: calls). split_and!; [ done | |].
    + intros y [-> | Hy]%elem_of_cons Hf; [ exists (mkRx p true); split; [ left | done ] |].
      apply (handed_app m _ [_] calls). right. by apply Hback.
    + intros c [-> | Hc]%elem_of_cons; [ split; [ done |]; exists x; split; [ left | done ] |].
      destruct (Hcalls c Hc) as (Hr & y & Hy & Hrest). split; [ done |]. exists y. split; [ by right | done ].
Qed.

(** ** The decoder and the callback together *)

Context (sent : list Z -> Prop) (base W fbase V : Z) (cov : Z -> list (list Z)).
Context (Hwin : block_window ssrc media_ssrc sent base W fbase V).
Context (Hsent : forall bytes, sent bytes -> exists v, pkt_ok v /\ bytes = wire v /\ zero_mutable m v = v).

(** The media packet [bytes] is among [seen]. *)
Definition received_media (seen : list ReceivedPacket) (bytes : list Z) : Prop :=
  exists r, r ∈ seen /\ rp_is_fec r = false /\ rp_pkt r = bytes.

(** After the packets [seen], last one first, and the calls [calls]. *)
Record flexfec_serves (this : FlexfecReceiver) (calls : list RtpPacketReceived) (seen : list ReceivedPacket) : Prop := {
  fs_setup : fxr_ssrc_ this = ssrc /\ fxr_media_ssrc_ this = media_ssrc;
  fs_tracks : tracks ssrc media_ssrc sent base fbase V cov seen (erasure_code_ this) (fxr_recovered_packets_ this);
  fs_returned : Forall (fun x => returned x = true) (fxr_recovered_packets_ this);
  fs_known : forall x, x ∈ fxr_recovered_packets_ this -> received_media seen (rc_pkt x) \/ handed m (rc_pkt x) calls;
  fs_calls : forall c, c ∈ calls -> recovered_ c = true /\ exists bytes, hands m c bytes /\ derivable cov seen bytes
}.

Lemma ProcessReceivedPacket_Ok this calls seen r :
  flexfec_serves this calls seen -> of_block ssrc media_ssrc sent cov fbase V r ->
  exists this' calls', ProcessReceivedPacket fresh this (mkRed r false m) = Ok (this', calls') /\
    flexfec_serves this' (calls ++ calls') (r :: seen).
Proof.
  intros [[Hs Hm] Htr Hret Hknown Hcalls] Hr. unfold ProcessReceivedPacket. cbn [red_packet red_extensions].
  destruct (tracks_step ssrc media_ssrc sent base W fbase V cov Hwin seen _ _ r Htr Hr) as (dec' & rec' & n & Hdec & Htr'). rewrite Hdec, bind_Ok.
  destruct (DecodeFec_flags _ _ _ _ _ _ Hdec) as [Hn Hflags].
  assert (Hmono : forall bytes, derivable cov seen bytes -> derivable cov (r :: seen) bytes)
    by (intros bytes; apply derivable_mono; intros y Hy; by right).
  assert (Hold : forall x, x ∈ rec' -> returned x = true -> received_media (r :: seen) (rc_pkt x) \/ handed m (rc_pkt x) calls).
  { intros x Hx Hrx. destruct (Hflags x Hx) as [Ho | [(Hf & -> & _) | (_ & _ & ?)]]; [| left; exists r; split; [ left | done ] | congruence ].
    destruct (Hknown x Ho) as [(y & Hy & Hyr) | ?]; [ left; exists y; split; [ by right | done ] | by right ]. }
  assert (Hcalls' : forall c, c ∈ calls -> recovered_ c = true /\ exists bytes, hands m c bytes /\ derivable cov (r :: seen) bytes).
  { intros c Hc. destruct (Hcalls c Hc) as (Hrec & bytes & Hb & Hd). split; [ done |]. exists bytes. auto. }
  destruct (Z.eqb_spec n 0) as [-> | Hne].
  - eexists _, []. split; [ done |]. rewrite app_nil_r.
    assert (Hall : Forall (fun x => returned x = true) rec').
    { apply list.Forall_forall. intros x Hx. destruct (Hflags x Hx) as [Ho | [(_ & _ & _ & ?) | (? & _)]]; [| done | lia ].
      exact (proj1 (list.Forall_forall _ _) Hret x Ho). }
    split; cbn; try done. intros x Hx. apply Hold; [ done |]. exact (proj1 (list.Forall_forall _ _) Hall x Hx).
  - assert (Hwf : Forall (fun x => exists v, pkt_ok v /\ rc_pkt x = wire v /\ zero_mutable m v = v) rec').
    { eapply list.Forall_impl; [ exact (ok_recovered _ _ _ _ _ (tr_decoder _ _ _ _ _ _ _ _ _ _ Htr')) |]. intros x (Hx & _). by apply Hsent. }
    destruct (return_recovered_Ok rec' Hwf) as (k & calls1 & -> & Hback & Hcalls1). rewrite bind_Ok.
    eexists _, calls1. split; [ done |]. split; cbn [fxr_ssrc_ fxr_media_ssrc_ erasure_code_ fxr_recovered_packets_].
    + done.
    + eapply tracks_flags; [| exact Htr' ]. clear. induction rec'; constructor; done.
    + apply Forall_map, Forall_true. done.
    + intros y (x & -> & Hx)%list_elem_of_fmap. cbn [set_returned rc_pkt]. destruct (returned x) eqn:Er.
      * destruct (Hold x Hx Er) as [? | ?]; [ by left | right; apply handed_app; by left ].
      * right. apply handed_app. right. by apply Hback.
    + intros c [Hc | Hc]%elem_of_app; [ by apply Hcalls' |]. destruct (Hcalls1 c Hc) as (Hrec & x & Hx & Hh). split; [ done |].
      exists (rc_pkt x). split; [ done |]. apply (tracks_exact ssrc media_ssrc sent base W fbase V cov Hwin _ _ _ _ Htr'). by apply list_elem_of_fmap_2.
Qed.

Definition of_block_if (o : option ReceivedPacket) : Prop :=
  match o with Some r => of_block ssrc media_ssrc sent cov fbase V r | None => True end.

Lemma OnRtpPacket_Ok this calls seen q o :
  flexfec_serves this calls seen -> arrives_as_flexfec q o -> of_block_if o ->
  exists this' calls', OnRtpPacket fresh this q = Ok (this', calls') /\
    flexfec_serves this' (calls ++ calls') (option_list o ++ seen).
Proof.
  intros Hsv (Em & k & w & Hq & ->) Hr. pose proof (fs_setup _ _ _ Hsv) as [Hs Hm]. unfold OnRtpPacket.
  destruct (recovered_ q); [ exists this, []; by rewrite app_nil_r |].
  destruct (AddReceivedPacket_Ok this q k w Hs Hm Hq Em) as (c & ->). rewrite bind_Ok.
  set (this1 := mkFlexReceiver _ _ _ _ _). assert (Hsv1 : flexfec_serves this1 calls seen) by (destruct Hsv; by split).
  destruct (decoded_as w) as [r |]; cbn [fmap option_fmap option_map]; [ by apply ProcessReceivedPacket_Ok |].
  exists this1, []. by rewrite app_nil_r.
Qed.

Lemma on_packets_Ok qs os : Forall2 arrives_as_flexfec qs os -> forall this calls seen,
  Forall of_block_if os -> flexfec_serves this calls seen ->
  exists this' calls', on_packets fresh this qs = Ok (this', calls') /\
    flexfec_serves this' (calls ++ calls') (rev (omap id os) ++ seen).
Proof.
  induction 1 as [| q o qs os Hq _ IH ]; intros this calls seen Hos Hsv; cbn [on_packets].
  { exists this, []. by rewrite app_nil_r. }
  apply Forall_cons_1 in Hos as [Ho Hos]. destruct (OnRtpPacket_Ok this calls seen q o Hsv Hq Ho) as (this1 & calls1 & -> & Hsv1). rewrite bind_Ok.
  destruct (IH this1 (calls ++ calls1) _ Hos Hsv1) as (this2 & calls2 & -> & Hsv2). rewrite bind_Ok.
  exists this2, (calls1 ++ calls2). split; [ done |]. rewrite app_assoc. destruct o as [r |]; [| done ].
  change (omap id (Some r :: os)) with (r :: omap id os). cbn [rev]. rewrite <- (app_assoc (rev _)). exact Hsv2.
Qed.

Lemma flexfec_exact this calls seen bytes :
  flexfec_serves this calls seen -> derivable cov seen bytes <-> received_media seen bytes \/ handed m bytes calls.
Proof.
  intros [_ Htr _ Hknown Hcalls]. split.
  - intros Hd. apply (tracks_exact ssrc media_ssrc sent base W fbase V cov Hwin _ _ _ _ Htr) in Hd as (x & -> & Hx)%list_elem_of_fmap. by apply Hknown.
  - intros [(r & Hr & Hf & <-) | (c & Hin & Hb)]; [ by apply derive_received |].
    destruct (Hcalls c Hin) as (_ & bytes' & Hb' & Hd). by rewrite (hands_unique m Hmap c bytes bytes' Hb Hb').
Qed.

Lemma flexfec_serves_sent this calls seen c :
  flexfec_serves this calls seen -> c ∈ calls -> recovered_ c = true /\ exists bytes, hands m c bytes /\ sent bytes.
Proof.
  intros [_ Htr _ _ Hcalls] Hin. destruct (Hcalls c Hin) as (Hrec & bytes & Hb & Hd). split; [ done |]. exists bytes. split; [ done |].
  apply (tracks_exact ssrc media_ssrc sent base W fbase V cov Hwin _ _ _ _ Htr) in Hd as (x & -> & Hx)%list_elem_of_fmap.
  by apply (proj1 (list.Forall_forall _ _) (ok_recovered _ _ _ _ _ (tr_decoder _ _ _ _ _ _ _ _ _ _ Htr)) x Hx).
Qed.

Lemma flexfec_serves_new : flexfec_serves (FlexfecReceiver_new ssrc media_ssrc) [] [].
Proof.
  split; cbn [fxr_ssrc_ fxr_media_ssrc_ erasure_code_ fxr_recovered_packets_ FlexfecReceiver_new]; try done; try by intros ? ?%not_elem_of_nil.
  by apply (tracks_new ssrc media_ssrc sent base W fbase V cov).
Qed.

End Run.
