(* ===== verification/FlexfecReceiverSafe.v ===== *)
(** * The FlexFEC receiver on arbitrary packets

    Nothing is assumed of what arrives but that it parsed as RTP and has at
    most 1500 bytes: [FlexfecReceiver] never leaves a buffer and never trips
    over one of its checks. Longer media packets are not refused, and one that
    is used to rebuild another runs into a check of the decoder. *)
From S2P Require Import Prelude.
From S2P Require Import RtpFecCodec.
From S2P Require Import RtpFecAlgebra.
From S2P Require Import FlexfecHeader.
From S2P Require Import RtpFecDecoder.
From S2P Require Import RtpFecSafe.
From S2P Require Import ExtensionMap.
From S2P Require Import RtpPacket.
From S2P Require Import RtpPacketWire.
From S2P Require Import RtpPacketBuild.
From S2P Require Import RtpPacketCalls.
From S2P Require Import RedPackets.
From S2P Require Import UlpfecReceiver.
From S2P Require Import UlpfecReceiverSafe.
From S2P Require Import FlexfecReceiver.
From S2P Require Import FlexfecReceiverSpec.
From stdpp Require Import base list list_numbers numbers option tactics.
From Stdlib Require Import ZArith Lia.

#[local] Open Scope Z_scope.

Section Receiver.
Context `{CheckMode} `{FecHeaderReader} `{!ReaderSafe} (fresh : nat -> list Z) (Hfresh : fresh_ok fresh) (ssrc media_ssrc : Z).

Record flexfec_sane (this : FlexfecReceiver) : Prop := {
  fxs_ssrc : fxr_ssrc_ this = ssrc /\ fxr_media_ssrc_ this = media_ssrc;
  fxs_decoder : decoder_sane ssrc media_ssrc (erasure_code_ this) (fxr_recovered_packets_ this);
  fxs_bound : Z.of_nat (length (fxr_recovered_packets_ this)) <= reader_MaxMediaPackets
}.

(** What comes in: a packet that has been parsed, no longer than 1500 bytes. *)
Definition arrival_ok (packet : RtpPacketReceived) : Prop := well_parsed (rx packet) /\ zlen (cow_mem (buffer_ (rx packet))) <= 1500.

Lemma copied p : well_parsed p -> copy_packet fresh p = p.
Proof.
  intros [_ _ Hs _]. destruct p as [f m [mem n]]. unfold copy_packet, with_buffer, Copy, contents. cbn in Hs |- *. subst n.
  rewrite Nat2Z.id, take_ge, Nat.sub_diag by done. destruct (Hfresh 0%nat) as [Hl _]. by destruct (fresh 0); rewrite ?app_nil_r.
Qed.

Lemma AddReceivedPacket_safe this packet :
  flexfec_sane this -> arrival_ok packet ->
  exists this' res, AddReceivedPacket fresh this packet = Ok (this', res) /\ flexfec_sane this' /\
    forall r, res = Some r -> map_ok (red_extensions r) /\ received_sane ssrc media_ssrc (red_packet r).
Proof.
  intros Hok [Hp Hsz]. pose proof Hp as [Hm Hb Hs Hf]. pose proof Hf as [_ _ _ _ Hh Hpay Hpad Htot _ _].
  unfold AddReceivedPacket, packet_size, headers_size, payload_size, padding_size, kRtpHeaderSize, kFixedHeaderSize in *. cbv zeta.
  rewrite RTC_DCHECK_Ok, bind_Ok by (apply Z.leb_le; lia). pose proof (fxs_ssrc _ Hok) as [E1 E2].
  assert (Hsame : forall c, flexfec_sane (mkFlexReceiver (fxr_ssrc_ this) (fxr_media_ssrc_ this) (erasure_code_ this) (fxr_recovered_packets_ this) c))
    by (intros c; destruct Hok; by split).
  destruct (Z.eqb_spec (Ssrc (rx packet)) (fxr_ssrc_ this)) as [Es |].
  - destruct (_ <? _); [ by eexists _, None |].
    assert (Hall : Buffer (rx packet) = cow_mem (buffer_ (rx packet))) by (unfold Buffer, contents; rewrite Hs, Nat2Z.id, take_ge by done; done).
    rewrite Hall. destruct (slice_safe (length (cow_mem (buffer_ (rx packet)))) (cow_mem (buffer_ (rx packet)))
      (payload_offset_ (fields (rx packet))) (payload_size_ (fields (rx packet)))) as (l & -> & Hl); [ done | lia | lia | lia |].
    rewrite bind_Ok. eexists _, _. split; [ done |]. split; [ apply Hsame |]. intros r [= <-]. split; [ done |].
    unfold received_sane. cbn. split; [ congruence | apply Hl ].
  - destruct (Z.eqb_spec (Ssrc (rx packet)) (fxr_media_ssrc_ this)) as [Es |]; cbn [negb]; [| by eexists _, None ].
    rewrite (copied _ Hp). destruct (zero_mutable_safe _ Hp) as (z & -> & Hzb & Hzl). rewrite bind_Ok.
    eexists _, _. split; [ done |]. split; [ apply Hsame |]. intros r [= <-]. split; [ done |].
    unfold received_sane. cbn. split; [ congruence |]. split; [ done | lia ].
Qed.

Lemma return_recovered_safe m rec : map_ok m -> Forall (rc_sane media_ssrc) rec ->
  exists rec' n calls, return_recovered fresh m rec = Ok (rec', n, calls) /\ Forall (rc_sane media_ssrc) rec' /\
    length rec' = length rec /\ Forall call_sane calls.
Proof.
  intros Hm. induction 1 as [| r rec Hr _ (rec' & n & calls & E & Hrec & Hl & Hc) ]; cbn [return_recovered]; [ by exists [], 0, [] |].
  destruct (returned r).
  { rewrite E, bind_Ok. exists (r :: rec'), n, calls. split_and!; [ done | by constructor | cbn; congruence | done ]. }
  pose proof Hr as [Hs [Hb Hlen]]. rewrite RTC_CHECK_Ok, bind_Ok by (apply Z.leb_le; unfold kRtpHeaderSize; lia).
  destruct (parse_any fresh Hfresh m (rc_pkt r) Hm Hb) as (p0 & q & b & -> & Ep & Hq).
  rewrite bind_Ok, Ep, bind_Ok, E, bind_Ok. eexists _, _, _. split; [ done |].
  split_and!; [ constructor; [ by split | done ] | cbn; congruence |]. destruct b; [| done ]. constructor; [| done ].
  destruct (Hq eq_refl) as [Hwp Hbuf]. split; [ done |]. cbn [rx]. by rewrite Hbuf.
Qed.

Lemma OnRtpPacket_safe this packet :
  flexfec_sane this -> arrival_ok packet ->
  exists this' calls, OnRtpPacket fresh this packet = Ok (this', calls) /\ flexfec_sane this' /\ Forall call_sane calls.
Proof.
  intros Hok Hp. unfold OnRtpPacket. destruct (recovered_ packet); [ by exists this, [] |].
  destruct (AddReceivedPacket_safe this packet Hok Hp) as (this1 & res & -> & Hok1 & Hres). rewrite bind_Ok.
  destruct res as [r |]; [| by exists this1, [] ]. destruct (Hres r eq_refl) as [Hm Hr]. destruct Hok1 as [K1 K2 K3]. unfold ProcessReceivedPacket.
  destruct (DecodeFec_safe ssrc media_ssrc _ _ (red_packet r) K2 Hr) as (d & rec & n & -> & Hd & Hbnd). rewrite bind_Ok.
  destruct (n =? 0); [ eexists _, []; split; [ done |]; split; [ by split | constructor ] |].
  destruct (return_recovered_safe _ _ Hm (ds_recovered _ _ _ _ Hd)) as (rec' & k & calls & -> & Hrec & Hl & Hc). rewrite bind_Ok.
  eexists _, calls. split; [ done |]. split; [| done ]. split; cbn; [ done | destruct Hd; by split | by rewrite Hl ].
Qed.

Lemma on_packets_safe packets : Forall arrival_ok packets -> forall this,
  flexfec_sane this -> exists this' calls, on_packets fresh this packets = Ok (this', calls) /\ flexfec_sane this' /\ Forall call_sane calls.
Proof.
  induction 1 as [| p ps Hp _ IH ]; intros this Hok; cbn [on_packets]; [ by exists this, [] |].
  destruct (OnRtpPacket_safe this p Hok Hp) as (this1 & calls & -> & Hok1 & Hc). rewrite bind_Ok.
  destruct (IH this1 Hok1) as (this2 & more & -> & Hok2 & Hmore). rewrite bind_Ok. eexists _, _. split; [ done |]. split; [ done |]. by apply Forall_app_2.
Qed.

Lemma new_flexfec_sane : flexfec_sane (FlexfecReceiver_new ssrc media_ssrc).
Proof. pose proof tracked_nonneg. split; cbn; [ done | apply new_decoder_sane | lia ]. Qed.

End Receiver.

(** ** Theorems *)

(** C4. The FlexFEC receiver survives any input of packets of up to 1500 bytes:
    whatever media and FlexFEC packets arrive, with any headers and in any
    number, it stays inside its buffers and passes its own checks; it tracks no
    more FEC and media packets than its limits, and everything it hands to its
    callback is an RTP packet of at most 1500 bytes whose fields, extensions
    included, lie inside its bytes. *)
Theorem flexfec_receiver_survives `{CheckMode} fresh ssrc media_ssrc packets :
  fresh_ok fresh -> Forall (fun p => off_the_network fresh p /\ zlen (Buffer (rx p)) <= 1500) packets ->
  exists this calls, @on_packets _ Flexfec03.Flexfec03HeaderReader fresh (FlexfecReceiver_new ssrc media_ssrc) packets = Ok (this, calls) /\
    Z.of_nat (length (received_fec_packets_ (erasure_code_ this))) <= Flexfec03.kMaxFecPackets /\
    Z.of_nat (length (fxr_recovered_packets_ this)) <= Flexfec03.kMaxTrackedMediaPackets /\
    Forall (fun c => fields_in (zlen (Buffer (rx c))) (fields (rx c)) /\ zlen (Buffer (rx c)) <= 1500) calls.
Proof.
  intros Hfresh Hall. set (reader := Flexfec03.Flexfec03HeaderReader).
  assert (Hbuf : forall p, well_parsed p -> Buffer p = cow_mem (buffer_ p))
    by (intros p Hp; unfold Buffer, contents; rewrite (wp_size _ Hp), Nat2Z.id, take_ge by done; done).
  destruct (on_packets_safe fresh Hfresh ssrc media_ssrc packets) with (this := FlexfecReceiver_new ssrc media_ssrc) as (this & calls & Hrun & Hok & Hc);
    [ | apply new_flexfec_sane |].
  { eapply list.Forall_impl; [ exact Hall |]. intros p [Hp Hl]. apply off_the_network_parsed in Hp; [| done ]. split; [ done |]. by rewrite <- Hbuf. }
  exists this, calls. split; [ exact Hrun |]. split; [ exact (ds_capacity _ _ _ _ (fxs_decoder _ _ _ Hok)) |].
  split; [ exact (fxs_bound _ _ _ Hok) |]. eapply list.Forall_impl; [ exact Hc |]. intros c [Hp Hl]. rewrite (Hbuf _ Hp) in *. split; [ apply Hp | lia ].
Qed.

(** A FlexFEC packet of stream 9 that claims to protect packets 0 and 1 of
    stream 7. *)
Definition flexfec_bytes : list Z := [0; 0; 0; 0; 0; 0; 0; 0; 1; 0; 0; 0; 0; 0; 0; 7; 0; 0; 224; 0; 1].
Definition hostile_flexfec : list Z := [128; 98; 0; 9; 0; 0; 0; 0; 0; 0; 0; 9] ++ flexfec_bytes.

Lemma flexfec_bytes_ok : Forall is_byte flexfec_bytes.
Proof. repeat (constructor; [ unfold is_byte; lia |]). constructor. Qed.

(** A packet of stream 7 with number 0. *)
Definition oversized (payload : list Z) : Pkt := mkPkt false 96 0 0 7 [] false [] payload 0.

Lemma oversized_ok payload : Forall is_byte payload -> pkt_ok (oversized payload).
Proof. intros Hp. split; cbn; try done; try lia; try (split; [ lia | constructor ]); constructor. Qed.

(** Rebuilding with a packet of more than 1500 bytes. *)
Lemma oversized_rebuild (w d : list Z) :
  1500 < zlen w < 2 ^ 32 -> (12 <= length d)%nat -> forall rest seq s,
  @xor_received true (mkProtected 7 0 (Some w) :: rest) d seq s = Fail DcheckFailed.
Proof.
  intros Hw Hd rest seq s. cbn [xor_received pp_pkt].
  assert (Hsplit : exists h r, d = h ++ r /\ length h = 8%nat) by (exists (take 8 d), (drop 8 d); split; [ by rewrite take_drop | rewrite length_take; lia ]).
  destruct Hsplit as (h & r & -> & Hh). rewrite XorHeaders_Ok, bind_Ok by lia. unfold XorPayloads_upstream, kRtpHeaderSize, IP_PACKET_SIZE.
  rewrite !(u64_id (_ - _)) by lia. rewrite !u64_id by lia.
  rewrite (RTC_DCHECK_Ok (12 + (zlen w - 12) <=? zlen w)), bind_Ok by (apply Z.leb_le; lia).
  unfold RTC_DCHECK. cbn [RTC_DCHECK_IS_ON]. rewrite (proj2 (Z.leb_gt _ _)) by lia. done.
Qed.

(** The media packet is kept, ... *)
Lemma first_decoded w :
  @DecodeFec true (@Flexfec03.Flexfec03HeaderReader true) (mkDecoder 9 7 []) (mkReceived 7 0 false w) [] =
    Ok (mkDecoder 9 7 [], [mkRecovered false true 7 0 w], 0).
Proof. vm_compute. reflexivity. Qed.

(** ... and the FlexFEC packet makes the decoder use it. *)
Lemma second_decoded w :
  1500 < zlen w < 2 ^ 32 ->
  @DecodeFec true (@Flexfec03.Flexfec03HeaderReader true) (mkDecoder 9 7 []) (mkReceived 9 9 true flexfec_bytes) [mkRecovered false true 7 0 w]
    = Fail DcheckFailed.
Proof.
  intros Hw.
  assert (Hins : exists f, @InsertPacket true (@Flexfec03.Flexfec03HeaderReader true) (mkDecoder 9 7 []) (mkReceived 9 9 true flexfec_bytes)
      [mkRecovered false true 7 0 w] = Ok (mkDecoder 9 7 [f], [mkRecovered false true 7 0 w]) /\
    protected_packets f = [mkProtected 7 0 (Some w); mkProtected 7 1 None] /\ length (rf_pkt f) = 21%nat /\
    fh_size (rf_header f) = 20 /\ fh_protection_length (rf_header f) = 1)
    by (eexists; split; [ vm_compute; reflexivity | by vm_compute ]).
  destruct Hins as (f & Hins & Hps & Hl & Hh & Hp). unfold DecodeFec.
  match goal with |- context [Z.of_nat _ =? ?m] => change (Z.of_nat _ =? m) with false end. cbv iota. rewrite Hins, bind_Ok.
  unfold AttemptRecovery. cbn [received_fec_packets_ length attempt_recovery]. rewrite Hps. cbn [NumCoveredPacketsMissing pp_pkt].
  unfold RecoverPacket, StartPacketRecovery. rewrite Hl, Hh, Hp.
  change ((if 1 <? 0 + 1 then 0 + 1 else 0 + 1) =? 1) with true. change (Z.of_nat 21 <? 20 + 1) with false.
  change ((IP_PACKET_SIZE - kRtpHeaderSize) `min` (IP_PACKET_SIZE - 20) <? 1) with false. cbv iota. unfold kRtpHeaderSize.
  rewrite (slice_Ok (rf_pkt f) 0 12), (slice_Ok (rf_pkt f) 20 1), !bind_Ok by lia. rewrite oversized_rebuild; [ done | done |].
  rewrite length_app, length_take, length_drop, Hl. cbn. lia.
Qed.

(** C40. The FlexFEC receiver does not refuse media packets of more than 1500
    bytes, as the ULPFEC receiver does: in builds with [RTC_DCHECK] such a packet
    and a FlexFEC packet that claims to protect it and one that is missing end
    the program, whatever the payload of the packet. *)
Theorem flexfec_oversized_aborts fresh m payload :
  fresh_ok fresh -> map_ok m -> 1488 < zlen payload < 2 ^ 31 -> Forall is_byte payload ->
  @on_packets true (@Flexfec03.Flexfec03HeaderReader true) fresh (FlexfecReceiver_new 9 7)
    [mkRx (packet_with m (oversized payload)) false; mkRx (packet_with m (mkPkt false 98 9 0 9 [] false [] flexfec_bytes 0)) false]
    = Fail DcheckFailed.
Proof.
  intros Hfresh Hm Hlen Hb. set (v := oversized payload). set (u := mkPkt false 98 9 0 9 [] false [] flexfec_bytes 0).
  assert (Hu : pkt_ok u).
  { split; try done; cbn; try lia; [ constructor | exact flexfec_bytes_ok ]. }
  assert (Hw : zlen (wire v) = 12 + zlen payload) by (rewrite length_wire, length_header by done; cbn; lia).
  cbn [on_packets]. unfold OnRtpPacket. cbn [recovered_].
  destruct (@AddReceivedPacket_Ok true fresh Hfresh 9 7 ltac:(lia) m Hm (FlexfecReceiver_new 9 7) (mkRx (packet_with m v) false) _ v eq_refl eq_refl
    (packet_with_built m v (oversized_ok payload Hb)) eq_refl) as (c & ->). rewrite bind_Ok.
  assert (Ev : decoded_as 9 7 m v = Some (mkReceived 7 0 false (wire v))) by reflexivity. rewrite Ev. cbn [fmap option_fmap option_map].
  unfold ProcessReceivedPacket. cbn [red_packet erasure_code_ fxr_recovered_packets_ FlexfecReceiver_new]. rewrite first_decoded, bind_Ok.
  change (0 =? 0) with true. cbv iota. rewrite bind_Ok.
  match goal with |- context [AddReceivedPacket fresh ?this _] =>
    destruct (@AddReceivedPacket_Ok true fresh Hfresh 9 7 ltac:(lia) m Hm this (mkRx (packet_with m u) false) _ u eq_refl eq_refl (packet_with_built m u Hu) eq_refl)
      as (c2 & ->) end.
  rewrite bind_Ok. assert (Eu : decoded_as 9 7 m u = Some (mkReceived 9 9 true flexfec_bytes)) by reflexivity. rewrite Eu.
  cbn [fmap option_fmap option_map red_packet erasure_code_ fxr_recovered_packets_].
  rewrite second_decoded by lia. done.
Qed.

Lemma flexfec_receiver_survives_witness :
  exists this calls, @on_packets true (@Flexfec03.Flexfec03HeaderReader true) zero_fresh (FlexfecReceiver_new 9 7)
      [receive_bytes hostile_flexfec; receive_bytes hostile_media] = Ok (this, calls) /\
    Z.of_nat (length (received_fec_packets_ (erasure_code_ this))) <= Flexfec03.kMaxFecPackets /\
    Z.of_nat (length (fxr_recovered_packets_ this)) <= Flexfec03.kMaxTrackedMediaPackets /\
    Forall (fun c => fields_in (zlen (Buffer (rx c))) (fields (rx c)) /\ zlen (Buffer (rx c)) <= 1500) calls.
Proof.
  apply (@flexfec_receiver_survives true zero_fresh 9 7); [ exact zero_fresh_ok |].
  repeat constructor; try (vm_compute; discriminate); eexists sample_map, _, _; split; try exact sample_map_ok.
  - split; [| split; [ vm_compute; reflexivity | instantiate (1 := hostile_flexfec); vm_compute; reflexivity ] ]. repeat (constructor; [ unfold is_byte; lia |]). constructor.
  - split; [| split; [ vm_compute; reflexivity | instantiate (1 := hostile_media); vm_compute; reflexivity ] ]. repeat (constructor; [ unfold is_byte; lia |]). constructor.
Defined.

Lemma flexfec_oversized_aborts_witness :
  @on_packets true (@Flexfec03.Flexfec03HeaderReader true) zero_fresh (FlexfecReceiver_new 9 7)
    [mkRx (packet_with sample_map (oversized (replicate 1489 0))) false;
     mkRx (packet_with sample_map (mkPkt false 98 9 0 9 [] false [] flexfec_bytes 0)) false] = Fail DcheckFailed.
Proof.
  apply (flexfec_oversized_aborts zero_fresh sample_map (replicate 1489 0) zero_fresh_ok sample_map_ok).
  - rewrite length_replicate. lia.
  - apply Forall_replicate. unfold is_byte. lia.
Defined.

(** One byte less, or a build without [RTC_DCHECK], and the receiver goes on. *)
Example flexfec_oversized_boundary :
  let run mode n := @on_packets mode (@Flexfec03.Flexfec03HeaderReader mode) zero_fresh (FlexfecReceiver_new 9 7)
    [mkRx (packet_with sample_map (oversized (replicate n 0))) false;
     mkRx (packet_with sample_map (mkPkt false 98 9 0 9 [] false [] flexfec_bytes 0)) false] in
  (match run true 1488%nat with Ok _ => true | Fail _ => false end) = true /\
  (match run false 1489%nat with Ok _ => true | Fail _ => false end) = true.
Proof. vm_compute. done. Qed.
