(* ===== verification/FlexfecEndToEnd.v ===== *)
(** * FlexFEC from sender to receiver

    One block of video packets through the egress with the FlexFEC sender, a
    network that loses, repeats and reorders packets of both streams, and the
    FlexFEC receiver. *)
From S2P Require Import Prelude.
From S2P Require Import Ascending.
From S2P Require Import MaskTable.
From S2P Require Import UnequalProtection.
From S2P Require Import RtpFecCodec.
From S2P Require Import RtpFecAlgebra.
From S2P Require Import FlexfecHeader.
From S2P Require Import RtpFecDecoder.
From S2P Require Import RtpFecSound.
From S2P Require Import RtpFecComplete.
From S2P Require Import RtpFecEncoder.
From S2P Require Import RtpFecColumns.
From S2P Require Import RtpFecBuffers.
From S2P Require Import RtpFecBlocks.
From S2P Require Import RtpFecEndToEnd.
From S2P Require Import ExtensionMap.
From S2P Require Import RtpPacket.
From S2P Require Import RtpPacketWire.
From S2P Require Import RtpPacketBuild.
From S2P Require Import RtpPacketExt.
From S2P Require Import RtpPacketOps.
From S2P Require Import RtpPacketCalls.
From S2P Require Import RedPackets.
From S2P Require Import UlpfecGenerator.
From S2P Require Import UlpfecGeneratorSpec.
From S2P Require Import SenderEgress.
From S2P Require Import EgressSpec.
From S2P Require Import UlpfecReceiver.
From S2P Require Import UlpfecReceiverSpec.
From S2P Require Import UlpfecEndToEnd.
From S2P Require Import FlexfecSender.
From S2P Require Import FlexfecSenderSpec.
From S2P Require Import FlexfecReceiver.
From S2P Require Import FlexfecReceiverSpec.
From stdpp Require Import base list list_numbers numbers option sorting strings tactics.
From Stdlib Require Import ZArith Lia Sorted.

#[local] Open Scope Z_scope.

#[local] Existing Instance Flexfec03.Flexfec03HeaderWriter.
#[local] Existing Instance Flexfec03.Flexfec03HeaderReader.

(** ** Blocks that can be protected *)

(** Packets of one source in sequence, close enough together. *)
Record flexfec_block_ok (media_ssrc : Z) (ps : list Pkt) (params : FecProtectionParams) : Prop := {
  fb_block : media_block media_ssrc ps;
  fb_size : zlen ps <= 48;
  fb_width : width (map wire ps) <= 48;
  fb_rate : 0 < fec_rate params <= 255
}.

(** A FlexFEC header has at least 20 bytes, as the receiver expects. *)
Lemma flexfec_header_least `{CheckMode} row h : mask_ok row -> header_size row h -> (20 <= h)%nat.
Proof.
  intros Hrow Hh. rewrite (header_size_unique row h _ Hh (Flexfec03.Flexfec_header_size row Hrow)).
  destruct (Flexfec03.sent_size_cases row Hrow). lia.
Qed.

(** ** The network *)

Section Network.
Context (m : ExtensionMap) (ssrc media_ssrc : Z) (ps : list Pkt) (out : list RtpPacketToSend).

(** Packet [q] arrives: a stamped copy of a packet of the block or of a FlexFEC
    packet, or a packet of another stream, or one recovered by other means; [o]
    is what of it matters to the decoder. *)
Definition flexfec_arrives_from (q : RtpPacketReceived) (o : option ReceivedPacket) : Prop :=
  extensions_ (rx q) = m /\ exists k w, holds k (rx q) w /\
    ((recovered_ q = false /\ exists v, v ∈ ps /\ stamped m v w /\ o = Some (mkReceived media_ssrc (v_seq v) false (wire v))) \/
     (recovered_ q = false /\ exists t k' u, t ∈ out /\ holds k' (rtp t) u /\ stamped m u w /\
        o = Some (mkReceived ssrc (v_seq u) true (v_payload u))) \/
     (o = None /\ (recovered_ q = true \/ v_ssrc w <> ssrc /\ v_ssrc w <> media_ssrc))).
End Network.

(** ** A block that goes through *)

Section Chain.
Context `{CheckMode} (this : FlexfecSender) (media_ssrc : Z) (Hmedia : 0 <= media_ssrc < 2 ^ 32) (Hdiff : fx_ssrc_ this <> media_ssrc).
Context (ps : list Pkt) (params : FecProtectionParams) (Hps : ps <> []) (Hch : flexfec_block_ok media_ssrc ps params).

Let ssrc := fx_ssrc_ this.
Let media := map wire ps.
Let rate := fec_rate params.
Let fbase := seq_num_ this.
Let cov := block_cov media rate 0 fbase false (fec_mask_type params).
Let sent := fun x => x ∈ media.

Lemma flexfec_chain_session : session_ok ssrc media_ssrc media rate 0 fbase.
Proof.
  destruct Hch as [Hb Hn Hw Hr]. destruct (media_block_ok media_ssrc ps rate Hb Hps) as [Hblock Hsrc]; [ change writer_MaxMediaPackets with 48; lia | unfold rate; lia |].
  split; try done; unfold rate; try lia.
Qed.

(** The FEC packets of the block. *)
Lemma flexfec_chain_fecs fec garbage ret fecs fec' n :
  buffers_ok fec -> buffer 288 garbage ->
  EncodeFec_upstream fec media rate 0 false (fec_mask_type params) garbage = Ok (ret, fecs, fec') ->
  Forall (fun v => zlen (wire v) <= n) ps ->
  zlen fecs = fec_count (zlen ps) rate /\
  (forall r, delivered ssrc media_ssrc media fbase fecs r -> of_block ssrc media_ssrc sent cov fbase (block_fecs media rate) r) /\
  Forall (fun f => 20 <= zlen f <= n + 20) fecs.
Proof.
  intros Hfec Hg Hrun Hn. pose proof flexfec_chain_session as Hses. pose proof (Flexfec03.FlexfecLaws ssrc media_ssrc Hmedia) as Hlaws.
  destruct (session_encoded ssrc media_ssrc media rate 0 fbase false (fec_mask_type params) Hses fec garbage Hfec Hg)
    as (fecs' & fec2 & Hrun' & Hlen & _ & Hdel & _). assert (fecs' = fecs) as -> by congruence. split_and!; [ | exact Hdel |].
  { rewrite Hlen. unfold block_fecs, media. by rewrite length_map. }
  assert (Hn0 : 0 <= n) by (destruct ps as [| v ? ]; [ done |]; apply Forall_inv in Hn; lia).
  eapply list.Forall_impl; [ eapply (session_sizes ssrc media_ssrc media rate 0 fbase false (fec_mask_type params) Hses fec garbage ret fecs fec' 20 (Z.to_nat n));
    [ done | done | done | apply flexfec_header_least |] |].
  - unfold media. apply Forall_map. eapply list.Forall_impl; [ exact Hn |]. intros v Hv. cbn beta in Hv. lia.
  - intros f (_ & _ & Hl). cbn beta. lia.
Qed.

Context (m : ExtensionMap) (Hmap : map_ok m) (Hzero : Forall (fun v => zero_mutable m v = v) ps).

(** What arrives is what the receiver expects. *)
Lemma flexfec_chain_arrives out fecs q o :
  sends_flexfec this out fecs ->
  (forall r, delivered ssrc media_ssrc media fbase fecs r -> of_block ssrc media_ssrc sent cov fbase (block_fecs media rate) r) ->
  Forall (fun f => 20 <= zlen f) fecs -> flexfec_arrives_from m ssrc media_ssrc ps out q o ->
  arrives_as_flexfec ssrc media_ssrc m q o /\ of_block_if ssrc media_ssrc sent fbase (block_fecs media rate) cov o.
Proof.
  intros [Hlen Hsends] Hdel Hlong (Em & k & w & Hq & Hcase). destruct Hch as [[Bok _ Bsrc _] _ _ _].
  destruct Hcase as [(Hrec & v & Hv & Hst & ->) | [(Hrec & t & k' & u & (i & Ht)%list_elem_of_lookup_1 & Hu & Hst & ->) | (-> & Hno)]].
  - destruct (stamped_same _ _ _ Hst) as (_ & Es & Ess & _). pose proof (proj1 (list.Forall_forall _ _) Bsrc v Hv) as Hvs.
    pose proof (proj1 (list.Forall_forall _ _) Bok v Hv) as Hvok. split.
    + split; [ done |]. exists k, w. split; [ done |]. rewrite Hrec. unfold decoded_as. rewrite Ess, Hvs, (proj2 (Z.eqb_neq _ _)), Z.eqb_refl by done.
      destruct Hst as [_ ->]. rewrite (proj1 (list.Forall_forall _ _) Hzero v Hv). by rewrite Es.
    + apply Hdel. unfold delivered. cbn [rp_is_fec]. exists (wire v). split; [ by apply list_elem_of_fmap_2 |]. by rewrite wire_seq.
  - destruct (lookup_lt_is_Some_2 fecs i) as [fec Hfec]; [ rewrite <- Hlen; by eapply lookup_lt_Some |].
    destruct (Hsends i t fec Ht Hfec) as [(k2 & Hk2) _ _]. destruct (holds_same _ _ _ _ _ Hk2 Hu) as (Ep & Es & Ess & _ & _).
    destruct (stamped_same _ _ _ Hst) as (Ep' & Es' & Ess' & _). pose proof (Forall_lookup_1 _ _ _ _ Hlong Hfec) as Hl. cbn beta in Hl.
    cbn [flexfec_pkt v_payload v_seq v_ssrc] in Ep, Es, Ess. rewrite Ep, Es. split.
    + split; [ done |]. exists k, w. split; [ done |]. rewrite Hrec. unfold decoded_as. rewrite Ess', Ess, Z.eqb_refl, Ep', Ep, Es', Es.
      by rewrite (proj2 (Z.ltb_ge _ _)).
    + apply Hdel. unfold delivered. cbn [rp_is_fec]. by exists i, fec.
  - split; [| done ]. split; [ done |]. exists k, w. split; [ done |]. destruct (recovered_ q); [ done |].
    destruct Hno as [? | [H1 H2]]; [ done |]. unfold decoded_as. by rewrite !(proj2 (Z.eqb_neq _ _)).
Qed.

(** Everything that arrives, through the receiver. *)
Lemma flexfec_chain_received fresh out fecs qs os :
  fresh_ok fresh -> sends_flexfec this out fecs ->
  (forall r, delivered ssrc media_ssrc media fbase fecs r -> of_block ssrc media_ssrc sent cov fbase (block_fecs media rate) r) ->
  Forall (fun f => 20 <= zlen f) fecs -> Forall2 (flexfec_arrives_from m ssrc media_ssrc ps out) qs os ->
  exists rcv calls, on_packets fresh (FlexfecReceiver_new ssrc media_ssrc) qs = Ok (rcv, calls) /\
    (forall bytes, derivable cov (omap id os) bytes <-> received_media (omap id os) bytes \/ handed m bytes calls) /\
    (forall c, c ∈ calls -> recovered_ c = true /\ exists v, v ∈ ps /\ hands m c (wire v)).
Proof.
  intros Hfresh Hsent Hdel Hlong Hqs. pose proof (session_window ssrc media_ssrc _ _ _ _ flexfec_chain_session) as Hwin.
  assert (Hwf : forall bytes, sent bytes -> exists v, pkt_ok v /\ bytes = wire v /\ zero_mutable m v = v).
  { intros bytes (v & -> & Hv)%list_elem_of_fmap. exists v. destruct Hch as [[Bok _ _ _] _ _ _].
    split_and!; [ exact (proj1 (list.Forall_forall _ _) Bok v Hv) | done | exact (proj1 (list.Forall_forall _ _) Hzero v Hv) ]. }
  assert (Harr : Forall2 (arrives_as_flexfec ssrc media_ssrc m) qs os /\
    Forall (of_block_if ssrc media_ssrc sent fbase (block_fecs media rate) cov) os).
  { induction Hqs as [| q o qs os Hq _ [IH1 IH2] ]; [ done |].
    destruct (flexfec_chain_arrives out fecs q o Hsent Hdel Hlong Hq). by split; constructor. }
  destruct Harr as [Harr Hos].
  destruct (on_packets_Ok fresh Hfresh ssrc media_ssrc Hdiff m Hmap sent _ _ _ _ cov Hwin Hwf qs os Harr _ [] [] Hos
    (flexfec_serves_new ssrc media_ssrc m sent _ _ _ _ cov Hwin)) as (rcv & calls & Hrecv & Hsv).
  rewrite app_nil_r in Hsv. cbn [app] in Hsv. exists rcv, calls. split_and!; [ done | |].
  - intros bytes. assert (Hrev : forall r, r ∈ rev (omap id os) <-> r ∈ omap id os) by (intros r; by rewrite !list_elem_of_In, <- in_rev).
    transitivity (derivable cov (rev (omap id os)) bytes); [ split; apply derivable_mono; intros r; apply Hrev |].
    rewrite (flexfec_exact ssrc media_ssrc m Hmap sent _ _ _ _ cov Hwin rcv calls _ bytes Hsv). unfold received_media.
    split; (intros [(r & Hr & Hrest) | ?]; [ left; exists r; split; [ by apply Hrev | done ] | by right ]).
  - intros c Hc. destruct (flexfec_serves_sent ssrc media_ssrc m sent _ _ _ _ cov Hwin rcv calls _ c Hsv Hc) as (Hrec & bytes & Hb & (v & -> & Hv)%list_elem_of_fmap).
    split; [ done |]. by exists v.
Qed.

End Chain.

(** ** Theorems *)



(** ** A block of two packets *)

#[local] Instance checks_on : CheckMode := true.

(** A sender with two extensions that fit in one byte, one that does not, the
    MID [a] and a sequence number about to wrap. *)
Definition demo_uris : list (Z * string) :=
  [(5, extension_uri kRtpExtensionTransportSequenceNumber); (3, extension_uri kRtpExtensionAbsoluteSendTime);
   (20, extension_uri kRtpExtensionTransmissionTimeOffset); (4, extension_uri kRtpExtensionMid)].
Definition demo_flexfec : outcome FlexfecSender :=
  this ← FlexfecSender_new 98 9 7 [97] demo_uris kFecOrPaddingExtensionSizes None 65535 1000 demo_buffers Z.of_nat Z.of_nat;
  Flexfec_SetProtectionParameters this demo_params demo_params.
Definition demo_pending : Blocker := with_pending demo_params demo_params new_blocker.
Definition demo_plain (v : Pkt) : RtpPacketToSend := mkToSend (packet_with sample_map v) MinusInfinity (Some kVideo) true false true false.
Definition demo_sends : list (RtpPacketToSend * list Z) := map (fun v => (demo_plain v, replicate 288 7)) video_block.

Lemma demo_params_ok : fec_params_ok demo_params.
Proof. split; cbn; lia. Qed.

Lemma demo_flexfec_Ok : exists this, demo_flexfec = Ok this /\ flexfec_at 7 this demo_pending /\ fx_ssrc_ this = 9 /\ seq_num_ this = 65535.
Proof.
  destruct (FlexfecSender_new_Ok 98 9 7 [97] demo_uris kFecOrPaddingExtensionSizes None 65535 1000 demo_buffers Z.of_nat Z.of_nat)
    as (this & Hnew & Hat & Es & Est & _); try (cbn; lia); [ repeat constructor; lia | repeat constructor; done | exact demo_buffers_ok |].
  destruct (Flexfec_SetProtectionParameters_Ok 7 this new_blocker demo_params demo_params demo_params_ok demo_params_ok Hat) as (g & Hset & Hat1).
  exists (with_generator g this). unfold demo_flexfec. rewrite Hnew, bind_Ok, Hset. injection Est as E1 E2. by split_and!.
Qed.

Lemma demo_pending_ok : blocker_ok demo_pending.
Proof. apply with_pending_ok; [ exact demo_params_ok.. |]. split; cbn; try done. Qed.

Lemma demo_sends_ok :
  Forall2 (fun tg vk => video_packet tg.1 vk.1 /\ is_key_frame_ tg.1 = vk.2 /\ buffer 288 tg.2) demo_sends (map (fun v => (v, false)) video_block).
Proof.
  assert (Hp : forall marker seq payload, 0 <= seq < 2 ^ 16 -> Forall is_byte payload ->
    video_packet (demo_plain (demo_video marker seq payload)) (demo_video marker seq payload)).
  { intros marker seq payload Hs Hp. split; [| done | done ]. exists (built_size (demo_video marker seq payload)).
    apply packet_with_built, (demo_video_ok marker seq payload 96); (done || lia). }
  repeat (constructor; [ split; [ apply Hp; [ lia | repeat constructor; lia ] | split; [ reflexivity | exact demo_garbage_ok ] ] |]). constructor.
Qed.

Lemma demo_flexfec_block : flexfec_block_ok 7 video_block demo_params.
Proof. destruct demo_chain as [H1 H2 H3 H4 _ _ _]. by split. Qed.



(** The first packet is lost, the second arrives with its send time filled in,
    then a packet of another stream and one FlexFEC packet. *)
Definition demo_flexfec_run : outcome (Z * list (bool * list Z)) :=
  this ← demo_flexfec;
  '(_, out) ← @protect_all true FlexfecSender (@FlexfecVideoFecGenerator true (@Flexfec03.Flexfec03HeaderWriter true) zero_fresh) zero_fresh
                (mkEgress (Some this) None) demo_sends;
  let arrived := mkRx (packet_with sample_map (demo_stamped (demo_video true 0 [4]))) false in
  let other := mkRx (packet_with sample_map (w_ssrc 8 (demo_video true 0 [4]))) false in
  let fec t := mkRx (IdentifyExtensions (rtp t) sample_map) false in
  '(rcv, calls) ← @on_packets true (@Flexfec03.Flexfec03HeaderReader true) zero_fresh (FlexfecReceiver_new 9 7)
                    ([arrived; other] ++ map fec (take 1 out));
  Ok (num_packets (fxr_counter_ rcv), map (fun c => (recovered_ c, Buffer (rx c))) calls).

Example demo_flexfec_recovers : demo_flexfec_run = Ok (2, [(true, wire (demo_video false 65535 [1; 2; 3]))]).
Proof. vm_compute. reflexivity. Qed.
